(* ===== verification/_CoqProject ===== *)
-Q . S2P
Prelude.v
Ids.v
Limits.v
Status.v
Checked.v
Authority.v
Model.v
Decision.v
Records.v
Selector.v
SortProps.v
GateProps.v
SelectorProps.v
SelectorTheorems.v
Bytes.v
Canonical.v
Wire.v
WireProps.v
WireTheorems.v
DocumentProps.v
Store.v
StoreProps.v
StateProps.v
SnapshotProps.v
LoadProps.v
TableProps.v
StoreTheorems.v
Fabric.v
Coordinator.v
FabricProps.v
DurableProps.v
FabricTheorems.v
DurableTheorems.v
FabricFindings.v
Platform.v
Net.v
Args.v
Tools.v
Protocol.v
ProtocolProps.v
ProtocolTheorems.v
TypedProps.v
TypedTheorems.v
PlatformTheorems.v
Server.v
ServerProps.v
ServerTheorems.v
Stopping.v
Client.v
ClientProps.v
ClientTheorems.v
Handshake.v
Remote.v
Ctl.v
CtlTheorems.v
Daemon.v
DaemonTheorems.v
Host.v
HostTheorems.v
Quickstart.v
ServerFindings.v
