(* ===== verification/Prelude.v ===== *)
(** * Path Failover Fabric: a verification library

    The program decides and records which alternate path replaces a failed
    incumbent.  A selector ranks the candidates of a supplied set and authorizes
    at most one; a coordinator owns the transition, binds it to an authority
    vector of generations, and completes it only on a verified effect; a store
    makes every step durable in a journal and a snapshot.  This library is a
    shallow embedding of that core, with the theorems that make it correct.

    ** The files

    - [Prelude]: record update, fixed-width integers, ordered map entries and
      enumerations, shared by everything else.
    - [Ids], [Limits], [Status], [Checked], [Authority], [Model], [Decision],
      [Records]: the data of the headers of the same names under
      [src/include/pff/] and the functions of [ids.cpp], [status.cpp],
      [authority.cpp], [model.cpp], [decision.cpp] and [records.cpp].
      Enumerations carry their underlying integers through the class [Enum].
    - [Selector] ([selector.cpp]): the merge sort with its comparison counter,
      the gates, the bounded scan and its conclusion.  [SortProps], [GateProps]
      and [SelectorProps] reduce it to a declarative reference;
      [SelectorTheorems] states what follows.
    - [Bytes] ([crc32c.cpp]), [Canonical] ([canonical.cpp]), [Wire]
      ([wire.cpp] and the digest of [decision.cpp]): bytes, the bounded writer
      and reader, and the document codecs.  [WireProps] gives every document one
      instance of the class [Wire], whose laws are the round trip and the
      uniqueness of encodings; [WireTheorems] collects them.
    - [Store] ([store.cpp]): journal framing, payloads, [apply_record], the
      snapshot, and [open], [load], [append], [write_snapshot] and [close].
      [StoreProps], [StateProps], [SnapshotProps] and [LoadProps] relate files to
      states ([DiskHolds], [Represents]); [StoreTheorems] states crash safety.
    - [Fabric] ([fabric.cpp]): the coordinator, one operation per public member
      function, in a state-and-error monad in which, as in the source, whatever
      was changed before a failure stays changed.  [Coordinator] is its abstract
      specification, a labelled transition system with its own invariants;
      [FabricProps] proves the refinement, [TableProps], [DurableProps] and
      [DurableTheorems] that what was acknowledged survives a crash, [TypedProps]
      and [TypedTheorems] that every value stays in the width of its type and
      every document is one the wire carries ([DocumentProps]);
      [FabricTheorems] and [FabricFindings] state the consequences and the places
      where the code contradicts its intent.
    - [Platform] ([platform.cpp]) and [Net] ([net.cpp]): the wrappers of system
      calls, as functions of what the kernel answers that also yield the calls
      made, so that descriptors can be followed; the mixing of the random
      identities; the send loop with [SIGPIPE].  [PlatformTheorems] relates the identities drawn
      to the coordinator that is opened with them.
    - [Protocol] ([protocol.cpp]): message types, the frame codec with its
      streaming decoder, and the payload codecs; [ProtocolProps] and
      [ProtocolTheorems].
    - [Server] ([server.cpp]): the session table, every session thread as steps
      between its blocking calls, the dispatch of every request and the accept
      loop.  [ServerProps] and [ServerTheorems] state what any schedule keeps,
      [Stopping] that a stopped service ends, [ServerFindings] what goes wrong.
    - [Client] ([client.cpp]): the handshake, the matching of answers to requests
      and every call.  [ClientProps] composes a client with a served session;
      [ClientTheorems], [Handshake] and [Remote] state that calling remotely is
      calling the coordinator.
    - [Args] ([apps/args.hpp]) and [Tools]: the command-line helpers and the
      rendering of what the programs print.  [Ctl] ([pffctl.cpp]), [Daemon]
      ([pffd.cpp]) and [Host] ([pff_host.cpp]) are the programs, as functions of
      their arguments, of the files and of what the platform does;
      [CtlTheorems], [DaemonTheorems] and [HostTheorems] compose them with the
      service, the client and the coordinator.  [Quickstart]
      ([examples/quickstart.cpp]) is the example, evaluated.

    ** Conventions

    A [w]-bit integer is a [Z]; wrap-around is written out ([wrap_u64]), and the
    predicates [is_u32], [is_u64], [is_i64] and the [_wf] predicates say which
    values the C++ types hold.  A [std::map] is a [gmap], traversed in key order
    by [ordered_entries].  Fallible functions return [Result] or a [Status]
    beside the state.  What the platform does (short writes, failed flushes,
    failed renames, failed opens) is an argument: the records [OpenIo], [LoadIo],
    [AppendIo] and [SnapshotIo] of [Store], and [Env] of [Fabric], which chooses
    one for every store call, so a theorem over all of them covers every failure
    pattern.  Loops over containers are structural; the passes of the sort and
    the replay of a journal carry fuel, which is the length of the data and is
    proved sufficient ([selector_sort_correct]; every record consumes at least
    its header, so [replay_records] with the file length as fuel reaches the
    end, as [append_atomic] and [torn_tail_recovered] show).

    ** What the theorems show

    - The selector: refinement of a reference, soundness and completeness of an
      authorization, definiteness of a proven refusal, independence of the
      order of the input, bounds of its documents, totality.
    - The encodings: round trip and uniqueness for all thirteen documents,
      byte-identical decision documents, detection of 32-bit bursts by the checksum.
    - The store: atomic append, torn-tail recovery, detection of damage,
      bounds of anything loaded, exact snapshots, safe compaction.
    - The coordinator: refinement of the abstract system, a single owner,
      commitment only with evidence, admissible grants, settled history,
      forward-only generations, restart, fencing, late completions.
    - Findings, as evaluated runs: identities reused after a restart, changes
      acknowledged without a record, two journal defects, a client that ends the
      service by leaving, threads beyond the limit of sessions.
    - The service: frames reassembled from any chunks, requests executed under
      the identity and the sequence of their session and at most once, the
      coordinator behind it reachable, the handshake, transparent remote calls,
      and termination after a stop, of the service or, by [SIGPIPE], the process.
    - The platform: identities present and in width, sends exact, descriptors
      held exactly while they are returned, arguments read back.
    - The programs: inspection that alters nothing and tells what the owner would
      find; remote commands that print what the coordinator did; a daemon that
      serves what it opened and stops; a worker killed half way through a
      promotion whose directory tells how far it got.

    ** The service as steps

    A session thread is a phase ([Server.Phase]) and a session; a step takes it
    from one blocking call to the next, with what the call delivered as its
    input, so an interleaving of threads is a sequence of steps ([serves]).  Each
    critical section on the session table or on the count of threads is a step of
    its own: [run_step] takes [run] from its accept over the section that tests the
    table and adds the object, the one that counts the thread and the start of the
    thread to the next accept, or through the sections that undo both;
    [leave_session] and [finish_session] are the two at the end of a session
    thread.  So the table and the count agree only up to the threads that are
    between two of them ([requests_at_most_once]), and threads may outnumber
    [max_sessions] for a while ([threads_exceed_sessions]).  The sections that only
    count statistics are part of the step around them.

    A reply is part of the step that makes it.  A send returns a status or, on a
    connection that is shut or gone, raises [SIGPIPE] ([Net.Sending]): the program
    neither ignores the signal nor suppresses it, so unless the process was started
    with it ignored, the process ends ([sv_killed]).  A send that fails puts nothing
    out and ends the session.  The status reply asks the coordinator several
    questions; between them no other thread is interleaved.

    After a stop every thread is in a receive, which a socket that was shut or a
    peer makes return, or on its way out; [Stopping] bounds the steps left by nine
    of the accept loop and of a thread being started, and for every thread alive
    one per byte that its buffer can hold and five more.  [pop_frames]
    and [pop_step] carry as fuel the number of bytes buffered, since every frame
    popped consumes at least its header; [send_loop] the length of the buffer,
    since every accepted call advances ([sockets_exact]).

    ** Not modelled

    What the kernel does behind a system call is a parameter.  The files are what a
    crash of the process leaves; what a power failure leaves of unsynchronised
    renames and writes is not modelled, so the outcome of [sync_directory], which
    the code ignores, changes nothing.  A client killed by [SIGPIPE] is a call
    without a result.  The mutex of the
    coordinator is not modelled: every public operation holds it throughout, so
    operations are atomic.  Allocation failure ([std::bad_alloc]) and the Windows
    variants of the platform functions are not modelled.  The status query is a
    call of the client and a request of the service, but not part of
    [remote_decisions_transparent]: its answer contains counters of the service
    that change with every request.  Of the programs, the handlers of
    uncaught exceptions are left out.  The consumer example and the tests are
    further callers of what is modelled. *)

From Stdlib Require Export ZArith Lia.
From stdpp Require Export base tactics option list gmap sorting strings numbers relations.



Create HintDb pff.
Create Rewrite HintDb pff.

Open Scope Z_scope.

(** ** Functional record update

    [r <| field := v |>] rebuilds a record with one field replaced.  A record
    type opts in with an [Eta] instance, which lists its fields once; the
    per-field updaters are then synthesised on demand. *)

Class Eta (R : Type) := eta_expand : R -> R.

Class Updater {R T : Type} (proj : R -> T) := update_field : (T -> T) -> R -> R.

Ltac synthesise_updater :=
  lazymatch goal with
  | |- @Updater ?R ?T ?proj =>
      let inst := constr:(ltac:(typeclasses eauto) : Eta R) in
      let inst := eval hnf in inst in
      let body := eval pattern proj in inst in
      lazymatch body with
      | ?g _ => let res := eval cbv beta in
                  (fun (f : T -> T) (r : R) => g (fun r' => f (proj r')) r) in
                exact res
      end
  end.

#[export] Hint Extern 0 (Updater _) => synthesise_updater : typeclass_instances.

Arguments update_field {R T} proj {_} f r /.

Declare Scope record_scope.
Open Scope record_scope.

Notation "r <| field := v |>" := (update_field field (fun _ => v) r)
  (at level 1, left associativity, v at level 200,
   format "r  <| field  :=  v |>") : record_scope.
Notation "r <| field ::= f |>" := (update_field field f r)
  (at level 1, left associativity, f at level 200,
   format "r  <| field  ::=  f |>") : record_scope.

(** ** Machine integers

    An unsigned or signed machine word is kept as a [Z]; the ranges below are
    the invariants of the C++ types, and the wrap functions are the
    conversions the language performs. *)

Definition UINT8_MAX : Z := 255.
Definition UINT16_MAX : Z := 65535.
Definition UINT32_MAX : Z := 4294967295.
Definition UINT64_MAX : Z := 18446744073709551615.
Definition INT64_MAX : Z := 9223372036854775807.
Definition INT64_MIN : Z := -9223372036854775808.

Definition is_u8 (z : Z) : Prop := 0 <= z <= UINT8_MAX.
Definition is_u16 (z : Z) : Prop := 0 <= z <= UINT16_MAX.
Definition is_u32 (z : Z) : Prop := 0 <= z <= UINT32_MAX.
Definition is_u64 (z : Z) : Prop := 0 <= z <= UINT64_MAX.
Definition is_i64 (z : Z) : Prop := INT64_MIN <= z <= INT64_MAX.

Definition wrap_u8 (z : Z) : Z := z mod 2 ^ 8.
Definition wrap_u16 (z : Z) : Z := z mod 2 ^ 16.
Definition wrap_u32 (z : Z) : Z := z mod 2 ^ 32.
Definition wrap_u64 (z : Z) : Z := z mod 2 ^ 64.

(** [static_cast<std::int64_t>] of an unsigned 64-bit value (two's complement). *)
Definition i64_of_u64 (z : Z) : Z := if z <=? INT64_MAX then z else z - 2 ^ 64.

Ltac unfold_ints :=
  unfold is_u8, is_u16, is_u32, is_u64, is_i64, wrap_u8, wrap_u16, wrap_u32, wrap_u64,
    i64_of_u64, UINT8_MAX, UINT16_MAX, UINT32_MAX, UINT64_MAX, INT64_MAX, INT64_MIN in *.

Ltac zify_bools :=
  repeat match goal with
  | H : (_ && _)%bool = true |- _ => apply andb_prop in H; destruct H
  | H : (_ || _)%bool = false |- _ => apply orb_false_elim in H; destruct H
  | H : negb _ = true |- _ => apply negb_true_iff in H
  | H : negb _ = false |- _ => apply negb_false_iff in H
  | H : (_ <? _) = true |- _ => apply Z.ltb_lt in H
  | H : (_ <? _) = false |- _ => apply Z.ltb_ge in H
  | H : (_ <=? _) = true |- _ => apply Z.leb_le in H
  | H : (_ <=? _) = false |- _ => apply Z.leb_gt in H
  | H : (_ =? _) = true |- _ => apply Z.eqb_eq in H
  | H : (_ =? _) = false |- _ => apply Z.eqb_neq in H
  end.

Lemma wrap_u64_range z : is_u64 (wrap_u64 z).
Proof. unfold_ints. pose proof (Z.mod_pos_bound z (2 ^ 64)). lia. Qed.

Lemma wrap_u64_id z : is_u64 z -> wrap_u64 z = z.
Proof. intros H. unfold_ints. apply Z.mod_small. lia. Qed.

Lemma i64_of_u64_wrap z : is_i64 z -> i64_of_u64 (wrap_u64 z) = z.
Proof.
  intros H. unfold_ints.
  destruct (Z.leb_spec 0 z) as [Hz|Hz].
  - rewrite Z.mod_small by lia. destruct (Z.leb_spec z 9223372036854775807); lia.
  - replace (z mod 2 ^ 64) with (z + 2 ^ 64).
    + destruct (Z.leb_spec (z + 2 ^ 64) 9223372036854775807); lia.
    + rewrite <- (Z_mod_plus_full z 1 (2 ^ 64)). rewrite Z.mod_small; lia.
Qed.

Lemma wrap_i64_of_u64 z : is_u64 z -> wrap_u64 (i64_of_u64 z) = z.
Proof.
  intros H. unfold_ints. destruct (Z.leb_spec z 9223372036854775807).
  - apply Z.mod_small. lia.
  - rewrite <- (Z_mod_plus_full (z - 2 ^ 64) 1 (2 ^ 64)). rewrite Z.mod_small; lia.
Qed.

Lemma i64_of_u64_range z : is_u64 z -> is_i64 (i64_of_u64 z).
Proof. intros H. unfold_ints. destruct (Z.leb_spec z 9223372036854775807); lia. Qed.

#[export] Hint Resolve wrap_u64_range i64_of_u64_range : pff.

(** ** Sizes *)

Definition size_of {A} (l : list A) : Z := Z.of_nat (length l).

Lemma size_of_app {A} (l k : list A) : size_of (l ++ k) = size_of l + size_of k.
Proof. unfold size_of. rewrite length_app. lia. Qed.
Lemma size_of_nil {A} : size_of (@nil A) = 0.
Proof. reflexivity. Qed.
Lemma size_of_cons {A} (x : A) l : size_of (x :: l) = 1 + size_of l.
Proof. unfold size_of. cbn [length]. lia. Qed.
Lemma size_of_nonneg {A} (l : list A) : 0 <= size_of l.
Proof. unfold size_of. lia. Qed.
#[export] Hint Rewrite @size_of_app @size_of_nil @size_of_cons : pff.
#[export] Hint Resolve size_of_nonneg : pff.

(** [std::find_if] followed by assignment through the iterator: replaces the
    first element satisfying [p], if any. *)
Fixpoint replace_first {A} (p : A -> bool) (x : A) (l : list A) : option (list A) :=
  match l with
  | [] => None
  | y :: l' => if p y then Some (x :: l') else (y ::.) <$> replace_first p x l'
  end.

(** [std::find_if] followed by [erase] of the iterator: removes the first
    element satisfying [p], if any. *)
Fixpoint remove_first {A} (p : A -> bool) (l : list A) : option (list A) :=
  match l with
  | [] => None
  | y :: l' => if p y then Some l' else (y ::.) <$> remove_first p l'
  end.

Lemma remove_first_length {A} (p : A -> bool) l l' :
  remove_first p l = Some l' -> length l = S (length l').
Proof.
  revert l'. induction l as [|y l IH]; intros l' H; cbn in H; [done|].
  destruct (p y); simplify_eq; [done|].
  destruct (remove_first p l); simplify_eq/=. by rewrite (IH _ eq_refl).
Qed.

Lemma remove_first_None {A} (p : A -> bool) l :
  remove_first p l = None <-> Forall (fun x => p x = false) l.
Proof.
  induction l as [|y l IH]; cbn; [by split|]. rewrite List.Forall_cons_iff.
  destruct (p y); [by split; [|intros [? _]]|]. rewrite <- IH.
  destruct (remove_first p l); by split; [|intros [_ ?]].
Qed.

Lemma replace_first_length {A} (p : A -> bool) x l l' :
  replace_first p x l = Some l' -> length l' = length l.
Proof.
  revert l'. induction l as [|y l IH]; intros l' H; cbn in H; [done|].
  destruct (p y); simplify_eq/=; [done|].
  destruct (replace_first p x l); simplify_eq/=. by rewrite (IH _ eq_refl).
Qed.

(** ** Ordered iteration

    [std::map] iterates in key order.  The maps of the model are [gmap]s; a
    loop over one runs over [ordered_entries], the entries sorted by the
    numeric key. *)

Section ordered.
Context {K A : Type} `{Countable K} (key : K -> Z).

Definition entry_le (p q : K * A) : Prop := key p.1 <= key q.1.

#[local] Instance entry_le_dec : RelDecision entry_le.
Proof. intros p q. unfold entry_le. apply _. Defined.
#[local] Instance entry_le_total : Total entry_le.
Proof. intros p q. unfold entry_le. lia. Qed.
#[local] Instance entry_le_trans : Transitive entry_le.
Proof. intros p q r. unfold entry_le. lia. Qed.

Definition ordered_entries (m : gmap K A) : list (K * A) :=
  merge_sort entry_le (map_to_list m).

Lemma ordered_entries_perm m : ordered_entries m ≡ₚ map_to_list m.
Proof. apply merge_sort_Permutation. Qed.

Lemma elem_of_ordered_entries m k x : (k, x) ∈ ordered_entries m <-> m !! k = Some x.
Proof. rewrite ordered_entries_perm. apply elem_of_map_to_list. Qed.

Lemma ordered_entries_sorted m : StronglySorted entry_le (ordered_entries m).
Proof. apply StronglySorted_merge_sort; apply _. Qed.

Lemma ordered_entries_length m : length (ordered_entries m) = size m.
Proof. rewrite ordered_entries_perm. apply length_map_to_list. Qed.

Lemma ordered_entries_NoDup_fst m : NoDup (ordered_entries m).*1.
Proof. rewrite ordered_entries_perm. apply NoDup_fst_map_to_list. Qed.
End ordered.

Lemma size_replace `{Countable K} {A} (m : gmap K A) i x y :
  m !! i = Some x -> size (<[i := y]> m) = size m.
Proof. intros Hi. by rewrite map_size_insert, Hi. Qed.

(** ** Enumerations

    A C++ scoped enumeration with consecutive enumerators from 0: [enum_all]
    lists them in order, [enum_value] is the underlying integer and
    [enum_cast] the [static_cast] back, which the code performs only after
    checking the value against the last enumerator. *)

Class Enum (E : Type) := {
  enum_all : list E;
  enum_value : E -> Z;
  enum_first : E;
  enum_value_all : enum_value <$> enum_all = seqZ 0 (Z.of_nat (length enum_all));
  enum_all_complete : forall e, enum_all !! Z.to_nat (enum_value e) = Some e;
  enum_value_bounds : forall e, 0 <= enum_value e < Z.of_nat (length enum_all)
}.

Definition enum_max (E : Type) `{Enum E} : Z := Z.of_nat (length (enum_all (E := E))) - 1.

Definition enum_cast {E} `{Enum E} (raw : Z) : E :=
  default enum_first (enum_all !! Z.to_nat raw).

Section enum.
Context {E : Type} `{Enum E}.

Lemma enum_cast_value (e : E) : enum_cast (enum_value e) = e.
Proof. unfold enum_cast. by rewrite enum_all_complete. Qed.

Lemma enum_value_cast raw : 0 <= raw <= enum_max E -> enum_value (enum_cast (E := E) raw) = raw.
Proof.
  unfold enum_max, enum_cast. intros Hr.
  destruct (lookup_lt_is_Some_2 (enum_all (E := E)) (Z.to_nat raw)) as [e He]; [lia|].
  rewrite He. cbn.
  assert (Hm : (enum_value <$> enum_all (E := E)) !! Z.to_nat raw = Some (enum_value e)).
  { by rewrite list_lookup_fmap, He. }
  rewrite enum_value_all in Hm. apply lookup_seqZ in Hm. lia.
Qed.

Lemma enum_value_inj (e1 e2 : E) : enum_value e1 = enum_value e2 -> e1 = e2.
Proof.
  intros Hv. pose proof (enum_all_complete e1) as H1.
  pose proof (enum_all_complete e2) as H2. rewrite Hv in H1. congruence.
Qed.

Lemma enum_value_range (e : E) : 0 <= enum_value e <= enum_max E.
Proof. pose proof (enum_value_bounds e). unfold enum_max. lia. Qed.
End enum.

#[export] Hint Resolve enum_value_range : pff.

(** Equality of enumerators is decided on their underlying integers. *)
Definition enum_eq_decision {E} `{Enum E} : EqDecision E :=
  fun e1 e2 =>
    match decide (enum_value e1 = enum_value e2) with
    | left Heq => left (enum_value_inj e1 e2 Heq)
    | right Hne => right (fun Heq => Hne (f_equal enum_value Heq))
    end.

(** The ordering on underlying integers that C++ gives scoped enumerations
    after a [static_cast]. *)
Definition enum_leb {E} `{Enum E} (e1 e2 : E) : bool := enum_value e1 <=? enum_value e2.

Ltac solve_enum :=
  first [ vm_compute; reflexivity
        | intros []; vm_compute; reflexivity
        | intros []; vm_compute; split; congruence ].
