(* ===== verification/Ids.v ===== *)
(** * Identities ([include/pff/ids.hpp], [src/ids.cpp])

    [Id<Tag>] is a distinct type per tag: a phantom index keeps a [PathId] from
    being used where a [Generation] is expected.  Zero means "absent". *)

From S2P Require Import Prelude.

Inductive IdTag :=
  | PathTag | AlternateSetTag | GenerationTag | EpochTag | BootTag | AttemptTag
  | EvidenceTag | FenceTag | DecisionTag | SessionTag | GrantTag | IncarnationTag.

Record Id (T : IdTag) := Id_from_value { Id_value : Z }.
Arguments Id_from_value {T} _.
Arguments Id_value {T} _.

Definition Id_absent {T} : Id T := Id_from_value 0.
Definition Id_valid {T} (i : Id T) : bool := negb (Id_value i =? 0).
Definition Id_eqb {T} (a b : Id T) : bool := Id_value a =? Id_value b.
Definition Id_ltb {T} (a b : Id T) : bool := Id_value a <? Id_value b.

Abbreviation PathId := (Id PathTag).
Abbreviation AlternateSetId := (Id AlternateSetTag).
Abbreviation Generation := (Id GenerationTag).
Abbreviation Epoch := (Id EpochTag).
Abbreviation BootId := (Id BootTag).
Abbreviation AttemptId := (Id AttemptTag).
Abbreviation EvidenceId := (Id EvidenceTag).
Abbreviation FenceId := (Id FenceTag).
Abbreviation DecisionId := (Id DecisionTag).
Abbreviation SessionId := (Id SessionTag).
Abbreviation GrantId := (Id GrantTag).
Abbreviation IncarnationId := (Id IncarnationTag).

Section id.
Context {T : IdTag}.
Implicit Types a b : Id T.

#[export] Instance Id_eq_dec : EqDecision (Id T).
Proof. solve_decision. Defined.

#[export] Program Instance Id_countable : Countable (Id T) :=
  inj_countable' Id_value Id_from_value _.
Next Obligation. by intros []. Qed.

Lemma Id_value_inj a b : Id_value a = Id_value b -> a = b.
Proof. destruct a, b; cbn. congruence. Qed.

Lemma Id_eqb_eq a b : Id_eqb a b = true <-> a = b.
Proof.
  unfold Id_eqb. rewrite Z.eqb_eq. split; [apply Id_value_inj | by intros ->].
Qed.

Lemma Id_eqb_neq a b : Id_eqb a b = false <-> a <> b.
Proof. rewrite <- not_true_iff_false, Id_eqb_eq. done. Qed.

Lemma Id_eqb_refl a : Id_eqb a a = true.
Proof. by apply Id_eqb_eq. Qed.

Lemma Id_eqb_spec a b : reflect (a = b) (Id_eqb a b).
Proof. apply iff_reflect. symmetry. apply Id_eqb_eq. Qed.

Lemma Id_valid_spec a : Id_valid a = true <-> a <> Id_absent.
Proof.
  unfold Id_valid. rewrite negb_true_iff, Z.eqb_neq. split.
  - by intros Ha ->.
  - intros Hne Hz. apply Hne. by apply Id_value_inj.
Qed.

Lemma Id_valid_false a : Id_valid a = false <-> a = Id_absent.
Proof.
  unfold Id_valid. rewrite negb_false_iff, Z.eqb_eq. split; [|by intros ->].
  intros Hz. by apply Id_value_inj.
Qed.

Lemma Id_valid_absent : Id_valid (@Id_absent T) = false.
Proof. done. Qed.
End id.

(** Range of the 64-bit representation. *)
Definition Id_wf {T} (i : Id T) : Prop := is_u64 (Id_value i).

(** [id_hex]: sixteen lower-case hexadecimal digits, most significant first.
    The loop fills positions 15 down to 0 while shifting the value right. *)
Definition kDigits : list Ascii.ascii := String.list_ascii_of_string "0123456789abcdef".

Fixpoint id_hex_loop (n : nat) (value : Z) (out : list Ascii.ascii) : list Ascii.ascii :=
  match n with
  | O => out
  | S n' => id_hex_loop n' (Z.shiftr value 4)
              (nth (Z.to_nat (Z.land value 15)) kDigits Ascii.zero :: out)
  end.

Definition id_hex (value : Z) : string :=
  String.string_of_list_ascii (id_hex_loop 16 value []).
