(* ===== verification/Limits.v ===== *)
(** * Hard resource bounds ([include/pff/limits.hpp], [include/pff/version.hpp]) *)

From S2P Require Import Prelude.

Definition max_candidates_per_set : Z := 4096.
Definition max_alternate_sets : Z := 64.
Definition default_search_limit : Z := 4096.
Definition max_search_limit : Z := Z.shiftl 1 20.

Definition max_fences : Z := 4096.
Definition max_lineage : Z := 4096.
Definition max_attempts : Z := 1024.
Definition max_assessments_reported : Z := 4096.
Definition max_indeterminate_reported : Z := 256.
Definition max_explanation_steps : Z := 64.
Definition max_reason_bytes : Z := 128.
Definition max_name_bytes : Z := 96.

Definition max_record_payload : Z := Z.shiftl 1 20.
Definition max_journal_bytes : Z := Z.shiftl 64 20.
Definition max_snapshot_bytes : Z := Z.shiftl 64 20.
Definition max_snapshot_records : Z := 100000.

Definition max_frame_payload : Z := Z.shiftl 1 20.
Definition frame_header_bytes : Z := 28.
Definition frame_trailer_bytes : Z := 4.
Definition max_frame_bytes : Z := frame_header_bytes + max_frame_payload + frame_trailer_bytes.

Definition max_sessions : Z := 64.
Definition default_max_requests_per_session : Z := 100000.
Definition max_evidence_entries : Z := 8192.

Definition max_weight : Z := 1000000.
Definition cost_scale : Z := 1000000000.
Definition rank_scale : Z := 65535.
Definition health_scale : Z := 1000000.

Definition durable_format_version : Z := 1.
Definition protocol_version : Z := 1.

Ltac unfold_limits :=
  unfold max_candidates_per_set, max_alternate_sets, default_search_limit, max_search_limit,
    max_fences, max_lineage, max_attempts, max_assessments_reported,
    max_indeterminate_reported, max_explanation_steps, max_reason_bytes, max_name_bytes,
    max_record_payload, max_journal_bytes, max_snapshot_bytes, max_snapshot_records,
    max_frame_payload, frame_header_bytes, frame_trailer_bytes, max_frame_bytes, max_sessions,
    default_max_requests_per_session, max_evidence_entries, max_weight, cost_scale, rank_scale,
    health_scale, durable_format_version, protocol_version in *;
  change (Z.shiftl 1 20) with 1048576 in *;
  change (Z.shiftl 64 20) with 67108864 in *.
