(* ===== verification/Status.v ===== *)
(** * Status, reason and result vocabulary ([include/pff/status.hpp], [src/status.cpp])

    The enumerations with their underlying integers, the name tables, the
    [Status] value and [Result<T>] as a sum. *)

From S2P Require Import Prelude.
From S2P Require Import Limits.

Inductive Code :=
  | Code_ok | Code_invalid | Code_unknown | Code_stale | Code_conflict | Code_unsupported
  | Code_refused | Code_exhausted | Code_corrupt | Code_not_found | Code_already_exists
  | Code_fenced | Code_superseded | Code_interrupted | Code_search_limited | Code_proven_absent
  | Code_version_unsupported | Code_not_owner | Code_io_failure | Code_table_full.

Definition Code_value (x : Code) : Z :=
  match x with
  | Code_ok => 0 | Code_invalid => 1 | Code_unknown => 2 | Code_stale => 3 | Code_conflict => 4
  | Code_unsupported => 5 | Code_refused => 6 | Code_exhausted => 7 | Code_corrupt => 8
  | Code_not_found => 9 | Code_already_exists => 10 | Code_fenced => 11 | Code_superseded => 12
  | Code_interrupted => 13 | Code_search_limited => 14 | Code_proven_absent => 15
  | Code_version_unsupported => 16 | Code_not_owner => 17 | Code_io_failure => 18
  | Code_table_full => 19
  end.

#[export] Program Instance Code_enum : Enum Code := {|
  enum_all := [
    Code_ok; Code_invalid; Code_unknown; Code_stale; Code_conflict; Code_unsupported;
    Code_refused; Code_exhausted; Code_corrupt; Code_not_found; Code_already_exists; Code_fenced;
    Code_superseded; Code_interrupted; Code_search_limited; Code_proven_absent;
    Code_version_unsupported; Code_not_owner; Code_io_failure; Code_table_full];
  enum_value := Code_value;
  enum_first := Code_ok |}.
Solve Obligations with solve_enum.
#[export] Instance Code_eq_dec : EqDecision Code := enum_eq_decision.

Inductive Reason :=
  | Reason_none | Reason_incumbent_is_self | Reason_withdrawn | Reason_authority_stale
  | Reason_authority_unknown | Reason_authority_conflict | Reason_eligibility_ineligible
  | Reason_eligibility_unknown | Reason_evidence_stale | Reason_evidence_unknown
  | Reason_reachability_unreachable | Reason_reachability_unknown | Reason_capacity_insufficient
  | Reason_capacity_unknown | Reason_capability_missing | Reason_health_below_obligation
  | Reason_cost_above_obligation | Reason_score_below_policy | Reason_score_overflow
  | Reason_path_fenced | Reason_duplicate_path | Reason_rank_out_of_range
  | Reason_candidates_too_many | Reason_set_generation_mismatch | Reason_set_incomplete
  | Reason_set_completeness_unknown | Reason_search_limit_reached | Reason_policy_invalid
  | Reason_obligations_invalid | Reason_policy_generation_stale
  | Reason_obligations_generation_stale | Reason_topology_generation_stale
  | Reason_path_authority_generation_stale | Reason_epoch_stale | Reason_boot_mismatch
  | Reason_generation_conflict | Reason_incumbent_not_failed | Reason_authority_current
  | Reason_attempt_active | Reason_attempt_not_found | Reason_attempt_fenced
  | Reason_attempt_superseded | Reason_attempt_already_committed | Reason_attempt_terminal
  | Reason_effect_unverified | Reason_effect_authority_mismatch | Reason_effect_path_mismatch
  | Reason_rollback_incumbent_invalid | Reason_rollback_no_prior_incumbent
  | Reason_rollback_not_committed | Reason_revalidation_exhausted
  | Reason_rollback_authority_mismatch | Reason_no_active_attempt | Reason_read_only
  | Reason_corrupt_header | Reason_corrupt_payload | Reason_unsupported_version
  | Reason_length_invalid | Reason_sequence_regression | Reason_trailing_garbage
  | Reason_torn_tail_recovered | Reason_integrity_failure | Reason_directory_locked
  | Reason_io_failure | Reason_state_inconsistent | Reason_format_magic_mismatch
  | Reason_record_type_invalid | Reason_snapshot_missing | Reason_frame_magic
  | Reason_frame_truncated | Reason_frame_oversize | Reason_frame_trailing_bytes
  | Reason_enum_invalid | Reason_domain_invalid | Reason_session_unknown | Reason_session_stale
  | Reason_session_limit | Reason_request_limit | Reason_message_unsupported
  | Reason_protocol_version_mismatch | Reason_table_full | Reason_allocation_denied
  | Reason_invalid_payload | Reason_evidence_superseded | Reason_selected
  | Reason_promotable_not_selected | Reason_excluded | Reason_indeterminate
  | Reason_proven_no_alternate | Reason_complete_set_exhausted | Reason_restart_fenced
  | Reason_authority_fenced.

Definition Reason_value (x : Reason) : Z :=
  match x with
  | Reason_none => 0 | Reason_incumbent_is_self => 1 | Reason_withdrawn => 2
  | Reason_authority_stale => 3 | Reason_authority_unknown => 4 | Reason_authority_conflict => 5
  | Reason_eligibility_ineligible => 6 | Reason_eligibility_unknown => 7
  | Reason_evidence_stale => 8 | Reason_evidence_unknown => 9
  | Reason_reachability_unreachable => 10 | Reason_reachability_unknown => 11
  | Reason_capacity_insufficient => 12 | Reason_capacity_unknown => 13
  | Reason_capability_missing => 14 | Reason_health_below_obligation => 15
  | Reason_cost_above_obligation => 16 | Reason_score_below_policy => 17
  | Reason_score_overflow => 18 | Reason_path_fenced => 19 | Reason_duplicate_path => 20
  | Reason_rank_out_of_range => 21 | Reason_candidates_too_many => 22
  | Reason_set_generation_mismatch => 23 | Reason_set_incomplete => 24
  | Reason_set_completeness_unknown => 25 | Reason_search_limit_reached => 26
  | Reason_policy_invalid => 27 | Reason_obligations_invalid => 28
  | Reason_policy_generation_stale => 29 | Reason_obligations_generation_stale => 30
  | Reason_topology_generation_stale => 31 | Reason_path_authority_generation_stale => 32
  | Reason_epoch_stale => 33 | Reason_boot_mismatch => 34 | Reason_generation_conflict => 35
  | Reason_incumbent_not_failed => 36 | Reason_authority_current => 37
  | Reason_attempt_active => 38 | Reason_attempt_not_found => 39 | Reason_attempt_fenced => 40
  | Reason_attempt_superseded => 41 | Reason_attempt_already_committed => 42
  | Reason_attempt_terminal => 43 | Reason_effect_unverified => 44
  | Reason_effect_authority_mismatch => 45 | Reason_effect_path_mismatch => 46
  | Reason_rollback_incumbent_invalid => 47 | Reason_rollback_no_prior_incumbent => 48
  | Reason_rollback_not_committed => 49 | Reason_revalidation_exhausted => 50
  | Reason_rollback_authority_mismatch => 51 | Reason_no_active_attempt => 52
  | Reason_read_only => 53 | Reason_corrupt_header => 54 | Reason_corrupt_payload => 55
  | Reason_unsupported_version => 56 | Reason_length_invalid => 57
  | Reason_sequence_regression => 58 | Reason_trailing_garbage => 59
  | Reason_torn_tail_recovered => 60 | Reason_integrity_failure => 61
  | Reason_directory_locked => 62 | Reason_io_failure => 63 | Reason_state_inconsistent => 64
  | Reason_format_magic_mismatch => 65 | Reason_record_type_invalid => 66
  | Reason_snapshot_missing => 67 | Reason_frame_magic => 68 | Reason_frame_truncated => 69
  | Reason_frame_oversize => 70 | Reason_frame_trailing_bytes => 71 | Reason_enum_invalid => 72
  | Reason_domain_invalid => 73 | Reason_session_unknown => 74 | Reason_session_stale => 75
  | Reason_session_limit => 76 | Reason_request_limit => 77 | Reason_message_unsupported => 78
  | Reason_protocol_version_mismatch => 79 | Reason_table_full => 80
  | Reason_allocation_denied => 81 | Reason_invalid_payload => 82
  | Reason_evidence_superseded => 83 | Reason_selected => 84
  | Reason_promotable_not_selected => 85 | Reason_excluded => 86 | Reason_indeterminate => 87
  | Reason_proven_no_alternate => 88 | Reason_complete_set_exhausted => 89
  | Reason_restart_fenced => 90 | Reason_authority_fenced => 91
  end.

#[export] Program Instance Reason_enum : Enum Reason := {|
  enum_all := [
    Reason_none; Reason_incumbent_is_self; Reason_withdrawn; Reason_authority_stale;
    Reason_authority_unknown; Reason_authority_conflict; Reason_eligibility_ineligible;
    Reason_eligibility_unknown; Reason_evidence_stale; Reason_evidence_unknown;
    Reason_reachability_unreachable; Reason_reachability_unknown; Reason_capacity_insufficient;
    Reason_capacity_unknown; Reason_capability_missing; Reason_health_below_obligation;
    Reason_cost_above_obligation; Reason_score_below_policy; Reason_score_overflow;
    Reason_path_fenced; Reason_duplicate_path; Reason_rank_out_of_range;
    Reason_candidates_too_many; Reason_set_generation_mismatch; Reason_set_incomplete;
    Reason_set_completeness_unknown; Reason_search_limit_reached; Reason_policy_invalid;
    Reason_obligations_invalid; Reason_policy_generation_stale;
    Reason_obligations_generation_stale; Reason_topology_generation_stale;
    Reason_path_authority_generation_stale; Reason_epoch_stale; Reason_boot_mismatch;
    Reason_generation_conflict; Reason_incumbent_not_failed; Reason_authority_current;
    Reason_attempt_active; Reason_attempt_not_found; Reason_attempt_fenced;
    Reason_attempt_superseded; Reason_attempt_already_committed; Reason_attempt_terminal;
    Reason_effect_unverified; Reason_effect_authority_mismatch; Reason_effect_path_mismatch;
    Reason_rollback_incumbent_invalid; Reason_rollback_no_prior_incumbent;
    Reason_rollback_not_committed; Reason_revalidation_exhausted;
    Reason_rollback_authority_mismatch; Reason_no_active_attempt; Reason_read_only;
    Reason_corrupt_header; Reason_corrupt_payload; Reason_unsupported_version;
    Reason_length_invalid; Reason_sequence_regression; Reason_trailing_garbage;
    Reason_torn_tail_recovered; Reason_integrity_failure; Reason_directory_locked;
    Reason_io_failure; Reason_state_inconsistent; Reason_format_magic_mismatch;
    Reason_record_type_invalid; Reason_snapshot_missing; Reason_frame_magic;
    Reason_frame_truncated; Reason_frame_oversize; Reason_frame_trailing_bytes;
    Reason_enum_invalid; Reason_domain_invalid; Reason_session_unknown; Reason_session_stale;
    Reason_session_limit; Reason_request_limit; Reason_message_unsupported;
    Reason_protocol_version_mismatch; Reason_table_full; Reason_allocation_denied;
    Reason_invalid_payload; Reason_evidence_superseded; Reason_selected;
    Reason_promotable_not_selected; Reason_excluded; Reason_indeterminate;
    Reason_proven_no_alternate; Reason_complete_set_exhausted; Reason_restart_fenced;
    Reason_authority_fenced];
  enum_value := Reason_value;
  enum_first := Reason_none |}.
Solve Obligations with solve_enum.
#[export] Instance Reason_eq_dec : EqDecision Reason := enum_eq_decision.

Definition max_reason_value : Z := enum_value Reason_authority_fenced.
Definition max_code_value : Z := enum_value Code_table_full.

Definition kCodeNames : list string := [
  "ok"; "invalid"; "unknown"; "stale"; "conflict"; "unsupported"; "refused"; "exhausted";
  "corrupt"; "not_found"; "already_exists"; "fenced"; "superseded"; "interrupted";
  "search_limited"; "proven_absent"; "version_unsupported"; "not_owner"; "io_failure";
  "table_full"]%string.

Definition kReasonNames : list string := [
  "none"; "incumbent_is_self"; "withdrawn"; "authority_stale"; "authority_unknown";
  "authority_conflict"; "eligibility_ineligible"; "eligibility_unknown"; "evidence_stale";
  "evidence_unknown"; "reachability_unreachable"; "reachability_unknown"; "capacity_insufficient";
  "capacity_unknown"; "capability_missing"; "health_below_obligation"; "cost_above_obligation";
  "score_below_policy"; "score_overflow"; "path_fenced"; "duplicate_path"; "rank_out_of_range";
  "candidates_too_many"; "set_generation_mismatch"; "set_incomplete"; "set_completeness_unknown";
  "search_limit_reached"; "policy_invalid"; "obligations_invalid"; "policy_generation_stale";
  "obligations_generation_stale"; "topology_generation_stale"; "path_authority_generation_stale";
  "epoch_stale"; "boot_mismatch"; "generation_conflict"; "incumbent_not_failed";
  "authority_current"; "attempt_active"; "attempt_not_found"; "attempt_fenced";
  "attempt_superseded"; "attempt_already_committed"; "attempt_terminal"; "effect_unverified";
  "effect_authority_mismatch"; "effect_path_mismatch"; "rollback_incumbent_invalid";
  "rollback_no_prior_incumbent"; "rollback_not_committed"; "revalidation_exhausted";
  "rollback_authority_mismatch"; "no_active_attempt"; "read_only"; "corrupt_header";
  "corrupt_payload"; "unsupported_version"; "length_invalid"; "sequence_regression";
  "trailing_garbage"; "torn_tail_recovered"; "integrity_failure"; "directory_locked";
  "io_failure"; "state_inconsistent"; "format_magic_mismatch"; "record_type_invalid";
  "snapshot_missing"; "frame_magic"; "frame_truncated"; "frame_oversize"; "frame_trailing_bytes";
  "enum_invalid"; "domain_invalid"; "session_unknown"; "session_stale"; "session_limit";
  "request_limit"; "message_unsupported"; "protocol_version_mismatch"; "table_full";
  "allocation_denied"; "invalid_payload"; "evidence_superseded"; "selected";
  "promotable_not_selected"; "excluded"; "indeterminate"; "proven_no_alternate";
  "complete_set_exhausted"; "restart_fenced"; "authority_fenced"]%string.

Definition Code_to_string (c : Code) : string :=
  default "invalid_code"%string (kCodeNames !! Z.to_nat (enum_value c)).
Definition Reason_to_string (r : Reason) : string :=
  default "invalid_reason"%string (kReasonNames !! Z.to_nat (enum_value r)).

(** ** Status *)

Record Status := mkStatus {
  status_code : Code;
  status_reason : Reason;
  status_detail : string }.

#[export] Instance Status_eta : Eta Status :=
  fun s => mkStatus (status_code s) (status_reason s) (status_detail s).
#[export] Instance Status_eq_dec : EqDecision Status.
Proof. solve_decision. Defined.

Definition make_status (c : Code) (r : Reason) : Status := mkStatus c r "".
Definition ok_status : Status := mkStatus Code_ok Reason_none "".
Definition Status_ok (s : Status) : bool :=
  match status_code s with Code_ok => true | _ => false end.

Definition with_detail (s : Status) (detail : string) : Status :=
  s <| status_detail :=
    if max_reason_bytes <? Z.of_nat (String.length detail)
    then String.substring 0 (Z.to_nat max_reason_bytes) detail else detail |>.

Definition Status_describe (s : Status) : string :=
  let out := (Code_to_string (status_code s) +:+ ":" +:+ Reason_to_string (status_reason s))%string in
  match status_detail s with
  | EmptyString => out
  | d => (out +:+ ":" +:+ d)%string
  end.

(** ** Result

    [Result<T>] holds either a value or a failure status. *)

Inductive Result (A : Type) :=
  | Ok (value : A)
  | Err (status : Status).
Arguments Ok {A} value.
Arguments Err {A} status.

Definition Result_ok {A} (r : Result A) : bool :=
  match r with Ok _ => true | Err _ => false end.
Definition Result_status {A} (r : Result A) : Status :=
  match r with Ok _ => ok_status | Err s => s end.

(** [if (!x.ok()) return x.status();] on a pure result. *)
Notation "'let?' x := r 'in' k" :=
  (match r with Ok x => k | Err s => Err s end)
  (at level 10, x binder, r at level 100, k at level 200, only parsing).

Definition in_range (v lo hi : Z) : bool := (lo <=? v) && (v <=? hi).

Lemma in_range_spec v lo hi : in_range v lo hi = true <-> lo <= v <= hi.
Proof. unfold in_range. rewrite andb_true_iff, !Z.leb_le. done. Qed.

Lemma Status_ok_spec s : Status_ok s = true <-> status_code s = Code_ok.
Proof. unfold Status_ok. destruct (status_code s); split; congruence. Qed.

Lemma Status_ok_code c r d : Status_ok (mkStatus c r d) = bool_decide (c = Code_ok).
Proof. destruct c; reflexivity. Qed.

(** The name tables cover the vocabularies without collisions, so a rendered
    status identifies its code and reason. *)
Lemma kReasonNames_NoDup : NoDup kReasonNames.
Proof. apply (bool_decide_unpack _). vm_compute. exact I. Qed.
Lemma kCodeNames_NoDup : NoDup kCodeNames.
Proof. apply (bool_decide_unpack _). vm_compute. exact I. Qed.

Lemma Reason_to_string_inj r1 r2 : Reason_to_string r1 = Reason_to_string r2 -> r1 = r2.
Proof.
  unfold Reason_to_string. intros Heq.
  assert (Hlen : length kReasonNames = length (enum_all (E := Reason))) by reflexivity.
  pose proof (enum_value_bounds r1) as Hb1. pose proof (enum_value_bounds r2) as Hb2.
  destruct (lookup_lt_is_Some_2 kReasonNames (Z.to_nat (enum_value r1))) as [n1 Hn1]; [lia|].
  destruct (lookup_lt_is_Some_2 kReasonNames (Z.to_nat (enum_value r2))) as [n2 Hn2]; [lia|].
  rewrite Hn1, Hn2 in Heq. cbn in Heq. subst n2.
  pose proof (NoDup_lookup _ _ _ _ kReasonNames_NoDup Hn1 Hn2).
  apply enum_value_inj. lia.
Qed.
