(* ===== verification/Checked.v ===== *)
(** * Checked integer arithmetic ([include/pff/checked.hpp])

    The helpers return a [bool] and write through a reference; here they return
    an [option], [None] being the failed check (the out parameter is untouched). *)

From S2P Require Import Prelude.

Definition checked_add (a b : Z) : option Z :=
  if (0 <? b) && (INT64_MAX - b <? a) then None
  else if (b <? 0) && (a <? INT64_MIN - b) then None
  else Some (a + b).

Definition checked_sub (a b : Z) : option Z :=
  if b =? INT64_MIN then None else checked_add a (- b).

(** Magnitudes are taken in unsigned 64-bit arithmetic, where [0u - x] wraps. *)
Definition checked_mul (a b : Z) : option Z :=
  if (a =? 0) || (b =? 0) then Some 0
  else
    let negative := xorb (a <? 0) (b <? 0) in
    let ua := if a <? 0 then wrap_u64 (0 - wrap_u64 a) else wrap_u64 a in
    let ub := if b <? 0 then wrap_u64 (0 - wrap_u64 b) else wrap_u64 b in
    let limit := if negative then Z.shiftl 1 63 else Z.shiftl 1 63 - 1 in
    if limit / ua <? ub then None
    else
      let ur := wrap_u64 (ua * ub) in
      Some (if negative then i64_of_u64 (wrap_u64 (0 - ur)) else i64_of_u64 ur).

Definition clamp_i64 (v lo hi : Z) : Z :=
  if v <? lo then lo else if hi <? v then hi else v.

Definition checked_u32 (v : Z) : option Z :=
  if UINT32_MAX <? v then None else Some (wrap_u32 v).

(** ** Specification *)

Lemma checked_add_spec a b r :
  is_i64 a -> is_i64 b ->
  checked_add a b = Some r <-> r = a + b /\ is_i64 r.
Proof.
  intros Ha Hb. unfold checked_add. unfold_ints.
  destruct (Z.ltb_spec 0 b), (Z.ltb_spec (9223372036854775807 - b) a),
    (Z.ltb_spec b 0), (Z.ltb_spec a (-9223372036854775808 - b)); cbn;
    (split; [intros Heq; simplify_eq; lia | intros [-> ?]; first [done | exfalso; lia]]).
Qed.

Lemma checked_add_None a b :
  is_i64 a -> is_i64 b -> checked_add a b = None <-> ~ is_i64 (a + b).
Proof.
  intros Ha Hb. pose proof (checked_add_spec a b (a + b) Ha Hb) as Hs.
  destruct (checked_add a b) as [r|] eqn:E.
  - apply (checked_add_spec _ _ _ Ha Hb) in E as [-> Hr]. split; [done|]. intros Hn. by destruct Hn.
  - split; [|done]. intros _ Hr. by pose proof (proj2 Hs (conj eq_refl Hr)).
Qed.

Lemma wrap_magnitude a :
  is_i64 a -> (if a <? 0 then wrap_u64 (0 - wrap_u64 a) else wrap_u64 a) = Z.abs a.
Proof.
  intros Ha. unfold_ints. destruct (Z.ltb_spec a 0).
  - rewrite Zminus_mod_idemp_r. rewrite Z.mod_small; lia.
  - rewrite Z.mod_small; lia.
Qed.

Lemma i64_of_u64_neg ur :
  0 < ur <= 2 ^ 63 -> i64_of_u64 (wrap_u64 (0 - ur)) = - ur.
Proof.
  intros H. replace (0 - ur) with (- ur) by lia. apply i64_of_u64_wrap. unfold_ints. lia.
Qed.

Lemma checked_mul_spec a b r :
  is_i64 a -> is_i64 b ->
  checked_mul a b = Some r <-> r = a * b /\ is_i64 r.
Proof.
  intros Ha Hb. unfold checked_mul.
  destruct (Z.eqb_spec a 0) as [->|Ha0]; cbn [orb].
  { unfold_ints. split; [intros [= <-]|intros [-> ?]; f_equal]; lia. }
  destruct (Z.eqb_spec b 0) as [->|Hb0]; cbn [orb].
  { unfold_ints. split; [intros [= <-]|intros [-> ?]; f_equal]; lia. }
  cbv zeta. rewrite !wrap_magnitude by done.
  change (Z.shiftl 1 63) with (2 ^ 63).
  set (neg := xorb (a <? 0) (b <? 0)).
  assert (Hsign : a * b = if neg then - (Z.abs a * Z.abs b) else Z.abs a * Z.abs b).
  { unfold neg. destruct (Z.ltb_spec a 0), (Z.ltb_spec b 0); cbn; nia. }
  set (lim := if neg then 2 ^ 63 else 2 ^ 63 - 1).
  assert (Hpos : 0 < Z.abs a * Z.abs b) by nia.
  assert (Hlim : lim / Z.abs a < Z.abs b <-> lim < Z.abs a * Z.abs b).
  { rewrite (Z.mul_comm (Z.abs a)). split; intros Hl.
    - pose proof (Z.mul_succ_div_gt lim (Z.abs a)). nia.
    - apply Z.div_lt_upper_bound; lia. }
  destruct (Z.ltb_spec (lim / Z.abs a) (Z.abs b)) as [Hl|Hl].
  - apply Hlim in Hl. split; [done|]. intros [-> Hr]. rewrite Hsign in Hr.
    unfold lim in Hl. unfold_ints. destruct neg; lia.
  - assert (Hle : Z.abs a * Z.abs b <= lim) by lia. unfold lim in Hle.
    assert (Hw : wrap_u64 (Z.abs a * Z.abs b) = Z.abs a * Z.abs b).
    { apply wrap_u64_id. unfold_ints. destruct neg; lia. }
    rewrite Hw, Hsign. destruct neg.
    + rewrite i64_of_u64_neg by lia. unfold_ints.
      split; [intros [= <-]; lia|intros [-> ?]; done].
    + unfold i64_of_u64. destruct (Z.leb_spec (Z.abs a * Z.abs b) INT64_MAX); unfold_ints; [|lia].
      split; [intros [= <-]; lia|intros [-> ?]; done].
Qed.

Lemma checked_sub_spec a b r :
  is_i64 a -> is_i64 b -> b <> INT64_MIN ->
  checked_sub a b = Some r <-> r = a - b /\ is_i64 r.
Proof.
  intros Ha Hb Hm. unfold checked_sub. destruct (Z.eqb_spec b INT64_MIN); [done|].
  rewrite checked_add_spec by (unfold_ints; lia). by rewrite Z.add_opp_r.
Qed.

Lemma clamp_i64_range v lo hi : lo <= hi -> lo <= clamp_i64 v lo hi <= hi.
Proof. intros H. unfold clamp_i64. destruct (Z.ltb_spec v lo), (Z.ltb_spec hi v); lia. Qed.

Lemma clamp_i64_id v lo hi : lo <= v <= hi -> clamp_i64 v lo hi = v.
Proof. intros H. unfold clamp_i64. destruct (Z.ltb_spec v lo), (Z.ltb_spec hi v); lia. Qed.

Lemma checked_add_eq a b :
  is_i64 a -> is_i64 b -> is_i64 (a + b) -> checked_add a b = Some (a + b).
Proof. intros Ha Hb Hr. by apply checked_add_spec. Qed.

Lemma checked_mul_eq a b :
  is_i64 a -> is_i64 b -> is_i64 (a * b) -> checked_mul a b = Some (a * b).
Proof. intros Ha Hb Hr. by apply checked_mul_spec. Qed.
