(* ===== verification/Authority.v ===== *)
(** * Authority vectors ([include/pff/authority.hpp], [src/authority.cpp])

    Classification of the generations an input was produced under against the
    generations the runtime currently holds. *)

From S2P Require Import Prelude.
From S2P Require Import Ids.
From S2P Require Import Status.

Inductive AuthorityClass :=
  | AuthorityClass_current | AuthorityClass_stale | AuthorityClass_unknown
  | AuthorityClass_conflict.

Definition AuthorityClass_value (x : AuthorityClass) : Z :=
  match x with
  | AuthorityClass_current => 0 | AuthorityClass_stale => 1 | AuthorityClass_unknown => 2
  | AuthorityClass_conflict => 3
  end.

#[export] Program Instance AuthorityClass_enum : Enum AuthorityClass := {|
  enum_all := [
    AuthorityClass_current; AuthorityClass_stale; AuthorityClass_unknown; AuthorityClass_conflict];
  enum_value := AuthorityClass_value;
  enum_first := AuthorityClass_current |}.
Solve Obligations with solve_enum.
#[export] Instance AuthorityClass_eq_dec : EqDecision AuthorityClass := enum_eq_decision.

Record AuthorityVector := mkAuthorityVector {
  av_topology : Generation;
  av_path_authority : Generation;
  av_policy : Generation;
  av_obligations : Generation;
  av_epoch : Epoch;
  av_boot : BootId }.

#[export] Instance AuthorityVector_eta : Eta AuthorityVector :=
  fun v => mkAuthorityVector (av_topology v) (av_path_authority v) (av_policy v)
             (av_obligations v) (av_epoch v) (av_boot v).
#[export] Instance AuthorityVector_eq_dec : EqDecision AuthorityVector.
Proof. solve_decision. Defined.

Definition AuthorityVector_default : AuthorityVector :=
  mkAuthorityVector Id_absent Id_absent Id_absent Id_absent Id_absent Id_absent.

Definition AuthorityVector_eqb (a b : AuthorityVector) : bool :=
  Id_eqb (av_topology a) (av_topology b) && Id_eqb (av_path_authority a) (av_path_authority b) &&
  Id_eqb (av_policy a) (av_policy b) && Id_eqb (av_obligations a) (av_obligations b) &&
  Id_eqb (av_epoch a) (av_epoch b) && Id_eqb (av_boot a) (av_boot b).

Record AuthorityComparison := mkAuthorityComparison {
  cmp_overall : AuthorityClass;
  cmp_topology : AuthorityClass;
  cmp_path_authority : AuthorityClass;
  cmp_policy : AuthorityClass;
  cmp_obligations : AuthorityClass;
  cmp_epoch : AuthorityClass;
  cmp_boot : AuthorityClass;
  cmp_reason : Reason }.

#[export] Instance AuthorityComparison_eta : Eta AuthorityComparison :=
  fun c => mkAuthorityComparison (cmp_overall c) (cmp_topology c) (cmp_path_authority c)
             (cmp_policy c) (cmp_obligations c) (cmp_epoch c) (cmp_boot c) (cmp_reason c).

Definition all_current (c : AuthorityComparison) : bool :=
  bool_decide (cmp_overall c = AuthorityClass_current).

Definition severity (c : AuthorityClass) : Z := enum_value c.

Definition merge (a b : AuthorityClass) : AuthorityClass :=
  if severity b <=? severity a then a else b.

Definition AuthorityClass_to_string (c : AuthorityClass) : string :=
  match c with
  | AuthorityClass_current => "CURRENT"
  | AuthorityClass_stale => "STALE"
  | AuthorityClass_unknown => "UNKNOWN"
  | AuthorityClass_conflict => "CONFLICT"
  end.

Definition classify_generation (supplied current : Generation) : AuthorityClass :=
  if negb (Id_valid supplied) || negb (Id_valid current) then AuthorityClass_unknown
  else if Id_eqb supplied current then AuthorityClass_current
  else if Id_ltb supplied current then AuthorityClass_stale else AuthorityClass_conflict.

Definition classify (supplied current : AuthorityVector) : AuthorityComparison :=
  let topology := classify_generation (av_topology supplied) (av_topology current) in
  let path_authority :=
    classify_generation (av_path_authority supplied) (av_path_authority current) in
  let policy := classify_generation (av_policy supplied) (av_policy current) in
  let obligations := classify_generation (av_obligations supplied) (av_obligations current) in
  let epoch :=
    if negb (Id_valid (av_epoch supplied)) || negb (Id_valid (av_epoch current))
    then AuthorityClass_unknown
    else if Id_eqb (av_epoch supplied) (av_epoch current) then AuthorityClass_current
    else if Id_ltb (av_epoch supplied) (av_epoch current)
         then AuthorityClass_stale else AuthorityClass_conflict in
  let boot :=
    if negb (Id_valid (av_boot supplied)) || negb (Id_valid (av_boot current))
    then AuthorityClass_unknown
    else if Id_eqb (av_boot supplied) (av_boot current) then AuthorityClass_current
    else AuthorityClass_stale in
  let overall :=
    merge (merge (merge (merge (merge topology path_authority) policy) obligations) epoch) boot in
  let reason :=
    match overall with
    | AuthorityClass_current => Reason_authority_current
    | AuthorityClass_conflict => Reason_generation_conflict
    | AuthorityClass_unknown => Reason_authority_unknown
    | AuthorityClass_stale =>
        if decide (epoch = AuthorityClass_stale) then Reason_epoch_stale
        else if decide (boot = AuthorityClass_stale) then Reason_boot_mismatch
        else if decide (topology = AuthorityClass_stale) then Reason_topology_generation_stale
        else if decide (path_authority = AuthorityClass_stale)
             then Reason_path_authority_generation_stale
        else if decide (policy = AuthorityClass_stale) then Reason_policy_generation_stale
        else if decide (obligations = AuthorityClass_stale)
             then Reason_obligations_generation_stale
        else Reason_authority_stale
    end in
  mkAuthorityComparison overall topology path_authority policy obligations epoch boot reason.

(** ** Lemmas *)

Lemma AuthorityVector_eqb_eq a b : AuthorityVector_eqb a b = true <-> a = b.
Proof.
  unfold AuthorityVector_eqb. rewrite !andb_true_iff, !Id_eqb_eq.
  destruct a, b; cbn. split; [intros [[[[[]]]]]; by subst | by intros [=]].
Qed.

Lemma merge_current a b :
  merge a b = AuthorityClass_current <->
  a = AuthorityClass_current /\ b = AuthorityClass_current.
Proof. destruct a, b; vm_compute; split; (done || intros [? ?]; congruence). Qed.

Lemma merge_severity a b : severity (merge a b) = Z.max (severity a) (severity b).
Proof. destruct a, b; reflexivity. Qed.

Lemma classify_generation_current s c :
  classify_generation s c = AuthorityClass_current <-> s = c /\ Id_valid c = true.
Proof.
  unfold classify_generation.
  destruct (Id_valid s) eqn:Hs, (Id_valid c) eqn:Hc; cbn [negb orb];
    try (split; [done|intros [-> ?]; congruence]).
  destruct (Id_eqb_spec s c) as [->|Hne].
  - done.
  - destruct (Id_ltb s c); (split; [done|by intros [? _]]).
Qed.

(** Every component of a vector is present. *)
Definition AuthorityVector_present (v : AuthorityVector) : Prop :=
  Id_valid (av_topology v) = true /\ Id_valid (av_path_authority v) = true /\
  Id_valid (av_policy v) = true /\ Id_valid (av_obligations v) = true /\
  Id_valid (av_epoch v) = true /\ Id_valid (av_boot v) = true.

Lemma cmp_overall_classify s c :
  cmp_overall (classify s c) =
  merge (merge (merge (merge (merge (cmp_topology (classify s c))
    (cmp_path_authority (classify s c))) (cmp_policy (classify s c)))
    (cmp_obligations (classify s c))) (cmp_epoch (classify s c))) (cmp_boot (classify s c)).
Proof. reflexivity. Qed.

Lemma cmp_epoch_current s c :
  cmp_epoch (classify s c) = AuthorityClass_current <->
  av_epoch s = av_epoch c /\ Id_valid (av_epoch c) = true.
Proof.
  cbn. destruct (Id_valid (av_epoch s)) eqn:Hs, (Id_valid (av_epoch c)) eqn:Hc; cbn [negb orb];
    try (split; [done|intros [Heq ?]; congruence]).
  destruct (Id_eqb_spec (av_epoch s) (av_epoch c)); [done|].
  destruct (Id_ltb _ _); (split; [done|by intros [? _]]).
Qed.

Lemma cmp_boot_current s c :
  cmp_boot (classify s c) = AuthorityClass_current <->
  av_boot s = av_boot c /\ Id_valid (av_boot c) = true.
Proof.
  cbn. destruct (Id_valid (av_boot s)) eqn:Hs, (Id_valid (av_boot c)) eqn:Hc; cbn [negb orb];
    try (split; [done|intros [Heq ?]; congruence]).
  destruct (Id_eqb_spec (av_boot s) (av_boot c)); [done|]. split; [done|by intros [? _]].
Qed.

(** A supplied vector is classified CURRENT exactly when it equals the current
    vector and no component is absent. *)
Lemma classify_current s c :
  cmp_overall (classify s c) = AuthorityClass_current <-> s = c /\ AuthorityVector_present c.
Proof.
  rewrite cmp_overall_classify, !merge_current, cmp_epoch_current, cmp_boot_current.
  cbn. rewrite !classify_generation_current. unfold AuthorityVector_present.
  destruct s, c; cbn. split; [intuition congruence|].
  intros [[=] ?]; subst. intuition.
Qed.

(** The overall class is the maximum of the six per-field severities. *)
Lemma classify_severity s c :
  let k := classify s c in
  severity (cmp_overall k) =
  foldr Z.max 0 (severity <$> [cmp_topology k; cmp_path_authority k; cmp_policy k;
                               cmp_obligations k; cmp_epoch k; cmp_boot k]).
Proof.
  intros k. unfold k. rewrite cmp_overall_classify, !merge_severity. cbn [fmap list_fmap foldr].
  assert (Hnn : forall a, 0 <= severity a) by (intros []; cbn; lia).
  pose proof (Hnn (cmp_boot (classify s c))). lia.
Qed.

(** A boot identity from another incarnation is never a conflict. *)
Lemma classify_boot_never_conflict s c : cmp_boot (classify s c) <> AuthorityClass_conflict.
Proof. cbn. repeat case_match; done. Qed.
