(* ===== verification/Model.v ===== *)
(** * The supplied inputs of a decision ([include/pff/model.hpp], [src/model.cpp])

    Observations, obligations, policy, candidates and alternate sets, their
    validation, and the exact integer objective. *)

From S2P Require Import Prelude.
From S2P Require Import Ids.
From S2P Require Import Limits.
From S2P Require Import Status.
From S2P Require Import Checked.
From S2P Require Import Authority.

Inductive Provenance :=
  | Provenance_real | Provenance_synthetic | Provenance_unsupported.

Definition Provenance_value (x : Provenance) : Z :=
  match x with
  | Provenance_real => 0 | Provenance_synthetic => 1 | Provenance_unsupported => 2
  end.

#[export] Program Instance Provenance_enum : Enum Provenance := {|
  enum_all := [
    Provenance_real; Provenance_synthetic; Provenance_unsupported];
  enum_value := Provenance_value;
  enum_first := Provenance_real |}.
Solve Obligations with solve_enum.
#[export] Instance Provenance_eq_dec : EqDecision Provenance := enum_eq_decision.

Inductive Freshness :=
  | Freshness_fresh | Freshness_stale | Freshness_unknown.

Definition Freshness_value (x : Freshness) : Z :=
  match x with
  | Freshness_fresh => 0 | Freshness_stale => 1 | Freshness_unknown => 2
  end.

#[export] Program Instance Freshness_enum : Enum Freshness := {|
  enum_all := [
    Freshness_fresh; Freshness_stale; Freshness_unknown];
  enum_value := Freshness_value;
  enum_first := Freshness_fresh |}.
Solve Obligations with solve_enum.
#[export] Instance Freshness_eq_dec : EqDecision Freshness := enum_eq_decision.

Inductive Eligibility :=
  | Eligibility_eligible | Eligibility_ineligible | Eligibility_unknown.

Definition Eligibility_value (x : Eligibility) : Z :=
  match x with
  | Eligibility_eligible => 0 | Eligibility_ineligible => 1 | Eligibility_unknown => 2
  end.

#[export] Program Instance Eligibility_enum : Enum Eligibility := {|
  enum_all := [
    Eligibility_eligible; Eligibility_ineligible; Eligibility_unknown];
  enum_value := Eligibility_value;
  enum_first := Eligibility_eligible |}.
Solve Obligations with solve_enum.
#[export] Instance Eligibility_eq_dec : EqDecision Eligibility := enum_eq_decision.

Inductive Reachability :=
  | Reachability_reachable | Reachability_unreachable | Reachability_unknown.

Definition Reachability_value (x : Reachability) : Z :=
  match x with
  | Reachability_reachable => 0 | Reachability_unreachable => 1 | Reachability_unknown => 2
  end.

#[export] Program Instance Reachability_enum : Enum Reachability := {|
  enum_all := [
    Reachability_reachable; Reachability_unreachable; Reachability_unknown];
  enum_value := Reachability_value;
  enum_first := Reachability_reachable |}.
Solve Obligations with solve_enum.
#[export] Instance Reachability_eq_dec : EqDecision Reachability := enum_eq_decision.

Inductive CapacityClass :=
  | CapacityClass_sufficient | CapacityClass_insufficient | CapacityClass_unknown.

Definition CapacityClass_value (x : CapacityClass) : Z :=
  match x with
  | CapacityClass_sufficient => 0 | CapacityClass_insufficient => 1 | CapacityClass_unknown => 2
  end.

#[export] Program Instance CapacityClass_enum : Enum CapacityClass := {|
  enum_all := [
    CapacityClass_sufficient; CapacityClass_insufficient; CapacityClass_unknown];
  enum_value := CapacityClass_value;
  enum_first := CapacityClass_sufficient |}.
Solve Obligations with solve_enum.
#[export] Instance CapacityClass_eq_dec : EqDecision CapacityClass := enum_eq_decision.

Inductive SetCompleteness :=
  | SetCompleteness_complete | SetCompleteness_partial | SetCompleteness_unknown.

Definition SetCompleteness_value (x : SetCompleteness) : Z :=
  match x with
  | SetCompleteness_complete => 0 | SetCompleteness_partial => 1 | SetCompleteness_unknown => 2
  end.

#[export] Program Instance SetCompleteness_enum : Enum SetCompleteness := {|
  enum_all := [
    SetCompleteness_complete; SetCompleteness_partial; SetCompleteness_unknown];
  enum_value := SetCompleteness_value;
  enum_first := SetCompleteness_complete |}.
Solve Obligations with solve_enum.
#[export] Instance SetCompleteness_eq_dec : EqDecision SetCompleteness := enum_eq_decision.

Inductive IncumbentCondition :=
  | IncumbentCondition_failed | IncumbentCondition_invalidated | IncumbentCondition_degraded.

Definition IncumbentCondition_value (x : IncumbentCondition) : Z :=
  match x with
  | IncumbentCondition_failed => 0 | IncumbentCondition_invalidated => 1
  | IncumbentCondition_degraded => 2
  end.

#[export] Program Instance IncumbentCondition_enum : Enum IncumbentCondition := {|
  enum_all := [
    IncumbentCondition_failed; IncumbentCondition_invalidated; IncumbentCondition_degraded];
  enum_value := IncumbentCondition_value;
  enum_first := IncumbentCondition_failed |}.
Solve Obligations with solve_enum.
#[export] Instance IncumbentCondition_eq_dec : EqDecision IncumbentCondition := enum_eq_decision.

(** [weakest] compares the underlying integers. *)
Definition weakest (a b : Provenance) : Provenance := if enum_leb b a then a else b.

Definition Provenance_to_string (p : Provenance) : string :=
  match p with
  | Provenance_real => "REAL"
  | Provenance_synthetic => "SYNTHETIC"
  | Provenance_unsupported => "UNSUPPORTED"
  end.
Definition Freshness_to_string (v : Freshness) : string :=
  match v with
  | Freshness_fresh => "FRESH" | Freshness_stale => "STALE" | Freshness_unknown => "UNKNOWN"
  end.
Definition Eligibility_to_string (v : Eligibility) : string :=
  match v with
  | Eligibility_eligible => "ELIGIBLE"
  | Eligibility_ineligible => "INELIGIBLE"
  | Eligibility_unknown => "UNKNOWN"
  end.
Definition Reachability_to_string (v : Reachability) : string :=
  match v with
  | Reachability_reachable => "REACHABLE"
  | Reachability_unreachable => "UNREACHABLE"
  | Reachability_unknown => "UNKNOWN"
  end.
Definition CapacityClass_to_string (v : CapacityClass) : string :=
  match v with
  | CapacityClass_sufficient => "SUFFICIENT"
  | CapacityClass_insufficient => "INSUFFICIENT"
  | CapacityClass_unknown => "UNKNOWN"
  end.
Definition SetCompleteness_to_string (c : SetCompleteness) : string :=
  match c with
  | SetCompleteness_complete => "COMPLETE"
  | SetCompleteness_partial => "PARTIAL"
  | SetCompleteness_unknown => "UNKNOWN"
  end.
Definition IncumbentCondition_to_string (c : IncumbentCondition) : string :=
  match c with
  | IncumbentCondition_failed => "FAILED"
  | IncumbentCondition_invalidated => "INVALIDATED"
  | IncumbentCondition_degraded => "DEGRADED"
  end.

(** ** Observations *)

(** A 32-bit mask. *)
Abbreviation CapabilityMask := Z (only parsing).

Record PathEvidence := mkPathEvidence {
  ev_id : EvidenceId;
  ev_path : PathId;
  ev_freshness : Freshness;
  ev_eligibility : Eligibility;
  ev_reachability : Reachability;
  ev_capacity : CapacityClass;
  ev_capabilities : CapabilityMask;
  ev_health_ppm : Z;
  ev_cost_units : Z;
  ev_observation_seq : Z;
  ev_observed_under : AuthorityVector;
  ev_provenance : Provenance }.

#[export] Instance PathEvidence_eta : Eta PathEvidence :=
  fun v => mkPathEvidence (ev_id v) (ev_path v) (ev_freshness v) (ev_eligibility v)
             (ev_reachability v) (ev_capacity v) (ev_capabilities v) (ev_health_ppm v)
             (ev_cost_units v) (ev_observation_seq v) (ev_observed_under v) (ev_provenance v).
#[export] Instance PathEvidence_eq_dec : EqDecision PathEvidence.
Proof. solve_decision. Defined.

Definition PathEvidence_default : PathEvidence :=
  mkPathEvidence Id_absent Id_absent Freshness_unknown Eligibility_unknown Reachability_unknown
    CapacityClass_unknown 0 0 0 0 AuthorityVector_default Provenance_synthetic.

Record EffectEvidence := mkEffectEvidence {
  eff_id : EvidenceId;
  eff_path : PathId;
  eff_observation_seq : Z;
  eff_effect_verified : bool;
  eff_observed_under : AuthorityVector;
  eff_provenance : Provenance }.

#[export] Instance EffectEvidence_eta : Eta EffectEvidence :=
  fun v => mkEffectEvidence (eff_id v) (eff_path v) (eff_observation_seq v)
             (eff_effect_verified v) (eff_observed_under v) (eff_provenance v).
#[export] Instance EffectEvidence_eq_dec : EqDecision EffectEvidence.
Proof. solve_decision. Defined.

Definition EffectEvidence_default : EffectEvidence :=
  mkEffectEvidence Id_absent Id_absent 0 false AuthorityVector_default Provenance_synthetic.

(** ** Obligations and policy *)

Record ServiceObligations := mkServiceObligations {
  ob_generation : Generation;
  ob_required_capabilities : CapabilityMask;
  ob_min_health_ppm : Z;
  ob_max_cost_units : Z;
  ob_require_reachable : bool;
  ob_require_capacity : bool;
  ob_require_fresh_evidence : bool }.

#[export] Instance ServiceObligations_eta : Eta ServiceObligations :=
  fun v => mkServiceObligations (ob_generation v) (ob_required_capabilities v)
             (ob_min_health_ppm v) (ob_max_cost_units v) (ob_require_reachable v)
             (ob_require_capacity v) (ob_require_fresh_evidence v).
#[export] Instance ServiceObligations_eq_dec : EqDecision ServiceObligations.
Proof. solve_decision. Defined.

Definition ServiceObligations_default : ServiceObligations :=
  mkServiceObligations Id_absent 0 0 cost_scale true true true.

Definition ServiceObligations_eqb (a b : ServiceObligations) : bool :=
  Id_eqb (ob_generation a) (ob_generation b) &&
  (ob_required_capabilities a =? ob_required_capabilities b) &&
  (ob_min_health_ppm a =? ob_min_health_ppm b) &&
  (ob_max_cost_units a =? ob_max_cost_units b) &&
  Bool.eqb (ob_require_reachable a) (ob_require_reachable b) &&
  Bool.eqb (ob_require_capacity a) (ob_require_capacity b) &&
  Bool.eqb (ob_require_fresh_evidence a) (ob_require_fresh_evidence b).

Record FailoverPolicy := mkFailoverPolicy {
  pol_generation : Generation;
  pol_w_health : Z;
  pol_w_cost : Z;
  pol_w_rank : Z;
  pol_w_capability : Z;
  pol_min_score : Z;
  pol_search_limit : Z;
  pol_max_retained_attempts : Z;
  pol_max_revalidations : Z;
  pol_allow_unknown_skip : bool;
  pol_require_verified_effect : bool }.

#[export] Instance FailoverPolicy_eta : Eta FailoverPolicy :=
  fun v => mkFailoverPolicy (pol_generation v) (pol_w_health v) (pol_w_cost v) (pol_w_rank v)
             (pol_w_capability v) (pol_min_score v) (pol_search_limit v)
             (pol_max_retained_attempts v) (pol_max_revalidations v) (pol_allow_unknown_skip v)
             (pol_require_verified_effect v).
#[export] Instance FailoverPolicy_eq_dec : EqDecision FailoverPolicy.
Proof. solve_decision. Defined.

Definition FailoverPolicy_default : FailoverPolicy :=
  mkFailoverPolicy Id_absent 1 1 1 1 0 default_search_limit 256 4 false true.

Definition FailoverPolicy_eqb (a b : FailoverPolicy) : bool :=
  Id_eqb (pol_generation a) (pol_generation b) &&
  (pol_w_health a =? pol_w_health b) && (pol_w_cost a =? pol_w_cost b) &&
  (pol_w_rank a =? pol_w_rank b) && (pol_w_capability a =? pol_w_capability b) &&
  (pol_min_score a =? pol_min_score b) && (pol_search_limit a =? pol_search_limit b) &&
  (pol_max_retained_attempts a =? pol_max_retained_attempts b) &&
  (pol_max_revalidations a =? pol_max_revalidations b) &&
  Bool.eqb (pol_allow_unknown_skip a) (pol_allow_unknown_skip b) &&
  Bool.eqb (pol_require_verified_effect a) (pol_require_verified_effect b).

(** ** Candidates and sets *)

Record AlternateCandidate := mkAlternateCandidate {
  cand_path : PathId;
  cand_upstream_rank : Z;
  cand_withdrawn : bool;
  cand_evidence : PathEvidence;
  cand_authority : AuthorityVector }.

#[export] Instance AlternateCandidate_eta : Eta AlternateCandidate :=
  fun v => mkAlternateCandidate (cand_path v) (cand_upstream_rank v) (cand_withdrawn v)
             (cand_evidence v) (cand_authority v).
#[export] Instance AlternateCandidate_eq_dec : EqDecision AlternateCandidate.
Proof. solve_decision. Defined.

Record AlternateSet := mkAlternateSet {
  set_id : AlternateSetId;
  set_generation : Generation;
  set_completeness : SetCompleteness;
  set_candidates : list AlternateCandidate }.

#[export] Instance AlternateSet_eta : Eta AlternateSet :=
  fun v => mkAlternateSet (set_id v) (set_generation v) (set_completeness v) (set_candidates v).
#[export] Instance AlternateSet_eq_dec : EqDecision AlternateSet.
Proof. solve_decision. Defined.

Record PromotionRequest := mkPromotionRequest {
  req_incumbent : PathId;
  req_condition : IncumbentCondition;
  req_set : AlternateSetId;
  req_set_generation : Generation;
  req_policy_generation : Generation;
  req_obligations_generation : Generation;
  req_topology_generation : Generation;
  req_path_authority_generation : Generation;
  req_epoch : Epoch;
  req_boot : BootId;
  req_attempt : AttemptId }.

Definition PromotionRequest_basis (r : PromotionRequest) : AuthorityVector :=
  mkAuthorityVector (req_topology_generation r) (req_path_authority_generation r)
    (req_policy_generation r) (req_obligations_generation r) (req_epoch r) (req_boot r).

(** ** Validation *)

Definition PathEvidence_validate (e : PathEvidence) : Status :=
  if negb (Id_valid (ev_path e)) then
    mkStatus Code_invalid Reason_domain_invalid "evidence path identity absent"
  else if negb (in_range (ev_health_ppm e) 0 health_scale) then
    mkStatus Code_invalid Reason_domain_invalid "health_ppm out of range"
  else if negb (in_range (ev_cost_units e) 0 cost_scale) then
    mkStatus Code_invalid Reason_domain_invalid "cost_units out of range"
  else ok_status.

Definition EffectEvidence_validate (e : EffectEvidence) : Status :=
  if negb (Id_valid (eff_path e)) then
    mkStatus Code_invalid Reason_domain_invalid "effect path identity absent"
  else if negb (eff_effect_verified e) then
    mkStatus Code_invalid Reason_effect_unverified
      "effect evidence must be verified by an external observer"
  else ok_status.

Definition ServiceObligations_validate (o : ServiceObligations) : Status :=
  if negb (Id_valid (ob_generation o)) then
    mkStatus Code_invalid Reason_obligations_invalid "obligations generation absent"
  else if negb (in_range (ob_min_health_ppm o) 0 health_scale) then
    mkStatus Code_invalid Reason_obligations_invalid "min_health_ppm out of range"
  else if negb (in_range (ob_max_cost_units o) 0 cost_scale) then
    mkStatus Code_invalid Reason_obligations_invalid "max_cost_units out of range"
  else ok_status.

Definition FailoverPolicy_validate (p : FailoverPolicy) : Status :=
  if negb (Id_valid (pol_generation p)) then
    mkStatus Code_invalid Reason_policy_invalid "policy generation absent"
  else if existsb (fun weight => (weight <? - max_weight) || (max_weight <? weight))
            [pol_w_health p; pol_w_cost p; pol_w_rank p; pol_w_capability p] then
    mkStatus Code_invalid Reason_policy_invalid "policy weight out of range"
  else if (pol_search_limit p =? 0) || (max_search_limit <? pol_search_limit p) then
    mkStatus Code_invalid Reason_policy_invalid "search_limit out of range"
  else if (pol_max_retained_attempts p =? 0) || (max_attempts <? pol_max_retained_attempts p) then
    mkStatus Code_invalid Reason_policy_invalid "max_retained_attempts out of range"
  else if 1024 <? pol_max_revalidations p then
    mkStatus Code_invalid Reason_policy_invalid "max_revalidations out of range"
  else if (pol_min_score p <? - (INT64_MAX / 4)) || (INT64_MAX / 4 <? pol_min_score p) then
    mkStatus Code_invalid Reason_policy_invalid "min_score out of range"
  else ok_status.

Definition AlternateCandidate_validate (c : AlternateCandidate) : Status :=
  if negb (Id_valid (cand_path c)) then
    mkStatus Code_invalid Reason_domain_invalid "candidate path identity absent"
  else if rank_scale <? cand_upstream_rank c then
    mkStatus Code_invalid Reason_rank_out_of_range "upstream rank out of range"
  else if negb (Id_eqb (ev_path (cand_evidence c)) (cand_path c)) then
    mkStatus Code_invalid Reason_domain_invalid
      "candidate evidence does not belong to the candidate path"
  else PathEvidence_validate (cand_evidence c).

(** The loop over the candidates: the first failing status, if any. *)
Fixpoint validate_candidates (cs : list AlternateCandidate) : Status :=
  match cs with
  | [] => ok_status
  | c :: cs' =>
      let status := AlternateCandidate_validate c in
      if negb (Status_ok status) then status else validate_candidates cs'
  end.

(** The quadratic search for [candidates[i].path == candidates[j].path], [i < j]. *)
Fixpoint duplicate_paths (cs : list AlternateCandidate) : bool :=
  match cs with
  | [] => false
  | c :: cs' =>
      existsb (fun c' => Id_eqb (cand_path c) (cand_path c')) cs' || duplicate_paths cs'
  end.

Definition AlternateSet_validate (s : AlternateSet) : Status :=
  if negb (Id_valid (set_id s)) then
    mkStatus Code_invalid Reason_domain_invalid "alternate set identity absent"
  else if negb (Id_valid (set_generation s)) then
    mkStatus Code_invalid Reason_domain_invalid "alternate set generation absent"
  else if max_candidates_per_set <? size_of (set_candidates s) then
    mkStatus Code_invalid Reason_candidates_too_many "alternate set exceeds bound"
  else
    let status := validate_candidates (set_candidates s) in
    if negb (Status_ok status) then status
    else if duplicate_paths (set_candidates s) then
      mkStatus Code_invalid Reason_duplicate_path "duplicate candidate path"
    else ok_status.

(** ** The objective *)

Record ScoreTerms := mkScoreTerms {
  st_health : Z; st_cost : Z; st_rank : Z; st_capability : Z; st_total : Z }.

#[export] Instance ScoreTerms_eta : Eta ScoreTerms :=
  fun t => mkScoreTerms (st_health t) (st_cost t) (st_rank t) (st_capability t) (st_total t).
#[export] Instance ScoreTerms_eq_dec : EqDecision ScoreTerms.
Proof. solve_decision. Defined.

Definition ScoreTerms_default : ScoreTerms := mkScoreTerms 0 0 0 0 0.

(** [std::popcount] of a 32-bit mask. *)
Definition popcount32 (mask : Z) : Z :=
  size_of (filter (fun i => Z.testbit mask i = true) (seqZ 0 32)).

Definition compute_score (policy : FailoverPolicy) (obligations : ServiceObligations)
    (evidence : PathEvidence) (upstream_rank : Z) : Result ScoreTerms :=
  let health := clamp_i64 (ev_health_ppm evidence) 0 health_scale in
  let cost := clamp_i64 (ev_cost_units evidence) 0 cost_scale in
  let rank := clamp_i64 upstream_rank 0 rank_scale in
  let satisfied :=
    popcount32 (Z.land (ev_capabilities evidence) (ob_required_capabilities obligations)) in
  let capability := satisfied in
  match checked_mul (pol_w_health policy) health,
        checked_mul (pol_w_cost policy) (cost_scale - cost),
        checked_mul (pol_w_rank policy) (rank_scale - rank),
        checked_mul (pol_w_capability policy) capability with
  | Some t_health, Some t_cost, Some t_rank, Some t_capability =>
      match (t1 ← checked_add t_health t_cost;
             t2 ← checked_add t1 t_rank;
             checked_add t2 t_capability) with
      | Some total => Ok (mkScoreTerms t_health t_cost t_rank t_capability total)
      | None => Err (mkStatus Code_invalid Reason_score_overflow "objective total overflow")
      end
  | _, _, _, _ => Err (mkStatus Code_invalid Reason_score_overflow "objective term overflow")
  end.

(** ** Validation lemmas *)

Lemma guard_status_ok (b : bool) s s' :
  Status_ok s = false -> Status_ok (if b then s else s') = negb b && Status_ok s'.
Proof. intros Hs. by destruct b; cbn. Qed.

(** Rewrites a cascade of guarded refusals into the conjunction of its guards. *)
Ltac guards := rewrite ?guard_status_ok by reflexivity; cbn [Status_ok ok_status status_code];
  rewrite ?andb_true_iff, ?negb_true_iff, ?negb_false_iff.

Lemma PathEvidence_validate_ok e :
  Status_ok (PathEvidence_validate e) = true <->
  Id_valid (ev_path e) = true /\ 0 <= ev_health_ppm e <= health_scale /\
  0 <= ev_cost_units e <= cost_scale.
Proof.
  unfold PathEvidence_validate. guards. rewrite !in_range_spec. tauto.
Qed.

Lemma EffectEvidence_validate_ok e :
  Status_ok (EffectEvidence_validate e) = true <->
  Id_valid (eff_path e) = true /\ eff_effect_verified e = true.
Proof. unfold EffectEvidence_validate. guards. tauto. Qed.

Lemma ServiceObligations_validate_ok o :
  Status_ok (ServiceObligations_validate o) = true <->
  Id_valid (ob_generation o) = true /\ 0 <= ob_min_health_ppm o <= health_scale /\
  0 <= ob_max_cost_units o <= cost_scale.
Proof. unfold ServiceObligations_validate. guards. rewrite !in_range_spec. tauto. Qed.

Lemma FailoverPolicy_validate_ok p :
  Status_ok (FailoverPolicy_validate p) = true <->
  Id_valid (pol_generation p) = true /\
  Forall (fun w => - max_weight <= w <= max_weight)
    [pol_w_health p; pol_w_cost p; pol_w_rank p; pol_w_capability p] /\
  pol_search_limit p <> 0 /\ pol_search_limit p <= max_search_limit /\
  pol_max_retained_attempts p <> 0 /\ pol_max_retained_attempts p <= max_attempts /\
  pol_max_revalidations p <= 1024 /\
  - (INT64_MAX / 4) <= pol_min_score p <= INT64_MAX / 4.
Proof.
  unfold FailoverPolicy_validate. guards. cbn [existsb].
  rewrite !orb_false_iff, !Z.ltb_ge, !Z.eqb_neq.
  rewrite !List.Forall_cons_iff, List.Forall_nil_iff. tauto.
Qed.

Lemma AlternateCandidate_validate_ok c :
  Status_ok (AlternateCandidate_validate c) = true <->
  Id_valid (cand_path c) = true /\ cand_upstream_rank c <= rank_scale /\
  ev_path (cand_evidence c) = cand_path c /\
  Status_ok (PathEvidence_validate (cand_evidence c)) = true.
Proof.
  unfold AlternateCandidate_validate. guards. rewrite Z.ltb_ge, Id_eqb_eq. tauto.
Qed.

Lemma validate_candidates_ok cs :
  Status_ok (validate_candidates cs) = true <->
  Forall (fun c => Status_ok (AlternateCandidate_validate c) = true) cs.
Proof.
  induction cs as [|c cs IH]; cbn [validate_candidates].
  - by rewrite List.Forall_nil_iff.
  - rewrite List.Forall_cons_iff, <- IH. cbv zeta.
    destruct (Status_ok (AlternateCandidate_validate c)) eqn:E; cbn [negb].
    + tauto.
    + rewrite E. intuition congruence.
Qed.

Lemma duplicate_paths_spec cs : duplicate_paths cs = false <-> NoDup (cand_path <$> cs).
Proof.
  induction cs as [|c cs IH]; cbn [duplicate_paths fmap list_fmap].
  - split; [by constructor|done].
  - rewrite orb_false_iff, IH, list.NoDup_cons.
    assert (existsb (fun c' => Id_eqb (cand_path c) (cand_path c')) cs = false <->
            cand_path c ∉ cand_path <$> cs) as ->; [|done].
    rewrite <- not_true_iff_false, existsb_exists, list_elem_of_fmap.
    split; intros Hn Hex; apply Hn.
    + destruct Hex as (c' & Heq & Hin). exists c'. by rewrite <- list_elem_of_In, Id_eqb_eq.
    + destruct Hex as (c' & Hin & Heq). exists c'.
      by rewrite <- list_elem_of_In, Id_eqb_eq in *.
Qed.

(** What [AlternateSet::validate] establishes. *)
Record AlternateSet_valid (s : AlternateSet) : Prop := {
  set_valid_id : Id_valid (set_id s) = true;
  set_valid_generation : Id_valid (set_generation s) = true;
  set_valid_size : size_of (set_candidates s) <= max_candidates_per_set;
  set_valid_candidates :
    Forall (fun c => Status_ok (AlternateCandidate_validate c) = true) (set_candidates s);
  set_valid_paths : NoDup (cand_path <$> set_candidates s) }.

Lemma AlternateSet_validate_ok s :
  Status_ok (AlternateSet_validate s) = true <-> AlternateSet_valid s.
Proof.
  unfold AlternateSet_validate. cbv zeta. guards.
  rewrite Z.ltb_ge.
  destruct (Status_ok (validate_candidates (set_candidates s))) eqn:E; cbn [negb].
  - apply validate_candidates_ok in E. guards. rewrite duplicate_paths_spec.
    split; [intros (?&?&?&?&_); by constructor | intros []; tauto].
  - rewrite E. split; [intros (?&?&?&?); done|].
    intros []. by rewrite (proj2 (validate_candidates_ok _)) in E.
Qed.

(** ** The objective on validated inputs *)

Lemma popcount32_range m : 0 <= popcount32 m <= 32.
Proof.
  unfold popcount32, size_of. split; [lia|].
  pose proof (length_filter (fun i => Z.testbit m i = true) (seqZ 0 32)) as Hl.
  rewrite length_seqZ in Hl. lia.
Qed.

(** The four terms and their sum over unbounded integers. *)
Definition objective_terms (p : FailoverPolicy) (o : ServiceObligations) (e : PathEvidence)
    (rank : Z) : ScoreTerms :=
  let th := pol_w_health p * clamp_i64 (ev_health_ppm e) 0 health_scale in
  let tc := pol_w_cost p * (cost_scale - clamp_i64 (ev_cost_units e) 0 cost_scale) in
  let tr := pol_w_rank p * (rank_scale - clamp_i64 rank 0 rank_scale) in
  let tk := pol_w_capability p *
            popcount32 (Z.land (ev_capabilities e) (ob_required_capabilities o)) in
  mkScoreTerms th tc tr tk (th + tc + tr + tk).

Lemma mul_bounds w x b : - max_weight <= w <= max_weight -> 0 <= x <= b ->
  - (max_weight * b) <= w * x <= max_weight * b.
Proof. unfold_limits. nia. Qed.

(** For a validated policy the checked objective never overflows and equals
    the exact sum. *)
Lemma compute_score_exact p o e rank :
  Status_ok (FailoverPolicy_validate p) = true ->
  compute_score p o e rank = Ok (objective_terms p o e rank).
Proof.
  intros Hp. apply FailoverPolicy_validate_ok in Hp as (_ & Hw & _).
  rewrite !List.Forall_cons_iff in Hw. destruct Hw as (Hw1 & Hw2 & Hw3 & Hw4 & _).
  unfold compute_score, objective_terms. cbv zeta.
  set (h := clamp_i64 (ev_health_ppm e) 0 health_scale).
  set (c := clamp_i64 (ev_cost_units e) 0 cost_scale).
  set (r := clamp_i64 rank 0 rank_scale).
  set (k := popcount32 _).
  assert (Hh : 0 <= h <= health_scale) by (apply clamp_i64_range; unfold_limits; lia).
  assert (Hc : 0 <= c <= cost_scale) by (apply clamp_i64_range; unfold_limits; lia).
  assert (Hr : 0 <= r <= rank_scale) by (apply clamp_i64_range; unfold_limits; lia).
  assert (Hk : 0 <= k <= 32) by apply popcount32_range.
  pose proof (mul_bounds _ _ _ Hw1 Hh) as B1.
  pose proof (mul_bounds (pol_w_cost p) (cost_scale - c) cost_scale Hw2 ltac:(lia)) as B2.
  pose proof (mul_bounds (pol_w_rank p) (rank_scale - r) rank_scale Hw3 ltac:(lia)) as B3.
  pose proof (mul_bounds _ _ _ Hw4 Hk) as B4.
  clearbody h c r k. unfold_limits.
  rewrite !checked_mul_eq by (unfold_ints; lia).
  rewrite checked_add_eq by (unfold_ints; lia). cbn [mbind option_bind].
  rewrite checked_add_eq by (unfold_ints; lia). cbn [mbind option_bind].
  by rewrite checked_add_eq by (unfold_ints; lia).
Qed.

(** Evidence that is at least as healthy, no costlier, supplied at no later a
    rank and with the same satisfied capabilities never scores lower. *)
Lemma objective_monotone p o e e' rank rank' :
  0 <= pol_w_health p -> 0 <= pol_w_cost p -> 0 <= pol_w_rank p ->
  ev_health_ppm e <= ev_health_ppm e' -> ev_cost_units e' <= ev_cost_units e ->
  rank' <= rank -> ev_capabilities e = ev_capabilities e' ->
  st_total (objective_terms p o e rank) <= st_total (objective_terms p o e' rank').
Proof.
  intros Hwh Hwc Hwr Hh Hc Hr Hk. cbn. rewrite Hk.
  assert (Hclamp : forall x y lo hi, lo <= hi -> x <= y -> clamp_i64 x lo hi <= clamp_i64 y lo hi).
  { intros x y lo hi Hlh Hxy. unfold clamp_i64.
    destruct (Z.ltb_spec x lo), (Z.ltb_spec hi x), (Z.ltb_spec y lo), (Z.ltb_spec hi y); lia. }
  pose proof (Hclamp _ _ 0 health_scale ltac:(done) Hh).
  pose proof (Hclamp _ _ 0 cost_scale ltac:(done) Hc).
  pose proof (Hclamp _ _ 0 rank_scale ltac:(done) Hr). nia.
Qed.
