(* ===== verification/Decision.v ===== *)
(** * Decisions ([include/pff/decision.hpp], [src/decision.cpp])

    Outcomes, per-candidate assessments, work counters and the decision
    document. *)

From S2P Require Import Prelude.
From S2P Require Import Ids.
From S2P Require Import Limits.
From S2P Require Import Status.
From S2P Require Import Authority.
From S2P Require Import Model.

Inductive PromotionOutcome :=
  | PromotionOutcome_authorized | PromotionOutcome_promoted
  | PromotionOutcome_refused_proven_no_alternate | PromotionOutcome_refused_invalid_input
  | PromotionOutcome_refused_policy_invalid | PromotionOutcome_refused_obligations_invalid
  | PromotionOutcome_refused_stale_authority | PromotionOutcome_refused_conflict
  | PromotionOutcome_refused_fenced | PromotionOutcome_refused_resource_exhausted
  | PromotionOutcome_refused_read_only | PromotionOutcome_refused_already_owned
  | PromotionOutcome_refused_superseded_attempt | PromotionOutcome_indeterminate_incomplete_set
  | PromotionOutcome_indeterminate_unknown_member | PromotionOutcome_indeterminate_search_limit
  | PromotionOutcome_unsupported | PromotionOutcome_reverted | PromotionOutcome_rolled_back.

Definition PromotionOutcome_value (x : PromotionOutcome) : Z :=
  match x with
  | PromotionOutcome_authorized => 0 | PromotionOutcome_promoted => 1
  | PromotionOutcome_refused_proven_no_alternate => 2
  | PromotionOutcome_refused_invalid_input => 3 | PromotionOutcome_refused_policy_invalid => 4
  | PromotionOutcome_refused_obligations_invalid => 5
  | PromotionOutcome_refused_stale_authority => 6 | PromotionOutcome_refused_conflict => 7
  | PromotionOutcome_refused_fenced => 8 | PromotionOutcome_refused_resource_exhausted => 9
  | PromotionOutcome_refused_read_only => 10 | PromotionOutcome_refused_already_owned => 11
  | PromotionOutcome_refused_superseded_attempt => 12
  | PromotionOutcome_indeterminate_incomplete_set => 13
  | PromotionOutcome_indeterminate_unknown_member => 14
  | PromotionOutcome_indeterminate_search_limit => 15 | PromotionOutcome_unsupported => 16
  | PromotionOutcome_reverted => 17 | PromotionOutcome_rolled_back => 18
  end.

#[export] Program Instance PromotionOutcome_enum : Enum PromotionOutcome := {|
  enum_all := [
    PromotionOutcome_authorized; PromotionOutcome_promoted;
    PromotionOutcome_refused_proven_no_alternate; PromotionOutcome_refused_invalid_input;
    PromotionOutcome_refused_policy_invalid; PromotionOutcome_refused_obligations_invalid;
    PromotionOutcome_refused_stale_authority; PromotionOutcome_refused_conflict;
    PromotionOutcome_refused_fenced; PromotionOutcome_refused_resource_exhausted;
    PromotionOutcome_refused_read_only; PromotionOutcome_refused_already_owned;
    PromotionOutcome_refused_superseded_attempt; PromotionOutcome_indeterminate_incomplete_set;
    PromotionOutcome_indeterminate_unknown_member; PromotionOutcome_indeterminate_search_limit;
    PromotionOutcome_unsupported; PromotionOutcome_reverted; PromotionOutcome_rolled_back];
  enum_value := PromotionOutcome_value;
  enum_first := PromotionOutcome_authorized |}.
Solve Obligations with solve_enum.
#[export] Instance PromotionOutcome_eq_dec : EqDecision PromotionOutcome := enum_eq_decision.

Inductive AuthorityKind :=
  | AuthorityKind_observation | AuthorityKind_eligibility | AuthorityKind_recommendation
  | AuthorityKind_acknowledgement | AuthorityKind_grant | AuthorityKind_verified_effect.

Definition AuthorityKind_value (x : AuthorityKind) : Z :=
  match x with
  | AuthorityKind_observation => 0 | AuthorityKind_eligibility => 1
  | AuthorityKind_recommendation => 2 | AuthorityKind_acknowledgement => 3
  | AuthorityKind_grant => 4 | AuthorityKind_verified_effect => 5
  end.

#[export] Program Instance AuthorityKind_enum : Enum AuthorityKind := {|
  enum_all := [
    AuthorityKind_observation; AuthorityKind_eligibility; AuthorityKind_recommendation;
    AuthorityKind_acknowledgement; AuthorityKind_grant; AuthorityKind_verified_effect];
  enum_value := AuthorityKind_value;
  enum_first := AuthorityKind_observation |}.
Solve Obligations with solve_enum.
#[export] Instance AuthorityKind_eq_dec : EqDecision AuthorityKind := enum_eq_decision.

Inductive CandidateVerdict :=
  | CandidateVerdict_selected | CandidateVerdict_promotable_not_selected
  | CandidateVerdict_excluded | CandidateVerdict_indeterminate.

Definition CandidateVerdict_value (x : CandidateVerdict) : Z :=
  match x with
  | CandidateVerdict_selected => 0 | CandidateVerdict_promotable_not_selected => 1
  | CandidateVerdict_excluded => 2 | CandidateVerdict_indeterminate => 3
  end.

#[export] Program Instance CandidateVerdict_enum : Enum CandidateVerdict := {|
  enum_all := [
    CandidateVerdict_selected; CandidateVerdict_promotable_not_selected;
    CandidateVerdict_excluded; CandidateVerdict_indeterminate];
  enum_value := CandidateVerdict_value;
  enum_first := CandidateVerdict_selected |}.
Solve Obligations with solve_enum.
#[export] Instance CandidateVerdict_eq_dec : EqDecision CandidateVerdict := enum_eq_decision.

Definition is_positive_authority (o : PromotionOutcome) : bool :=
  match o with
  | PromotionOutcome_authorized | PromotionOutcome_promoted => true
  | _ => false
  end.

Definition is_refusal (o : PromotionOutcome) : bool :=
  match o with
  | PromotionOutcome_refused_proven_no_alternate | PromotionOutcome_refused_invalid_input
  | PromotionOutcome_refused_policy_invalid | PromotionOutcome_refused_obligations_invalid
  | PromotionOutcome_refused_stale_authority | PromotionOutcome_refused_conflict
  | PromotionOutcome_refused_fenced | PromotionOutcome_refused_resource_exhausted
  | PromotionOutcome_refused_read_only | PromotionOutcome_refused_already_owned
  | PromotionOutcome_refused_superseded_attempt => true
  | _ => false
  end.

Definition is_transition_applied (o : PromotionOutcome) : bool :=
  match o with
  | PromotionOutcome_promoted | PromotionOutcome_reverted => true
  | _ => false
  end.

Definition is_indeterminate (o : PromotionOutcome) : bool :=
  match o with
  | PromotionOutcome_indeterminate_incomplete_set
  | PromotionOutcome_indeterminate_unknown_member
  | PromotionOutcome_indeterminate_search_limit => true
  | _ => false
  end.

Definition PromotionOutcome_to_string (x : PromotionOutcome) : string :=
  match x with
  | PromotionOutcome_authorized => "AUTHORIZED"
  | PromotionOutcome_promoted => "PROMOTED"
  | PromotionOutcome_refused_proven_no_alternate => "REFUSED_PROVEN_NO_ALTERNATE"
  | PromotionOutcome_refused_invalid_input => "REFUSED_INVALID_INPUT"
  | PromotionOutcome_refused_policy_invalid => "REFUSED_POLICY_INVALID"
  | PromotionOutcome_refused_obligations_invalid => "REFUSED_OBLIGATIONS_INVALID"
  | PromotionOutcome_refused_stale_authority => "REFUSED_STALE_AUTHORITY"
  | PromotionOutcome_refused_conflict => "REFUSED_CONFLICT"
  | PromotionOutcome_refused_fenced => "REFUSED_FENCED"
  | PromotionOutcome_refused_resource_exhausted => "REFUSED_RESOURCE_EXHAUSTED"
  | PromotionOutcome_refused_read_only => "REFUSED_READ_ONLY"
  | PromotionOutcome_refused_already_owned => "REFUSED_ALREADY_OWNED"
  | PromotionOutcome_refused_superseded_attempt => "REFUSED_SUPERSEDED_ATTEMPT"
  | PromotionOutcome_indeterminate_incomplete_set => "INDETERMINATE_INCOMPLETE_SET"
  | PromotionOutcome_indeterminate_unknown_member => "INDETERMINATE_UNKNOWN_MEMBER"
  | PromotionOutcome_indeterminate_search_limit => "INDETERMINATE_SEARCH_LIMIT"
  | PromotionOutcome_unsupported => "UNSUPPORTED"
  | PromotionOutcome_reverted => "REVERTED"
  | PromotionOutcome_rolled_back => "ROLLED_BACK"
  end.

Definition AuthorityKind_to_string (x : AuthorityKind) : string :=
  match x with
  | AuthorityKind_observation => "OBSERVATION"
  | AuthorityKind_eligibility => "ELIGIBILITY"
  | AuthorityKind_recommendation => "RECOMMENDATION"
  | AuthorityKind_acknowledgement => "ACKNOWLEDGEMENT"
  | AuthorityKind_grant => "GRANT"
  | AuthorityKind_verified_effect => "VERIFIED_EFFECT"
  end.

Definition CandidateVerdict_to_string (x : CandidateVerdict) : string :=
  match x with
  | CandidateVerdict_selected => "SELECTED"
  | CandidateVerdict_promotable_not_selected => "PROMOTABLE_NOT_SELECTED"
  | CandidateVerdict_excluded => "EXCLUDED"
  | CandidateVerdict_indeterminate => "INDETERMINATE"
  end.

Record CandidateAssessment := mkCandidateAssessment {
  as_path : PathId;
  as_upstream_rank : Z;
  as_terms : ScoreTerms;
  as_verdict : CandidateVerdict;
  as_reason : Reason;
  as_authority : AuthorityClass }.

#[export] Instance CandidateAssessment_eta : Eta CandidateAssessment :=
  fun v => mkCandidateAssessment (as_path v) (as_upstream_rank v) (as_terms v) (as_verdict v)
    (as_reason v) (as_authority v).
#[export] Instance CandidateAssessment_eq_dec : EqDecision CandidateAssessment.
Proof. solve_decision. Defined.

Definition CandidateAssessment_default : CandidateAssessment :=
  mkCandidateAssessment Id_absent 0 ScoreTerms_default CandidateVerdict_excluded Reason_none
    AuthorityClass_unknown.

Record SelectionStats := mkSelectionStats {
  ss_candidates_supplied : Z;
  ss_candidates_considered : Z;
  ss_score_evaluations : Z;
  ss_ordering_comparisons : Z;
  ss_gate_evaluations : Z;
  ss_definite_exclusions : Z;
  ss_indeterminate_members : Z;
  ss_fence_lookups : Z }.

#[export] Instance SelectionStats_eta : Eta SelectionStats :=
  fun v => mkSelectionStats (ss_candidates_supplied v) (ss_candidates_considered v)
    (ss_score_evaluations v) (ss_ordering_comparisons v) (ss_gate_evaluations v)
    (ss_definite_exclusions v) (ss_indeterminate_members v) (ss_fence_lookups v).
#[export] Instance SelectionStats_eq_dec : EqDecision SelectionStats.
Proof. solve_decision. Defined.

Definition SelectionStats_default : SelectionStats :=
  mkSelectionStats 0 0 0 0 0 0 0 0.

Record PromotionDecision := mkPromotionDecision {
  dec_id : DecisionId;
  dec_outcome : PromotionOutcome;
  dec_authority_kind : AuthorityKind;
  dec_incumbent : PathId;
  dec_set : AlternateSetId;
  dec_set_generation : Generation;
  dec_policy_generation : Generation;
  dec_obligations_generation : Generation;
  dec_basis : AuthorityVector;
  dec_attempt : AttemptId;
  dec_selected : PathId;
  dec_ranked : list CandidateAssessment;
  dec_indeterminate_above : list PathId;
  dec_explanation : list (Reason * Z);
  dec_examined : Z;
  dec_supplied : Z;
  dec_search_limited : bool;
  dec_set_complete : bool;
  dec_reason : Reason;
  dec_provenance : Provenance;
  dec_stats : SelectionStats }.

#[export] Instance PromotionDecision_eta : Eta PromotionDecision :=
  fun v => mkPromotionDecision (dec_id v) (dec_outcome v) (dec_authority_kind v)
    (dec_incumbent v) (dec_set v) (dec_set_generation v) (dec_policy_generation v)
    (dec_obligations_generation v) (dec_basis v) (dec_attempt v) (dec_selected v) (dec_ranked v)
    (dec_indeterminate_above v) (dec_explanation v) (dec_examined v) (dec_supplied v)
    (dec_search_limited v) (dec_set_complete v) (dec_reason v) (dec_provenance v) (dec_stats v).
#[export] Instance PromotionDecision_eq_dec : EqDecision PromotionDecision.
Proof. solve_decision. Defined.

Definition PromotionDecision_default : PromotionDecision :=
  mkPromotionDecision Id_absent PromotionOutcome_unsupported AuthorityKind_recommendation
    Id_absent Id_absent Id_absent Id_absent Id_absent AuthorityVector_default Id_absent Id_absent
    [] [] [] 0 0 false false Reason_none Provenance_synthetic SelectionStats_default.

Definition selected_something (d : PromotionDecision) : bool := Id_valid (dec_selected d).

(** Every outcome belongs to exactly one of the documented categories, apart
    from [unsupported], [reverted] and [rolled_back]. *)
Lemma outcome_categories o :
  (is_positive_authority o && is_refusal o = false) /\
  (is_positive_authority o && is_indeterminate o = false) /\
  (is_refusal o && is_indeterminate o = false).
Proof. by destruct o. Qed.
