(* ===== verification/Records.v ===== *)
(** * Durable records ([include/pff/records.hpp], [src/records.cpp]) *)

From S2P Require Import Prelude.
From S2P Require Import Ids.
From S2P Require Import Limits.
From S2P Require Import Status.
From S2P Require Import Authority.
From S2P Require Import Model.
From S2P Require Import Decision.

Inductive AttemptState :=
  | AttemptState_claimed | AttemptState_authorized | AttemptState_effect_recorded
  | AttemptState_committed | AttemptState_refused | AttemptState_fenced | AttemptState_superseded
  | AttemptState_abandoned | AttemptState_rolled_back | AttemptState_interrupted.

Definition AttemptState_value (x : AttemptState) : Z :=
  match x with
  | AttemptState_claimed => 0 | AttemptState_authorized => 1 | AttemptState_effect_recorded => 2
  | AttemptState_committed => 3 | AttemptState_refused => 4 | AttemptState_fenced => 5
  | AttemptState_superseded => 6 | AttemptState_abandoned => 7 | AttemptState_rolled_back => 8
  | AttemptState_interrupted => 9
  end.

#[export] Program Instance AttemptState_enum : Enum AttemptState := {|
  enum_all := [
    AttemptState_claimed; AttemptState_authorized; AttemptState_effect_recorded;
    AttemptState_committed; AttemptState_refused; AttemptState_fenced; AttemptState_superseded;
    AttemptState_abandoned; AttemptState_rolled_back; AttemptState_interrupted];
  enum_value := AttemptState_value;
  enum_first := AttemptState_claimed |}.
Solve Obligations with solve_enum.
#[export] Instance AttemptState_eq_dec : EqDecision AttemptState := enum_eq_decision.

Definition AttemptState_to_string (x : AttemptState) : string :=
  match x with
  | AttemptState_claimed => "CLAIMED"
  | AttemptState_authorized => "AUTHORIZED"
  | AttemptState_effect_recorded => "EFFECT_RECORDED"
  | AttemptState_committed => "COMMITTED"
  | AttemptState_refused => "REFUSED"
  | AttemptState_fenced => "FENCED"
  | AttemptState_superseded => "SUPERSEDED"
  | AttemptState_abandoned => "ABANDONED"
  | AttemptState_rolled_back => "ROLLED_BACK"
  | AttemptState_interrupted => "INTERRUPTED"
  end.

Definition is_terminal_state (s : AttemptState) : bool :=
  match s with
  | AttemptState_committed | AttemptState_refused | AttemptState_fenced
  | AttemptState_superseded | AttemptState_abandoned | AttemptState_rolled_back
  | AttemptState_interrupted => true
  | AttemptState_claimed | AttemptState_authorized | AttemptState_effect_recorded => false
  end.
Definition is_active_state (s : AttemptState) : bool := negb (is_terminal_state s).
Definition is_grant_state (s : AttemptState) : bool :=
  match s with
  | AttemptState_authorized | AttemptState_effect_recorded => true
  | _ => false
  end.

Record AttemptRecord := mkAttemptRecord {
  at_id : AttemptId;
  at_epoch : Epoch;
  at_boot : BootId;
  at_incumbent : PathId;
  at_selected : PathId;
  at_set : AlternateSetId;
  at_set_generation : Generation;
  at_basis : AuthorityVector;
  at_state : AttemptState;
  at_terminal_reason : Reason;
  at_begin_sequence : Z;
  at_terminal_sequence : Z;
  at_revalidations : Z }.

#[export] Instance AttemptRecord_eta : Eta AttemptRecord :=
  fun v => mkAttemptRecord (at_id v) (at_epoch v) (at_boot v) (at_incumbent v) (at_selected v)
    (at_set v) (at_set_generation v) (at_basis v) (at_state v) (at_terminal_reason v)
    (at_begin_sequence v) (at_terminal_sequence v) (at_revalidations v).
#[export] Instance AttemptRecord_eq_dec : EqDecision AttemptRecord.
Proof. solve_decision. Defined.

Definition AttemptRecord_default : AttemptRecord :=
  mkAttemptRecord Id_absent Id_absent Id_absent Id_absent Id_absent Id_absent Id_absent
    AuthorityVector_default AttemptState_claimed Reason_none 0 0 0.

Record FenceRecord := mkFenceRecord {
  fr_id : FenceId;
  fr_epoch : Epoch;
  fr_boot : BootId;
  fr_attempt : AttemptId;
  fr_path : PathId;
  fr_reason : Reason;
  fr_at : AuthorityVector;
  fr_sequence : Z }.

#[export] Instance FenceRecord_eta : Eta FenceRecord :=
  fun v => mkFenceRecord (fr_id v) (fr_epoch v) (fr_boot v) (fr_attempt v) (fr_path v)
    (fr_reason v) (fr_at v) (fr_sequence v).
#[export] Instance FenceRecord_eq_dec : EqDecision FenceRecord.
Proof. solve_decision. Defined.

Definition FenceRecord_default : FenceRecord :=
  mkFenceRecord Id_absent Id_absent Id_absent Id_absent Id_absent Reason_none
    AuthorityVector_default 0.

Record LineageEntry := mkLineageEntry {
  le_decision : DecisionId;
  le_attempt : AttemptId;
  le_epoch : Epoch;
  le_boot : BootId;
  le_outcome : PromotionOutcome;
  le_incumbent : PathId;
  le_selected : PathId;
  le_set : AlternateSetId;
  le_basis : AuthorityVector;
  le_reason : Reason;
  le_sequence : Z }.

#[export] Instance LineageEntry_eta : Eta LineageEntry :=
  fun v => mkLineageEntry (le_decision v) (le_attempt v) (le_epoch v) (le_boot v) (le_outcome v)
    (le_incumbent v) (le_selected v) (le_set v) (le_basis v) (le_reason v) (le_sequence v).
#[export] Instance LineageEntry_eq_dec : EqDecision LineageEntry.
Proof. solve_decision. Defined.

Definition LineageEntry_default : LineageEntry :=
  mkLineageEntry Id_absent Id_absent Id_absent Id_absent PromotionOutcome_unsupported Id_absent
    Id_absent Id_absent AuthorityVector_default Reason_none 0.

Record DurableState := mkDurableState {
  ds_authority : AuthorityVector;
  ds_has_policy : bool;
  ds_policy : FailoverPolicy;
  ds_has_obligations : bool;
  ds_obligations : ServiceObligations;
  ds_sets : list AlternateSet;
  ds_fences : list FenceRecord;
  ds_attempts : list AttemptRecord;
  ds_lineage : list LineageEntry;
  ds_attempt_sequence : Z;
  ds_fence_sequence : Z;
  ds_decision_sequence : Z;
  ds_last_sequence : Z;
  ds_restart_count : Z;
  ds_lineage_truncated : bool;
  ds_fence_overflow : Z;
  ds_attempts_dropped : Z }.

#[export] Instance DurableState_eta : Eta DurableState :=
  fun v => mkDurableState (ds_authority v) (ds_has_policy v) (ds_policy v) (ds_has_obligations v)
    (ds_obligations v) (ds_sets v) (ds_fences v) (ds_attempts v) (ds_lineage v)
    (ds_attempt_sequence v) (ds_fence_sequence v) (ds_decision_sequence v) (ds_last_sequence v)
    (ds_restart_count v) (ds_lineage_truncated v) (ds_fence_overflow v) (ds_attempts_dropped v).
#[export] Instance DurableState_eq_dec : EqDecision DurableState.
Proof. solve_decision. Defined.

Definition DurableState_default : DurableState :=
  mkDurableState AuthorityVector_default false FailoverPolicy_default false
    ServiceObligations_default [] [] [] [] 0 0 0 0 0 false 0 0.

Record FabricIdentity := mkFabricIdentity {
  fi_incarnation : IncarnationId;
  fi_boot : BootId;
  fi_epoch : Epoch;
  fi_process_id : Z;
  fi_start_unix_micros : Z;
  fi_restart_count : Z }.

#[export] Instance FabricIdentity_eta : Eta FabricIdentity :=
  fun v => mkFabricIdentity (fi_incarnation v) (fi_boot v) (fi_epoch v) (fi_process_id v)
    (fi_start_unix_micros v) (fi_restart_count v).
#[export] Instance FabricIdentity_eq_dec : EqDecision FabricIdentity.
Proof. solve_decision. Defined.

Definition FabricIdentity_default : FabricIdentity :=
  mkFabricIdentity Id_absent Id_absent Id_absent 0 0 0.

Record FabricStats := mkFabricStats {
  fs_promotions_authorized : Z;
  fs_promotions_committed : Z;
  fs_promotions_refused : Z;
  fs_promotions_indeterminate : Z;
  fs_fences_recorded : Z;
  fs_stale_completions_rejected : Z;
  fs_rollbacks : Z;
  fs_reversions : Z;
  fs_revalidations : Z;
  fs_journal_records : Z;
  fs_snapshots_written : Z;
  fs_restarts : Z;
  fs_evidence_accepted : Z;
  fs_evidence_rejected : Z;
  fs_attempts_dropped : Z }.

#[export] Instance FabricStats_eta : Eta FabricStats :=
  fun v => mkFabricStats (fs_promotions_authorized v) (fs_promotions_committed v)
    (fs_promotions_refused v) (fs_promotions_indeterminate v) (fs_fences_recorded v)
    (fs_stale_completions_rejected v) (fs_rollbacks v) (fs_reversions v) (fs_revalidations v)
    (fs_journal_records v) (fs_snapshots_written v) (fs_restarts v) (fs_evidence_accepted v)
    (fs_evidence_rejected v) (fs_attempts_dropped v).
#[export] Instance FabricStats_eq_dec : EqDecision FabricStats.
Proof. solve_decision. Defined.

Definition FabricStats_default : FabricStats :=
  mkFabricStats 0 0 0 0 0 0 0 0 0 0 0 0 0 0 0.

Record RecoveryReport := mkRecoveryReport {
  rr_snapshot_loaded : bool;
  rr_snapshot_sequence : Z;
  rr_records_replayed : Z;
  rr_records_skipped : Z;
  rr_torn_tail_present : bool;
  rr_torn_tail_recovered : bool;
  rr_truncated_bytes : Z;
  rr_inspection_only : bool;
  rr_journal_absent : bool;
  rr_journal_bytes : Z }.

#[export] Instance RecoveryReport_eta : Eta RecoveryReport :=
  fun v => mkRecoveryReport (rr_snapshot_loaded v) (rr_snapshot_sequence v)
    (rr_records_replayed v) (rr_records_skipped v) (rr_torn_tail_present v)
    (rr_torn_tail_recovered v) (rr_truncated_bytes v) (rr_inspection_only v)
    (rr_journal_absent v) (rr_journal_bytes v).
#[export] Instance RecoveryReport_eq_dec : EqDecision RecoveryReport.
Proof. solve_decision. Defined.

Definition RecoveryReport_default : RecoveryReport :=
  mkRecoveryReport false 0 0 0 false false 0 false false 0.
