(* ===== verification/Selector.v ===== *)
(** * The deterministic selector ([include/pff/selector.hpp], [src/selector.cpp])

    The bottom-up merge sort with its comparison counter, the thirteen gates,
    and [Selector::evaluate] with every refusal branch. *)

From S2P Require Import Prelude.
From S2P Require Import Ids.
From S2P Require Import Limits.
From S2P Require Import Status.
From S2P Require Import Checked.
From S2P Require Import Authority.
From S2P Require Import Model.
From S2P Require Import Decision.

Record RankedEntry := mkRankedEntry {
  re_assessment : CandidateAssessment;
  re_comparison : AuthorityComparison;
  re_candidate_index : nat;
  re_score_ok : bool }.

#[export] Instance RankedEntry_eta : Eta RankedEntry :=
  fun e => mkRankedEntry (re_assessment e) (re_comparison e) (re_candidate_index e) (re_score_ok e).

Record GateOutcome := mkGateOutcome { go_verdict : CandidateVerdict; go_reason : Reason }.

Definition contains (paths : list PathId) (path : PathId) : bool :=
  existsb (fun candidate => Id_eqb candidate path) paths.

(** ** Deterministic bottom-up merge sort

    The index loops over [data] and [scratch] become list functions: a pass of
    a given width merges the runs [data[start, mid)] and [data[mid, end)] for
    each [start]; [comparisons] counts the calls of [less]. *)

Section sort.
Context {A : Type} (less : A -> A -> bool).

Fixpoint merge_runs (left : list A) : list A -> Z -> list A * Z :=
  fix merge_right (right : list A) (comparisons : Z) : list A * Z :=
    match left, right with
    | [], _ => (right, comparisons)
    | _, [] => (left, comparisons)
    | x :: left', y :: right' =>
        if less y x then
          let (merged, c) := merge_right right' (comparisons + 1) in (y :: merged, c)
        else
          let (merged, c) := merge_runs left' right (comparisons + 1) in (x :: merged, c)
    end.

(** One iteration of the outer loop: [fuel] bounds the number of [start]
    values, and [length data] of them is always enough. *)
Fixpoint merge_pass (fuel : nat) (width : nat) (data : list A) (comparisons : Z) : list A * Z :=
  match fuel, data with
  | O, _ | _, [] => (data, comparisons)
  | S fuel', _ =>
      let left := take width data in
      let right := take width (drop width data) in
      let (merged, c) := merge_runs left right comparisons in
      let (rest, c') := merge_pass fuel' width (drop (2 * width) data) c in
      (merged ++ rest, c')
  end.

Fixpoint sort_passes (fuel : nat) (width : nat) (data : list A) (comparisons : Z) : list A * Z :=
  match fuel with
  | O => (data, comparisons)
  | S fuel' =>
      if (width <? length data)%nat then
        let (data', c) := merge_pass (length data) width data comparisons in
        sort_passes fuel' (2 * width)%nat data' c
      else (data, comparisons)
  end.

Definition deterministic_sort (data : list A) (comparisons : Z) : list A * Z :=
  if (length data <? 2)%nat then (data, comparisons)
  else sort_passes (length data) 1 data comparisons.
End sort.

(** [Selector::canonical_less]: score descending, rank ascending, path ascending. *)
Definition canonical_less (a b : CandidateAssessment) : bool :=
  if negb (st_total (as_terms a) =? st_total (as_terms b)) then
    st_total (as_terms b) <? st_total (as_terms a)
  else if negb (as_upstream_rank a =? as_upstream_rank b) then
    as_upstream_rank a <? as_upstream_rank b
  else Id_ltb (as_path a) (as_path b).

(** ** Gates *)

Definition bump_gate (s : SelectionStats) : SelectionStats :=
  s <| ss_gate_evaluations ::= Z.succ |>.

Definition excluded (r : Reason) : GateOutcome := mkGateOutcome CandidateVerdict_excluded r.
Definition blocked (r : Reason) : GateOutcome := mkGateOutcome CandidateVerdict_indeterminate r.

Definition apply_gates (candidate : AlternateCandidate) (entry : RankedEntry)
    (policy : FailoverPolicy) (obligations : ServiceObligations) (fenced_paths : list PathId)
    (incumbent : PathId) (stats : SelectionStats) : GateOutcome * SelectionStats :=
  let evidence := cand_evidence candidate in
  let stats := bump_gate stats in
  if Id_eqb (cand_path candidate) incumbent then (excluded Reason_incumbent_is_self, stats) else
  let stats := bump_gate stats in
  if cand_withdrawn candidate then (excluded Reason_withdrawn, stats) else
  let stats := bump_gate (stats <| ss_fence_lookups ::= Z.succ |>) in
  if contains fenced_paths (cand_path candidate) then (excluded Reason_path_fenced, stats) else
  let stats := bump_gate stats in
  if decide (cmp_overall (re_comparison entry) = AuthorityClass_stale) then
    (excluded Reason_authority_stale, stats) else
  let stats := bump_gate stats in
  if decide (cmp_overall (re_comparison entry) = AuthorityClass_unknown) then
    (blocked Reason_authority_unknown, stats) else
  let stats := bump_gate stats in
  if negb (re_score_ok entry) then (excluded Reason_score_overflow, stats) else
  let stats := bump_gate stats in
  match ev_eligibility evidence with
  | Eligibility_ineligible => (excluded Reason_eligibility_ineligible, stats)
  | Eligibility_unknown => (blocked Reason_eligibility_unknown, stats)
  | Eligibility_eligible =>
  let stats := if ob_require_fresh_evidence obligations then bump_gate stats else stats in
  match ob_require_fresh_evidence obligations, ev_freshness evidence with
  | true, Freshness_stale => (excluded Reason_evidence_stale, stats)
  | true, Freshness_unknown => (blocked Reason_evidence_unknown, stats)
  | _, _ =>
  let stats := if ob_require_reachable obligations then bump_gate stats else stats in
  match ob_require_reachable obligations, ev_reachability evidence with
  | true, Reachability_unreachable => (excluded Reason_reachability_unreachable, stats)
  | true, Reachability_unknown => (blocked Reason_reachability_unknown, stats)
  | _, _ =>
  let stats := if ob_require_capacity obligations then bump_gate stats else stats in
  match ob_require_capacity obligations, ev_capacity evidence with
  | true, CapacityClass_insufficient => (excluded Reason_capacity_insufficient, stats)
  | true, CapacityClass_unknown => (blocked Reason_capacity_unknown, stats)
  | _, _ =>
  let stats := bump_gate stats in
  if negb (Z.land (ev_capabilities evidence) (ob_required_capabilities obligations)
           =? ob_required_capabilities obligations) then
    (excluded Reason_capability_missing, stats) else
  let stats := bump_gate stats in
  if ev_health_ppm evidence <? ob_min_health_ppm obligations then
    (excluded Reason_health_below_obligation, stats) else
  let stats := bump_gate stats in
  if ob_max_cost_units obligations <? ev_cost_units evidence then
    (excluded Reason_cost_above_obligation, stats) else
  let stats := bump_gate stats in
  if st_total (as_terms (re_assessment entry)) <? pol_min_score policy then
    (excluded Reason_score_below_policy, stats) else
  (mkGateOutcome CandidateVerdict_promotable_not_selected Reason_promotable_not_selected, stats)
  end end end end.

(** ** Explanations and refusals *)

Definition explain (d : PromotionDecision) (reason : Reason) (value : Z) : PromotionDecision :=
  if size_of (dec_explanation d) <? max_explanation_steps
  then d <| dec_explanation ::= fun e => e ++ [(reason, value)] |> else d.

Definition refuse (d : PromotionDecision) (outcome : PromotionOutcome) (reason : Reason)
    (detail : Z) : PromotionDecision :=
  explain (d <| dec_outcome := outcome |> <| dec_reason := reason |>
             <| dec_selected := Id_absent |>) reason detail.

(** ** Evaluation *)

Record SelectionInput := mkSelectionInput {
  si_incumbent : PathId;
  si_set : option AlternateSet;
  si_obligations : option ServiceObligations;
  si_policy : option FailoverPolicy;
  si_current : AuthorityVector;
  si_expected_set_generation : Generation;
  si_fenced_paths : list PathId;
  si_decision_id : DecisionId;
  si_attempt : AttemptId;
  si_provenance : Provenance }.

#[export] Instance SelectionInput_eta : Eta SelectionInput :=
  fun v => mkSelectionInput (si_incumbent v) (si_set v) (si_obligations v) (si_policy v)
    (si_current v) (si_expected_set_generation v) (si_fenced_paths v) (si_decision_id v)
    (si_attempt v) (si_provenance v).

Definition AlternateCandidate_default : AlternateCandidate :=
  mkAlternateCandidate Id_absent 0 false PathEvidence_default AuthorityVector_default.

(** The body of the scoring loop for one candidate. *)
Definition make_entry (policy : FailoverPolicy) (obligations : ServiceObligations)
    (current : AuthorityVector) (index : nat) (candidate : AlternateCandidate) : RankedEntry :=
  let assessment := CandidateAssessment_default <| as_path := cand_path candidate |>
                      <| as_upstream_rank := cand_upstream_rank candidate |> in
  let comparison := classify (cand_authority candidate) current in
  match compute_score policy obligations (cand_evidence candidate) (cand_upstream_rank candidate) with
  | Ok terms => mkRankedEntry (assessment <| as_terms := terms |>) comparison index true
  | Err _ => mkRankedEntry assessment comparison index false
  end.

Definition make_entries (policy : FailoverPolicy) (obligations : ServiceObligations)
    (current : AuthorityVector) (candidates : list AlternateCandidate) : list RankedEntry :=
  imap (make_entry policy obligations current) candidates.

Definition entry_less (a b : RankedEntry) : bool :=
  canonical_less (re_assessment a) (re_assessment b).

(** [std::numeric_limits<std::size_t>::max()], the "none yet" index. *)
Definition npos : Z := UINT64_MAX.

(** The locals the bounded scan updates. *)
Record Scan := mkScan {
  sc_stats : SelectionStats;
  sc_ranked : list CandidateAssessment;
  sc_first_promotable : Z;
  sc_first_indeterminate : Z;
  sc_indeterminate_count : Z;
  sc_stale_exclusions : Z;
  sc_quality_exclusions : Z;
  sc_fatal_conflict : bool }.

#[export] Instance Scan_eta : Eta Scan :=
  fun s => mkScan (sc_stats s) (sc_ranked s) (sc_first_promotable s) (sc_first_indeterminate s)
    (sc_indeterminate_count s) (sc_stale_exclusions s) (sc_quality_exclusions s)
    (sc_fatal_conflict s).

Section scan.
Context (policy : FailoverPolicy) (obligations : ServiceObligations)
  (fenced_paths : list PathId) (incumbent : PathId).

(** One iteration of the scan at index [i]. *)
Definition scan_step (i : Z) (candidate : AlternateCandidate) (entry : RankedEntry)
    (s : Scan) : Scan :=
  let s := if decide (cmp_overall (re_comparison entry) = AuthorityClass_conflict)
           then s <| sc_fatal_conflict := true |> else s in
  let (outcome, stats) :=
    apply_gates candidate entry policy obligations fenced_paths incumbent (sc_stats s) in
  let s := s <| sc_stats := stats |> in
  let assessment := (re_assessment entry) <| as_verdict := go_verdict outcome |>
                      <| as_reason := go_reason outcome |>
                      <| as_authority := cmp_overall (re_comparison entry) |> in
  let s := if bool_decide (go_verdict outcome = CandidateVerdict_promotable_not_selected)
              && (sc_first_promotable s =? npos)
           then s <| sc_first_promotable := i |> else s in
  let s :=
    match go_verdict outcome with
    | CandidateVerdict_indeterminate =>
        let s := if sc_first_indeterminate s =? npos
                 then s <| sc_first_indeterminate := i |> else s in
        s <| sc_indeterminate_count ::= Z.succ |>
    | CandidateVerdict_excluded =>
        if decide (go_reason outcome = Reason_authority_stale)
        then s <| sc_stale_exclusions ::= Z.succ |>
        else s <| sc_quality_exclusions ::= Z.succ |>
    | _ => s
    end in
  s <| sc_ranked ::= fun r => r ++ [assessment] |>.

Fixpoint scan_entries (candidates : list AlternateCandidate) (i : Z)
    (entries : list RankedEntry) (s : Scan) : Scan :=
  match entries with
  | [] => s
  | entry :: entries' =>
      let candidate := nth (re_candidate_index entry) candidates AlternateCandidate_default in
      scan_entries candidates (i + 1) entries' (scan_step i candidate entry s)
  end.
End scan.

(** The loop that counts and explains the definite exclusions. *)
Fixpoint explain_exclusions (ranked : list CandidateAssessment) (d : PromotionDecision)
    : PromotionDecision :=
  match ranked with
  | [] => d
  | a :: ranked' =>
      explain_exclusions ranked'
        (if decide (as_verdict a = CandidateVerdict_excluded) then
           explain (d <| dec_stats ::= fun s => s <| ss_definite_exclusions ::= Z.succ |> |>)
             (as_reason a) (i64_of_u64 (Id_value (as_path a)))
         else d)
  end.

(** The loop that reports blocked members among [ranked[0, first_promotable)]. *)
Fixpoint report_indeterminate (above : list CandidateAssessment) (acc : list PathId)
    : list PathId :=
  match above with
  | [] => acc
  | a :: above' =>
      report_indeterminate above'
        (if bool_decide (as_verdict a = CandidateVerdict_indeterminate)
            && (size_of acc <? max_indeterminate_reported)
         then acc ++ [as_path a] else acc)
  end.

(** What follows the scan: the outcome of the decision. *)
Definition conclude (set : AlternateSet) (policy : FailoverPolicy) (supplied : Z) (s : Scan)
    (decision : PromotionDecision) : PromotionDecision :=
  if sc_fatal_conflict s then
    refuse decision PromotionOutcome_refused_conflict Reason_generation_conflict
      (i64_of_u64 (sc_indeterminate_count s))
  else if negb (sc_first_promotable s =? npos) then
    let above := take (Z.to_nat (sc_first_promotable s)) (dec_ranked decision) in
    let decision := decision <| dec_indeterminate_above ::= report_indeterminate above |> in
    if (sc_first_indeterminate s <? sc_first_promotable s) && negb (pol_allow_unknown_skip policy)
    then
      refuse decision PromotionOutcome_indeterminate_unknown_member Reason_eligibility_unknown
        (i64_of_u64 (sc_indeterminate_count s))
    else
      let p := Z.to_nat (sc_first_promotable s) in
      let decision := decision <| dec_ranked ::= alter (fun a =>
                        a <| as_verdict := CandidateVerdict_selected |>
                          <| as_reason := Reason_selected |>) p |> in
      decision <| dec_selected := as_path (nth p (dec_ranked decision) CandidateAssessment_default) |>
        <| dec_outcome := PromotionOutcome_authorized |> <| dec_reason := Reason_selected |>
  else if 0 <? sc_indeterminate_count s then
    refuse decision PromotionOutcome_indeterminate_unknown_member Reason_eligibility_unknown
      (i64_of_u64 (sc_indeterminate_count s))
  else if dec_search_limited decision then
    refuse decision PromotionOutcome_indeterminate_search_limit Reason_search_limit_reached
      (i64_of_u64 supplied)
  else if negb (bool_decide (set_completeness set = SetCompleteness_complete)) then
    refuse decision PromotionOutcome_indeterminate_incomplete_set
      (if decide (set_completeness set = SetCompleteness_partial)
       then Reason_set_incomplete else Reason_set_completeness_unknown)
      (i64_of_u64 supplied)
  else if 0 <? sc_stale_exclusions s then
    refuse decision PromotionOutcome_refused_stale_authority Reason_authority_stale
      (i64_of_u64 (sc_stale_exclusions s))
  else
    refuse decision PromotionOutcome_refused_proven_no_alternate Reason_proven_no_alternate
      (i64_of_u64 supplied).

(** Scoring, ordering, the bounded scan and the conclusion, on inputs that
    passed validation and the generation checks. *)
Definition select (input : SelectionInput) (set : AlternateSet) (policy : FailoverPolicy)
    (obligations : ServiceObligations) (decision : PromotionDecision) : PromotionDecision :=
  let entries := make_entries policy obligations (si_current input) (set_candidates set) in
  let decision := decision <| dec_stats ::= fun s =>
    s <| ss_score_evaluations ::= Z.add (size_of (set_candidates set)) |> |> in
  let (sorted, comparisons) :=
    deterministic_sort entry_less entries (ss_ordering_comparisons (dec_stats decision)) in
  let decision := decision <| dec_stats ::= fun s =>
    s <| ss_ordering_comparisons := comparisons |> |> in
  let supplied := size_of sorted in
  let limit := Z.min supplied (pol_search_limit policy) in
  let decision := decision <| dec_examined := limit |>
    <| dec_search_limited := limit <? supplied |>
    <| dec_stats ::= fun s => s <| ss_candidates_considered := limit |> |> in
  let s := scan_entries policy obligations (si_fenced_paths input) (si_incumbent input)
             (set_candidates set) 0 (take (Z.to_nat limit) sorted)
             (mkScan (dec_stats decision) [] npos npos 0 0 0 false) in
  let decision := decision <| dec_stats := sc_stats s |> <| dec_ranked := sc_ranked s |> in
  let decision := explain_exclusions (dec_ranked decision) decision in
  let decision := decision <| dec_stats ::= fun st =>
    st <| ss_indeterminate_members := sc_indeterminate_count s |> |> in
  conclude set policy supplied s decision.

(** The refusal of a generation that is not current. *)
Definition refuse_class (cls : AuthorityClass) (stale_reason : Reason) (d : PromotionDecision)
    : PromotionDecision :=
  let conflict := bool_decide (cls = AuthorityClass_conflict) in
  let reason := if decide (cls = AuthorityClass_stale) then stale_reason
                else if conflict then Reason_generation_conflict else Reason_authority_unknown in
  refuse d (if conflict then PromotionOutcome_refused_conflict
            else PromotionOutcome_refused_stale_authority) reason 0.

(** [Selector::evaluate]. *)
Definition evaluate (input : SelectionInput) : Result PromotionDecision :=
  let decision := PromotionDecision_default
    <| dec_id := si_decision_id input |> <| dec_incumbent := si_incumbent input |>
    <| dec_basis := si_current input |> <| dec_attempt := si_attempt input |>
    <| dec_provenance := si_provenance input |>
    <| dec_authority_kind := AuthorityKind_recommendation |>
    <| dec_outcome := PromotionOutcome_unsupported |> <| dec_reason := Reason_none |> in
  match si_set input, si_policy input, si_obligations input with
  | Some set, Some policy, Some obligations =>
      let decision := decision <| dec_set := set_id set |>
        <| dec_set_generation := set_generation set |>
        <| dec_policy_generation := pol_generation policy |>
        <| dec_obligations_generation := ob_generation obligations |>
        <| dec_supplied := size_of (set_candidates set) |>
        <| dec_stats ::= fun s =>
             s <| ss_candidates_supplied := size_of (set_candidates set) |> |>
        <| dec_set_complete :=
             bool_decide (set_completeness set = SetCompleteness_complete) |> in
      if negb (Status_ok (FailoverPolicy_validate policy)) then
        Ok (refuse decision PromotionOutcome_refused_policy_invalid Reason_policy_invalid 0)
      else if negb (Status_ok (ServiceObligations_validate obligations)) then
        Ok (refuse decision PromotionOutcome_refused_obligations_invalid
              Reason_obligations_invalid 0)
      else if negb (Status_ok (AlternateSet_validate set)) then
        Ok (refuse decision PromotionOutcome_refused_invalid_input
              (status_reason (AlternateSet_validate set)) 0)
      else if negb (Id_valid (si_incumbent input)) then
        Ok (refuse decision PromotionOutcome_refused_invalid_input Reason_domain_invalid 0)
      else
        let policy_class :=
          classify_generation (pol_generation policy) (av_policy (si_current input)) in
        let obligations_class :=
          classify_generation (ob_generation obligations) (av_obligations (si_current input)) in
        if negb (bool_decide (policy_class = AuthorityClass_current)) then
          Ok (refuse_class policy_class Reason_policy_generation_stale decision)
        else if negb (bool_decide (obligations_class = AuthorityClass_current)) then
          Ok (refuse_class obligations_class Reason_obligations_generation_stale decision)
        else if Id_valid (si_expected_set_generation input)
                && negb (Id_eqb (si_expected_set_generation input) (set_generation set)) then
          let conflict := Id_ltb (set_generation set) (si_expected_set_generation input) in
          Ok (refuse decision
                (if conflict then PromotionOutcome_refused_conflict
                 else PromotionOutcome_refused_stale_authority)
                (if conflict then Reason_generation_conflict
                 else Reason_set_generation_mismatch) 0)
        else Ok (select input set policy obligations decision)
  | _, _, _ =>
      Ok (refuse decision PromotionOutcome_refused_invalid_input Reason_invalid_payload 0)
  end.
