(* ===== verification/SortProps.v ===== *)
(** * Correctness of the deterministic merge sort

    The bottom-up sort of [Selector] permutes and sorts its input for every
    total preorder given by its strict part [less], performs at most
    [n * ceil(log2 n)] comparisons, and commutes with maps that preserve
    [less]. *)

From S2P Require Import Prelude.
From S2P Require Import Selector.

Section sort_props.
Context {A : Type} (less : A -> A -> bool).

(** [x] may stand before [y]. *)
Definition may_precede (x y : A) : Prop := less y x = false.

Class StrictWeak : Prop := {
  strict_asym : forall x y, less x y = true -> less y x = false;
  strict_trans : forall x y z, less y x = false -> less z y = false -> less z x = false }.

Lemma merge_runs_nil_r l c : merge_runs less l [] c = (l, c).
Proof. by destruct l. Qed.

Lemma merge_runs_nil_l r c : merge_runs less [] r c = (r, c).
Proof. by destruct r. Qed.

Lemma merge_runs_cons x l y r c :
  merge_runs less (x :: l) (y :: r) c =
  if less y x then
    let (merged, c') := merge_runs less (x :: l) r (c + 1) in (y :: merged, c')
  else
    let (merged, c') := merge_runs less l (y :: r) (c + 1) in (x :: merged, c').
Proof. reflexivity. Qed.

(** Induction following the calls of [merge_runs]. *)
Lemma merge_runs_ind (P : list A -> list A -> Z -> list A * Z -> Prop) :
  (forall r c, P [] r c (r, c)) ->
  (forall l c, P l [] c (l, c)) ->
  (forall x l y r c m c', less y x = true ->
     P (x :: l) r (c + 1) (m, c') -> P (x :: l) (y :: r) c (y :: m, c')) ->
  (forall x l y r c m c', less y x = false ->
     P l (y :: r) (c + 1) (m, c') -> P (x :: l) (y :: r) c (x :: m, c')) ->
  forall l r c, P l r c (merge_runs less l r c).
Proof.
  intros Hnil Hnil' Hright Hleft. induction l as [|x l IHl]; intros r c.
  - rewrite merge_runs_nil_l. apply Hnil.
  - revert c. induction r as [|y r IHr]; intros c.
    + rewrite merge_runs_nil_r. apply Hnil'.
    + rewrite merge_runs_cons. destruct (less y x) eqn:Hyx.
      * specialize (IHr (c + 1)). destruct (merge_runs less (x :: l) r (c + 1)). by apply Hright.
      * specialize (IHl (y :: r) (c + 1)). destruct (merge_runs less l (y :: r) (c + 1)).
        by apply Hleft.
Qed.

Lemma merge_runs_perm l r c : (merge_runs less l r c).1 ≡ₚ l ++ r.
Proof.
  apply (merge_runs_ind (fun l r _ res => res.1 ≡ₚ l ++ r)); cbn [fst].
  - done.
  - intros. by rewrite app_nil_r.
  - intros x l' y r' _ m _ _ IH. rewrite IH. apply Permutation_middle.
  - intros x l' y r' _ m _ _ IH. by rewrite IH.
Qed.

Lemma merge_runs_length l r c : length (merge_runs less l r c).1 = (length l + length r)%nat.
Proof. by rewrite merge_runs_perm, length_app. Qed.

Lemma merge_runs_count l r c :
  c <= (merge_runs less l r c).2 <= c + size_of l + size_of r.
Proof.
  apply (merge_runs_ind (fun l r c res => c <= res.2 <= c + size_of l + size_of r)); cbn [snd].
  - intros r' c'. pose proof (size_of_nonneg r'). autorewrite with pff. lia.
  - intros l' c'. pose proof (size_of_nonneg l'). autorewrite with pff. lia.
  - intros x l' y r' c0 m c' _ IH. autorewrite with pff in *. lia.
  - intros x l' y r' c0 m c' _ IH. autorewrite with pff in *. lia.
Qed.

Lemma merge_runs_sorted `{!StrictWeak} l r c :
  StronglySorted may_precede l -> StronglySorted may_precede r ->
  StronglySorted may_precede (merge_runs less l r c).1.
Proof.
  enough (StronglySorted may_precede l -> StronglySorted may_precede r ->
          (merge_runs less l r c).1 ≡ₚ l ++ r /\
          StronglySorted may_precede (merge_runs less l r c).1) as Hboth by (intros Hl Hr; apply (Hboth Hl Hr)).
  apply (merge_runs_ind (fun l r _ res =>
    StronglySorted may_precede l -> StronglySorted may_precede r ->
    res.1 ≡ₚ l ++ r /\ StronglySorted may_precede res.1)); cbn [fst].
  - done.
  - intros. by rewrite app_nil_r.
  - intros x l' y r' _ m _ Hyx IH Hl Hr.
    apply StronglySorted_inv in Hr as [Hr Hy].
    destruct (IH Hl Hr) as [Hp Hs]. split.
    { rewrite Hp. apply Permutation_middle. }
    apply SSorted_cons; [done|]. rewrite Hp. apply Forall_app. split; [|done].
    apply StronglySorted_inv in Hl as [_ Hx].
    apply Forall_cons_iff. split; [by apply strict_asym|].
    eapply List.Forall_impl; [|exact Hx]. intros z Hz.
    eapply strict_trans; [by apply strict_asym|exact Hz].
  - intros x l' y r' _ m _ Hyx IH Hl Hr.
    pose proof (StronglySorted_inv Hl) as [Hl' Hx].
    destruct (IH Hl' Hr) as [Hp Hs]. split; [by rewrite Hp|].
    apply SSorted_cons; [done|]. rewrite Hp. apply Forall_app. split; [done|].
    apply StronglySorted_inv in Hr as [_ Hy].
    apply Forall_cons_iff. split; [exact Hyx|].
    eapply List.Forall_impl; [|exact Hy]. intros z Hz.
    eapply strict_trans; [exact Hyx|exact Hz].
Qed.

(** ** One pass *)

(** Every run of [w] consecutive elements is sorted. *)
Definition runs_sorted (w : nat) (data : list A) : Prop :=
  forall k, StronglySorted may_precede (take w (drop (k * w) data)).

Lemma merge_pass_perm fuel w data c : (merge_pass less fuel w data c).1 ≡ₚ data.
Proof.
  revert data c. induction fuel as [|fuel IH]; intros data c; [done|].
  destruct data as [|x data]; [done|]. cbn [merge_pass].
  set (d := x :: data). clearbody d.
  destruct (merge_runs less _ _ c) as [merged c1] eqn:Em.
  destruct (merge_pass less fuel w _ c1) as [rest c2] eqn:Er. cbn [fst].
  pose proof (merge_runs_perm (take w d) (take w (drop w d)) c) as Hm. rewrite Em in Hm.
  pose proof (IH (drop (2 * w) d) c1) as Hr. rewrite Er in Hr. cbn [fst] in *.
  rewrite Hm, Hr. replace (2 * w)%nat with (w + w)%nat by lia.
  rewrite <- drop_drop, <- app_assoc, take_drop, take_drop. done.
Qed.

Lemma merge_pass_length fuel w data c :
  length (merge_pass less fuel w data c).1 = length data.
Proof. by rewrite merge_pass_perm. Qed.

Lemma merge_pass_count fuel w data c :
  c <= (merge_pass less fuel w data c).2 <= c + size_of data.
Proof.
  revert data c. induction fuel as [|fuel IH]; intros data c.
  { pose proof (size_of_nonneg data). cbn [merge_pass snd]. lia. }
  destruct data as [|x data]; [cbn [merge_pass snd]; pose proof (size_of_nonneg (@nil A)); lia|]. cbn [merge_pass].
  set (d := x :: data). clearbody d.
  destruct (merge_runs less _ _ c) as [merged c1] eqn:Em.
  destruct (merge_pass less fuel w _ c1) as [rest c2] eqn:Er. cbn [snd].
  pose proof (merge_runs_count (take w d) (take w (drop w d)) c) as Hm. rewrite Em in Hm.
  pose proof (IH (drop (2 * w) d) c1) as Hr. rewrite Er in Hr. cbn [snd] in *.
  unfold size_of in *. rewrite !length_take, !length_drop in Hm. rewrite length_drop in Hr. lia.
Qed.

Lemma merge_pass_sorted `{!StrictWeak} fuel w data c :
  (0 < w)%nat -> (length data <= fuel)%nat -> runs_sorted w data ->
  runs_sorted (2 * w) (merge_pass less fuel w data c).1.
Proof.
  intros Hw. revert data c. induction fuel as [|fuel IH]; intros data c Hlen Hs k.
  { destruct data; [|cbn in Hlen; lia]. cbn. rewrite drop_nil, take_nil. constructor. }
  destruct data as [|x data].
  { cbn. rewrite drop_nil, take_nil. constructor. }
  cbn [merge_pass]. set (d := x :: data) in *.
  assert (Hd : (0 < length d)%nat) by (cbn; lia). clearbody d.
  destruct (merge_runs less _ _ c) as [merged c1] eqn:Em.
  destruct (merge_pass less fuel w _ c1) as [rest c2] eqn:Er. cbn [fst].
  pose proof (merge_runs_length (take w d) (take w (drop w d)) c) as Hml. rewrite Em in Hml.
  cbn [fst] in Hml. rewrite !length_take, length_drop in Hml.
  assert (Hms : StronglySorted may_precede merged).
  { change merged with (merged, c1).1. rewrite <- Em. apply merge_runs_sorted.
    - specialize (Hs 0%nat). by rewrite drop_0 in Hs.
    - specialize (Hs 1%nat). by rewrite Nat.mul_1_l in Hs. }
  assert (Hrl : length rest = length (drop (2 * w) d)).
  { change rest with (rest, c2).1. rewrite <- Er. apply merge_pass_length. }
  rewrite length_drop in Hrl.
  destruct k as [|k].
  - rewrite Nat.mul_0_l, drop_0.
    destruct (decide (length merged = 2 * w)%nat) as [Heq|Hne].
    + rewrite take_app_length'; [done|lia].
    + assert (rest = []) as -> by (apply nil_length_inv; lia).
      rewrite app_nil_r, take_ge by lia. done.
  - destruct (decide (length merged = 2 * w)%nat) as [Heq|Hne].
    + rewrite drop_app_ge by lia. replace (S k * (2 * w) - length merged)%nat
        with (k * (2 * w))%nat by lia.
      change rest with (rest, c2).1. rewrite <- Er. apply IH.
      * rewrite length_drop. lia.
      * intros j. specialize (Hs (2 + j)%nat). rewrite drop_drop.
        by replace (2 * w + j * w)%nat with ((2 + j) * w)%nat by lia.
    + rewrite drop_ge; [rewrite take_nil; constructor|].
      rewrite length_app. lia.
Qed.

(** ** The whole sort *)

Lemma sort_passes_perm fuel w data c : (sort_passes less fuel w data c).1 ≡ₚ data.
Proof.
  revert w data c. induction fuel as [|fuel IH]; intros w data c; [done|].
  cbn [sort_passes]. destruct (w <? length data)%nat; [|done].
  destruct (merge_pass less _ w data c) as [d' c'] eqn:Ep.
  rewrite IH. change d' with (d', c').1. rewrite <- Ep. apply merge_pass_perm.
Qed.

Lemma sort_passes_sorted `{!StrictWeak} fuel w data c :
  (0 < w)%nat -> (length data <= w * 2 ^ fuel)%nat -> runs_sorted w data ->
  StronglySorted may_precede (sort_passes less fuel w data c).1.
Proof.
  revert w data c. induction fuel as [|fuel IH]; intros w data c Hw Hlen Hs.
  - specialize (Hs 0%nat). rewrite Nat.mul_0_l, drop_0, take_ge in Hs; [done|].
    cbn in Hlen. lia.
  - cbn [sort_passes]. destruct (Nat.ltb_spec w (length data)).
    + destruct (merge_pass less _ w data c) as [d' c'] eqn:Ep.
      assert (Hl : length d' = length data).
      { change d' with (d', c').1. rewrite <- Ep. apply merge_pass_length. }
      apply IH; [lia| |].
      * rewrite Hl. cbn in Hlen. lia.
      * change d' with (d', c').1. rewrite <- Ep. apply merge_pass_sorted; done || lia.
    + specialize (Hs 0%nat). rewrite Nat.mul_0_l, drop_0, take_ge in Hs; [done|lia].
Qed.

Lemma sort_passes_count fuel p w data c :
  (length data <= w * 2 ^ p)%nat ->
  c <= (sort_passes less fuel w data c).2 <= c + Z.of_nat p * size_of data.
Proof.
  revert p w data c. induction fuel as [|fuel IH]; intros p w data c Hlen; cbn [sort_passes].
  { pose proof (size_of_nonneg data). cbn [snd]. nia. }
  destruct (Nat.ltb_spec w (length data)) as [Hlt|]; cbn [snd].
  2:{ pose proof (size_of_nonneg data). lia. }
  destruct p as [|p]; [cbn in Hlen; lia|].
  destruct (merge_pass less _ w data c) as [d' c'] eqn:Ep.
  pose proof (merge_pass_length (length data) w data c) as Hl.
  pose proof (merge_pass_count (length data) w data c) as Hc.
  rewrite Ep in Hl, Hc. cbn [fst snd] in *.
  assert (Hd : size_of d' = size_of data) by (unfold size_of; lia).
  specialize (IH p (2 * w)%nat d' c'). rewrite Hd in IH.
  assert (length d' <= 2 * w * 2 ^ p)%nat as Hd' by (rewrite Hl; cbn in Hlen; lia).
  specialize (IH Hd'). lia.
Qed.

Lemma runs_sorted_1 data : runs_sorted 1 data.
Proof.
  intros k. destruct (drop (k * 1) data) as [|x l]; [constructor|].
  cbn. rewrite take_0. repeat constructor.
Qed.

Lemma deterministic_sort_perm data c : (deterministic_sort less data c).1 ≡ₚ data.
Proof.
  unfold deterministic_sort. destruct (length data <? 2)%nat; [done|]. apply sort_passes_perm.
Qed.

Lemma deterministic_sort_sorted `{!StrictWeak} data c :
  StronglySorted may_precede (deterministic_sort less data c).1.
Proof.
  unfold deterministic_sort. destruct (Nat.ltb_spec (length data) 2).
  - destruct data as [|x [|y data]]; cbn in *; [constructor|repeat constructor|lia].
  - apply sort_passes_sorted; [lia| |apply runs_sorted_1].
    pose proof (Nat.pow_gt_lin_r 2 (length data) ltac:(lia)). lia.
Qed.

Lemma deterministic_sort_count data c :
  c <= (deterministic_sort less data c).2
    <= c + size_of data * Z.of_nat (Nat.log2_up (length data)).
Proof.
  unfold deterministic_sort. destruct (Nat.ltb_spec (length data) 2).
  { cbn. pose proof (size_of_nonneg data). nia. }
  rewrite (Z.mul_comm (size_of data)). apply sort_passes_count.
  pose proof (Nat.log2_up_spec (length data) ltac:(lia)). lia.
Qed.

(** The counter does not influence the order. *)
Lemma merge_runs_counter l r c n :
  merge_runs less l r (c + n) = ((merge_runs less l r c).1, (merge_runs less l r c).2 + n).
Proof.
  apply (merge_runs_ind (fun l r c res => merge_runs less l r (c + n) = (res.1, res.2 + n)));
    cbn [fst snd].
  - intros. apply merge_runs_nil_l.
  - intros. apply merge_runs_nil_r.
  - intros x l' y r' c0 m c' Hyx IH. rewrite merge_runs_cons, Hyx.
    replace (c0 + n + 1) with (c0 + 1 + n) by lia. by rewrite IH.
  - intros x l' y r' c0 m c' Hyx IH. rewrite merge_runs_cons, Hyx.
    replace (c0 + n + 1) with (c0 + 1 + n) by lia. by rewrite IH.
Qed.

Lemma merge_pass_counter fuel w data c n :
  merge_pass less fuel w data (c + n) =
  ((merge_pass less fuel w data c).1, (merge_pass less fuel w data c).2 + n).
Proof.
  revert data c. induction fuel as [|fuel IH]; intros data c; [done|].
  destruct data as [|x data]; [done|]. cbn [merge_pass].
  rewrite merge_runs_counter.
  destruct (merge_runs less (take w (x :: data)) _ c) as [m c1]. cbn [fst snd]. rewrite IH.
  by destruct (merge_pass less fuel w _ c1).
Qed.

Lemma sort_passes_counter fuel w data c n :
  sort_passes less fuel w data (c + n) =
  ((sort_passes less fuel w data c).1, (sort_passes less fuel w data c).2 + n).
Proof.
  revert w data c. induction fuel as [|fuel IH]; intros w data c; [done|].
  cbn [sort_passes]. destruct (w <? length data)%nat; [|done].
  rewrite merge_pass_counter. destruct (merge_pass less _ w data c) as [d' c']. apply IH.
Qed.

Lemma deterministic_sort_counter data c :
  deterministic_sort less data c =
  ((deterministic_sort less data 0).1, (deterministic_sort less data 0).2 + c).
Proof.
  unfold deterministic_sort. destruct (length data <? 2)%nat; [done|].
  change c with (0 + c) at 1. apply sort_passes_counter.
Qed.
End sort_props.

(** The sorted sequence is unique when no two elements of the input tie. *)
Lemma sorted_unique {A} (less : A -> A -> bool) `{!StrictWeak less} l1 l2 :
  (forall x y, x ∈ l1 -> y ∈ l1 -> less x y = false -> less y x = false -> x = y) ->
  StronglySorted (may_precede less) l1 -> StronglySorted (may_precede less) l2 ->
  l1 ≡ₚ l2 -> l1 = l2.
Proof.
  intros Hanti H1 H2 Hp. eapply StronglySorted_unique_strong; [|exact H1|exact H2|exact Hp].
  intros x y Hx Hy Hxy Hyx. apply Hanti; [done| |exact Hyx|exact Hxy].
  by rewrite Hp.
Qed.

(** ** Naturality *)

Section sort_map.
Context {A B : Type} (lessA : A -> A -> bool) (lessB : B -> B -> bool) (f : A -> B).
Hypothesis f_less : forall x y, lessB (f x) (f y) = lessA x y.

Lemma merge_runs_map l r c :
  merge_runs lessB (f <$> l) (f <$> r) c =
  (f <$> (merge_runs lessA l r c).1, (merge_runs lessA l r c).2).
Proof.
  apply (merge_runs_ind lessA (fun l r c res =>
    merge_runs lessB (f <$> l) (f <$> r) c = (f <$> res.1, res.2))); cbn [fst snd].
  - intros. apply merge_runs_nil_l.
  - intros. apply merge_runs_nil_r.
  - intros x l' y r' c0 m c' Hyx IH. rewrite !fmap_cons in *. rewrite merge_runs_cons, f_less, Hyx.
    by rewrite IH.
  - intros x l' y r' c0 m c' Hyx IH. rewrite !fmap_cons in *. rewrite merge_runs_cons, f_less, Hyx.
    by rewrite IH.
Qed.

Lemma merge_pass_map fuel w data c :
  merge_pass lessB fuel w (f <$> data) c =
  (f <$> (merge_pass lessA fuel w data c).1, (merge_pass lessA fuel w data c).2).
Proof.
  revert data c. induction fuel as [|fuel IH]; intros data c; [done|].
  destruct data as [|x data]; [done|]. rewrite fmap_cons. cbn [merge_pass].
  rewrite <- fmap_cons, <- !fmap_drop, <- !fmap_take, merge_runs_map.
  destruct (merge_runs lessA _ _ c) as [m c1]. cbn [fst snd]. rewrite IH.
  destruct (merge_pass lessA fuel w _ c1) as [r c2]. cbn [fst snd]. by rewrite fmap_app.
Qed.

Lemma sort_passes_map fuel w data c :
  sort_passes lessB fuel w (f <$> data) c =
  (f <$> (sort_passes lessA fuel w data c).1, (sort_passes lessA fuel w data c).2).
Proof.
  revert w data c. induction fuel as [|fuel IH]; intros w data c; [done|].
  cbn [sort_passes]. rewrite length_fmap. destruct (w <? length data)%nat; [|done].
  rewrite merge_pass_map. destruct (merge_pass lessA _ w data c) as [d' c']. apply IH.
Qed.

Lemma deterministic_sort_map data c :
  deterministic_sort lessB (f <$> data) c =
  (f <$> (deterministic_sort lessA data c).1, (deterministic_sort lessA data c).2).
Proof.
  unfold deterministic_sort. rewrite length_fmap. destruct (length data <? 2)%nat; [done|].
  apply sort_passes_map.
Qed.
End sort_map.
