(* ===== verification/GateProps.v ===== *)
(** * The canonical order and the gates of the selector

    The order is a total preorder that separates distinct paths; the gates are
    equivalent to a table read top down, to the declarative predicate
    [Promotable], and an exclusion never depends on a fact the runtime does
    not know. *)

From S2P Require Import Prelude.
From S2P Require Import Ids.
From S2P Require Import Limits.
From S2P Require Import Status.
From S2P Require Import Checked.
From S2P Require Import Authority.
From S2P Require Import Model.
From S2P Require Import Decision.
From S2P Require Import Selector.
From S2P Require Import SortProps.

(** ** The canonical order *)

Lemma canonical_less_spec a b :
  canonical_less a b = true <->
  st_total (as_terms b) < st_total (as_terms a) \/
  (st_total (as_terms a) = st_total (as_terms b) /\
   (as_upstream_rank a < as_upstream_rank b \/
    (as_upstream_rank a = as_upstream_rank b /\
     Id_value (as_path a) < Id_value (as_path b)))).
Proof.
  unfold canonical_less, Id_ltb.
  destruct (Z.eqb_spec (st_total (as_terms a)) (st_total (as_terms b))); cbn [negb];
    [destruct (Z.eqb_spec (as_upstream_rank a) (as_upstream_rank b)); cbn [negb]|];
    rewrite Z.ltb_lt; lia.
Qed.

Lemma canonical_less_false a b :
  canonical_less a b = false <->
  st_total (as_terms a) < st_total (as_terms b) \/
  (st_total (as_terms a) = st_total (as_terms b) /\
   (as_upstream_rank b < as_upstream_rank a \/
    (as_upstream_rank a = as_upstream_rank b /\
     Id_value (as_path b) <= Id_value (as_path a)))).
Proof. rewrite <- not_true_iff_false, canonical_less_spec. lia. Qed.

#[export] Instance canonical_less_strict_weak : StrictWeak canonical_less.
Proof.
  constructor.
  - intros x y. rewrite canonical_less_spec, canonical_less_false. lia.
  - intros x y z. rewrite !canonical_less_false. lia.
Qed.

Lemma strict_weak_preimage {A B} (f : A -> B) (less : B -> B -> bool) :
  StrictWeak less -> StrictWeak (fun x y => less (f x) (f y)).
Proof.
  intros Hsw. constructor.
  - intros x y. apply (strict_asym less).
  - intros x y z. apply (strict_trans less).
Qed.

(** ** First index and counting *)

Fixpoint first_index {A} (p : A -> bool) (i : Z) (l : list A) : Z :=
  match l with
  | [] => npos
  | x :: l' => if p x then i else first_index p (i + 1) l'
  end.

Definition count {A} (p : A -> bool) (l : list A) : Z := size_of (List.filter p l).

Lemma count_cons {A} (p : A -> bool) x l : count p (x :: l) = (if p x then 1 else 0) + count p l.
Proof. unfold count. cbn [List.filter]. destruct (p x); autorewrite with pff; lia. Qed.

Lemma count_nonneg {A} (p : A -> bool) l : 0 <= count p l.
Proof. apply size_of_nonneg. Qed.

Lemma count_zero {A} (p : A -> bool) l : count p l = 0 <-> Forall (fun x => p x = false) l.
Proof.
  induction l as [|x l IH]; [by split|].
  rewrite count_cons, List.Forall_cons_iff, <- IH. pose proof (count_nonneg p l).
  destruct (p x); split; intros; [lia|easy|lia|lia].
Qed.

Lemma first_index_spec {A} (p : A -> bool) i l :
  0 <= i -> i + size_of l < npos ->
  (first_index p i l = npos /\ Forall (fun x => p x = false) l) \/
  exists k x, first_index p i l = i + Z.of_nat k /\ l !! k = Some x /\ p x = true /\
              Forall (fun y => p y = false) (take k l).
Proof.
  revert i. induction l as [|x l IH]; intros i Hi Hlen; [by left|].
  autorewrite with pff in Hlen. pose proof (size_of_nonneg l). cbn [first_index].
  destruct (p x) eqn:Hx.
  - right. exists 0%nat, x. repeat split; [lia|done|constructor].
  - destruct (IH (i + 1)) as [[He Hf]|(k & y & He & Hl & Hy & Hf)]; [lia|lia| |].
    + left. split; [done|]. by constructor.
    + right. exists (S k), y. repeat split; [lia|done|done|]. cbn [take]. by constructor.
Qed.

(** [p] holds strictly before position [k]. *)
Lemma first_index_lt {A} (p : A -> bool) l k :
  size_of l < npos -> (k < length l)%nat ->
  (first_index p 0 l <? Z.of_nat k) = existsb p (take k l).
Proof.
  intros Hlen Hk.
  destruct (first_index_spec p 0 l) as [[-> Hf]|(j & y & -> & Hl & Hy & Hf)]; [lia|lia| |].
  - destruct (Z.ltb_spec npos (Z.of_nat k)); [unfold size_of in Hlen; lia|].
    symmetry. apply not_true_iff_false. rewrite existsb_exists. intros (x & Hin & Hx).
    apply list_elem_of_In, elem_of_take in Hin as (n & Hn & _).
    rewrite List.Forall_forall in Hf. rewrite (Hf x) in Hx; [done|].
    apply list_elem_of_In. by eapply list_elem_of_lookup_2.
  - rewrite Z.add_0_l. destruct (Z.ltb_spec (Z.of_nat j) (Z.of_nat k)); symmetry.
    + apply existsb_exists. exists y. split; [|done]. apply list_elem_of_In.
      apply elem_of_take. exists j. split; [done|lia].
    + apply not_true_iff_false. rewrite existsb_exists. intros (x & Hin & Hx).
      rewrite List.Forall_forall in Hf. rewrite (Hf x) in Hx; [done|].
      apply list_elem_of_In in Hin. apply elem_of_take in Hin as (n & Hn & Hlt).
      apply list_elem_of_In, elem_of_take. exists n. split; [done|lia].
Qed.

(** ** The gates as a predicate *)

Section gates.
Context (policy : FailoverPolicy) (obligations : ServiceObligations)
  (fenced : list PathId) (incumbent : PathId) (current : AuthorityVector).

(** What a candidate must satisfy to be promoted, read off the declarations. *)
Record Promotable (c : AlternateCandidate) : Prop := {
  pr_not_incumbent : cand_path c <> incumbent;
  pr_not_withdrawn : cand_withdrawn c = false;
  pr_not_fenced : cand_path c ∉ fenced;
  pr_authority : cand_authority c = current /\ AuthorityVector_present current;
  pr_eligible : ev_eligibility (cand_evidence c) = Eligibility_eligible;
  pr_fresh : ob_require_fresh_evidence obligations = true ->
             ev_freshness (cand_evidence c) = Freshness_fresh;
  pr_reachable : ob_require_reachable obligations = true ->
                 ev_reachability (cand_evidence c) = Reachability_reachable;
  pr_capacity : ob_require_capacity obligations = true ->
                ev_capacity (cand_evidence c) = CapacityClass_sufficient;
  pr_capabilities : Z.land (ev_capabilities (cand_evidence c))
                      (ob_required_capabilities obligations)
                    = ob_required_capabilities obligations;
  pr_health : ob_min_health_ppm obligations <= ev_health_ppm (cand_evidence c);
  pr_cost : ev_cost_units (cand_evidence c) <= ob_max_cost_units obligations;
  pr_score : pol_min_score policy <=
             st_total (objective_terms policy obligations (cand_evidence c)
                         (cand_upstream_rank c)) }.

Definition entry_of (c : AlternateCandidate) : RankedEntry :=
  make_entry policy obligations current 0 c.

Definition gate (c : AlternateCandidate) : GateOutcome :=
  (apply_gates c (entry_of c) policy obligations fenced incumbent SelectionStats_default).1.

Definition conflicting (c : AlternateCandidate) : bool :=
  bool_decide (cmp_overall (classify (cand_authority c) current) = AuthorityClass_conflict).
Definition gate_open (c : AlternateCandidate) : bool :=
  bool_decide (go_verdict (gate c) = CandidateVerdict_promotable_not_selected).
Definition gate_blocked (c : AlternateCandidate) : bool :=
  bool_decide (go_verdict (gate c) = CandidateVerdict_indeterminate).
Definition gate_stale (c : AlternateCandidate) : bool :=
  bool_decide (go_verdict (gate c) = CandidateVerdict_excluded
               /\ go_reason (gate c) = Reason_authority_stale).

Lemma contains_spec l p : contains l p = true <-> p ∈ l.
Proof.
  unfold contains. rewrite existsb_exists. split.
  - intros (x & Hin & Hx). apply Id_eqb_eq in Hx as ->. by apply list_elem_of_In.
  - intros Hin. exists p. by rewrite <- list_elem_of_In, Id_eqb_refl.
Qed.

Lemma entry_comparison k c :
  re_comparison (make_entry policy obligations current k c) = classify (cand_authority c) current.
Proof. unfold make_entry. by destruct (compute_score _ _ _ _). Qed.

(** The gates as a table: the first row whose condition holds decides. *)
Definition gate_table (c : AlternateCandidate) (e : RankedEntry) : list (bool * GateOutcome) :=
  let ev := cand_evidence c in
  [ (Id_eqb (cand_path c) incumbent, excluded Reason_incumbent_is_self);
    (cand_withdrawn c, excluded Reason_withdrawn);
    (contains fenced (cand_path c), excluded Reason_path_fenced);
    (bool_decide (cmp_overall (re_comparison e) = AuthorityClass_stale),
      excluded Reason_authority_stale);
    (bool_decide (cmp_overall (re_comparison e) = AuthorityClass_unknown),
      blocked Reason_authority_unknown);
    (negb (re_score_ok e), excluded Reason_score_overflow);
    (bool_decide (ev_eligibility ev = Eligibility_ineligible),
      excluded Reason_eligibility_ineligible);
    (bool_decide (ev_eligibility ev = Eligibility_unknown),
      blocked Reason_eligibility_unknown);
    (ob_require_fresh_evidence obligations && bool_decide (ev_freshness ev = Freshness_stale),
      excluded Reason_evidence_stale);
    (ob_require_fresh_evidence obligations && bool_decide (ev_freshness ev = Freshness_unknown),
      blocked Reason_evidence_unknown);
    (ob_require_reachable obligations
      && bool_decide (ev_reachability ev = Reachability_unreachable),
      excluded Reason_reachability_unreachable);
    (ob_require_reachable obligations && bool_decide (ev_reachability ev = Reachability_unknown),
      blocked Reason_reachability_unknown);
    (ob_require_capacity obligations && bool_decide (ev_capacity ev = CapacityClass_insufficient),
      excluded Reason_capacity_insufficient);
    (ob_require_capacity obligations && bool_decide (ev_capacity ev = CapacityClass_unknown),
      blocked Reason_capacity_unknown);
    (negb (Z.land (ev_capabilities ev) (ob_required_capabilities obligations)
           =? ob_required_capabilities obligations), excluded Reason_capability_missing);
    (ev_health_ppm ev <? ob_min_health_ppm obligations,
      excluded Reason_health_below_obligation);
    (ob_max_cost_units obligations <? ev_cost_units ev, excluded Reason_cost_above_obligation);
    (st_total (as_terms (re_assessment e)) <? pol_min_score policy,
      excluded Reason_score_below_policy) ].

Definition open_outcome : GateOutcome :=
  mkGateOutcome CandidateVerdict_promotable_not_selected Reason_promotable_not_selected.

Fixpoint first_row (rows : list (bool * GateOutcome)) : GateOutcome :=
  match rows with
  | [] => open_outcome
  | (b, o) :: rows' => if b then o else first_row rows'
  end.

Lemma first_row_cases rows :
  (first_row rows = open_outcome /\ Forall (fun r => r.1 = false) rows) \/
  (exists o, (true, o) ∈ rows /\ first_row rows = o).
Proof.
  induction rows as [|[[] o] rows IH]; cbn.
  - by left.
  - right. exists o. split; [by left|done].
  - destruct IH as [[-> Hf]|(o' & Hin & ->)]; [left|right].
    + split; [done|]. by constructor.
    + exists o'. split; [by right|done].
Qed.

(** The gates read the statistics only to count, and decide by the table. *)
Lemma apply_gates_table c e st :
  (apply_gates c e policy obligations fenced incumbent st).1 = first_row (gate_table c e).
Proof.
  unfold apply_gates, gate_table. cbn [first_row].
  destruct (Id_eqb _ _); [done|]. destruct (cand_withdrawn c); [done|].
  destruct (contains _ _); [done|].
  destruct (cmp_overall (re_comparison e)); cbn; try done.
  all: destruct (re_score_ok e); cbn; [|done].
  all: destruct (ev_eligibility (cand_evidence c)); cbn; try done.
  all: destruct (ob_require_fresh_evidence obligations); cbn;
    [destruct (ev_freshness (cand_evidence c)); cbn; try done|].
  all: destruct (ob_require_reachable obligations); cbn;
    [destruct (ev_reachability (cand_evidence c)); cbn; try done|].
  all: destruct (ob_require_capacity obligations); cbn;
    [destruct (ev_capacity (cand_evidence c)); cbn; try done|].
  all: destruct (_ =? _); cbn; [|done].
  all: do 3 (destruct (_ <? _); [done|]); done.
Qed.

Definition stats_comparisons (n : Z) (st : SelectionStats) : SelectionStats :=
  st <| ss_ordering_comparisons := n |>.

(** The gates do not read the comparison counter. *)
Lemma apply_gates_comparisons c e n st :
  (apply_gates c e policy obligations fenced incumbent (stats_comparisons n st)).2 =
  stats_comparisons n (apply_gates c e policy obligations fenced incumbent st).2.
Proof.
  unfold apply_gates. destruct st.
  destruct (Id_eqb _ _); [done|]. destruct (cand_withdrawn c); [done|].
  destruct (contains _ _); [done|].
  destruct (cmp_overall (re_comparison e)); cbn; try done.
  all: destruct (re_score_ok e); cbn; [|done].
  all: destruct (ev_eligibility (cand_evidence c)); cbn; try done.
  all: destruct (ob_require_fresh_evidence obligations); cbn;
    [destruct (ev_freshness (cand_evidence c)); cbn; try done|].
  all: destruct (ob_require_reachable obligations); cbn;
    [destruct (ev_reachability (cand_evidence c)); cbn; try done|].
  all: destruct (ob_require_capacity obligations); cbn;
    [destruct (ev_capacity (cand_evidence c)); cbn; try done|].
  all: destruct (_ =? _); cbn; [|done].
  all: do 3 (destruct (_ <? _); [done|]); done.
Qed.

Lemma apply_gates_index c k st :
  apply_gates c (make_entry policy obligations current k c) policy obligations fenced
    incumbent st =
  apply_gates c (entry_of c) policy obligations fenced incumbent st.
Proof. unfold entry_of, make_entry. by destruct (compute_score _ _ _ _). Qed.

(** At most fourteen gates and one fence lookup per candidate. *)
Lemma apply_gates_work c e st :
  let st' := (apply_gates c e policy obligations fenced incumbent st).2 in
  ss_gate_evaluations st < ss_gate_evaluations st' <= ss_gate_evaluations st + 14 /\
  ss_fence_lookups st <= ss_fence_lookups st' <= ss_fence_lookups st + 1 /\
  ss_ordering_comparisons st' = ss_ordering_comparisons st /\
  ss_candidates_considered st' = ss_candidates_considered st /\
  ss_definite_exclusions st' = ss_definite_exclusions st /\
  ss_score_evaluations st' = ss_score_evaluations st /\
  ss_candidates_supplied st' = ss_candidates_supplied st.
Proof. unfold apply_gates. repeat case_match; simplify_eq/=; lia. Qed.

Lemma gate_table_eq c : gate c = first_row (gate_table c (entry_of c)).
Proof. apply apply_gates_table. Qed.

(** Every row of the table excludes or blocks. *)
Lemma gate_table_verdicts c e :
  Forall (fun r => go_verdict r.2 = CandidateVerdict_excluded \/
                   go_verdict r.2 = CandidateVerdict_indeterminate) (gate_table c e).
Proof. unfold gate_table. repeat (constructor; [cbn; tauto|]). constructor. Qed.

Lemma gate_open_table c :
  gate_open c = true <-> Forall (fun r => r.1 = false) (gate_table c (entry_of c)).
Proof.
  unfold gate_open. rewrite bool_decide_eq_true, gate_table_eq.
  destruct (first_row_cases (gate_table c (entry_of c))) as [[-> Hf]|(o & Hin & ->)]; [done|].
  pose proof (gate_table_verdicts c (entry_of c)) as Hv.
  rewrite List.Forall_forall in Hv.
  split.
  - intros Ho. apply list_elem_of_In, Hv in Hin. cbn in Hin. rewrite Ho in Hin. by destruct Hin.
  - rewrite List.Forall_forall. intros Hf. by apply list_elem_of_In, Hf in Hin.
Qed.

(** The verdict of the gates is never [selected]. *)
Lemma gate_cases c :
  (gate_open c = true /\ gate_blocked c = false /\
    go_verdict (gate c) = CandidateVerdict_promotable_not_selected) \/
  (gate_open c = false /\ gate_blocked c = true /\
    go_verdict (gate c) = CandidateVerdict_indeterminate) \/
  (gate_open c = false /\ gate_blocked c = false /\
    go_verdict (gate c) = CandidateVerdict_excluded).
Proof.
  unfold gate_open, gate_blocked. rewrite gate_table_eq.
  destruct (first_row_cases (gate_table c (entry_of c))) as [[-> _]|(o & Hin & ->)]; [by left|].
  pose proof (gate_table_verdicts c (entry_of c)) as Hv.
  rewrite List.Forall_forall in Hv. apply list_elem_of_In, Hv in Hin. cbn in Hin.
  destruct Hin as [-> | ->]; cbn; tauto.
Qed.

Hypothesis policy_ok : Status_ok (FailoverPolicy_validate policy) = true.

Lemma entry_of_eq c :
  entry_of c =
  mkRankedEntry
    (mkCandidateAssessment (cand_path c) (cand_upstream_rank c)
       (objective_terms policy obligations (cand_evidence c) (cand_upstream_rank c))
       CandidateVerdict_excluded Reason_none AuthorityClass_unknown)
    (classify (cand_authority c) current) 0 true.
Proof. unfold entry_of, make_entry. by rewrite compute_score_exact. Qed.

(** A candidate passes every gate and is covered by the current authority
    exactly when it is [Promotable]. *)
Lemma gate_open_spec c :
  gate_open c = true /\ conflicting c = false <-> Promotable c.
Proof.
  rewrite gate_open_table, entry_of_eq. unfold conflicting, gate_table.
  rewrite !List.Forall_cons_iff, List.Forall_nil_iff, bool_decide_eq_false.
  cbn [fst re_comparison re_score_ok re_assessment as_terms].
  rewrite !andb_false_iff, !bool_decide_eq_false, !Z.ltb_ge, !negb_false_iff, Z.eqb_eq, Id_eqb_neq.
  rewrite <- (not_true_iff_false (contains _ _)), contains_spec.
  pose proof (classify_current (cand_authority c) current) as Hcl.
  split.
  - intros [H Hc]. destruct_and! H. constructor; try done.
    + apply Hcl. by destruct (cmp_overall _).
    + by destruct (ev_eligibility _).
    + destruct (ob_require_fresh_evidence _); [|done]. by destruct (ev_freshness _); intuition.
    + destruct (ob_require_reachable _); [|done]. by destruct (ev_reachability _); intuition.
    + destruct (ob_require_capacity _); [|done]. by destruct (ev_capacity _); intuition.
  - intros [? ? ? Ha He Hfr Hre Hca ? ? ? ?]. apply Hcl in Ha. rewrite Ha, He.
    destruct (ob_require_fresh_evidence _); [rewrite Hfr by done|];
    (destruct (ob_require_reachable _); [rewrite Hre by done|]);
    (destruct (ob_require_capacity _); [rewrite Hca by done|]);
    intuition congruence.
Qed.

(** ** Unknown facts

    [refines c c'] says that [c'] is [c] with some of the facts the runtime
    does not know filled in. *)

Definition refines_enum {E} (unknown : E) (x x' : E) : Prop := x = unknown \/ x = x'.
Definition refines_id {T} (i i' : Id T) : Prop := i = Id_absent \/ i = i'.

Record refines (c c' : AlternateCandidate) : Prop := {
  rf_path : cand_path c' = cand_path c;
  rf_rank : cand_upstream_rank c' = cand_upstream_rank c;
  rf_withdrawn : cand_withdrawn c' = cand_withdrawn c;
  rf_topology : refines_id (av_topology (cand_authority c)) (av_topology (cand_authority c'));
  rf_path_authority : refines_id (av_path_authority (cand_authority c))
                                 (av_path_authority (cand_authority c'));
  rf_policy : refines_id (av_policy (cand_authority c)) (av_policy (cand_authority c'));
  rf_obligations : refines_id (av_obligations (cand_authority c))
                              (av_obligations (cand_authority c'));
  rf_epoch : refines_id (av_epoch (cand_authority c)) (av_epoch (cand_authority c'));
  rf_boot : refines_id (av_boot (cand_authority c)) (av_boot (cand_authority c'));
  rf_freshness : refines_enum Freshness_unknown (ev_freshness (cand_evidence c))
                              (ev_freshness (cand_evidence c'));
  rf_eligibility : refines_enum Eligibility_unknown (ev_eligibility (cand_evidence c))
                                (ev_eligibility (cand_evidence c'));
  rf_reachability : refines_enum Reachability_unknown (ev_reachability (cand_evidence c))
                                 (ev_reachability (cand_evidence c'));
  rf_capacity : refines_enum CapacityClass_unknown (ev_capacity (cand_evidence c))
                             (ev_capacity (cand_evidence c'));
  rf_capabilities : ev_capabilities (cand_evidence c') = ev_capabilities (cand_evidence c);
  rf_health : ev_health_ppm (cand_evidence c') = ev_health_ppm (cand_evidence c);
  rf_cost : ev_cost_units (cand_evidence c') = ev_cost_units (cand_evidence c) }.


Lemma classify_stale_present v :
  cmp_overall (classify v current) = AuthorityClass_stale -> AuthorityVector_present v.
Proof.
  intros Ho. pose proof (classify_severity v current) as Hs. cbv zeta in Hs.
  rewrite Ho in Hs. cbn [fmap list_fmap foldr] in Hs.
  change (severity AuthorityClass_stale) with 1 in Hs.
  assert (Hle : forall k, k ∈ [cmp_topology (classify v current);
    cmp_path_authority (classify v current); cmp_policy (classify v current);
    cmp_obligations (classify v current); cmp_epoch (classify v current);
    cmp_boot (classify v current)] -> k <> AuthorityClass_unknown).
  { intros k Hk ->. rewrite !elem_of_cons in Hk.
    destruct_or! Hk; [..|by apply not_elem_of_nil in Hk].
    all: rewrite <- Hk in Hs; change (severity AuthorityClass_unknown) with 2 in Hs; lia. }
  clear Hs. cbn [cmp_topology cmp_path_authority cmp_policy cmp_obligations cmp_epoch cmp_boot
                 classify] in Hle. unfold classify_generation in Hle.
  unfold AuthorityVector_present.
  repeat split; apply not_false_iff_true; intros Hv; rewrite Hv in Hle; cbn [negb orb] in Hle;
    refine (Hle AuthorityClass_unknown _ eq_refl); rewrite !elem_of_cons; tauto.
Qed.

Lemma refines_id_valid {T} (i i' : Id T) : Id_valid i = true -> refines_id i i' -> i' = i.
Proof. intros Hv [Hi|Hi]; [|done]. by subst i. Qed.

Lemma refines_known {E} (unknown x x' : E) : x <> unknown -> refines_enum unknown x x' -> x' = x.
Proof. intros Hn [?|?]; congruence. Qed.

(** An exclusion does not depend on any unknown fact. *)
Lemma excluded_definite c c' :
  go_verdict (gate c) = CandidateVerdict_excluded -> refines c c' -> ~ Promotable c'.
Proof.
  rewrite gate_table_eq.
  destruct (first_row_cases (gate_table c (entry_of c))) as [[-> _]|(o & Hin & ->)]; [done|].
  rewrite entry_of_eq in Hin. intros Hx [] [].
  unfold gate_table in Hin. cbn [re_comparison re_score_ok re_assessment as_terms] in Hin.
  rewrite !elem_of_cons in Hin.
  destruct_or! Hin; [..|by apply not_elem_of_nil in Hin].
  all: injection Hin as Hb ->; cbn in Hx; try done.
  all: symmetry in Hb; rewrite ?andb_true_iff, ?bool_decide_eq_true in Hb.
  - apply Id_eqb_eq in Hb. congruence.
  - congruence.
  - apply contains_spec in Hb. congruence.
  - pose proof (classify_stale_present _ Hb) as (?&?&?&?&?&?).
    assert (cand_authority c' = cand_authority c) as Heq.
    { destruct (cand_authority c), (cand_authority c'); cbn in *.
      f_equal; by apply refines_id_valid. }
    assert (cmp_overall (classify (cand_authority c) current) = AuthorityClass_current) as Hc.
    { apply classify_current. rewrite <- Heq. done. }
    change (cmp_overall (classify (cand_authority c) current) = AuthorityClass_stale) in Hb.
    congruence.
  - apply refines_known in rf_eligibility0; [congruence|by rewrite Hb].
  - destruct Hb as [Hr Hb]. apply refines_known in rf_freshness0; [|by rewrite Hb].
    specialize (pr_fresh0 Hr). congruence.
  - destruct Hb as [Hr Hb]. apply refines_known in rf_reachability0; [|by rewrite Hb].
    specialize (pr_reachable0 Hr). congruence.
  - destruct Hb as [Hr Hb]. apply refines_known in rf_capacity0; [|by rewrite Hb].
    specialize (pr_capacity0 Hr). congruence.
  - apply negb_true_iff, Z.eqb_neq in Hb. congruence.
  - apply Z.ltb_lt in Hb. lia.
  - apply Z.ltb_lt in Hb. lia.
  - apply Z.ltb_lt in Hb. cbn in *. rewrite rf_rank0, rf_capabilities0, rf_health0, rf_cost0 in *.
    lia.
Qed.
End gates.
