(* ===== verification/SelectorProps.v ===== *)
(** * Properties of the selector

    [Selector.evaluate] is reduced to a reference pipeline on the candidates
    themselves (sort, classify, conclude), from which soundness and
    completeness of an authorization, the meaning of a proven refusal,
    independence of the supplied order and the work bounds follow. *)

From S2P Require Import Prelude.
From S2P Require Import Ids.
From S2P Require Import Limits.
From S2P Require Import Status.
From S2P Require Import Checked.
From S2P Require Import Authority.
From S2P Require Import Model.
From S2P Require Import Decision.
From S2P Require Import Selector.
From S2P Require Import SortProps.
From S2P Require Import GateProps.

#[local] Arguments classify : simpl never.

Section pipeline.
Context (policy : FailoverPolicy) (obligations : ServiceObligations)
  (fenced : list PathId) (incumbent : PathId) (current : AuthorityVector).

Abbreviation entry_of := (entry_of policy obligations current).
Abbreviation gate := (gate policy obligations fenced incumbent current).
Abbreviation gate_open := (gate_open policy obligations fenced incumbent current).
Abbreviation gate_blocked := (gate_blocked policy obligations fenced incumbent current).
Abbreviation gate_stale := (gate_stale policy obligations fenced incumbent current).
Abbreviation conflicting := (conflicting current).

(** ** From entries to candidates *)

(** The order of the entries, on the candidates. *)
Definition cand_less (a b : AlternateCandidate) : bool := entry_less (entry_of a) (entry_of b).

Definition entry_at (p : nat * AlternateCandidate) : RankedEntry :=
  make_entry policy obligations current p.1 p.2.

Lemma entry_at_assessment p : re_assessment (entry_at p) = re_assessment (entry_of p.2).
Proof. unfold entry_at, GateProps.entry_of, make_entry. by destruct (compute_score _ _ _ _). Qed.

Lemma make_entries_at cs :
  make_entries policy obligations current cs = entry_at <$> imap pair cs.
Proof. unfold make_entries. by rewrite fmap_imap. Qed.

#[export] Instance cand_less_strict_weak : StrictWeak cand_less.
Proof. apply (strict_weak_preimage (fun c => re_assessment (entry_of c))), _. Qed.

(** Sorting the entries is sorting the candidates, positions being carried along. *)
Lemma sort_entries cs n :
  exists ps, deterministic_sort entry_less (make_entries policy obligations current cs) n =
             (entry_at <$> ps, (deterministic_sort cand_less cs n).2) /\
             ps.*2 = (deterministic_sort cand_less cs n).1 /\ ps ≡ₚ imap pair cs.
Proof.
  set (pair_less := fun p q : nat * AlternateCandidate => cand_less p.2 q.2).
  exists (deterministic_sort pair_less (imap pair cs) n).1.
  assert (Hsnd : (imap pair cs).*2 = cs).
  { rewrite fmap_imap. apply list_eq. intros i. rewrite list_lookup_imap. by destruct (cs !! i). }
  pose proof (deterministic_sort_map pair_less cand_less (snd (A:=nat))) as Hm.
  split; [|split].
  - rewrite make_entries_at.
    rewrite (deterministic_sort_map pair_less entry_less entry_at).
    2:{ intros p q. unfold pair_less, cand_less, entry_less. by rewrite !entry_at_assessment. }
    f_equal. rewrite <- Hsnd at 2. rewrite Hm; done.
  - rewrite <- Hsnd at 2. rewrite Hm; done.
  - apply deterministic_sort_perm.
Qed.

(** The candidates in canonical order, and the prefix that is examined. *)
Definition ordered (cs : list AlternateCandidate) : list AlternateCandidate :=
  (deterministic_sort cand_less cs 0).1.
Definition examined (cs : list AlternateCandidate) : list AlternateCandidate :=
  take (Z.to_nat (Z.min (size_of cs) (pol_search_limit policy))) (ordered cs).

Lemma ordered_perm cs : ordered cs ≡ₚ cs.
Proof. apply deterministic_sort_perm. Qed.

Lemma ordered_sorted cs : StronglySorted (may_precede cand_less) (ordered cs).
Proof. apply deterministic_sort_sorted. apply _. Qed.

Lemma examined_subset cs c : c ∈ examined cs -> c ∈ cs.
Proof. intros Hc. rewrite <- (ordered_perm cs). by eapply elem_of_take in Hc as (?&?%list_elem_of_lookup_2&_). Qed.

(** Positions of the examined prefix follow the canonical order. *)
Lemma StronglySorted_lookup {A} (R : A -> A -> Prop) l i j x y :
  StronglySorted R l -> l !! i = Some x -> l !! j = Some y -> (i < j)%nat -> R x y.
Proof.
  intros Hs. revert i j. induction Hs as [|z l Hs IH Hz]; intros i j Hi Hj Hlt; [done|].
  destruct j as [|j]; [lia|]. destruct i as [|i]; cbn in Hi, Hj.
  - injection Hi as ->. rewrite List.Forall_forall in Hz.
    by eapply Hz, list_elem_of_In, list_elem_of_lookup_2.
  - eapply IH; [exact Hi|exact Hj|lia].
Qed.

Lemma examined_order cs i j a b :
  examined cs !! i = Some a -> examined cs !! j = Some b -> (i <= j)%nat ->
  a = b \/ cand_less b a = false.
Proof.
  intros Hi Hj Hle. apply lookup_take_Some in Hi as [Hi _], Hj as [Hj _].
  destruct (decide (i = j)) as [->|Hne]; [left; congruence|right].
  eapply (StronglySorted_lookup _ _ i j a b (ordered_sorted cs)); [done..|lia].
Qed.

Lemma examined_all cs :
  size_of cs <= pol_search_limit policy -> examined cs = ordered cs.
Proof.
  intros Hl. unfold examined. apply take_ge. unfold size_of in *. rewrite ordered_perm. lia.
Qed.

Lemma examined_full cs : size_of cs <= size_of (examined cs) -> examined cs = ordered cs.
Proof.
  intros Hl. unfold examined, size_of in *. rewrite length_take, ordered_perm in Hl.
  apply take_ge. rewrite ordered_perm. lia.
Qed.

(** Candidates of a validated set never tie. *)
Lemma cand_less_total a b :
  cand_less a b = false -> cand_less b a = false -> cand_path a = cand_path b.
Proof.
  unfold cand_less, entry_less. rewrite !canonical_less_false.
  assert (Hp : forall c, as_path (re_assessment (entry_of c)) = cand_path c).
  { intros c. unfold GateProps.entry_of, make_entry. by destruct (compute_score _ _ _ _). }
  rewrite !Hp. intros Ha Hb. apply Id_value_inj. lia.
Qed.

Lemma NoDup_path_inj (cs : list AlternateCandidate) a b :
  NoDup (cand_path <$> cs) -> a ∈ cs -> b ∈ cs -> cand_path a = cand_path b -> a = b.
Proof.
  intros Hnd Ha Hb Heq. apply list_elem_of_lookup in Ha as [i Hi], Hb as [j Hj].
  assert (i = j) as ->; [|congruence].
  eapply NoDup_lookup; [exact Hnd|rewrite list_lookup_fmap, Hi; done|].
  rewrite list_lookup_fmap, Hj. cbn. by rewrite Heq.
Qed.

(** The canonical order does not depend on the supplied order. *)
Lemma ordered_permutation cs cs' :
  NoDup (cand_path <$> cs) -> cs ≡ₚ cs' -> ordered cs = ordered cs'.
Proof.
  intros Hnd Hp. apply (sorted_unique cand_less).
  - intros x y Hx Hy H1 H2. rewrite ordered_perm in Hx, Hy.
    eapply NoDup_path_inj; [exact Hnd|done..|]. by apply cand_less_total.
  - apply ordered_sorted.
  - apply ordered_sorted.
  - by rewrite !ordered_perm.
Qed.

(** ** The scan *)

(** The reported assessment of a candidate before the conclusion. *)
Definition assess (c : AlternateCandidate) : CandidateAssessment :=
  (re_assessment (entry_of c)) <| as_verdict := go_verdict (gate c) |>
    <| as_reason := go_reason (gate c) |>
    <| as_authority := cmp_overall (classify (cand_authority c) current) |>.

Definition gate_stats (st : SelectionStats) (c : AlternateCandidate) : SelectionStats :=
  (apply_gates c (entry_of c) policy obligations fenced incumbent st).2.

Definition gate_quality (c : AlternateCandidate) : bool :=
  bool_decide (go_verdict (gate c) = CandidateVerdict_excluded) && negb (gate_stale c).

(** The locals after scanning [cs] from index [i]. *)
Definition scan_spec (i : Z) (cs : list AlternateCandidate) (s : Scan) : Scan :=
  mkScan (foldl gate_stats (sc_stats s) cs)
    (sc_ranked s ++ (assess <$> cs))
    (if sc_first_promotable s =? npos then first_index gate_open i cs
     else sc_first_promotable s)
    (if sc_first_indeterminate s =? npos then first_index gate_blocked i cs
     else sc_first_indeterminate s)
    (sc_indeterminate_count s + count gate_blocked cs)
    (sc_stale_exclusions s + count gate_stale cs)
    (sc_quality_exclusions s + count gate_quality cs)
    (sc_fatal_conflict s || existsb conflicting cs).

Lemma scan_step_at i p s :
  scan_step policy obligations fenced incumbent i p.2 (entry_at p) s =
  scan_step policy obligations fenced incumbent i p.2 (entry_of p.2) s.
Proof.
  unfold entry_at, GateProps.entry_of, make_entry. by destruct (compute_score _ _ _ _).
Qed.

Lemma entry_of_comparison c : re_comparison (entry_of c) = classify (cand_authority c) current.
Proof. apply entry_comparison. Qed.

Lemma scan_step_spec i c s :
  0 <= i < npos ->
  scan_step policy obligations fenced incumbent i c (entry_of c) s = scan_spec i [c] s.
Proof.
  intros Hi. unfold scan_step. rewrite entry_of_comparison.
  set (s1 := if decide _ then _ else s).
  assert (Hs1 : s1 = s <| sc_fatal_conflict := sc_fatal_conflict s || conflicting c |>).
  { unfold s1, GateProps.conflicting. destruct s; cbn.
    destruct (decide _) as [->|Hne]; [by rewrite orb_true_r|].
    by rewrite bool_decide_eq_false_2, orb_false_r. }
  rewrite Hs1. clear s1 Hs1. destruct s as [st ranked fp fi ic se qe fc]. cbn.
  pose proof (apply_gates_table policy obligations fenced incumbent c (entry_of c) st) as Ho.
  rewrite <- gate_table_eq in Ho.
  unfold scan_spec, gate_stats, assess, gate_quality, GateProps.gate_stale.
  cbn [sc_stats sc_ranked sc_first_promotable sc_first_indeterminate sc_indeterminate_count
       sc_stale_exclusions sc_quality_exclusions sc_fatal_conflict foldl fmap list_fmap
       first_index existsb]. rewrite !count_cons, orb_false_r.
  change (count _ []) with 0. rewrite !Z.add_0_r.
  destruct (apply_gates _ _ _ _ _ _ _) as [outcome stats]. cbn [fst snd] in *. subst outcome.
  destruct (gate_cases policy obligations fenced incumbent current c)
    as [(Hop & Hbl & Hv)|[(Hop & Hbl & Hv)|(Hop & Hbl & Hv)]]; rewrite Hop, Hbl, Hv.
  3: destruct (decide (go_reason (gate c) = Reason_authority_stale)) as [Hr|Hr].
  all: repeat first [rewrite bool_decide_eq_true_2 by tauto
                    |rewrite bool_decide_eq_false_2 by (intuition congruence)].
  all: cbn; destruct (Z.eqb_spec fp npos); destruct (Z.eqb_spec fi npos); cbn; subst;
    rewrite ?Z.add_0_r, ?Z.add_1_r; done.
Qed.

Lemma scan_spec_nil i s : scan_spec i [] s = s.
Proof.
  destruct s. unfold scan_spec. cbn. rewrite app_nil_r, orb_false_r, !Z.add_0_r.
  destruct (Z.eqb_spec sc_first_promotable npos), (Z.eqb_spec sc_first_indeterminate npos);
    by subst.
Qed.

Lemma scan_spec_cons i c cs s :
  0 <= i < npos -> scan_spec (i + 1) cs (scan_spec i [c] s) = scan_spec i (c :: cs) s.
Proof.
  intros Hi. destruct s as [st ranked fp fi ic se qe fc]. unfold scan_spec.
  cbn [sc_stats sc_ranked sc_first_promotable sc_first_indeterminate sc_indeterminate_count
       sc_stale_exclusions sc_quality_exclusions sc_fatal_conflict foldl fmap list_fmap
       first_index existsb].
  rewrite !count_cons, orb_false_r, <- app_assoc, orb_assoc, !Z.add_assoc.
  change (count _ []) with 0. rewrite !Z.add_0_r.
  assert (Hne : (i =? npos) = false) by lia.
  f_equal.
  - destruct (Z.eqb_spec fp npos) as [->|]; [|by destruct (Z.eqb_spec fp npos)].
    destruct (gate_open c); [by rewrite Hne|done].
  - destruct (Z.eqb_spec fi npos) as [->|]; [|by destruct (Z.eqb_spec fi npos)].
    destruct (gate_blocked c); [by rewrite Hne|done].
Qed.

Lemma scan_entries_spec cs ps i s :
  Forall (fun p => cs !! p.1 = Some p.2) ps -> 0 <= i -> i + size_of ps < npos ->
  scan_entries policy obligations fenced incumbent cs i (entry_at <$> ps) s =
  scan_spec i ps.*2 s.
Proof.
  revert i s. induction ps as [|p ps IH]; intros i s Hp Hi Hlen; [by rewrite scan_spec_nil|].
  apply Forall_cons_iff in Hp as [Hp Hps]. autorewrite with pff in Hlen.
  pose proof (size_of_nonneg ps). cbn [fmap list_fmap scan_entries].
  assert (Hc : nth (re_candidate_index (entry_at p)) cs AlternateCandidate_default = p.2).
  { replace (re_candidate_index (entry_at p)) with p.1
      by (unfold entry_at, make_entry; by destruct (compute_score _ _ _ _)).
    apply nth_lookup_Some with (d := AlternateCandidate_default) in Hp. exact Hp. }
  rewrite Hc, scan_step_at, scan_step_spec by lia.
  rewrite IH by (done || lia). by rewrite scan_spec_cons by lia.
Qed.
(** ** Selection on candidates *)

Lemma examined_pairs cs (ps : list (nat * AlternateCandidate)) n :
  ps ≡ₚ imap pair cs -> Forall (fun p => cs !! p.1 = Some p.2) (take n ps).
Proof.
  intros Hp. apply Forall_take. rewrite Hp. apply List.Forall_forall. intros [i c] Hin.
  apply list_elem_of_In, elem_of_lookup_imap in Hin as (k & x & [= -> ->] & Hl). exact Hl.
Qed.

(** The entries the loop scans are those of [examined]. *)
Lemma scan_sorted_entries cs n sorted comparisons s :
  size_of cs < npos ->
  deterministic_sort entry_less (make_entries policy obligations current cs) n =
    (sorted, comparisons) ->
  size_of sorted = size_of cs /\
  scan_entries policy obligations fenced incumbent cs 0
    (take (Z.to_nat (Z.min (size_of sorted) (pol_search_limit policy))) sorted) s =
  scan_spec 0 (examined cs) s.
Proof.
  intros Hlen Hs. destruct (sort_entries cs n) as (ps & Hd & Hps & Hperm).
  rewrite Hs in Hd. injection Hd as -> ->.
  assert (Hord : ps.*2 = ordered cs).
  { rewrite Hps, deterministic_sort_counter. done. }
  assert (Hsz : size_of ps = size_of cs).
  { unfold size_of. rewrite Hperm, length_imap. done. }
  assert (Hse : size_of (entry_at <$> ps) = size_of cs).
  { unfold size_of. rewrite length_fmap. exact Hsz. }
  split; [exact Hse|]. rewrite Hse, <- fmap_take, (scan_entries_spec cs).
  - unfold examined. by rewrite <- Hord, fmap_take.
  - by apply examined_pairs.
  - lia.
  - unfold size_of in *. rewrite length_take. lia.
Qed.
(** The reference: outcome, reason and selected path of a validated request. *)
Definition reference (set : AlternateSet) : PromotionOutcome * Reason * PathId :=
  let ex := examined (set_candidates set) in
  if existsb conflicting ex then
    (PromotionOutcome_refused_conflict, Reason_generation_conflict, Id_absent)
  else
    match list_find (fun c => gate_open c = true) ex with
    | Some (k, c) =>
        if existsb gate_blocked (take k ex) && negb (pol_allow_unknown_skip policy)
        then (PromotionOutcome_indeterminate_unknown_member, Reason_eligibility_unknown, Id_absent)
        else (PromotionOutcome_authorized, Reason_selected, cand_path c)
    | None =>
        if existsb gate_blocked ex then
          (PromotionOutcome_indeterminate_unknown_member, Reason_eligibility_unknown, Id_absent)
        else if size_of ex <? size_of (set_candidates set) then
          (PromotionOutcome_indeterminate_search_limit, Reason_search_limit_reached, Id_absent)
        else
          match set_completeness set with
          | SetCompleteness_partial =>
              (PromotionOutcome_indeterminate_incomplete_set, Reason_set_incomplete, Id_absent)
          | SetCompleteness_unknown =>
              (PromotionOutcome_indeterminate_incomplete_set, Reason_set_completeness_unknown,
               Id_absent)
          | SetCompleteness_complete =>
              if existsb gate_stale ex then
                (PromotionOutcome_refused_stale_authority, Reason_authority_stale, Id_absent)
              else
                (PromotionOutcome_refused_proven_no_alternate, Reason_proven_no_alternate,
                 Id_absent)
          end
    end.

Lemma count_positive {A} (p : A -> bool) l : (0 <? count p l) = existsb p l.
Proof.
  induction l as [|x l IH]; [done|]. rewrite count_cons. cbn [existsb].
  pose proof (count_nonneg p l). destruct (p x); cbn [orb]; [lia|]. by rewrite Z.add_0_l.
Qed.

Lemma existsb_false {A} (p : A -> bool) l :
  existsb p l = false <-> Forall (fun x => p x = false) l.
Proof. rewrite <- count_zero, <- count_positive. pose proof (count_nonneg p l). lia. Qed.

Lemma list_find_first_index (p : AlternateCandidate -> bool) l :
  size_of l < npos ->
  match list_find (fun c => p c = true) l with
  | Some (k, c) => first_index p 0 l = Z.of_nat k /\ l !! k = Some c
  | None => first_index p 0 l = npos
  end.
Proof.
  intros Hlen. destruct (list_find _ l) as [[k c]|] eqn:Hf.
  - apply list_find_Some in Hf as (Hk & Hc & Hmin). split; [|done].
    destruct (first_index_spec p 0 l) as [[_ Hn]|(j & y & -> & Hj & Hy & Hn)]; [lia|lia| |].
    + rewrite List.Forall_forall in Hn. rewrite Hn in Hc; [done|].
      by eapply list_elem_of_In, list_elem_of_lookup_2.
    + destruct (Nat.lt_trichotomy j k) as [Hlt|[->|Hlt]]; [|lia|].
      * by destruct (Hmin j y).
      * rewrite List.Forall_forall in Hn. rewrite Hn in Hc; [done|].
        apply list_elem_of_In, elem_of_take. by exists k.
  - apply list_find_None in Hf.
    destruct (first_index_spec p 0 l) as [[-> _]|(j & y & _ & Hj & Hy & _)]; [lia|lia|done|].
    rewrite List.Forall_forall in Hf. exfalso. apply (Hf y); [|exact Hy].
    by eapply list_elem_of_In, list_elem_of_lookup_2.
Qed.

Lemma refuse_fields d o r n :
  (dec_outcome (refuse d o r n), dec_reason (refuse d o r n), dec_selected (refuse d o r n)) =
  (o, r, Id_absent).
Proof. unfold refuse, explain. by case_match. Qed.

(** The conclusion after a complete scan, whatever the rest of the document. *)
Lemma conclude_reference set (supplied : Z) st d :
  let ex := examined (set_candidates set) in
  size_of ex < npos ->
  dec_ranked d = assess <$> ex ->
  dec_search_limited d = (size_of ex <? size_of (set_candidates set)) ->
  let d' := conclude set policy supplied
              (scan_spec 0 ex (mkScan st [] npos npos 0 0 0 false)) d in
  (dec_outcome d', dec_reason d', dec_selected d') = reference set.
Proof.
  intros ex Hlen Hranked Hlim. cbv zeta. unfold reference, conclude. fold ex.
  cbn [sc_fatal_conflict sc_first_promotable sc_first_indeterminate sc_indeterminate_count
       sc_stale_exclusions scan_spec orb].
  change (npos =? npos) with true. cbv iota. rewrite !Z.add_0_l, !count_positive.
  assert (Hrefuse : forall d o r n, (dec_outcome (refuse d o r n), dec_reason (refuse d o r n),
            dec_selected (refuse d o r n)) = (o, r, Id_absent)).
  { intros. apply refuse_fields. }
  destruct (existsb conflicting ex); [apply Hrefuse|].
  pose proof (list_find_first_index gate_open ex Hlen) as Hfind.
  destruct (list_find _ ex) as [[k c]|].
  - destruct Hfind as [-> Hk]. pose proof (lookup_lt_Some _ _ _ Hk) as Hlt.
    destruct (Z.eqb_spec (Z.of_nat k) npos); [unfold size_of in Hlen; lia|]. cbn [negb].
    rewrite first_index_lt by done.
    destruct (_ && negb _); [apply Hrefuse|]. cbn. do 2 f_equal.
    rewrite Hranked, Nat2Z.id, (nth_lookup _ _ CandidateAssessment_default).
    rewrite list_lookup_alter, list_lookup_fmap, Hk. cbn.
    rewrite decide_True by done. cbn. unfold GateProps.entry_of, make_entry. by destruct (compute_score _ _ _ _).
  - rewrite Hfind. cbn [negb Z.eqb]. change (npos =? npos) with true. cbn [negb].
    destruct (existsb gate_blocked ex); [apply Hrefuse|].
    rewrite Hlim. destruct (_ <? _); [apply Hrefuse|].
    destruct (set_completeness set); cbn; try apply Hrefuse.
    destruct (existsb gate_stale ex); apply Hrefuse.
Qed.
End pipeline.

(** ** The whole evaluation *)

(** What [evaluate] checks before it selects. *)
Record Admissible (input : SelectionInput) (set : AlternateSet) (policy : FailoverPolicy)
    (obligations : ServiceObligations) : Prop := {
  adm_set : si_set input = Some set;
  adm_policy : si_policy input = Some policy;
  adm_obligations : si_obligations input = Some obligations;
  adm_search_limit : is_u32 (pol_search_limit policy);
  adm_policy_ok : Status_ok (FailoverPolicy_validate policy) = true;
  adm_obligations_ok : Status_ok (ServiceObligations_validate obligations) = true;
  adm_set_ok : AlternateSet_valid set;
  adm_incumbent : Id_valid (si_incumbent input) = true;
  adm_policy_current : pol_generation policy = av_policy (si_current input);
  adm_obligations_current : ob_generation obligations = av_obligations (si_current input);
  adm_expected : si_expected_set_generation input = Id_absent \/
                 si_expected_set_generation input = set_generation set }.

(** The document before any check. *)
Definition blank (input : SelectionInput) : PromotionDecision :=
  PromotionDecision_default
    <| dec_id := si_decision_id input |> <| dec_incumbent := si_incumbent input |>
    <| dec_basis := si_current input |> <| dec_attempt := si_attempt input |>
    <| dec_provenance := si_provenance input |>.

(** The document with the inputs identified. *)
Definition identified (input : SelectionInput) (set : AlternateSet) (policy : FailoverPolicy)
    (obligations : ServiceObligations) : PromotionDecision :=
  (blank input) <| dec_set := set_id set |> <| dec_set_generation := set_generation set |>
    <| dec_policy_generation := pol_generation policy |>
    <| dec_obligations_generation := ob_generation obligations |>
    <| dec_supplied := size_of (set_candidates set) |>
    <| dec_stats := SelectionStats_default <| ss_candidates_supplied := size_of (set_candidates set) |> |>
    <| dec_set_complete := bool_decide (set_completeness set = SetCompleteness_complete) |>.

(** A refusal before any candidate is examined. *)
Record Unexamined (input : SelectionInput) (d : PromotionDecision) : Prop := {
  un_id : dec_id d = si_decision_id input;
  un_kind : dec_authority_kind d = AuthorityKind_recommendation;
  un_refusal : is_refusal (dec_outcome d) = true;
  un_not_proven : dec_outcome d <> PromotionOutcome_refused_proven_no_alternate;
  un_selected : dec_selected d = Id_absent;
  un_ranked : dec_ranked d = [];
  un_above : dec_indeterminate_above d = [];
  un_examined : dec_examined d = 0;
  un_explanation : size_of (dec_explanation d) = 1 }.

Lemma refuse_unexamined input d o r n :
  dec_id d = si_decision_id input -> dec_authority_kind d = AuthorityKind_recommendation ->
  is_refusal o = true -> o <> PromotionOutcome_refused_proven_no_alternate ->
  dec_ranked d = [] -> dec_indeterminate_above d = [] -> dec_examined d = 0 ->
  dec_explanation d = [] -> Unexamined input (refuse d o r n).
Proof.
  intros Hid Hk Ho Hp Hr Ha He Hx. unfold refuse, explain. cbn. rewrite Hx. cbn.
  constructor; cbn; rewrite ?Hx; done.
Qed.

Lemma refuse_class_unexamined input cls r d :
  dec_id d = si_decision_id input -> dec_authority_kind d = AuthorityKind_recommendation ->
  dec_ranked d = [] -> dec_indeterminate_above d = [] -> dec_examined d = 0 ->
  dec_explanation d = [] -> Unexamined input (refuse_class cls r d).
Proof.
  intros. unfold refuse_class. apply refuse_unexamined; try done; by case_bool_decide.
Qed.

Lemma generation_current_spec g c :
  negb (bool_decide (classify_generation g c = AuthorityClass_current)) = false ->
  Id_valid g = true -> g = c.
Proof.
  rewrite negb_false_iff, bool_decide_eq_true, classify_generation_current. by intros [-> _].
Qed.

(** [evaluate] always returns a document: a refusal of its inputs, or a
    selection over admitted inputs. *)
Lemma evaluate_cases input :
  (forall policy, si_policy input = Some policy -> is_u32 (pol_search_limit policy)) ->
  (exists d, evaluate input = Ok d /\ Unexamined input d) \/
  (exists set policy obligations, Admissible input set policy obligations /\
     evaluate input =
     Ok (select input set policy obligations (identified input set policy obligations))).
Proof.
  intros Hu32. unfold evaluate.
  destruct (si_set input) as [set|] eqn:Hset; [|left; eexists; split; [done|by apply refuse_unexamined]].
  destruct (si_policy input) as [policy|] eqn:Hpol;
    [|left; eexists; split; [done|by apply refuse_unexamined]].
  destruct (si_obligations input) as [obligations|] eqn:Hob;
    [|left; eexists; split; [done|by apply refuse_unexamined]].
  cbv zeta.
  destruct (negb (Status_ok (FailoverPolicy_validate policy))) eqn:Hp;
    [left; eexists; split; [done|by apply refuse_unexamined]|].
  destruct (negb (Status_ok (ServiceObligations_validate obligations))) eqn:Ho;
    [left; eexists; split; [done|by apply refuse_unexamined]|].
  destruct (negb (Status_ok (AlternateSet_validate set))) eqn:Hs;
    [left; eexists; split; [done|by apply refuse_unexamined]|].
  destruct (negb (Id_valid (si_incumbent input))) eqn:Hi;
    [left; eexists; split; [done|by apply refuse_unexamined]|].
  destruct (negb (bool_decide (classify_generation (pol_generation policy) _ = _))) eqn:Hpc;
    [left; eexists; split; [done|by apply refuse_class_unexamined]|].
  destruct (negb (bool_decide (classify_generation (ob_generation obligations) _ = _))) eqn:Hoc;
    [left; eexists; split; [done|by apply refuse_class_unexamined]|].
  destruct (Id_valid (si_expected_set_generation input) && _) eqn:He.
  { left. eexists. split; [done|]. apply refuse_unexamined; try done; by case_match. }
  right. exists set, policy, obligations. split; [|apply f_equal; apply (f_equal (select input set policy obligations)); vm_compute; reflexivity].
  rewrite negb_false_iff in Hp, Ho, Hs, Hi.
  pose proof Hp as Hp'. apply FailoverPolicy_validate_ok in Hp' as (Hpv & _).
  pose proof Ho as Ho'. apply ServiceObligations_validate_ok in Ho' as (Hov & _).
  constructor; try done.
  - by apply Hu32.
  - by apply AlternateSet_validate_ok.
  - by apply generation_current_spec.
  - by apply generation_current_spec.
  - apply andb_false_iff in He as [He|He]; [left; by apply Id_valid_false|right].
    apply negb_false_iff in He. by apply Id_eqb_eq.
Qed.

(** ** Selection as a function of the examined candidates *)

(** Admissible inputs are never refused before the selection. *)
Lemma admitted_evaluate input set policy obligations :
  Admissible input set policy obligations ->
  evaluate input =
  Ok (select input set policy obligations (identified input set policy obligations)).
Proof.
  intros []. unfold evaluate. rewrite adm_set0, adm_policy0, adm_obligations0. cbv zeta.
  rewrite adm_policy_ok0, adm_obligations_ok0, adm_incumbent0.
  rewrite (proj2 (AlternateSet_validate_ok set)) by done. cbn [negb].
  apply FailoverPolicy_validate_ok in adm_policy_ok0 as (Hpv & _).
  apply ServiceObligations_validate_ok in adm_obligations_ok0 as (Hov & _).
  rewrite (bool_decide_eq_true_2 (classify_generation (pol_generation policy) _ = _))
    by (apply classify_generation_current; rewrite <- adm_policy_current0; done).
  rewrite (bool_decide_eq_true_2 (classify_generation (ob_generation obligations) _ = _))
    by (apply classify_generation_current; rewrite <- adm_obligations_current0; done).
  cbn [negb].
  replace (Id_valid (si_expected_set_generation input) && _) with false
    by (destruct adm_expected0 as [-> | ->]; [done|by rewrite Id_eqb_refl, andb_false_r]).
  apply f_equal; apply (f_equal (select input set policy obligations)); vm_compute; reflexivity.
Qed.

(** A document is bounded when its explanation is. *)
Lemma explain_bounded d r v :
  size_of (dec_explanation d) <= max_explanation_steps ->
  exists e, explain d r v = d <| dec_explanation := e |> /\ size_of e <= max_explanation_steps.
Proof.
  intros Hd. unfold explain. case_match eqn:E.
  - eexists. split; [reflexivity|]. zify_bools. autorewrite with pff. lia.
  - exists (dec_explanation d). split; [by destruct d|done].
Qed.

Definition is_excluded (a : CandidateAssessment) : bool :=
  bool_decide (as_verdict a = CandidateVerdict_excluded).

Lemma explain_exclusions_spec l d :
  size_of (dec_explanation d) <= max_explanation_steps ->
  exists e, explain_exclusions l d =
    d <| dec_stats ::= fun s => s <| ss_definite_exclusions ::= Z.add (count is_excluded l) |> |>
      <| dec_explanation := e |> /\ size_of e <= max_explanation_steps.
Proof.
  revert d. induction l as [|a l IH]; intros d Hd; cbn [explain_exclusions].
  { exists (dec_explanation d). split; [by destruct d as [????????????????????[]]|done]. }
  rewrite count_cons. unfold is_excluded at 1. case_decide as Hv.
  - rewrite bool_decide_eq_true_2 by done.
    edestruct (explain_bounded (d <| dec_stats ::=
      fun s => s <| ss_definite_exclusions ::= Z.succ |> |>)) as (e & -> & He); [exact Hd|].
    edestruct IH as (e' & -> & He'); [|exists e'; split; [|exact He']]; [exact He|].
    destruct d as [????????????????????[]]. cbn. do 2 f_equal. lia.
  - rewrite bool_decide_eq_false_2 by done. apply IH. exact Hd.
Qed.

(** ** The comparison counter is only reported *)

Definition with_comparisons (n : Z) (d : PromotionDecision) : PromotionDecision :=
  d <| dec_stats ::= fun s => s <| ss_ordering_comparisons := n |> |>.

Lemma explain_comparisons n d r v :
  explain (with_comparisons n d) r v = with_comparisons n (explain d r v).
Proof. unfold explain. cbn [dec_explanation with_comparisons update_field]. by case_match. Qed.

Lemma refuse_comparisons n d o r v :
  refuse (with_comparisons n d) o r v = with_comparisons n (refuse d o r v).
Proof. unfold refuse. rewrite <- explain_comparisons. reflexivity. Qed.

Lemma explain_exclusions_comparisons n l d :
  explain_exclusions l (with_comparisons n d) = with_comparisons n (explain_exclusions l d).
Proof.
  revert d. induction l as [|a l IH]; intros d; [done|]. cbn [explain_exclusions].
  case_decide; [|apply IH]. rewrite <- IH, <- explain_comparisons. reflexivity.
Qed.

Lemma conclude_comparisons n set policy supplied s d :
  conclude set policy supplied s (with_comparisons n d) =
  with_comparisons n (conclude set policy supplied s d).
Proof.
  unfold conclude. cbv zeta.
  change (dec_ranked (with_comparisons n d)) with (dec_ranked d).
  change (dec_search_limited (with_comparisons n d)) with (dec_search_limited d).
  destruct (sc_fatal_conflict s); [apply refuse_comparisons|].
  destruct (negb (sc_first_promotable s =? npos)).
  { set (g := report_indeterminate _).
    replace ((with_comparisons n d) <| dec_indeterminate_above ::= g |>) with
      (with_comparisons n (d <| dec_indeterminate_above ::= g |>)) by reflexivity.
    set (d1 := d <| dec_indeterminate_above ::= g |>). clearbody d1.
    destruct (_ && _); [apply refuse_comparisons|reflexivity]. }
  destruct (0 <? sc_indeterminate_count s); [apply refuse_comparisons|].
  destruct (dec_search_limited d); [apply refuse_comparisons|].
  destruct (negb _); [apply refuse_comparisons|].
  destruct (0 <? sc_stale_exclusions s); apply refuse_comparisons.
Qed.

Section selection.
Context (policy : FailoverPolicy) (obligations : ServiceObligations)
  (fenced : list PathId) (incumbent : PathId) (current : AuthorityVector).

Abbreviation examined := (examined policy obligations current).
Abbreviation assess := (assess policy obligations fenced incumbent current).
Abbreviation scan_spec := (scan_spec policy obligations fenced incumbent current).

(** The document when the scan starts, and when the conclusion starts. *)
Definition scan_start (supplied considered comparisons : Z) (d : PromotionDecision)
    : PromotionDecision :=
  let d := d <| dec_stats ::= fun s => s <| ss_score_evaluations ::= Z.add supplied |> |> in
  let d := d <| dec_stats ::= fun s => s <| ss_ordering_comparisons := comparisons |> |> in
  d <| dec_examined := considered |> <| dec_search_limited := considered <? supplied |>
    <| dec_stats ::= fun s => s <| ss_candidates_considered := considered |> |>.

Definition scan_end (ex : list AlternateCandidate) (d : PromotionDecision) : Scan :=
  scan_spec 0 ex (mkScan (dec_stats d) [] npos npos 0 0 0 false).

Definition scanned (ex : list AlternateCandidate) (d : PromotionDecision) : PromotionDecision :=
  let s := scan_end ex d in
  let d := d <| dec_stats := sc_stats s |> <| dec_ranked := sc_ranked s |> in
  let d := explain_exclusions (dec_ranked d) d in
  d <| dec_stats ::= fun st => st <| ss_indeterminate_members := sc_indeterminate_count s |> |>.

Lemma select_scanned input set d :
  si_current input = current -> si_fenced_paths input = fenced ->
  si_incumbent input = incumbent -> AlternateSet_valid set -> 0 < pol_search_limit policy ->
  let cs := set_candidates set in
  let comparisons := (deterministic_sort (cand_less policy obligations current) cs
                        (ss_ordering_comparisons (dec_stats d))).2 in
  let d0 := scan_start (size_of cs) (size_of (examined cs)) comparisons d in
  select input set policy obligations d =
  conclude set policy (size_of cs) (scan_end (examined cs) d0) (scanned (examined cs) d0).
Proof.
  intros Hc Hf Hi Hset Hlim cs comparisons d0. unfold select. rewrite Hc, Hf, Hi. fold cs.
  pose proof (set_valid_size _ Hset) as Hsize. unfold_limits. fold cs in Hsize.
  destruct (deterministic_sort entry_less _ _) as [sorted n] eqn:Hs.
  pose proof (fun s Hl => scan_sorted_entries policy obligations fenced incumbent current
                          cs _ sorted n s Hl Hs) as Hscan.
  destruct (sort_entries policy obligations current cs
              (ss_ordering_comparisons (dec_stats d))) as (ps & Hd & _).
  cbn [dec_stats update_field ss_ordering_comparisons] in Hs.
  assert (Hcmp : n = comparisons).
  { unfold comparisons. cbn in Hs. rewrite Hd in Hs. by injection Hs. }
  assert (Hl : size_of cs < npos) by (unfold npos, UINT64_MAX; lia).
  destruct (Hscan (mkScan (dec_stats d0) [] npos npos 0 0 0 false) Hl) as [Hss Hse].
  clear Hscan Hs Hd.
  assert (Hex : Z.min (size_of sorted) (pol_search_limit policy) = size_of (examined cs)).
  { unfold SelectorProps.examined, size_of in *. rewrite length_take, ordered_perm. lia. }
  rewrite Hex, Hss in *. subst n. unfold scanned, scan_end. unfold d0, scan_start in *.
  cbv zeta in *. rewrite Hse. reflexivity.
Qed.

Abbreviation gate_stats := (gate_stats policy obligations fenced incumbent current).

Lemma gate_stats_comparisons n cs st :
  foldl gate_stats (stats_comparisons n st) cs = stats_comparisons n (foldl gate_stats st cs).
Proof.
  revert st. induction cs as [|c cs IH]; intros st; [done|]. cbn [foldl]. rewrite <- IH.
  f_equal. apply apply_gates_comparisons.
Qed.

Lemma scan_end_comparisons n ex d :
  scan_end ex (with_comparisons n d) =
  (scan_end ex d) <| sc_stats ::= stats_comparisons n |>.
Proof.
  unfold scan_end, SelectorProps.scan_spec.
  change (dec_stats (with_comparisons n d)) with (stats_comparisons n (dec_stats d)).
  cbn [sc_stats]. by rewrite gate_stats_comparisons.
Qed.

Lemma scanned_comparisons n ex d :
  scanned ex (with_comparisons n d) = with_comparisons n (scanned ex d).
Proof.
  unfold scanned. cbv zeta. rewrite scan_end_comparisons.
  set (s := scan_end ex d).
  replace ((with_comparisons n d) <| dec_stats := sc_stats (s <| sc_stats ::= stats_comparisons n |>) |>
            <| dec_ranked := sc_ranked (s <| sc_stats ::= stats_comparisons n |>) |>)
    with (with_comparisons n (d <| dec_stats := sc_stats s |> <| dec_ranked := sc_ranked s |>))
    by reflexivity.
  set (d1 := d <| dec_stats := sc_stats s |> <| dec_ranked := sc_ranked s |>).
  change (dec_ranked (with_comparisons n d1)) with (dec_ranked d1).
  rewrite explain_exclusions_comparisons. reflexivity.
Qed.

Lemma conclude_scan_stats set supplied s st d :
  conclude set policy supplied (s <| sc_stats := st |>) d = conclude set policy supplied s d.
Proof. reflexivity. Qed.

(** The counters of the scan. *)
Lemma gate_stats_work cs st :
  let st' := foldl gate_stats st cs in
  ss_gate_evaluations st + size_of cs <= ss_gate_evaluations st'
    <= ss_gate_evaluations st + 14 * size_of cs /\
  ss_fence_lookups st <= ss_fence_lookups st' <= ss_fence_lookups st + size_of cs /\
  ss_ordering_comparisons st' = ss_ordering_comparisons st /\
  ss_candidates_considered st' = ss_candidates_considered st /\
  ss_definite_exclusions st' = ss_definite_exclusions st /\
  ss_score_evaluations st' = ss_score_evaluations st /\
  ss_candidates_supplied st' = ss_candidates_supplied st.
Proof.
  revert st. induction cs as [|c cs IH]; intros st; cbn [foldl].
  { rewrite size_of_nil. lia. }
  rewrite size_of_cons. specialize (IH (gate_stats st c)).
  pose proof (apply_gates_work policy obligations fenced incumbent c
                (entry_of policy obligations current c) st) as Hw.
  unfold SelectorProps.gate_stats in *. cbv zeta in *. lia.
Qed.
End selection.

(** ** The document of an admitted input *)

Lemma scan_start_fields n k c d :
  scan_start n k c d =
  d <| dec_stats := (dec_stats d) <| ss_score_evaluations ::= Z.add n |>
         <| ss_ordering_comparisons := c |> <| ss_candidates_considered := k |> |>
    <| dec_examined := k |> <| dec_search_limited := k <? n |>.
Proof. by destruct d. Qed.

Lemma count_le {A} (p : A -> bool) l : count p l <= size_of l.
Proof. induction l as [|x l IH]; [done|]. rewrite count_cons, size_of_cons. destruct (p x); lia. Qed.

Section admitted.
Context (input : SelectionInput) (set : AlternateSet) (policy : FailoverPolicy)
  (obligations : ServiceObligations) (adm : Admissible input set policy obligations).

Abbreviation ex := (examined policy obligations (si_current input) (set_candidates set)).
Abbreviation cs := (set_candidates set).

Definition admitted_start : PromotionDecision :=
  scan_start (size_of cs) (size_of ex)
    (deterministic_sort (cand_less policy obligations (si_current input)) cs 0).2
    (identified input set policy obligations).

Definition admitted_scanned : PromotionDecision :=
  scanned policy obligations (si_fenced_paths input) (si_incumbent input) (si_current input)
    ex admitted_start.

Definition admitted_document : PromotionDecision :=
  conclude set policy (size_of cs)
    (scan_end policy obligations (si_fenced_paths input) (si_incumbent input) (si_current input)
       ex admitted_start) admitted_scanned.

Lemma admitted_search_limit_positive : 0 < pol_search_limit policy.
Proof.
  pose proof (adm_search_limit _ _ _ _ adm) as Hu. unfold_ints.
  pose proof (adm_policy_ok _ _ _ _ adm) as Hp.
  apply FailoverPolicy_validate_ok in Hp as (_ & _ & Hne & _). lia.
Qed.

Lemma evaluate_admitted : evaluate input = Ok admitted_document.
Proof.
  rewrite (admitted_evaluate _ _ _ _ adm). apply f_equal.
  apply select_scanned; try done.
  - by eapply adm_set_ok.
  - apply admitted_search_limit_positive.
Qed.

Lemma examined_size : size_of ex = Z.min (size_of cs) (pol_search_limit policy).
Proof.
  pose proof admitted_search_limit_positive as Hl. unfold SelectorProps.examined, size_of in *.
  rewrite length_take, ordered_perm. lia.
Qed.

Lemma admitted_size : size_of cs <= max_candidates_per_set /\ size_of ex < npos.
Proof.
  pose proof (set_valid_size _ (adm_set_ok _ _ _ _ adm)) as Hs. split; [exact Hs|].
  rewrite examined_size. unfold npos, UINT64_MAX. unfold_limits. lia.
Qed.

(** The fields of the document when the conclusion starts. *)
Lemma admitted_scanned_fields :
  exists st e, admitted_scanned =
    (identified input set policy obligations) <| dec_stats := st |>
      <| dec_examined := size_of ex |> <| dec_search_limited := size_of ex <? size_of cs |>
      <| dec_ranked := assess policy obligations (si_fenced_paths input) (si_incumbent input)
                         (si_current input) <$> ex |>
      <| dec_explanation := e |> /\
    size_of e <= max_explanation_steps /\
    size_of ex <= ss_gate_evaluations st <= 14 * size_of ex /\
    0 <= ss_fence_lookups st <= size_of ex /\
    0 <= ss_definite_exclusions st <= size_of ex /\
    ss_candidates_considered st = size_of ex /\
    ss_score_evaluations st = size_of cs /\
    ss_ordering_comparisons st =
      (deterministic_sort (cand_less policy obligations (si_current input)) cs 0).2.
Proof.
  unfold admitted_scanned, scanned. cbv zeta.
  set (s := scan_end _ _ _ _ _ _ _).
  assert (Hsr : sc_ranked s = assess policy obligations (si_fenced_paths input)
            (si_incumbent input) (si_current input) <$> ex) by reflexivity.
  rewrite Hsr. pose proof (gate_stats_work policy obligations (si_fenced_paths input)
    (si_incumbent input) (si_current input) ex (dec_stats admitted_start)) as Hw.
  assert (Hss : sc_stats s = foldl (gate_stats policy obligations (si_fenced_paths input)
            (si_incumbent input) (si_current input)) (dec_stats admitted_start) ex)
    by reflexivity.
  cbv zeta in Hw. rewrite <- Hss in Hw. clear Hss Hsr.
  unfold admitted_start in *. rewrite scan_start_fields in *.
  change (dec_stats (identified input set policy obligations)) with
    (SelectionStats_default <| ss_candidates_supplied := size_of cs |>) in *.
  assert (He : dec_explanation (identified input set policy obligations) = []) by reflexivity.
  set (d := identified input set policy obligations) in *.
  set (l := assess policy obligations (si_fenced_paths input) (si_incumbent input)
              (si_current input) <$> ex) in *.
  assert (Hl : size_of l = size_of ex) by (unfold l, size_of; by rewrite length_fmap).
  set (n := deterministic_sort _ cs 0) in *.
  pose proof (count_le is_excluded l) as Hcl. pose proof (count_nonneg is_excluded l).
  set (x := ex) in *. clearbody s d l n x. cbn in Hw.
  match goal with |- context [explain_exclusions ?L ?D] =>
    change L with l; destruct (explain_exclusions_spec l D) as (e & -> & Hle) end.
  { destruct d; cbn in *. by rewrite He. }
  exists ((sc_stats s) <| ss_definite_exclusions ::= Z.add (count is_excluded l) |>
            <| ss_indeterminate_members := sc_indeterminate_count s |>), e.
  split; [by destruct d|]. cbn. repeat split; try lia.
Qed.

Lemma admitted_reference :
  (dec_outcome admitted_document, dec_reason admitted_document, dec_selected admitted_document) =
  reference policy obligations (si_fenced_paths input) (si_incumbent input) (si_current input) set.
Proof.
  destruct admitted_scanned_fields as (st & e & Hd & _).
  apply conclude_reference; [apply admitted_size|by rewrite Hd|by rewrite Hd].
Qed.

Lemma report_indeterminate_bound l acc :
  size_of acc <= max_indeterminate_reported ->
  size_of (report_indeterminate l acc) <= max_indeterminate_reported.
Proof.
  revert acc. induction l as [|a l IH]; intros acc Ha; [done|]. cbn [report_indeterminate].
  apply IH. case_match eqn:E; [|done]. zify_bools. autorewrite with pff. lia.
Qed.

(** What the conclusion leaves of a document. *)
Lemma conclude_fields supplied s d :
  size_of (dec_explanation d) <= max_explanation_steps ->
  size_of (dec_indeterminate_above d) <= max_indeterminate_reported ->
  let d' := conclude set policy supplied s d in
  dec_stats d' = dec_stats d /\ dec_examined d' = dec_examined d /\
  dec_authority_kind d' = dec_authority_kind d /\ dec_id d' = dec_id d /\
  length (dec_ranked d') = length (dec_ranked d) /\
  size_of (dec_explanation d') <= max_explanation_steps /\
  size_of (dec_indeterminate_above d') <= max_indeterminate_reported.
Proof.
  intros He Hi. cbv zeta.
  assert (Hrefuse : forall d o r n, size_of (dec_explanation d) <= max_explanation_steps ->
    size_of (dec_indeterminate_above d) <= max_indeterminate_reported ->
    let d' := refuse d o r n in
    dec_stats d' = dec_stats d /\ dec_examined d' = dec_examined d /\
    dec_authority_kind d' = dec_authority_kind d /\ dec_id d' = dec_id d /\
    length (dec_ranked d') = length (dec_ranked d) /\
    size_of (dec_explanation d') <= max_explanation_steps /\
    size_of (dec_indeterminate_above d') <= max_indeterminate_reported).
  { clear. intros d o r n He Hi. cbv zeta. unfold refuse.
    edestruct (explain_bounded (d <| dec_outcome := o |> <| dec_reason := r |>
      <| dec_selected := Id_absent |>)) as (e & -> & Hb); [exact He|]. cbn. done. }
  unfold conclude. cbv zeta.
  destruct (sc_fatal_conflict s); [by apply Hrefuse|].
  destruct (negb (sc_first_promotable s =? npos)).
  { set (g := report_indeterminate _).
    assert (Hi' : size_of (dec_indeterminate_above (d <| dec_indeterminate_above ::= g |>))
                  <= max_indeterminate_reported) by (by apply report_indeterminate_bound).
    set (d1 := d <| dec_indeterminate_above ::= g |>) in *.
    destruct (_ && _).
    { pose proof (Hrefuse d1 PromotionOutcome_indeterminate_unknown_member
        Reason_eligibility_unknown (i64_of_u64 (sc_indeterminate_count s)) He Hi') as Hr.
      exact Hr. }
    cbn in *. by rewrite length_alter. }
  destruct (0 <? sc_indeterminate_count s); [by apply Hrefuse|].
  destruct (dec_search_limited d); [by apply Hrefuse|].
  destruct (negb _); [by apply Hrefuse|].
  destruct (0 <? sc_stale_exclusions s); by apply Hrefuse.
Qed.

Lemma admitted_examined : dec_examined admitted_document = size_of ex.
Proof.
  destruct admitted_scanned_fields as (st & e & Hd & He & _). unfold admitted_document.
  rewrite Hd.
  match goal with |- dec_examined (conclude _ _ ?n ?s ?D) = _ =>
    pose proof (conclude_fields n s D) as Hc end.
  destruct Hc as (_ & -> & _); [exact He|done|done].
Qed.

Lemma admitted_document_fields :
  let d := admitted_document in let st := dec_stats d in
  size_of (dec_ranked d) = size_of ex /\
  size_of (dec_explanation d) <= max_explanation_steps /\
  size_of (dec_indeterminate_above d) <= max_indeterminate_reported /\
  size_of ex <= ss_gate_evaluations st <= 14 * size_of ex /\
  0 <= ss_fence_lookups st <= size_of ex /\
  0 <= ss_definite_exclusions st <= size_of ex /\
  ss_candidates_considered st = size_of ex /\
  ss_score_evaluations st = size_of cs /\
  ss_ordering_comparisons st =
    (deterministic_sort (cand_less policy obligations (si_current input)) cs 0).2.
Proof.
  destruct admitted_scanned_fields as (st & e & Hd & He & Hst). cbv zeta.
  unfold admitted_document. rewrite Hd.
  match goal with |- context [conclude _ _ ?n ?s ?D] =>
    pose proof (conclude_fields n s D) as Hc end.
  destruct Hc as (-> & _ & _ & _ & Hl & Hx & Hab); [exact He|done|].
  split; [apply (f_equal Z.of_nat) in Hl; cbn in Hl; rewrite length_fmap in Hl; exact Hl|].
  do 2 (split; [done|]). exact Hst.
Qed.

Lemma admitted_document_kind :
  dec_authority_kind admitted_document = AuthorityKind_recommendation /\
  dec_id admitted_document = si_decision_id input.
Proof.
  destruct admitted_scanned_fields as (st & e & Hd & He & _).
  unfold admitted_document. rewrite Hd.
  match goal with |- context [conclude _ _ ?n ?s ?D] =>
    pose proof (conclude_fields n s D) as Hc end.
  by destruct Hc as (_ & _ & -> & -> & _); [exact He|done|].
Qed.

(** Only an authorization names a path. *)
Lemma reference_selected fenced incumbent current :
  let r := reference policy obligations fenced incumbent current set in
  r.1.1 = PromotionOutcome_authorized \/ r.2 = Id_absent.
Proof. cbv zeta. unfold reference. repeat case_match; cbn; tauto. Qed.
End admitted.

(** ** Permuted inputs *)

Lemma admitted_permuted input set policy obligations cs' :
  Admissible input set policy obligations -> set_candidates set ≡ₚ cs' ->
  Admissible (input <| si_set := Some (set <| set_candidates := cs' |>) |>)
    (set <| set_candidates := cs' |>) policy obligations.
Proof.
  intros [] Hp. constructor; try done. destruct adm_set_ok0. constructor; cbn; try done.
  - unfold size_of in *. by rewrite <- Hp.
  - by rewrite <- Hp.
  - by rewrite <- Hp.
Qed.

Lemma conclude_same_set set set' policy supplied s d :
  set_completeness set = set_completeness set' ->
  conclude set policy supplied s d = conclude set' policy supplied s d.
Proof. intros H. unfold conclude. by rewrite H. Qed.

Lemma conclude_scan_end n policy obligations fenced incumbent current set policy' supplied ex d d0 :
  conclude set policy' supplied (scan_end policy obligations fenced incumbent current ex d0) d =
  conclude set policy' supplied
    (scan_end policy obligations fenced incumbent current ex (with_comparisons n d0)) d.
Proof. by rewrite scan_end_comparisons. Qed.

Lemma with_comparisons_start n supplied k c d :
  with_comparisons n (scan_start supplied k c d) = scan_start supplied k n d.
Proof. reflexivity. Qed.

Lemma admitted_document_permuted input set policy obligations cs' n :
  NoDup (cand_path <$> set_candidates set) -> set_candidates set ≡ₚ cs' ->
  with_comparisons n (admitted_document
    (input <| si_set := Some (set <| set_candidates := cs' |>) |>)
    (set <| set_candidates := cs' |>) policy obligations) =
  with_comparisons n (admitted_document input set policy obligations).
Proof.
  intros Hnd Hp. unfold admitted_document, admitted_scanned, admitted_start.
  set (set' := set <| set_candidates := cs' |>).
  assert (Hid : identified (input <| si_set := Some set' |>) set' policy obligations =
                identified input set policy obligations).
  { unfold identified. cbn [set_candidates]. 
    replace (size_of (set_candidates set')) with (size_of (set_candidates set))
      by (unfold size_of, set'; cbn; by rewrite Hp). reflexivity. }
  assert (Hsz : size_of cs' = size_of (set_candidates set)) by (unfold size_of; by rewrite Hp).
  change (set_candidates set') with cs'.
  rewrite Hid, Hsz, (conclude_same_set set' set) by done.
  assert (Hexam : examined policy obligations (si_current input) cs' =
                  examined policy obligations (si_current input) (set_candidates set)).
  { unfold examined. rewrite Hsz. by rewrite (ordered_permutation _ _ _ _ _ Hnd Hp). }
  change (si_current (input <| si_set := Some set' |>)) with (si_current input).
  change (si_fenced_paths (input <| si_set := Some set' |>)) with (si_fenced_paths input).
  change (si_incumbent (input <| si_set := Some set' |>)) with (si_incumbent input).
  rewrite Hexam. rewrite <- !conclude_comparisons, <- !scanned_comparisons.
  etrans; [apply (conclude_scan_end n)|]. symmetry. etrans; [apply (conclude_scan_end n)|].
  by rewrite !with_comparisons_start.
Qed.
