(* ===== verification/SelectorTheorems.v ===== *)
(** * Theorems of the selector

    The claims about [Selector.evaluate] and the sort, with the concrete
    inputs at which their hypotheses hold. *)

From S2P Require Import Prelude.
From S2P Require Import Ids.
From S2P Require Import Limits.
From S2P Require Import Status.
From S2P Require Import Checked.
From S2P Require Import Authority.
From S2P Require Import Model.
From S2P Require Import Decision.
From S2P Require Import Selector.
From S2P Require Import SortProps.
From S2P Require Import GateProps.
From S2P Require Import SelectorProps.

(** ** Concrete inputs *)

Definition sample_vector : AuthorityVector :=
  mkAuthorityVector (Id_from_value 1) (Id_from_value 2) (Id_from_value 3) (Id_from_value 4)
    (Id_from_value 5) (Id_from_value 6).

Definition sample_policy : FailoverPolicy :=
  FailoverPolicy_default <| pol_generation := Id_from_value 3 |>.

Definition sample_obligations : ServiceObligations :=
  ServiceObligations_default <| ob_generation := Id_from_value 4 |>.

Definition sample_evidence (path health : Z) : PathEvidence :=
  mkPathEvidence (Id_from_value 1) (Id_from_value path) Freshness_fresh Eligibility_eligible
    Reachability_reachable CapacityClass_sufficient 0 health 0 1 sample_vector Provenance_real.

Definition sample_candidate (path health : Z) : AlternateCandidate :=
  mkAlternateCandidate (Id_from_value path) 0 false (sample_evidence path health) sample_vector.

Definition sample_set (cs : list AlternateCandidate) : AlternateSet :=
  mkAlternateSet (Id_from_value 1) (Id_from_value 1) SetCompleteness_complete cs.

Definition sample_input (cs : list AlternateCandidate) : SelectionInput :=
  mkSelectionInput (Id_from_value 100) (Some (sample_set cs)) (Some sample_obligations)
    (Some sample_policy) sample_vector (Id_from_value 1) [Id_from_value 12] (Id_from_value 1)
    Id_absent Provenance_real.

(** Three candidates: [12] is fenced, [13] scores higher than [11]. *)
Definition sample_candidates : list AlternateCandidate :=
  [sample_candidate 11 500; sample_candidate 12 900; sample_candidate 13 700].

Lemma sample_admitted :
  Admissible (sample_input sample_candidates) (sample_set sample_candidates) sample_policy
    sample_obligations.
Proof.
  constructor; try (vm_compute; reflexivity).
  - vm_compute. split; congruence.
  - apply AlternateSet_validate_ok. vm_compute. reflexivity.
  - right. reflexivity.
Defined.

(** ** From the evaluation to the reference *)

(** The reference at the values of an input. *)
Definition input_reference (input : SelectionInput) (set : AlternateSet)
    (policy : FailoverPolicy) (obligations : ServiceObligations)
    : PromotionOutcome * Reason * PathId :=
  reference policy obligations (si_fenced_paths input) (si_incumbent input) (si_current input) set.

(** ** The theorems *)

(** C7: For inputs that pass validation and the generation checks,
    [Selector::evaluate] returns a document whose outcome, reason and selected
    path are those of the reference pipeline: sort the candidates canonically,
    cut at the search limit, and read the first open gate, a conflict or a
    blocked member above it. *)
Theorem evaluate_refines_reference input set policy obligations :
  Admissible input set policy obligations ->
  exists d, evaluate input = Ok d /\
    (dec_outcome d, dec_reason d, dec_selected d) = input_reference input set policy obligations.
Proof.
  intros Ha. eexists. split; [by apply evaluate_admitted|]. by apply admitted_reference.
Qed.

Lemma evaluate_refines_reference_witness :
  exists d, evaluate (sample_input sample_candidates) = Ok d /\
    (dec_outcome d, dec_reason d, dec_selected d) =
    (PromotionOutcome_authorized, Reason_selected, Id_from_value 13).
Proof.
  destruct (evaluate_refines_reference (sample_input sample_candidates)
    (sample_set sample_candidates) sample_policy sample_obligations sample_admitted)
    as (d & He & Hr).
  exists d. split; [exact He|]. rewrite Hr. vm_compute. reflexivity.
Defined.

(** The reference authorizes only the first open candidate of a conflict-free
    prefix. *)
Lemma reference_authorized policy obligations fenced incumbent current set r p :
  reference policy obligations fenced incumbent current set =
    (PromotionOutcome_authorized, r, p) ->
  let ex := examined policy obligations current (set_candidates set) in
  exists k c, ex !! k = Some c /\ p = cand_path c /\ r = Reason_selected /\
    Forall (fun c' => conflicting current c' = false) ex /\
    gate_open policy obligations fenced incumbent current c = true /\
    (forall j c', ex !! j = Some c' -> (j < k)%nat ->
       gate_open policy obligations fenced incumbent current c' = false /\
       (gate_blocked policy obligations fenced incumbent current c' = true ->
        pol_allow_unknown_skip policy = true)).
Proof.
  unfold reference. cbv zeta.
  set (ex := examined policy obligations current (set_candidates set)).
  destruct (existsb _ ex) eqn:Hc; [done|]. apply existsb_false in Hc.
  destruct (list_find _ ex) as [[k c]|] eqn:Hf.
  2:{ repeat case_match; done. }
  apply list_find_Some in Hf as (Hk & Ho & Hmin).
  destruct (_ && negb _) eqn:Hb; [done|]. intros [= <- <-].
  exists k, c. repeat split; try done.
  - apply not_true_iff_false. by eapply Hmin.
  - intros Hbl. apply andb_false_iff in Hb as [Hb|Hb]; [|by apply negb_false_iff].
    apply existsb_false in Hb. rewrite List.Forall_forall in Hb. rewrite (Hb c') in Hbl; [done|].
    apply list_elem_of_In, elem_of_take. by exists j.
Qed.

(** The reference selects a promotable member of the prefix that nothing open or,
    unless skipping is allowed, blocked precedes. *)
Lemma reference_first set policy obligations fenced incumbent current c :
  let ex := examined policy obligations current (set_candidates set) in
  (forall c', c' ∈ ex -> conflicting current c' = false) -> c ∈ ex ->
  Promotable policy obligations fenced incumbent current c ->
  (forall c', c' ∈ ex -> cand_less policy obligations current c' c = true ->
     ~ Promotable policy obligations fenced incumbent current c' /\
     (pol_allow_unknown_skip policy = false ->
      gate_blocked policy obligations fenced incumbent current c' = false)) ->
  Status_ok (FailoverPolicy_validate policy) = true -> NoDup (cand_path <$> set_candidates set) ->
  reference policy obligations fenced incumbent current set =
    (PromotionOutcome_authorized, Reason_selected, cand_path c).
Proof.
  intros ex Hcf Hc Hpr Hbefore Hpol Hnd. unfold reference. cbv zeta. fold ex.
  assert (Hopen : forall c', c' ∈ ex -> gate_open policy obligations fenced incumbent current c' = true ->
    Promotable policy obligations fenced incumbent current c')
    by (intros c' H Ho; apply gate_open_spec; auto).
  apply gate_open_spec in Hpr as Hpr'; [|done]. destruct Hpr' as [Hco _].
  rewrite (proj2 (existsb_false _ ex)) by (apply List.Forall_forall; intros x Hx%list_elem_of_In; auto).
  destruct (list_find _ ex) as [[k x]|] eqn:Hf.
  2:{ apply list_find_None in Hf. rewrite List.Forall_forall in Hf. by apply list_elem_of_In, Hf in Hc. }
  apply list_find_Some in Hf as (Hk & Ho & Hmin). apply list_elem_of_lookup in Hc as Hc'. destruct Hc' as [m Hm].
  assert (Hkm : (k <= m)%nat) by (apply Nat.nlt_ge; intros Hlt; by apply (Hmin m c)).
  (* anything at or before a position of [c], other than [c] itself, precedes it *)
  assert (Hless : forall j c', ex !! j = Some c' -> (j <= m)%nat -> c' = c \/
    cand_less policy obligations current c' c = true).
  { intros j c' Hj Hle. destruct (examined_order _ _ _ _ _ _ _ _ Hj Hm Hle) as [->|Hle']; [by left|].
    destruct (cand_less policy obligations current c' c) eqn:E; [by right|left].
    apply (NoDup_path_inj (set_candidates set)); [done| | |by eapply cand_less_total].
    - eapply examined_subset, list_elem_of_lookup_2, Hj.
    - eapply examined_subset, Hc. }
  apply list_elem_of_lookup_2 in Hk as Hx.
  assert (x = c) as ->.
  { destruct (Hless k x Hk Hkm) as [|Hl]; [done|]. destruct (Hbefore x Hx Hl) as [Hno _]. by destruct Hno; apply Hopen. }
  destruct (pol_allow_unknown_skip policy) eqn:Hskip; [by rewrite andb_false_r|].
  rewrite (proj2 (existsb_false _ _)); [done|]. apply List.Forall_forall. intros c' Hin%list_elem_of_In.
  apply elem_of_take in Hin as (j & Hj & Hlt).
  destruct (Hless j c' Hj ltac:(lia)) as [->|Hl]; [by destruct (Hmin j c Hj Hlt)|].
  apply (Hbefore c'); [by eapply list_elem_of_lookup_2|done|done].
Qed.

(** What an authorized decision says of the selected candidate. *)
Lemma selects_promotable input d :
  (forall policy, si_policy input = Some policy -> is_u32 (pol_search_limit policy)) ->
  evaluate input = Ok d -> dec_outcome d = PromotionOutcome_authorized ->
  exists set policy obligations c,
    Admissible input set policy obligations /\ c ∈ set_candidates set /\
    dec_selected d = cand_path c /\ dec_reason d = Reason_selected /\
    Promotable policy obligations (si_fenced_paths input) (si_incumbent input)
      (si_current input) c /\
    forall c', c' ∈ examined policy obligations (si_current input) (set_candidates set) ->
      cand_less policy obligations (si_current input) c' c = true ->
      ~ Promotable policy obligations (si_fenced_paths input) (si_incumbent input)
          (si_current input) c' /\
      (pol_allow_unknown_skip policy = false ->
       gate_blocked policy obligations (si_fenced_paths input) (si_incumbent input)
         (si_current input) c' = false).
Proof.
  intros Hu He Ho. destruct (evaluate_cases input Hu) as [(d' & He' & Hun)|(set&policy&obl&Ha&He')].
  { rewrite He in He'. injection He' as <-. apply un_refusal in Hun. by rewrite Ho in Hun. }
  clear He'. rewrite (evaluate_admitted _ _ _ _ Ha) in He. injection He as <-.
  pose proof (admitted_reference _ _ _ _ Ha) as Hr. rewrite Ho in Hr. symmetry in Hr.
  apply reference_authorized in Hr as (k & c & Hk & Hp & Hrs & Hcf & Hopen & Hbefore).
  exists set, policy, obl, c.
  assert (Hin : c ∈ examined policy obl (si_current input) (set_candidates set))
    by (by eapply list_elem_of_lookup_2).
  rewrite List.Forall_forall in Hcf.
  split; [exact Ha|]. split; [by eapply examined_subset|]. do 2 (split; [done|]).
  split.
  { apply gate_open_spec; [by eapply adm_policy_ok|]. split; [done|].
    by apply Hcf, list_elem_of_In. }
  intros c' Hin' Hless. apply list_elem_of_lookup in Hin' as [j Hj].
  assert (Hjk : (j < k)%nat).
  { apply Nat.nle_gt. intros Hle. eapply examined_order in Hle; [|exact Hk|exact Hj].
    destruct Hle as [->|Hle]; [|by rewrite Hle in Hless].
    pose proof (strict_asym (cand_less policy obl (si_current input)) c' c' Hless). congruence. }
  destruct (Hbefore j c' Hj Hjk) as [Hno Hskip]. split.
  - intros Hpr. apply gate_open_spec in Hpr as [Hop _]; [congruence|by eapply adm_policy_ok].
  - intros Hns. apply not_true_iff_false. intros Hbl. specialize (Hskip Hbl). congruence.
Qed.

(** *** The set a document names *)

Lemma explain_generation d r v : dec_set_generation (explain d r v) = dec_set_generation d.
Proof. unfold explain. by destruct (_ <? _). Qed.
Lemma refuse_generation d o r v : dec_set_generation (refuse d o r v) = dec_set_generation d.
Proof. unfold refuse. by rewrite explain_generation. Qed.
Lemma explain_exclusions_generation l d :
  dec_set_generation (explain_exclusions l d) = dec_set_generation d.
Proof.
  revert d. induction l as [|a l IH]; intros d; [done|]. cbn [explain_exclusions]. rewrite IH.
  destruct (decide _); [by rewrite explain_generation|done].
Qed.
Lemma conclude_generation set policy supplied s d :
  dec_set_generation (conclude set policy supplied s d) = dec_set_generation d.
Proof. unfold conclude. cbv zeta. repeat case_match; rewrite ?refuse_generation; reflexivity. Qed.

Lemma select_generation input set policy obligations d :
  dec_set_generation (select input set policy obligations d) = dec_set_generation d.
Proof.
  unfold select. cbv zeta. destruct (deterministic_sort _ _ _) as [sorted n].
  rewrite conclude_generation.
  lazymatch goal with |- context [explain_exclusions ?l ?x] =>
    pose proof (explain_exclusions_generation l x) as H end.
  exact H.
Qed.

(** The path and the generation a document reports are those of the set it was
    asked about, or absent. *)
Lemma evaluate_names input d :
  (forall policy, si_policy input = Some policy -> is_u32 (pol_search_limit policy)) ->
  evaluate input = Ok d ->
  (dec_selected d = Id_absent \/ exists set c, si_set input = Some set /\ c ∈ set_candidates set /\
     dec_selected d = cand_path c) /\
  (dec_set_generation d = Id_absent \/ exists set, si_set input = Some set /\
     dec_set_generation d = set_generation set).
Proof.
  intros Hu He. split.
  - destruct (decide (dec_outcome d = PromotionOutcome_authorized)) as [Ho|Ho].
    + destruct (selects_promotable input d Hu He Ho) as (set & p & o & c & Ha & Hc & Hs & _).
      right. exists set, c. split; [by eapply adm_set|done].
    + left. destruct (evaluate_cases input Hu) as [(d' & He' & Hun)|(set&p&o&Ha&He')].
      * rewrite He in He'. injection He' as <-. apply Hun.
      * rewrite (evaluate_admitted _ _ _ _ Ha) in He. injection He as <-.
        pose proof (admitted_reference _ _ _ _ Ha) as Hr.
        destruct (reference_selected set p o (si_fenced_paths input) (si_incumbent input) (si_current input)) as [H|H];
          rewrite <- Hr in H; cbn in H; [congruence|done].
  - unfold evaluate in He. cbv zeta in He.
    destruct (si_set input) as [set|], (si_policy input), (si_obligations input);
      try (left; injection He as <-; by rewrite refuse_generation).
    right. exists set. split; [done|].
    repeat (destruct (negb _) in He;
      [injection He as <-; unfold refuse_class; by rewrite refuse_generation|]).
    destruct (_ && _); injection He as <-; [by rewrite refuse_generation|by rewrite select_generation].
Qed.

(** C20: An authorization is sound: the selected path belongs to a candidate of
    the set that satisfies every declared requirement under the current
    authority, no examined promotable candidate precedes it in the canonical
    order, and, unless the policy allows skipping, no examined candidate that
    precedes it has an unresolved verdict. *)
Theorem authorization_sound input d :
  (forall policy, si_policy input = Some policy -> is_u32 (pol_search_limit policy)) ->
  evaluate input = Ok d -> dec_outcome d = PromotionOutcome_authorized ->
  exists set policy obligations c,
    Admissible input set policy obligations /\ c ∈ set_candidates set /\
    dec_selected d = cand_path c /\ dec_reason d = Reason_selected /\
    Promotable policy obligations (si_fenced_paths input) (si_incumbent input)
      (si_current input) c /\
    forall c', c' ∈ examined policy obligations (si_current input) (set_candidates set) ->
      cand_less policy obligations (si_current input) c' c = true ->
      ~ Promotable policy obligations (si_fenced_paths input) (si_incumbent input)
          (si_current input) c' /\
      (pol_allow_unknown_skip policy = false ->
       gate_blocked policy obligations (si_fenced_paths input) (si_incumbent input)
         (si_current input) c' = false).
Proof. apply selects_promotable. Qed.

(** The document of the sample input. *)
Definition sample_document : PromotionDecision :=
  match evaluate (sample_input sample_candidates) with Ok d => d | Err _ => PromotionDecision_default end.

Lemma authorization_sound_witness :
  exists set policy obligations c,
    Admissible (sample_input sample_candidates) set policy obligations /\
    c ∈ set_candidates set /\ Id_from_value 13 = cand_path c.
Proof.
  destruct (authorization_sound (sample_input sample_candidates) sample_document)
    as (set & policy & obl & c & Ha & Hc & Hs & _).
  - intros policy [= <-]. vm_compute. split; congruence.
  - vm_compute. reflexivity.
  - vm_compute. reflexivity.
  - exists set, policy, obl, c. split; [exact Ha|]. split; [exact Hc|].
    rewrite <- Hs. vm_compute. reflexivity.
Defined.

(** C33: An authorization is never withheld without cause.  For inputs the selector
    admits, when no examined candidate claims a generation from the future, a
    promotable candidate within the search limit is authorized, itself and no other,
    as soon as no examined candidate before it in the canonical order is promotable
    or, unless the policy allows skipping, unresolved. *)
Theorem authorization_complete input set policy obligations c :
  Admissible input set policy obligations ->
  let ex := examined policy obligations (si_current input) (set_candidates set) in
  (forall c', c' ∈ ex -> conflicting (si_current input) c' = false) ->
  c ∈ ex ->
  Promotable policy obligations (si_fenced_paths input) (si_incumbent input)
    (si_current input) c ->
  (forall c', c' ∈ ex -> cand_less policy obligations (si_current input) c' c = true ->
     ~ Promotable policy obligations (si_fenced_paths input) (si_incumbent input)
         (si_current input) c' /\
     (pol_allow_unknown_skip policy = false ->
      gate_blocked policy obligations (si_fenced_paths input) (si_incumbent input)
        (si_current input) c' = false)) ->
  exists d, evaluate input = Ok d /\ dec_outcome d = PromotionOutcome_authorized /\
    dec_reason d = Reason_selected /\ dec_selected d = cand_path c.
Proof.
  intros Ha ex Hcf Hc Hpr Hbefore.
  exists (admitted_document input set policy obligations).
  split; [by apply evaluate_admitted|].
  pose proof (admitted_reference _ _ _ _ Ha) as Hr.
  rewrite (reference_first set policy obligations _ _ _ c) in Hr; [by injection Hr|done..| |].
  - by eapply adm_policy_ok.
  - by eapply set_valid_paths, adm_set_ok.
Qed.

(** The head of the sample's order is fenced, the next one is promotable. *)
Lemma sample_examined c :
  c ∈ examined sample_policy sample_obligations sample_vector sample_candidates ->
  c = sample_candidate 12 900 \/ c = sample_candidate 13 700 \/ c = sample_candidate 11 500.
Proof.
  replace (examined _ _ _ _) with [sample_candidate 12 900; sample_candidate 13 700; sample_candidate 11 500]
    by (vm_compute; reflexivity).
  rewrite !elem_of_cons, elem_of_nil. tauto.
Qed.

Lemma authorization_complete_witness :
  exists d, evaluate (sample_input sample_candidates) = Ok d /\
    dec_outcome d = PromotionOutcome_authorized /\
    dec_reason d = Reason_selected /\ dec_selected d = Id_from_value 13.
Proof.
  apply (authorization_complete (sample_input sample_candidates) (sample_set sample_candidates)
    sample_policy sample_obligations (sample_candidate 13 700)).
  - exact sample_admitted.
  - intros c' Hin. apply sample_examined in Hin as [-> | [-> | ->]]; vm_compute; reflexivity.
  - apply (bool_decide_unpack _). vm_compute. exact I.
  - apply gate_open_spec; [reflexivity|]. vm_compute. split; reflexivity.
  - intros c' Hin Hless. apply sample_examined in Hin as [-> | [-> | ->]];
      [|vm_compute in Hless; congruence..].
    split; [|intros _; vm_compute; reflexivity].
    intros Hpr. apply gate_open_spec in Hpr as [Hpr _]; [vm_compute in Hpr; congruence|reflexivity].
Defined.

(** C34: REFUSED_PROVEN_NO_ALTERNATE is what it says: the set was declared
    complete, every candidate was examined, and no candidate could be promoted
    whatever value any unknown fact about it took. *)
Theorem proven_refusal_definite input d :
  (forall policy, si_policy input = Some policy -> is_u32 (pol_search_limit policy)) ->
  evaluate input = Ok d -> dec_outcome d = PromotionOutcome_refused_proven_no_alternate ->
  exists set policy obligations,
    Admissible input set policy obligations /\
    set_completeness set = SetCompleteness_complete /\
    dec_examined d = size_of (set_candidates set) /\ dec_selected d = Id_absent /\
    forall c c', c ∈ set_candidates set -> refines c c' ->
      ~ Promotable policy obligations (si_fenced_paths input) (si_incumbent input)
          (si_current input) c'.
Proof.
  intros Hu He Ho. destruct (evaluate_cases input Hu) as [(d' & He' & Hun)|(set&policy&obl&Ha&He')].
  { rewrite He in He'. injection He' as <-. by apply un_not_proven in Hun. }
  clear He'. rewrite (evaluate_admitted _ _ _ _ Ha) in He. injection He as <-.
  exists set, policy, obl. split; [exact Ha|].
  pose proof (admitted_reference _ _ _ _ Ha) as Hr. rewrite Ho in Hr.
  pose proof (admitted_examined input set policy obl) as Hex. revert Hr. unfold reference. cbv zeta.
  set (ex := examined policy obl (si_current input) (set_candidates set)) in *.
  destruct (existsb _ ex); [done|].
  destruct (list_find _ ex) as [[k x]|] eqn:Hf; [by case_match|].
  destruct (existsb _ ex) eqn:Hb; [done|].
  destruct (size_of ex <? size_of (set_candidates set)) eqn:Hlt; [done|].
  destruct (set_completeness set); try done.
  destruct (existsb (gate_stale _ _ _ _ _) ex); [done|]. intros Hr. apply (f_equal snd) in Hr as Hsel. cbn in Hsel. split; [done|].
  assert (Hperm : ex ≡ₚ set_candidates set).
  { unfold ex. rewrite examined_full; [apply ordered_perm|]. apply Z.ltb_ge in Hlt. exact Hlt. }
  split; [rewrite Hex; unfold size_of; by rewrite Hperm|]. split; [exact Hsel|].
  intros c c' Hc Href. rewrite <- Hperm in Hc. apply list_elem_of_In in Hc.
  apply list_find_None in Hf. rewrite List.Forall_forall in Hf. specialize (Hf c Hc).
  apply existsb_false in Hb. rewrite List.Forall_forall in Hb. specialize (Hb c Hc).
  apply (excluded_definite _ _ _ _ _ (adm_policy_ok _ _ _ _ Ha) c); [|exact Href].
  destruct (gate_cases policy obl (si_fenced_paths input) (si_incumbent input)
    (si_current input) c) as [(?&?&?)|[(?&?&?)|(?&?&?)]]; congruence.
Qed.

(** Only the fenced candidate is supplied: nothing can be promoted. *)
Definition fenced_document : PromotionDecision :=
  match evaluate (sample_input [sample_candidate 12 900]) with
  | Ok d => d | Err _ => PromotionDecision_default
  end.

Lemma proven_refusal_definite_witness :
  exists set policy obligations,
    Admissible (sample_input [sample_candidate 12 900]) set policy obligations /\
    set_completeness set = SetCompleteness_complete /\ dec_examined fenced_document = 1.
Proof.
  destruct (proven_refusal_definite (sample_input [sample_candidate 12 900]) fenced_document)
    as (set & policy & obl & Ha & Hc & _).
  - intros policy [= <-]. vm_compute. split; congruence.
  - vm_compute. reflexivity.
  - vm_compute. reflexivity.
  - exists set, policy, obl. split; [exact Ha|]. split; [exact Hc|]. vm_compute. reflexivity.
Defined.

(** C35: The supplied order is immaterial: permuting the candidates of an
    admitted input changes nothing in the document but the number of
    comparisons the sort reports. *)
Theorem evaluation_order_independent input set policy obligations cs' n :
  Admissible input set policy obligations -> set_candidates set ≡ₚ cs' ->
  exists d d',
    evaluate input = Ok d /\
    evaluate (input <| si_set := Some (set <| set_candidates := cs' |>) |>) = Ok d' /\
    with_comparisons n d' = with_comparisons n d.
Proof.
  intros Ha Hp. set (set' := set <| set_candidates := cs' |>).
  pose proof (admitted_permuted _ _ _ _ cs' Ha Hp) as Ha'. fold set' in Ha'.
  exists (admitted_document input set policy obligations).
  exists (admitted_document (input <| si_set := Some set' |>) set' policy obligations).
  split; [by apply evaluate_admitted|]. split; [by apply evaluate_admitted|].
  apply admitted_document_permuted; [|exact Hp].
  exact (set_valid_paths _ (adm_set_ok _ _ _ _ Ha)).
Qed.

Lemma evaluation_order_independent_witness :
  let cs' := [sample_candidate 13 700; sample_candidate 11 500; sample_candidate 12 900] in
  exists d d',
    evaluate (sample_input sample_candidates) = Ok d /\
    evaluate ((sample_input sample_candidates)
                <| si_set := Some ((sample_set sample_candidates) <| set_candidates := cs' |>) |>)
      = Ok d' /\
    with_comparisons 0 d' = with_comparisons 0 d.
Proof.
  apply (evaluation_order_independent (sample_input sample_candidates)
    (sample_set sample_candidates) sample_policy sample_obligations).
  - exact sample_admitted.
  - cbn. unfold sample_candidates. solve_Permutation.
Defined.

(** C39: The work and the document are bounded, for an admitted input: the examined
    prefix obeys the search limit, at most fourteen gates and one fence lookup are
    spent per examined candidate, at most [n * ceil(log2 n)] comparisons order the set,
    and every list of the document respects its limit. *)
Theorem decision_bounded input set policy obligations d :
  Admissible input set policy obligations -> evaluate input = Ok d ->
  let n := size_of (set_candidates set) in
  let st := dec_stats d in
  dec_examined d = Z.min n (pol_search_limit policy) /\
  size_of (dec_ranked d) = dec_examined d /\
  size_of (dec_ranked d) <= max_assessments_reported /\
  size_of (dec_explanation d) <= max_explanation_steps /\
  size_of (dec_indeterminate_above d) <= max_indeterminate_reported /\
  dec_examined d <= ss_gate_evaluations st <= 14 * dec_examined d /\
  0 <= ss_fence_lookups st <= dec_examined d /\
  0 <= ss_definite_exclusions st <= dec_examined d /\
  ss_score_evaluations st = n /\ ss_candidates_considered st = dec_examined d /\
  0 <= ss_ordering_comparisons st
    <= n * Z.of_nat (Nat.log2_up (length (set_candidates set))).
Proof.
  intros Ha He n st. rewrite (evaluate_admitted _ _ _ _ Ha) in He. injection He as <-.
  pose proof (examined_size _ _ _ _ Ha) as Hsz.
  pose proof (proj1 (admitted_size _ _ _ _ Ha)) as Hmax.
  pose proof (admitted_examined input set policy obligations) as Hex.
  destruct (admitted_document_fields input set policy obligations)
    as (Hlen & Hexp & Hab & Hg & Hf & Hx & Hco & Hsc & Hcm).
  pose proof (deterministic_sort_count
    (cand_less policy obligations (si_current input)) (set_candidates set) 0) as Hcount.
  fold n in Hmax, Hsz, Hcount, Hsc. fold st in Hg, Hf, Hx, Hco, Hsc, Hcm.
  unfold size_of in Hlen at 1. unfold_limits. unfold size_of at 1 2 in |- *.
  rewrite Hex in *. fold (size_of (set_candidates set)).
  repeat split; try lia.
Qed.

Lemma decision_bounded_witness :
  size_of (dec_ranked sample_document) <= max_assessments_reported /\
  dec_examined sample_document = 3.
Proof.
  destruct (decision_bounded (sample_input sample_candidates) (sample_set sample_candidates)
    sample_policy sample_obligations sample_document sample_admitted) as (He & _ & Hr & _).
  - vm_compute. reflexivity.
  - split; [exact Hr|]. rewrite He. vm_compute. reflexivity.
Defined.

(** [Selector::evaluate] is total and never grants: it always returns a
    document, the document is always a recommendation carrying the caller's
    decision identity and basis, and a path is named in it exactly when the
    outcome is AUTHORIZED. *)
Theorem evaluate_total_recommendation input :
  (forall policy, si_policy input = Some policy -> is_u32 (pol_search_limit policy)) ->
  exists d, evaluate input = Ok d /\
    dec_authority_kind d = AuthorityKind_recommendation /\
    dec_id d = si_decision_id input /\
    (selected_something d = true <-> dec_outcome d = PromotionOutcome_authorized) /\
    (selected_something d = false -> dec_selected d = Id_absent).
Proof.
  intros Hu. destruct (evaluate_cases input Hu) as [(d & He & [])|(set&policy&obl&Ha&_)].
  - exists d. split; [exact He|]. unfold selected_something. rewrite un_selected.
    do 2 (split; [done|]). split; [|done]. split; [done|]. intros Ho. by rewrite Ho in un_refusal.
  - exists (admitted_document input set policy obl). split; [by apply evaluate_admitted|].
    pose proof (admitted_reference _ _ _ _ Ha) as Hr.
    destruct (admitted_document_kind input set policy obl) as [Hk Hid].
    do 2 (split; [done|]).
    pose proof (reference_selected set policy obl (si_fenced_paths input) (si_incumbent input)
                  (si_current input)) as Hs.
    cbv zeta in Hs. rewrite <- Hr in Hs. cbn [fst snd] in Hs.
    unfold selected_something. rewrite Id_valid_false. split; [|done].
    split; [intros Hv; destruct Hs as [Hs|Hs]; [done|by rewrite Hs in Hv]|].
    intros Ho. symmetry in Hr. rewrite Ho in Hr.
    apply reference_authorized in Hr as (k & c & Hl & -> & _).
    apply list_elem_of_lookup_2, examined_subset, list_elem_of_In in Hl.
    pose proof (set_valid_candidates _ (adm_set_ok _ _ _ _ Ha)) as Hv.
    rewrite List.Forall_forall in Hv. by apply Hv, AlternateCandidate_validate_ok in Hl as [Hc _].
Qed.

Lemma evaluate_total_recommendation_witness :
  exists d, evaluate (sample_input []) = Ok d /\
    dec_authority_kind d = AuthorityKind_recommendation.
Proof.
  destruct (evaluate_total_recommendation (sample_input [])) as (d & He & Hk & _).
  - intros policy [= <-]. vm_compute. split; congruence.
  - exists d. split; [exact He|exact Hk].
Defined.

(** C40: The hand-written merge sort is correct: the order it leaves is a
    permutation of its input, no element precedes one that the canonical order
    puts before it, and whatever the initial counter it spends at most
    [n * ceil(log2 n)] comparisons. *)
Theorem selector_sort_correct entries comparisons :
  let (sorted, comparisons') := deterministic_sort entry_less entries comparisons in
  sorted ≡ₚ entries /\
  (forall i j a b, sorted !! i = Some a -> sorted !! j = Some b -> (i < j)%nat ->
     entry_less b a = false) /\
  comparisons <= comparisons'
    <= comparisons + size_of entries * Z.of_nat (Nat.log2_up (length entries)).
Proof.
  pose proof (deterministic_sort_perm entry_less entries comparisons) as Hp.
  pose proof (deterministic_sort_count entry_less entries comparisons) as Hc.
  assert (StrictWeak entry_less) by (apply (strict_weak_preimage re_assessment), _).
  pose proof (deterministic_sort_sorted entry_less entries comparisons) as Hs.
  destruct (deterministic_sort _ _ _) as [sorted n]. split; [exact Hp|]. split; [|exact Hc].
  intros i j a b Hi Hj Hlt. exact (StronglySorted_lookup _ _ i j a b Hs Hi Hj Hlt).
Qed.
