(* ===== verification/Bytes.v ===== *)
(** * Bytes, checksums and digests ([include/pff/crc32c.hpp], [src/crc32c.cpp])

    [std::byte] is [Byte.byte]; the little-endian layout of integers, CRC-32C
    by table and FNV-1a 64. *)

From Stdlib Require Export Strings.Byte.
From S2P Require Import Prelude.

Abbreviation byte := Byte.byte.

(** [static_cast<std::byte>] of an integer and the value of a byte. *)
Definition byte_of (z : Z) : byte := default x00 (Byte.of_N (Z.to_N (z mod 256))).
Definition byte_value (b : byte) : Z := Z.of_N (Byte.to_N b).

Lemma byte_value_range b : 0 <= byte_value b < 256.
Proof. unfold byte_value. pose proof (Byte.to_N_bounded b). lia. Qed.

Lemma byte_value_of z : byte_value (byte_of z) = z mod 256.
Proof.
  unfold byte_value, byte_of. pose proof (Z.mod_pos_bound z 256 ltac:(lia)).
  destruct (Byte.of_N _) as [b|] eqn:E; simpl.
  - apply Byte.to_of_N in E. rewrite E. apply Z2N.id. lia.
  - apply Byte.of_N_None_iff in E. lia.
Qed.

Lemma byte_of_value b : byte_of (byte_value b) = b.
Proof.
  unfold byte_value, byte_of. rewrite Z.mod_small by (apply (byte_value_range b)).
  rewrite N2Z.id, Byte.of_to_N. reflexivity.
Qed.

Lemma byte_value_inj a b : byte_value a = byte_value b -> a = b.
Proof. intros H. by rewrite <- (byte_of_value a), H, byte_of_value. Qed.

#[export] Instance byte_eq_dec : EqDecision byte.
Proof. intros a b. destruct (Byte.byte_eq_dec a b); [by left|by right]. Defined.

(** ** Little-endian integers *)

(** [n] bytes of [value], least significant first: byte [i] is
    [(value >> 8 i) & 0xFF]. *)
Fixpoint le_bytes (n : nat) (value : Z) : list byte :=
  match n with
  | O => []
  | S n' => byte_of (Z.land value 255) :: le_bytes n' (Z.shiftr value 8)
  end.

(** The value assembled from little-endian bytes: the union of
    [data[i] << 8 i]. *)
Fixpoint le_value (bs : list byte) : Z :=
  match bs with
  | [] => 0
  | b :: bs' => Z.lor (byte_value b) (Z.shiftl (le_value bs') 8)
  end.

Lemma land_255 z : Z.land z 255 = z mod 256.
Proof. change 255 with (Z.ones 8). by rewrite Z.land_ones by lia. Qed.

Lemma lor_byte_shift b z : 0 <= b < 256 -> Z.lor b (Z.shiftl z 8) = b + 256 * z.
Proof.
  intros Hb. rewrite Z.shiftl_mul_pow2 by lia. change (2 ^ 8) with 256.

  assert (Hz : Z.land b (z * 256) = 0).
  { apply Z.bits_inj'. intros n Hn. rewrite Z.land_spec, Z.bits_0.
    change 256 with (2 ^ 8). destruct (Z.ltb_spec n 8).
    - rewrite <- (Z.shiftl_mul_pow2 z 8) by lia. rewrite (Z.shiftl_spec_low _ _ _ H). lia.
    - rewrite <- (Z.mod_small b (2 ^ 8)) by lia. rewrite Z.mod_pow2_bits_high by lia. done. }
  rewrite <- Z.lxor_lor by done. rewrite <- Z.add_nocarry_lxor by done. lia.
Qed.

Lemma le_bytes_length n z : length (le_bytes n z) = n.
Proof. revert z. induction n; intros z; cbn; [done|]. by rewrite IHn. Qed.

Lemma le_value_bytes n z : 0 <= z < 256 ^ Z.of_nat n -> le_value (le_bytes n z) = z.
Proof.
  revert z. induction n as [|n IH]; intros z Hz; cbn [le_bytes le_value].
  - cbn in Hz. lia.
  - rewrite Nat2Z.inj_succ, Z.pow_succ_r in Hz by lia.
    rewrite byte_value_of, land_255, Z.mod_mod by lia.
    rewrite Z.shiftr_div_pow2 by lia. change (2 ^ 8) with 256.
    rewrite IH by (split; [apply Z.div_pos; lia|apply Z.div_lt_upper_bound; lia]).
    rewrite lor_byte_shift by (apply Z.mod_pos_bound; lia).
    pose proof (Z.div_mod z 256). lia.
Qed.

Lemma le_value_range bs : 0 <= le_value bs < 256 ^ Z.of_nat (length bs).
Proof.
  induction bs as [|b bs IH]; cbn [le_value length]; [lia|].
  pose proof (byte_value_range b). rewrite lor_byte_shift by done.
  rewrite Nat2Z.inj_succ, Z.pow_succ_r by lia. lia.
Qed.

Lemma le_bytes_value bs : le_bytes (length bs) (le_value bs) = bs.
Proof.
  induction bs as [|b bs IH]; cbn [le_value length le_bytes]; [done|].
  pose proof (byte_value_range b). rewrite lor_byte_shift by done.
  rewrite land_255, Z.shiftr_div_pow2 by lia. change (2 ^ 8) with 256.
  rewrite (Z.mul_comm 256), Z_mod_plus_full, Z.div_add, Z.div_small by lia.
  rewrite Z.mod_small by lia. by rewrite byte_of_value, Z.add_0_l, IH.
Qed.

(** ** CRC-32C *)

Definition crc_shift (crc : Z) : Z :=
  if negb (Z.land crc 1 =? 0) then Z.lxor 2197175160 (Z.shiftr crc 1) else Z.shiftr crc 1.

Fixpoint iterate {A} (n : nat) (f : A -> A) (x : A) : A :=
  match n with O => x | S n' => iterate n' f (f x) end.

(** [make_crc32c_table]: entry [i] is [i] after eight shifts. *)
Definition kCrc32cTable : list Z :=
  Eval vm_compute in (fun i => iterate 8 crc_shift i) <$> seqZ 0 256.

Definition kCrc32cInit : Z := 4294967295.
Definition kCrc32cXorOut : Z := 4294967295.

Definition crc_step (crc : Z) (raw : byte) : Z :=
  let index := wrap_u8 (Z.lxor crc (byte_value raw)) in
  Z.lxor (nth (Z.to_nat index) kCrc32cTable 0) (Z.shiftr crc 8).

Definition crc32c_update (seed : Z) (data : list byte) : Z := foldl crc_step seed data.

Definition crc32c (data : list byte) : Z :=
  Z.lxor (crc32c_update kCrc32cInit data) kCrc32cXorOut.

(** ** FNV-1a 64 *)

Definition fnv_step (hash : Z) (raw : byte) : Z :=
  wrap_u64 (Z.lxor hash (byte_value raw) * 1099511628211).

Definition fnv1a64 (data : list byte) : Z := foldl fnv_step 1469598103934665603 data.

(** ** What the checksum detects *)

Lemma lxor_bound n a b : 0 <= n -> 0 <= a < 2 ^ n -> 0 <= b < 2 ^ n -> 0 <= Z.lxor a b < 2 ^ n.
Proof.
  intros Hn Ha Hb. split; [apply Z.lxor_nonneg; lia|].
  destruct (Z.eq_dec (Z.lxor a b) 0) as [->|Hne]; [lia|].
  assert (Hnn : 0 <= Z.lxor a b) by (apply Z.lxor_nonneg; lia).
  apply Z.log2_lt_pow2; [lia|].
  pose proof (Z.log2_lxor a b ltac:(lia) ltac:(lia)).
  assert (Hl : forall x, 0 <= x < 2 ^ n -> Z.log2 x < n \/ n = 0).
  { intros x Hx. destruct (Z.eq_dec x 0) as [->|]; [cbn; lia|left; apply Z.log2_lt_pow2; lia]. }
  destruct (Hl a Ha), (Hl b Hb); try lia.
  all: subst n; change (2 ^ 0) with 1 in *; replace a with 0 in * by lia;
    replace b with 0 in * by lia; done.
Qed.

Definition table_entry (i : Z) : Z := nth (Z.to_nat i) kCrc32cTable 0.

(** The table is 32 bits wide; an entry is its index after eight shifts. *)
Lemma table_facts :
  Forall (fun v => 0 <= v < 2 ^ 32) kCrc32cTable /\
  kCrc32cTable = (fun i => iterate 8 crc_shift i) <$> seqZ 0 256 /\
  length kCrc32cTable = 256%nat.
Proof.
  split; [|split; [|done]].
  - apply (bool_decide_unpack _). vm_compute. exact I.
  - by vm_compute.
Qed.

Lemma table_lookup i : 0 <= i < 256 -> kCrc32cTable !! Z.to_nat i = Some (table_entry i).
Proof.
  intros Hi. destruct table_facts as (_ & _ & Hlen).
  destruct (lookup_lt_is_Some_2 kCrc32cTable (Z.to_nat i)) as [v Hv]; [lia|].
  unfold table_entry. rewrite Hv. symmetry. f_equal. by apply nth_lookup_Some with (d := 0) in Hv.
Qed.

Lemma table_entry_range i : 0 <= i < 256 -> 0 <= table_entry i < 2 ^ 32.
Proof.
  intros Hi. destruct table_facts as (Hr & _ & _). rewrite List.Forall_forall in Hr.
  by eapply Hr, list_elem_of_In, list_elem_of_lookup_2, table_lookup.
Qed.

Lemma table_entry_shifts i : 0 <= i < 256 -> table_entry i = iterate 8 crc_shift i.
Proof.
  intros Hi. pose proof (table_lookup i Hi) as H. destruct table_facts as (_ & E & _).
  rewrite E, list_lookup_fmap, lookup_seqZ_lt in H by lia. cbn [fmap option_fmap option_map] in H.
  apply (inj Some) in H. rewrite <- H. f_equal. lia.
Qed.

Lemma crc_step_eq crc b :
  crc_step crc b = Z.lxor (table_entry (wrap_u8 (Z.lxor crc (byte_value b)))) (Z.shiftr crc 8).
Proof. reflexivity. Qed.

Lemma wrap_u8_range z : 0 <= wrap_u8 z < 256.
Proof. unfold wrap_u8. apply Z.mod_pos_bound. lia. Qed.

Lemma crc_step_range crc b : is_u32 crc -> is_u32 (crc_step crc b).
Proof.
  intros Hc. unfold is_u32, UINT32_MAX in *. rewrite crc_step_eq.
  enough (0 <= Z.lxor (table_entry (wrap_u8 (Z.lxor crc (byte_value b)))) (Z.shiftr crc 8) < 2 ^ 32)
    by lia.
  apply lxor_bound; [lia|apply table_entry_range, wrap_u8_range|].
  rewrite Z.shiftr_div_pow2 by lia. split; [apply Z.div_pos; lia|].
  apply Z.div_lt_upper_bound; lia.
Qed.

Lemma crc32c_update_range seed data : is_u32 seed -> is_u32 (crc32c_update seed data).
Proof.
  revert seed. unfold crc32c_update. induction data as [|b data IH]; intros seed Hs; [done|].
  apply IH. by apply crc_step_range.
Qed.

Lemma crc32c_range data : is_u32 (crc32c data).
Proof.
  unfold crc32c. assert (is_u32 (crc32c_update kCrc32cInit data)) as H
    by (apply crc32c_update_range; unfold kCrc32cInit; unfold_ints; lia).
  unfold is_u32, UINT32_MAX, kCrc32cXorOut in *.
  pose proof (lxor_bound 32 (crc32c_update kCrc32cInit data) 4294967295). lia.
Qed.

Lemma wrap_u8_lxor a b : wrap_u8 (Z.lxor a b) = Z.lxor (wrap_u8 a) (wrap_u8 b).
Proof.
  unfold wrap_u8. rewrite <- !Z.land_ones by lia. apply Z.bits_inj'. intros n Hn.
  rewrite !Z.land_spec, !Z.lxor_spec, !Z.land_spec. by destruct (Z.testbit _ _), (Z.testbit _ _), (Z.testbit _ _).
Qed.

(** The register shifts are linear, and a step over a zero byte is eight of them. *)
Lemma crc_shift_lxor a b : crc_shift (Z.lxor a b) = Z.lxor (crc_shift a) (crc_shift b).
Proof.
  assert (E : forall z, crc_shift z = Z.lxor (if Z.odd z then 2197175160 else 0) (Z.shiftr z 1)).
  { intros z. unfold crc_shift. change 1 with (Z.ones 1) at 1. rewrite Z.land_ones, Zmod_odd by lia.
    destruct (Z.odd z); [done|by rewrite Z.lxor_0_l]. }
  rewrite !E, Z.shiftr_lxor.
  assert (Z.odd (Z.lxor a b) = xorb (Z.odd a) (Z.odd b)) as -> by (rewrite <- !Z.bit0_odd; apply Z.lxor_spec).
  apply Z.bits_inj'. intros n _. rewrite !Z.lxor_spec.
  destruct (Z.odd a), (Z.odd b); cbn [xorb]; rewrite ?Z.bits_0;
    by destruct (Z.testbit (Z.shiftr a 1) n), (Z.testbit (Z.shiftr b 1) n), (Z.testbit 2197175160 n).
Qed.

Lemma iterate_add {A} m n (f : A -> A) x : iterate (m + n) f x = iterate n f (iterate m f x).
Proof. revert x. induction m as [|m IH]; intros x; cbn; [done|]. apply IH. Qed.

Lemma shifts_lxor n a b :
  iterate n crc_shift (Z.lxor a b) = Z.lxor (iterate n crc_shift a) (iterate n crc_shift b).
Proof. revert a b. induction n as [|n IH]; intros a b; cbn [iterate]; [done|]. by rewrite crc_shift_lxor, IH. Qed.

Lemma shifts_low n y : iterate n crc_shift (Z.shiftl y (Z.of_nat n)) = y.
Proof.
  revert y. induction n as [|n IH]; intros y; cbn [iterate]; [by rewrite Z.shiftl_0_r|].
  unfold crc_shift. replace (Z.land (Z.shiftl y (Z.of_nat (S n))) 1) with 0; cbn [negb Z.eqb].
  - rewrite Z.shiftr_shiftl_l by lia. replace (Z.of_nat (S n) - 1) with (Z.of_nat n) by lia. apply IH.
  - symmetry. apply Z.bits_inj'. intros i Hi. rewrite Z.land_spec, Z.bits_0.
    destruct (Z.eq_dec i 0) as [->|]; [by rewrite Z.shiftl_spec_low by lia|].
    change 1 with (Z.ones 1). by rewrite Z.ones_spec_high, andb_false_r by lia.
Qed.

Lemma crc_step_zero x : crc_step x x00 = iterate 8 crc_shift x.
Proof.
  rewrite crc_step_eq. change (byte_value x00) with 0. rewrite Z.lxor_0_r.
  rewrite table_entry_shifts by apply wrap_u8_range.
  assert (Hx : x = Z.lxor (wrap_u8 x) (Z.shiftl (Z.shiftr x 8) (Z.of_nat 8))).
  { unfold wrap_u8. rewrite <- Z.land_ones by lia. apply Z.bits_inj'. intros i Hi.
    rewrite Z.lxor_spec, Z.land_spec. destruct (Z.ltb_spec i 8).
    - rewrite Z.ones_spec_low, Z.shiftl_spec_low by lia. by destruct (Z.testbit x i).
    - rewrite Z.ones_spec_high, Z.shiftl_spec, Z.shiftr_spec by lia.
      rewrite andb_false_r. cbn [xorb]. f_equal. lia. }
  rewrite Hx at 3. by rewrite shifts_lxor, shifts_low.
Qed.

Lemma crc32c_update_zeros x n : crc32c_update x (replicate n x00) = iterate (8 * n) crc_shift x.
Proof.
  revert x. unfold crc32c_update. induction n as [|n IH]; intros x; cbn [replicate foldl]; [done|].
  replace (8 * S n)%nat with (8 + 8 * n)%nat by lia. by rewrite iterate_add, IH, crc_step_zero.
Qed.

(** A difference within the register survives every shift. *)
Lemma crc_shift_alive e : 0 < e < 2 ^ 32 -> 0 < crc_shift e < 2 ^ 32.
Proof.
  intros He. assert (Hs : 0 <= Z.shiftr e 1 < 2 ^ 31).
  { rewrite Z.shiftr_div_pow2 by lia. change (2 ^ 1) with 2.
    split; [apply Z.div_pos; lia|apply Z.div_lt_upper_bound; lia]. }
  unfold crc_shift. destruct (Z.eqb_spec (Z.land e 1) 0) as [E|E]; cbn [negb].
  - split; [|lia]. rewrite Z.shiftr_div_pow2 by lia. change (2 ^ 1) with 2.
    change 1 with (Z.ones 1) in E. rewrite Z.land_ones in E by lia. change (2 ^ 1) with 2 in E.
    pose proof (Z.div_mod e 2). lia.
  - pose proof (lxor_bound 32 2197175160 (Z.shiftr e 1)).
    assert (Z.lxor 2197175160 (Z.shiftr e 1) <> 0); [|lia].
    rewrite Z.lxor_eq_0_iff. lia.
Qed.

Lemma shifts_alive n e : 0 < e < 2 ^ 32 -> 0 < iterate n crc_shift e < 2 ^ 32.
Proof. revert e. induction n as [|n IH]; intros e He; cbn [iterate]; [done|]. by apply IH, crc_shift_alive. Qed.

(** Mixing a byte in is mixing it into the running value. *)
Lemma crc_step_mix crc b y :
  crc_step (Z.lxor crc (Z.lor (byte_value b) (Z.shiftl y 8))) x00 = Z.lxor (crc_step crc b) y.
Proof.
  rewrite !crc_step_eq. change (byte_value x00) with 0. rewrite Z.lxor_0_r.
  assert (Hb := byte_value_range b).
  assert (Hlow : wrap_u8 (Z.lor (byte_value b) (Z.shiftl y 8)) = wrap_u8 (byte_value b)).
  { unfold wrap_u8. rewrite lor_byte_shift by done. change (2 ^ 8) with 256.
    by rewrite Z.mul_comm, Z_mod_plus_full. }
  assert (Hhigh : Z.shiftr (Z.lor (byte_value b) (Z.shiftl y 8)) 8 = y).
  { rewrite lor_byte_shift by done. rewrite Z.shiftr_div_pow2 by lia. change (2 ^ 8) with 256.
    rewrite Z.mul_comm, Z.div_add, Z.div_small by lia. lia. }
  rewrite wrap_u8_lxor, Hlow, <- wrap_u8_lxor, Z.shiftr_lxor, Hhigh. by rewrite Z.lxor_assoc.
Qed.

Lemma crc32c_update_mix crc bs :
  crc32c_update crc bs = crc32c_update (Z.lxor crc (le_value bs)) (replicate (length bs) x00).
Proof.
  revert crc. unfold crc32c_update. induction bs as [|b bs IH]; intros crc; cbn [foldl length replicate le_value].
  - by rewrite Z.lxor_0_r.
  - by rewrite crc_step_mix, <- IH.
Qed.

Lemma le_value_inj bs bs' : length bs = length bs' -> le_value bs = le_value bs' -> bs = bs'.
Proof. intros Hl Hv. by rewrite <- (le_bytes_value bs), Hl, Hv, le_bytes_value. Qed.

Lemma crc32c_update_app seed a b : crc32c_update seed (a ++ b) = crc32c_update (crc32c_update seed a) b.
Proof. apply foldl_app. Qed.

(** [data'] is [data] with a burst of errors: all the bits that differ, counted from
    the least significant of the first byte on, lie within 32 consecutive ones. *)
Definition burst (data data' : list byte) : Prop :=
  length data = length data' /\ data <> data' /\
  exists first, forall i,
    Z.testbit (le_value data) i <> Z.testbit (le_value data') i -> first <= i < first + 32.

Lemma burst_difference data data' :
  burst data data' ->
  exists k e, Z.lxor (le_value data) (le_value data') = Z.shiftl e (Z.of_nat k) /\
    0 < e < 2 ^ 32 /\ (k <= 8 * length data)%nat.
Proof.
  intros (Hl & Hne & first & Hb). set (d := Z.lxor (le_value data) (le_value data')).
  pose proof (le_value_range data) as R. pose proof (le_value_range data') as R'. rewrite <- Hl in R'.
  assert (E8 : 256 ^ Z.of_nat (length data) = 2 ^ Z.of_nat (8 * length data)).
  { change 256 with (2 ^ 8). rewrite <- Z.pow_mul_r by lia. f_equal. lia. }
  rewrite E8 in R, R'. assert (Hd : 0 <= d < 2 ^ Z.of_nat (8 * length data)) by (apply lxor_bound; lia).
  assert (Hd0 : d <> 0) by (unfold d; rewrite Z.lxor_eq_0_iff; intros E; by apply Hne, le_value_inj).
  assert (Hbit : forall i, Z.testbit d i = true -> first <= i < first + 32).
  { intros i Hi. apply Hb. unfold d in Hi. rewrite Z.lxor_spec in Hi.
    destruct (Z.testbit _ i), (Z.testbit _ i); done. }
  set (k := Z.to_nat (Z.max 0 first)). exists k, (Z.shiftr d (Z.of_nat k)).
  pose proof (Z.log2_spec d ltac:(lia)) as Hlog. pose proof (Hbit (Z.log2 d) (Z.bit_log2 d ltac:(lia))) as Hf.
  pose proof (Z.log2_nonneg d). assert (Hk : Z.of_nat k <= Z.log2 d) by lia.
  assert (Hlt : Z.log2 d < Z.of_nat (8 * length data)) by (apply Z.log2_lt_pow2; lia).
  split; [|split; [|lia]].
  - apply Z.bits_inj'. intros i Hi. destruct (Z.ltb_spec i (Z.of_nat k)).
    + rewrite Z.shiftl_spec_low by lia. destruct (Z.testbit d i) eqn:E; [|done]. apply Hbit in E. lia.
    + rewrite Z.shiftl_spec, Z.shiftr_spec by lia. f_equal. lia.
  - rewrite Z.shiftr_div_pow2 by lia. split; [apply Z.div_str_pos|apply Z.div_lt_upper_bound; [lia|]].
    + pose proof (Z.pow_le_mono_r 2 (Z.of_nat k) (Z.log2 d)). lia.
    + rewrite <- Z.pow_add_r by lia. pose proof (Z.pow_le_mono_r 2 (Z.succ (Z.log2 d)) (Z.of_nat k + 32)). lia.
Qed.

(** The checksum tells a message from itself with a burst of errors. *)
Lemma crc32c_burst data data' : burst data data' -> crc32c data <> crc32c data'.
Proof.
  intros Hb Heq. destruct (burst_difference _ _ Hb) as (k & e & Hd & He & Hk). destruct Hb as [Hl _].
  unfold crc32c in Heq. apply (f_equal (fun z => Z.lxor z kCrc32cXorOut)) in Heq.
  rewrite !Z.lxor_assoc, !Z.lxor_nilpotent, !Z.lxor_0_r in Heq.
  rewrite (crc32c_update_mix _ data), (crc32c_update_mix _ data'), <- Hl, !crc32c_update_zeros in Heq.
  apply Z.lxor_eq_0_iff in Heq. rewrite <- shifts_lxor in Heq.
  replace (Z.lxor _ _) with (Z.shiftl e (Z.of_nat k)) in Heq.
  - replace (8 * length data)%nat with (k + (8 * length data - k))%nat in Heq by lia.
    rewrite iterate_add, shifts_low in Heq. pose proof (shifts_alive (8 * length data - k) e He). lia.
  - rewrite <- Hd. apply Z.bits_inj'. intros i _. rewrite !Z.lxor_spec.
    by destruct (Z.testbit _ i), (Z.testbit _ i), (Z.testbit _ i).
Qed.

(** A burst read off the bits that differ. *)
Lemma burst_window data data' first pattern i :
  0 <= pattern < 2 ^ 32 -> 0 <= first ->
  Z.lxor (le_value data) (le_value data') = Z.shiftl pattern first ->
  Z.testbit (le_value data) i <> Z.testbit (le_value data') i -> first <= i < first + 32.
Proof.
  intros Hp Hf Hx Hne. assert (Z.testbit (Z.shiftl pattern first) i = true) as Hb.
  { rewrite <- Hx, Z.lxor_spec. destruct (Z.testbit _ i), (Z.testbit _ i); done. }
  destruct (Z.ltb_spec i 0); [by rewrite Z.testbit_neg_r in Hb by lia|].
  rewrite Z.shiftl_spec in Hb by lia. destruct (Z.ltb_spec (i - first) 0); [by rewrite Z.testbit_neg_r in Hb by lia|].
  split; [lia|]. destruct (Z.ltb_spec i (first + 32)); [done|].
  destruct (Z.eq_dec pattern 0) as [->|]; [by rewrite Z.bits_0 in Hb|].
  rewrite Z.bits_above_log2 in Hb; [done|lia|].
  pose proof (proj1 (Z.log2_lt_pow2 pattern 32 ltac:(lia))). lia.
Qed.
