(* ===== verification/Canonical.v ===== *)
(** * The canonical encoding primitives ([include/pff/canonical.hpp], [src/canonical.cpp])

    [ByteWriter] and [ByteReader] with their sticky failure, and the two
    judgements the codecs are verified against: [Emits] (a writer step appends
    exactly these bytes or fails) and [Codec] (a decoder is the inverse of an
    encoding, and refuses everything else). *)

From S2P Require Import Prelude.
From S2P Require Import Limits.
From S2P Require Import Status.
From S2P Require Import Bytes.

(** ** The writer *)

Record ByteWriter := mkByteWriter {
  w_buffer : list byte;
  w_max_size : Z;
  w_status : Status }.

#[export] Instance ByteWriter_eta : Eta ByteWriter :=
  fun w => mkByteWriter (w_buffer w) (w_max_size w) (w_status w).

Definition ByteWriter_new (max_size : Z) : ByteWriter := mkByteWriter [] max_size ok_status.

Definition w_ok (w : ByteWriter) : bool := Status_ok (w_status w).

Definition w_fail (code : Code) (reason : Reason) (w : ByteWriter) : ByteWriter :=
  if w_ok w then w <| w_status := make_status code reason |> else w.

(** [u8], [u16], [u32] and [u64] differ only in the width they append. *)
Definition w_uint (width : nat) (v : Z) (w : ByteWriter) : ByteWriter :=
  if negb (w_ok w) then w
  else if w_max_size w <? size_of (w_buffer w) + Z.of_nat width then
    w_fail Code_exhausted Reason_allocation_denied w
  else w <| w_buffer ::= fun b => b ++ le_bytes width v |>.

Definition w_u8 := w_uint 1.
Definition w_u16 := w_uint 2.
Definition w_u32 := w_uint 4.
Definition w_u64 := w_uint 8.
Definition w_i64 (v : Z) : ByteWriter -> ByteWriter := w_u64 (wrap_u64 v).
Definition w_boolean (v : bool) : ByteWriter -> ByteWriter := w_u8 (if v then 1 else 0).

Definition w_bytes (v : list byte) (w : ByteWriter) : ByteWriter :=
  if negb (w_ok w) then w
  else if w_max_size w - size_of (w_buffer w) <? size_of v then
    w_fail Code_exhausted Reason_allocation_denied w
  else w <| w_buffer ::= fun b => b ++ v |>.

Definition w_string (v : list byte) (max_bytes : Z) (w : ByteWriter) : ByteWriter :=
  if negb (w_ok w) then w
  else if (max_bytes <? size_of v) || (65535 <? size_of v)
          || (w_max_size w - size_of (w_buffer w) <? size_of v) then
    w_fail Code_invalid Reason_length_invalid w
  else
    let w := w_u16 (wrap_u16 (size_of v)) w in
    if negb (w_ok w) then w else w_bytes v w.

(** ** The reader *)

Record ByteReader := mkByteReader {
  r_data : list byte;
  r_offset : nat;
  r_status : Status }.

#[export] Instance ByteReader_eta : Eta ByteReader :=
  fun r => mkByteReader (r_data r) (r_offset r) (r_status r).

Definition ByteReader_new (data : list byte) : ByteReader := mkByteReader data 0 ok_status.

Definition r_ok (r : ByteReader) : bool := Status_ok (r_status r).
Definition r_remaining (r : ByteReader) : nat := (length (r_data r) - r_offset r)%nat.
Definition r_at_end (r : ByteReader) : bool := (r_offset r =? length (r_data r))%nat.

(** A reading operation returns its value and the updated reader. *)
Definition Read (A : Type) : Type := ByteReader -> A * ByteReader.

Definition r_fail (code : Code) (reason : Reason) (detail : string) : Read Status :=
  fun r => let r' := if r_ok r then r <| r_status := mkStatus code reason detail |> else r in
           (r_status r', r').

Definition read_bind {A B} (m : Read A) (k : A -> Read B) : Read B :=
  fun r => let (x, r') := m r in k x r'.

(** Sequencing of a fallible read: the status is returned as soon as it fails. *)
Definition read_try {A B} (m : Read (Result A)) (k : A -> Read (Result B)) : Read (Result B) :=
  read_bind m (fun res => match res with Ok x => k x | Err s => fun r => (Err s, r) end).

Notation "'let*' x := m 'in' k" := (read_bind m (fun x => k))
  (at level 10, x name, m at level 100, k at level 200).
Notation "'let+' x := m 'in' k" := (read_try m (fun x => k))
  (at level 10, x name, m at level 100, k at level 200).

(** [if (!r.ok()) return r.status();] before the rest. *)
Definition when_ok {A} (k : Read (Result A)) : Read (Result A) :=
  fun r => if negb (r_ok r) then (Err (r_status r), r) else k r.

Definition r_return {A} (v : A) : Read (Result A) := fun r => (Ok v, r).
Definition r_refuse {A} (s : Status) : Read (Result A) := fun r => (Err s, r).

Definition r_uint (width : nat) (detail : string) : Read Z :=
  fun r =>
    if negb (r_ok r) then (0, r)
    else if (r_remaining r <? width)%nat then
      (0, (r_fail Code_invalid Reason_length_invalid detail r).2)
    else (le_value (take width (drop (r_offset r) (r_data r))),
          r <| r_offset ::= Nat.add width |>).

Definition r_u8 := r_uint 1 "short read: u8".
Definition r_u16 := r_uint 2 "short read: u16".
Definition r_u32 := r_uint 4 "short read: u32".
Definition r_u64 := r_uint 8 "short read: u64".
Definition r_i64 : Read Z := let* raw := r_u64 in fun r => (i64_of_u64 raw, r).

Definition r_boolean : Read bool :=
  let* raw := r_u8 in
  fun r =>
    if negb (r_ok r) then (false, r)
    else if 1 <? raw then
      (false, (r_fail Code_invalid Reason_enum_invalid "boolean out of range" r).2)
    else (raw =? 1, r).

Definition r_bytes (n : nat) : Read (Result (list byte)) :=
  fun r =>
    if negb (r_ok r) then (Err (r_status r), r)
    else if (r_remaining r <? n)%nat then
      let (s, r') := r_fail Code_invalid Reason_length_invalid "short read: bytes" r in (Err s, r')
    else (Ok (take n (drop (r_offset r) (r_data r))), r <| r_offset ::= Nat.add n |>).

Definition r_string (max_bytes : Z) : Read (Result (list byte)) :=
  fun r =>
    if negb (r_ok r) then (Err (r_status r), r)
    else
      (let* length := r_u16 in
       fun r =>
         if negb (r_ok r) then (Err (r_status r), r)
         else if max_bytes <? length then
           let (s, r') := r_fail Code_invalid Reason_length_invalid "string too long" r in (Err s, r')
         else r_bytes (Z.to_nat length) r) r.

Definition require_end : Read Status :=
  fun r =>
    if negb (r_ok r) then (r_status r, r)
    else if negb (r_at_end r) then
      r_fail Code_invalid Reason_trailing_garbage "trailing bytes after value" r
    else (ok_status, r).

(** [to_hex]. *)
Definition to_hex (data : list byte) : string :=
  String.string_of_list_ascii (data ≫= fun b =>
    let digit z := nth (Z.to_nat z) (String.list_ascii_of_string "0123456789abcdef") Ascii.zero in
    [digit (Z.shiftr (byte_value b) 4); digit (Z.land (byte_value b) 15)]).

(** ** Writing judgement *)

(** [f] appends [bs] when they fit, fails with an exhausted budget when they do
    not, and leaves a failed writer alone. *)
Record Emits (f : ByteWriter -> ByteWriter) (bs : list byte) : Prop := {
  emits_fits : forall w, w_ok w = true -> size_of (w_buffer w) + size_of bs <= w_max_size w ->
    f w = w <| w_buffer ::= fun b => b ++ bs |>;
  emits_exceeds : forall w, w_ok w = true -> size_of (w_buffer w) <= w_max_size w ->
    w_max_size w < size_of (w_buffer w) + size_of bs ->
    w_status (f w) = make_status Code_exhausted Reason_allocation_denied;
  emits_failed : forall w, w_ok w = false -> f w = w }.

Lemma emits_uint width v : Emits (w_uint width v) (le_bytes width v).
Proof.
  assert (Hs : size_of (le_bytes width v) = Z.of_nat width)
    by (unfold size_of; by rewrite le_bytes_length).
  constructor; intros w Hok; rewrite ?Hs; unfold w_uint, w_fail; rewrite Hok; cbn [negb].
  - intros Hf. destruct (Z.ltb_spec (w_max_size w) (size_of (w_buffer w) + Z.of_nat width)); [lia|done].
  - intros _ Hf. destruct (Z.ltb_spec (w_max_size w) (size_of (w_buffer w) + Z.of_nat width)); [done|lia].
  - done.
Qed.

Lemma emits_bytes v : Emits (w_bytes v) v.
Proof.
  constructor; intros w Hok; unfold w_bytes, w_fail; rewrite Hok; cbn [negb].
  - intros Hf. destruct (Z.ltb_spec (w_max_size w - size_of (w_buffer w)) (size_of v)); [lia|done].
  - intros _ Hf. destruct (Z.ltb_spec (w_max_size w - size_of (w_buffer w)) (size_of v)); [done|lia].
  - done.
Qed.

Lemma emits_id : Emits id [].
Proof.
  constructor; intros w Hok; unfold id; rewrite ?size_of_nil; try done; [|lia].
  intros _. destruct w; cbn. by rewrite app_nil_r.
Qed.

Lemma emits_comp f g a b : Emits f a -> Emits g b -> Emits (fun w => g (f w)) (a ++ b).
Proof.
  intros Hf Hg. constructor; intros w Hok; autorewrite with pff.
  - intros Hfit. pose proof (size_of_nonneg b). rewrite (emits_fits _ _ Hf) by (done || lia).
    rewrite (emits_fits _ _ Hg); [|done|cbn; autorewrite with pff; lia].
    destruct w; cbn. by rewrite app_assoc.
  - intros Hle Hex.
    destruct (Z.le_gt_cases (size_of (w_buffer w) + size_of a) (w_max_size w)) as [Ha|Ha].
    + rewrite (emits_fits _ _ Hf) by (done || lia).
      apply (emits_exceeds _ _ Hg); [done|cbn; autorewrite with pff; lia..].
    + pose proof (emits_exceeds _ _ Hf w Hok Hle Ha) as Hs.
      rewrite (emits_failed _ _ Hg); [done|]. unfold w_ok. by rewrite Hs.
  - by rewrite (emits_failed _ _ Hf), (emits_failed _ _ Hg).
Qed.

Lemma emits_foldl {A} (f : A -> ByteWriter -> ByteWriter) (enc : A -> list byte) l :
  (forall x, Emits (f x) (enc x)) ->
  Emits (fun w => foldl (fun w x => f x w) w l) (l ≫= enc).
Proof.
  intros Hf. induction l as [|x l IH]; cbn [foldl].
  - exact emits_id.
  - apply (emits_comp (f x) (fun w => foldl (fun w x => f x w) w l)); [apply Hf|exact IH].
Qed.

(** ** Reading judgements *)

Definition r_rest (r : ByteReader) : list byte := drop (r_offset r) (r_data r).

(** The reader is healthy and [s] is what remains to be read. *)
Record At (r : ByteReader) (s : list byte) : Prop := {
  at_ok : r_ok r = true;
  at_offset : (r_offset r <= length (r_data r))%nat;
  at_rest : r_rest r = s }.

Lemma At_new data : At (ByteReader_new data) data.
Proof. constructor; cbn; [done|lia|done]. Qed.

Lemma At_remaining r s : At r s -> r_remaining r = length s.
Proof. intros [_ Ho <-]. unfold r_remaining, r_rest. rewrite length_drop. lia. Qed.

Lemma At_at_end r s : At r s -> r_at_end r = true <-> s = [].
Proof.
  intros HA. pose proof (At_remaining _ _ HA) as Hl. destruct HA as [_ Ho _].
  unfold r_at_end, r_remaining in *. rewrite Nat.eqb_eq. rewrite <- length_zero_iff_nil. lia.
Qed.

Lemma At_advance r s n :
  At r s -> (n <= length s)%nat -> At (r <| r_offset ::= Nat.add n |>) (drop n s).
Proof.
  intros [Hok Ho <-] Hn. unfold r_rest in *. rewrite length_drop in Hn.
  constructor; cbn; [done|lia|]. rewrite drop_drop. f_equal. lia.
Qed.

Lemma require_end_At r s : At r s -> Status_ok (require_end r).1 = true <-> s = [].
Proof.
  intros HA. rewrite <- (At_at_end _ _ HA). unfold require_end. rewrite (at_ok _ _ HA). cbn [negb].
  destruct (r_at_end r) eqn:E; cbn [negb]; [done|].
  unfold r_fail. rewrite (at_ok _ _ HA). done.
Qed.

(** A read that yields a value directly and records its failure in the reader. *)
Class RawField {B} (p : Read B) (enc : B -> list byte) (wf : B -> Prop) : Prop := {
  raw_failed : forall r, r_ok r = false -> (p r).2 = r;
  raw_read : forall r b s, At r (enc b ++ s) -> wf b -> exists r', p r = (b, r') /\ At r' s;
  raw_inv : forall r s b r', At r s -> p r = (b, r') ->
    r_ok r' = false \/ (wf b /\ exists s', s = enc b ++ s' /\ At r' s') }.

(** A read that yields a result: it accepts exactly the encodings of the
    well-formed values. *)
Class Decodes {A} (m : Read (Result A)) (enc : A -> list byte) (wf : A -> Prop) : Prop := {
  dec_read : forall r v s, At r (enc v ++ s) -> wf v -> exists r', m r = (Ok v, r') /\ At r' s;
  dec_inv : forall r s v r', At r s -> m r = (Ok v, r') ->
    wf v /\ exists s', s = enc v ++ s' /\ At r' s' }.

(** A failed reader stays failed and the failure is what is returned. *)
Class Strict {A} (m : Read (Result A)) : Prop :=
  strict_failed : forall r, r_ok r = false -> m r = (Err (r_status r), r).

#[export] Instance strict_bind {B A} (p : Read B) (k : B -> Read (Result A)) enc wf :
  RawField p enc wf -> (forall x, Strict (k x)) -> Strict (read_bind p k).
Proof.
  intros Hp Hk r Hr. unfold read_bind. pose proof (raw_failed r Hr) as Hf.
  destruct (p r) as [x r']. cbn in Hf. subst r'. by apply Hk.
Qed.

#[export] Instance strict_try {B A} (m : Read (Result B)) (k : B -> Read (Result A)) :
  Strict m -> Strict (read_try m k).
Proof.
  intros Hm r Hr. unfold read_try, read_bind. by rewrite (strict_failed r Hr).
Qed.

#[export] Instance strict_when_ok {A} (k : Read (Result A)) : Strict (when_ok k).
Proof. intros r Hr. unfold when_ok. by rewrite Hr. Qed.

(** *** Inversion of a successful decoding *)

Lemma bind_inv {B A} (p : Read B) (k : B -> Read (Result A)) enc wf `{!RawField p enc wf} r s v r' :
  (forall x, Strict (k x)) -> At r s -> read_bind p k r = (Ok v, r') ->
  exists x s' r1, wf x /\ s = enc x ++ s' /\ At r1 s' /\ k x r1 = (Ok v, r').
Proof.
  intros Hk HA He. unfold read_bind in He. destruct (p r) as [x r1] eqn:Ep.
  destruct (raw_inv _ _ _ _ HA Ep) as [Hf|(Hwf & s' & -> & HA')].
  - rewrite (Hk x r1 Hf) in He. done.
  - by exists x, s', r1.
Qed.

Lemma try_inv {B A} (m : Read (Result B)) (k : B -> Read (Result A)) enc wf
    `{!Decodes m enc wf} r s v r' :
  At r s -> read_try m k r = (Ok v, r') ->
  exists x s' r1, wf x /\ s = enc x ++ s' /\ At r1 s' /\ k x r1 = (Ok v, r').
Proof.
  intros HA He. unfold read_try, read_bind in He. destruct (m r) as [[x|st] r1] eqn:Em; [|done].
  destruct (dec_inv _ _ _ _ HA Em) as (Hwf & s' & -> & HA'). by exists x, s', r1.
Qed.

Lemma when_ok_inv {A} (k : Read (Result A)) r s : At r s -> when_ok k r = k r.
Proof. intros HA. unfold when_ok. by rewrite (at_ok _ _ HA). Qed.

Lemma refuse_inv {A} (b : bool) st (k : Read (Result A)) r v r' :
  (if b then r_refuse st else k) r = (Ok v, r') -> b = false /\ k r = (Ok v, r').
Proof. by destruct b. Qed.

Lemma return_inv {A} (v v' : A) r r' : r_return v r = (Ok v', r') -> v' = v /\ r' = r.
Proof. unfold r_return. by intros [= <- <-]. Qed.

(** *** Running a decoder on an encoding *)

Definition Returns {A} (m : Read (Result A)) (r : ByteReader) (v : A) (s : list byte) : Prop :=
  exists r', m r = (Ok v, r') /\ At r' s.

Lemma bind_returns {B A} (p : Read B) (k : B -> Read (Result A)) enc wf `{!RawField p enc wf} r x s v s' :
  At r (enc x ++ s) -> wf x -> (forall r', At r' s -> Returns (k x) r' v s') ->
  Returns (read_bind p k) r v s'.
Proof.
  intros HA Hwf Hk. destruct (raw_read _ _ _ HA Hwf) as (r1 & Hp & HA1).
  destruct (Hk r1 HA1) as (r2 & Hr & HA2). exists r2. unfold read_bind. by rewrite Hp.
Qed.

Lemma try_returns {B A} (m : Read (Result B)) (k : B -> Read (Result A)) enc wf
    `{!Decodes m enc wf} r x s v s' :
  At r (enc x ++ s) -> wf x -> (forall r', At r' s -> Returns (k x) r' v s') ->
  Returns (read_try m k) r v s'.
Proof.
  intros HA Hwf Hk. destruct (dec_read _ _ _ HA Hwf) as (r1 & Hp & HA1).
  destruct (Hk r1 HA1) as (r2 & Hr & HA2). exists r2. unfold read_try, read_bind. by rewrite Hp.
Qed.

Lemma when_ok_returns {A} (k : Read (Result A)) r s v s' :
  At r s -> Returns k r v s' -> Returns (when_ok k) r v s'.
Proof. intros HA. unfold Returns. by rewrite (when_ok_inv _ _ _ HA). Qed.

Lemma return_returns {A} (v : A) r s : At r s -> Returns (r_return v) r v s.
Proof. intros HA. by exists r. Qed.

Lemma refuse_returns {A} (b : bool) st (k : Read (Result A)) r v s :
  b = false -> Returns k r v s -> Returns (if b then r_refuse st else k) r v s.
Proof. by intros ->. Qed.

(** ** The primitive fields *)

Definition uint_wf (width : nat) (v : Z) : Prop := 0 <= v < 256 ^ Z.of_nat width.

Lemma r_uint_At width detail r s :
  At r s ->
  r_uint width detail r =
  if (length s <? width)%nat then
    (0, r <| r_status := mkStatus Code_invalid Reason_length_invalid detail |>)
  else (le_value (take width s), r <| r_offset ::= Nat.add width |>).
Proof.
  intros HA. unfold r_uint, r_fail. rewrite (at_ok _ _ HA), (At_remaining _ _ HA). cbn [negb].
  destruct (length s <? width)%nat; [done|]. by rewrite <- (at_rest _ _ HA).
Qed.

Lemma raw_uint width detail : RawField (r_uint width detail) (le_bytes width) (uint_wf width).
Proof.
  constructor.
  - intros r Hr. unfold r_uint. by rewrite Hr.
  - intros r v s HA Hv. rewrite (r_uint_At _ _ _ _ HA).
    rewrite length_app, le_bytes_length.
    destruct (Nat.ltb_spec (width + length s) width); [lia|]. eexists. split.
    + rewrite take_app_length' by (by rewrite le_bytes_length). by rewrite le_value_bytes.
    + pose proof (At_advance _ _ width HA) as HA'.
      rewrite drop_app_length' in HA' by (by rewrite le_bytes_length).
      apply HA'. rewrite length_app, le_bytes_length. lia.
  - intros r s b r' HA. rewrite (r_uint_At _ _ _ _ HA).
    destruct (Nat.ltb_spec (length s) width) as [Hl|Hl]; intros [= <- <-].
    + by left.
    + right. assert (Hlen : length (take width s) = width) by (rewrite length_take; lia).
      split.
      * pose proof (le_value_range (take width s)) as Hr. by rewrite Hlen in Hr.
      * exists (drop width s). split; [|apply (At_advance _ _ width HA); lia].
        rewrite <- Hlen at 1. by rewrite le_bytes_value, take_drop.
Qed.

Lemma uint_wf_u8 v : uint_wf 1 v <-> is_u8 v.
Proof. unfold uint_wf, is_u8, UINT8_MAX. change (256 ^ Z.of_nat 1) with 256. lia. Qed.
Lemma uint_wf_u16 v : uint_wf 2 v <-> is_u16 v.
Proof. unfold uint_wf, is_u16, UINT16_MAX. change (256 ^ Z.of_nat 2) with 65536. lia. Qed.
Lemma uint_wf_u32 v : uint_wf 4 v <-> is_u32 v.
Proof. unfold uint_wf, is_u32, UINT32_MAX. change (256 ^ Z.of_nat 4) with 4294967296. lia. Qed.
Lemma uint_wf_u64 v : uint_wf 8 v <-> is_u64 v.
Proof.
  unfold uint_wf, is_u64, UINT64_MAX. change (256 ^ Z.of_nat 8) with 18446744073709551616. lia.
Qed.

Lemma raw_uint_range width detail (P : Z -> Prop) :
  (forall v, uint_wf width v <-> P v) -> RawField (r_uint width detail) (le_bytes width) P.
Proof.
  intros HP. destruct (raw_uint width detail) as [Hf Hr Hi]. constructor; [exact Hf| |].
  - intros r b s HA Hb. apply Hr; [exact HA|by apply HP].
  - intros r s b r' HA He. destruct (Hi _ _ _ _ HA He) as [?|[Hb ?]]; [by left|right].
    split; [by apply HP|done].
Qed.

#[export] Instance raw_u8 : RawField r_u8 (le_bytes 1) is_u8.
Proof. apply raw_uint_range, uint_wf_u8. Qed.
#[export] Instance raw_u16 : RawField r_u16 (le_bytes 2) is_u16.
Proof. apply raw_uint_range, uint_wf_u16. Qed.
#[export] Instance raw_u32 : RawField r_u32 (le_bytes 4) is_u32.
Proof. apply raw_uint_range, uint_wf_u32. Qed.
#[export] Instance raw_u64 : RawField r_u64 (le_bytes 8) is_u64.
Proof. apply raw_uint_range, uint_wf_u64. Qed.

Definition enc_i64 (v : Z) : list byte := le_bytes 8 (wrap_u64 v).
Definition enc_bool (b : bool) : list byte := le_bytes 1 (if b then 1 else 0).

#[export] Instance raw_i64 : RawField r_i64 enc_i64 is_i64.
Proof.
  constructor.
  - intros r Hr. unfold r_i64, read_bind. pose proof (raw_failed (p := r_u64) r Hr) as Hf.
    destruct (r_u64 r) as [x r1]. exact Hf.
  - intros r v s HA Hv. unfold r_i64, read_bind, enc_i64 in *.
    destruct (raw_read (p := r_u64) r _ s HA) as (r' & -> & HA').
    { apply wrap_u64_range. }
    exists r'. by rewrite i64_of_u64_wrap.
  - intros r s v r' HA. unfold r_i64, read_bind. destruct (r_u64 r) as [x r1] eqn:E.
    intros [= <- <-]. destruct (raw_inv _ _ _ _ HA E) as [Hf|(Hwf & s' & -> & HA')]; [by left|].
    right. split; [by apply i64_of_u64_range|].
    exists s'. unfold enc_i64. by rewrite wrap_i64_of_u64.
Qed.

#[export] Instance raw_boolean : RawField r_boolean enc_bool (fun _ => True).
Proof.
  constructor.
  - intros r Hr. unfold r_boolean, read_bind. pose proof (raw_failed (p := r_u8) r Hr) as Hf.
    destruct (r_u8 r) as [x r1]. cbn in Hf. subst r1. by rewrite Hr.
  - intros r b s HA _. unfold r_boolean, read_bind, enc_bool in *.
    destruct (raw_read (p := r_u8) r _ s HA) as (r' & -> & HA').
    { unfold is_u8, UINT8_MAX. destruct b; lia. }
    exists r'. rewrite (at_ok _ _ HA'). by destruct b.
  - intros r s b r' HA. unfold r_boolean, read_bind. destruct (r_u8 r) as [x r1] eqn:E.
    destruct (raw_inv _ _ _ _ HA E) as [Hf|(Hwf & s' & -> & HA')].
    + rewrite Hf. cbn [negb]. intros [= <- <-]. by left.
    + rewrite (at_ok _ _ HA'). cbn [negb]. destruct (Z.ltb_spec 1 x).
      * intros [= <- <-]. left. unfold r_fail. by rewrite (at_ok _ _ HA').
      * intros [= <- <-]. right. split; [done|]. exists s'. split; [|done].
        unfold is_u8, enc_bool in *.
        by destruct (Z.eqb_spec x 1) as [->|]; [|assert (x = 0) as -> by lia].
Qed.

(** ** Repetition *)

(** [for (i = 0; i < n; ++i)] reading elements until the first failure. *)
Fixpoint r_many {A} (n : nat) (m : Read (Result A)) (acc : list A) : Read (Result (list A)) :=
  match n with
  | O => r_return acc
  | S n' => let+ x := m in r_many n' m (acc ++ [x])
  end.

(** The same loop over reads whose failure is only noticed afterwards. *)
Fixpoint r_many_raw {B} (n : nat) (p : Read B) (acc : list B) : Read (list B) :=
  match n with
  | O => fun r => (acc, r)
  | S n' => let* x := p in r_many_raw n' p (acc ++ [x])
  end.

Section many.
Context {A : Type} (m : Read (Result A)) (enc : A -> list byte) (wf : A -> Prop)
  `{!Decodes m enc wf}.

Definition list_wf (n : nat) (l : list A) : Prop := length l = n /\ Forall wf l.

Lemma r_many_acc n acc r :
  r_many n m acc r =
  match r_many n m [] r with (Ok l, r') => (Ok (acc ++ l), r') | (Err s, r') => (Err s, r') end.
Proof.
  revert acc r. induction n as [|n IH]; intros acc r; cbn [r_many].
  - unfold r_return. by rewrite app_nil_r.
  - unfold read_try, read_bind. destruct (m r) as [[x|s] r1]; [|done].
    rewrite (IH (acc ++ [x])), (IH ([] ++ [x])). destruct (r_many n m [] r1) as [[l|s] r2]; [|done].
    by rewrite <- app_assoc.
Qed.

#[export] Instance decodes_many n : Decodes (r_many n m []) (fun l => l ≫= enc) (list_wf n).
Proof.
  constructor.
  - induction n as [|n IH]; intros r l s HA [Hl Hwf]; cbn [r_many].
    + destruct l; [|done]. by exists r.
    + destruct l as [|x l]; [done|]. apply List.Forall_cons_iff in Hwf as [Hx Hwf].
      cbn in HA. rewrite <- app_assoc in HA. unfold read_try, read_bind.
      destruct (dec_read _ _ _ HA Hx) as (r1 & -> & HA1). rewrite r_many_acc.
      destruct (IH r1 l s HA1) as (r2 & -> & HA2); [split; [by injection Hl|done]|].
      by exists r2.
  - induction n as [|n IH]; intros r s l r' HA; cbn [r_many].
    + unfold r_return. intros [= <- <-]. split; [by split|]. by exists s.
    + unfold read_try, read_bind. destruct (m r) as [[x|st] r1] eqn:E; [|done].
      destruct (dec_inv _ _ _ _ HA E) as (Hx & s1 & -> & HA1). rewrite r_many_acc.
      destruct (r_many n m [] r1) as [[l'|st] r2] eqn:E2; [|done]. intros [= <- <-].
      destruct (IH _ _ _ _ HA1 E2) as ([Hl Hwf] & s2 & -> & HA2).
      split; [split; [cbn; by rewrite Hl|by constructor]|]. exists s2. cbn. by rewrite app_assoc.
Qed.
End many.

Section many_raw.
Context {B : Type} (p : Read B) (enc : B -> list byte) (wf : B -> Prop) `{!RawField p enc wf}.

Lemma r_many_raw_acc n acc r :
  r_many_raw n p acc r = ((acc ++ (r_many_raw n p [] r).1), (r_many_raw n p [] r).2).
Proof.
  revert acc r. induction n as [|n IH]; intros acc r; cbn [r_many_raw].
  - by rewrite app_nil_r.
  - unfold read_bind. destruct (p r) as [x r1]. rewrite (IH (acc ++ [x])), (IH ([] ++ [x])).
    cbn. by rewrite <- app_assoc.
Qed.

Lemma r_many_raw_failed n r : r_ok r = false -> (r_many_raw n p [] r).2 = r.
Proof.
  induction n as [|n IH]; intros Hr; [done|]. cbn [r_many_raw]. unfold read_bind.
  pose proof (raw_failed (p := p) r Hr) as Hf. destruct (p r) as [x r1]. cbn in Hf. subst r1.
  rewrite r_many_raw_acc. cbn. by apply IH.
Qed.

#[export] Instance raw_many n : RawField (r_many_raw n p []) (fun l => l ≫= enc) (list_wf wf n).
Proof.
  constructor.
  - apply r_many_raw_failed.
  - induction n as [|n IH]; intros r l s HA [Hl Hwf]; cbn [r_many_raw].
    + destruct l; [|done]. by exists r.
    + destruct l as [|x l]; [done|]. apply List.Forall_cons_iff in Hwf as [Hx Hwf].
      cbn in HA. rewrite <- app_assoc in HA. unfold read_bind.
      destruct (raw_read _ _ _ HA Hx) as (r1 & -> & HA1). rewrite r_many_raw_acc.
      destruct (IH r1 l s HA1) as (r2 & -> & HA2); [split; [by injection Hl|done]|].
      by exists r2.
  - induction n as [|n IH]; intros r s l r' HA; cbn [r_many_raw].
    + intros [= <- <-]. right. split; [by split|]. by exists s.
    + unfold read_bind. destruct (p r) as [x r1] eqn:E. rewrite r_many_raw_acc.
      destruct (r_many_raw n p [] r1) as [l' r2] eqn:E2. cbn. intros [= <- <-].
      destruct (raw_inv _ _ _ _ HA E) as [Hf|(Hx & s1 & -> & HA1)].
      * left. pose proof (r_many_raw_failed n r1 Hf) as Hf'. rewrite E2 in Hf'. cbn in Hf'.
        by subst.
      * destruct (IH _ _ _ _ HA1 E2) as [Hf|([Hl Hwf] & s2 & -> & HA2)]; [by left|right].
        split; [split; [cbn; by rewrite Hl|by constructor]|]. exists s2. cbn.
        by rewrite app_assoc.
Qed.
End many_raw.
