(* ===== verification/Wire.v ===== *)
(** * Wire codecs ([include/pff/wire.hpp], [src/wire.cpp])

    One [put_] and one [get_] per document, in the order of the source; the
    digest of a decision ([src/decision.cpp]) follows from its encoding. *)

From stdpp Require Import pretty.
From S2P Require Import Prelude.
From S2P Require Import Ids.
From S2P Require Import Limits.
From S2P Require Import Status.
From S2P Require Import Checked.
From S2P Require Import Authority.
From S2P Require Import Model.
From S2P Require Import Decision.
From S2P Require Import Records.
From S2P Require Import Bytes.
From S2P Require Import Canonical.

Definition put_enum {E} `{Enum E} (value : E) : ByteWriter -> ByteWriter := w_u8 (enum_value value).

Definition get_enum (E : Type) `{Enum E} (max_inclusive : Z) (invalid_reason : Reason)
    : Read (Result E) :=
  let* raw := r_u8 in
  when_ok
    (if max_inclusive <? raw then r_refuse (make_status Code_invalid invalid_reason)
     else r_return (enum_cast raw)).

Definition put_id {T} (i : Id T) : ByteWriter -> ByteWriter := w_u64 (Id_value i).
Definition get_id (T : IdTag) : Read (Id T) :=
  let* raw := r_u64 in fun r => (Id_from_value raw, r).

(** The loop that writes the elements of a vector. *)
Definition put_many {A} (put : A -> ByteWriter -> ByteWriter) (l : list A) (w : ByteWriter)
    : ByteWriter := foldl (fun w x => put x w) w l.

(** A reason stored as u16, read with its own range check. *)
Definition put_reason (r : Reason) : ByteWriter -> ByteWriter := w_u16 (enum_value r).
Definition get_reason (detail : string) : Read (Result Reason) :=
  let* raw := r_u16 in
  when_ok
    (if max_reason_value <? raw then r_refuse (mkStatus Code_invalid Reason_enum_invalid detail)
     else r_return (enum_cast raw)).

Definition get_count (max_count : Z) : Read (Result Z) :=
  let* raw := r_u32 in
  when_ok
    (if max_count <? raw then
       r_refuse (mkStatus Code_invalid Reason_length_invalid "declared count exceeds bound")
     else r_return raw).

(** [status = v.validate(); if (!status.ok()) return status; return v;] *)
Definition r_validated {A} (status : Status) (v : A) : Read (Result A) :=
  if negb (Status_ok status) then r_refuse status else r_return v.

(** ** Score terms and authority *)

Definition put_terms (t : ScoreTerms) (w : ByteWriter) : ByteWriter :=
  let w := w_i64 (st_health t) w in
  let w := w_i64 (st_cost t) w in
  let w := w_i64 (st_rank t) w in
  let w := w_i64 (st_capability t) w in
  w_i64 (st_total t) w.

Definition get_terms : Read (Result ScoreTerms) :=
  let* health := r_i64 in
  let* cost := r_i64 in
  let* rank := r_i64 in
  let* capability := r_i64 in
  let* total := r_i64 in
  when_ok
    (match (sum ← checked_add health cost; sum ← checked_add sum rank;
            checked_add sum capability) with
     | None => r_refuse (mkStatus Code_invalid Reason_domain_invalid "score terms overflow")
     | Some sum =>
         if negb (sum =? total) then
           r_refuse (mkStatus Code_invalid Reason_domain_invalid
                       "score total inconsistent with terms")
         else r_return (mkScoreTerms health cost rank capability total)
     end).

Definition put_authority (v : AuthorityVector) (w : ByteWriter) : ByteWriter :=
  let w := put_id (av_topology v) w in
  let w := put_id (av_path_authority v) w in
  let w := put_id (av_policy v) w in
  let w := put_id (av_obligations v) w in
  let w := put_id (av_epoch v) w in
  put_id (av_boot v) w.

Definition get_authority : Read (Result AuthorityVector) :=
  let* topology := get_id GenerationTag in
  let* path_authority := get_id GenerationTag in
  let* policy := get_id GenerationTag in
  let* obligations := get_id GenerationTag in
  let* epoch := get_id EpochTag in
  let* boot := get_id BootTag in
  when_ok (r_return (mkAuthorityVector topology path_authority policy obligations epoch boot)).

(** ** Evidence *)

Definition put_evidence (v : PathEvidence) (w : ByteWriter) : ByteWriter :=
  let w := put_id (ev_id v) w in
  let w := put_id (ev_path v) w in
  let w := put_enum (ev_freshness v) w in
  let w := put_enum (ev_eligibility v) w in
  let w := put_enum (ev_reachability v) w in
  let w := put_enum (ev_capacity v) w in
  let w := w_u32 (ev_capabilities v) w in
  let w := w_i64 (ev_health_ppm v) w in
  let w := w_i64 (ev_cost_units v) w in
  let w := w_u64 (ev_observation_seq v) w in
  let w := put_authority (ev_observed_under v) w in
  put_enum (ev_provenance v) w.

Definition get_evidence : Read (Result PathEvidence) :=
  let* id := get_id EvidenceTag in
  let* path := get_id PathTag in
  let+ freshness := get_enum Freshness (enum_max Freshness) Reason_enum_invalid in
  let+ eligibility := get_enum Eligibility (enum_max Eligibility) Reason_enum_invalid in
  let+ reachability := get_enum Reachability (enum_max Reachability) Reason_enum_invalid in
  let+ capacity := get_enum CapacityClass (enum_max CapacityClass) Reason_enum_invalid in
  let* capabilities := r_u32 in
  let* health_ppm := r_i64 in
  let* cost_units := r_i64 in
  let* observation_seq := r_u64 in
  let+ observed_under := get_authority in
  let+ provenance := get_enum Provenance (enum_max Provenance) Reason_enum_invalid in
  when_ok (r_return (mkPathEvidence id path freshness eligibility reachability capacity
    capabilities health_ppm cost_units observation_seq observed_under provenance)).

Definition put_effect (v : EffectEvidence) (w : ByteWriter) : ByteWriter :=
  let w := put_id (eff_id v) w in
  let w := put_id (eff_path v) w in
  let w := w_u64 (eff_observation_seq v) w in
  let w := w_boolean (eff_effect_verified v) w in
  let w := put_authority (eff_observed_under v) w in
  put_enum (eff_provenance v) w.

Definition get_effect : Read (Result EffectEvidence) :=
  let* id := get_id EvidenceTag in
  let* path := get_id PathTag in
  let* observation_seq := r_u64 in
  let* effect_verified := r_boolean in
  let+ observed_under := get_authority in
  let+ provenance := get_enum Provenance (enum_max Provenance) Reason_enum_invalid in
  when_ok (r_return (mkEffectEvidence id path observation_seq effect_verified observed_under
    provenance)).

(** ** Obligations and policy *)

Definition put_obligations (v : ServiceObligations) (w : ByteWriter) : ByteWriter :=
  let w := put_id (ob_generation v) w in
  let w := w_u32 (ob_required_capabilities v) w in
  let w := w_i64 (ob_min_health_ppm v) w in
  let w := w_i64 (ob_max_cost_units v) w in
  let w := w_boolean (ob_require_reachable v) w in
  let w := w_boolean (ob_require_capacity v) w in
  w_boolean (ob_require_fresh_evidence v) w.

Definition get_obligations : Read (Result ServiceObligations) :=
  let* generation := get_id GenerationTag in
  let* required_capabilities := r_u32 in
  let* min_health_ppm := r_i64 in
  let* max_cost_units := r_i64 in
  let* require_reachable := r_boolean in
  let* require_capacity := r_boolean in
  let* require_fresh_evidence := r_boolean in
  when_ok
    (let v := mkServiceObligations generation required_capabilities min_health_ppm
                max_cost_units require_reachable require_capacity require_fresh_evidence in
     r_validated (ServiceObligations_validate v) v).

Definition put_policy (v : FailoverPolicy) (w : ByteWriter) : ByteWriter :=
  let w := put_id (pol_generation v) w in
  let w := w_i64 (pol_w_health v) w in
  let w := w_i64 (pol_w_cost v) w in
  let w := w_i64 (pol_w_rank v) w in
  let w := w_i64 (pol_w_capability v) w in
  let w := w_i64 (pol_min_score v) w in
  let w := w_u32 (pol_search_limit v) w in
  let w := w_u32 (pol_max_retained_attempts v) w in
  let w := w_u32 (pol_max_revalidations v) w in
  let w := w_boolean (pol_allow_unknown_skip v) w in
  w_boolean (pol_require_verified_effect v) w.

Definition get_policy : Read (Result FailoverPolicy) :=
  let* generation := get_id GenerationTag in
  let* w_health := r_i64 in
  let* w_cost := r_i64 in
  let* w_rank := r_i64 in
  let* w_capability := r_i64 in
  let* min_score := r_i64 in
  let* search_limit := r_u32 in
  let* max_retained_attempts := r_u32 in
  let* max_revalidations := r_u32 in
  let* allow_unknown_skip := r_boolean in
  let* require_verified_effect := r_boolean in
  when_ok
    (let v := mkFailoverPolicy generation w_health w_cost w_rank w_capability min_score
                search_limit max_retained_attempts max_revalidations allow_unknown_skip
                require_verified_effect in
     r_validated (FailoverPolicy_validate v) v).

(** ** Candidates and sets *)

Definition put_candidate (v : AlternateCandidate) (w : ByteWriter) : ByteWriter :=
  let w := put_id (cand_path v) w in
  let w := w_u32 (cand_upstream_rank v) w in
  let w := w_boolean (cand_withdrawn v) w in
  let w := put_evidence (cand_evidence v) w in
  put_authority (cand_authority v) w.

Definition get_candidate : Read (Result AlternateCandidate) :=
  let* path := get_id PathTag in
  let* upstream_rank := r_u32 in
  let* withdrawn := r_boolean in
  let+ evidence := get_evidence in
  let+ authority := get_authority in
  when_ok
    (let v := mkAlternateCandidate path upstream_rank withdrawn evidence authority in
     r_validated (AlternateCandidate_validate v) v).

Definition put_set (v : AlternateSet) (w : ByteWriter) : ByteWriter :=
  let w := put_id (set_id v) w in
  let w := put_id (set_generation v) w in
  let w := put_enum (set_completeness v) w in
  let w := w_u32 (wrap_u32 (size_of (set_candidates v))) w in
  put_many put_candidate (set_candidates v) w.

Definition get_set : Read (Result AlternateSet) :=
  let* id := get_id AlternateSetTag in
  let* generation := get_id GenerationTag in
  let+ completeness := get_enum SetCompleteness (enum_max SetCompleteness) Reason_enum_invalid in
  let+ count := get_count max_candidates_per_set in
  let+ candidates := r_many (Z.to_nat count) get_candidate [] in
  when_ok
    (let v := mkAlternateSet id generation completeness candidates in
     r_validated (AlternateSet_validate v) v).

(** ** Decisions *)

Definition put_assessment (v : CandidateAssessment) (w : ByteWriter) : ByteWriter :=
  let w := put_id (as_path v) w in
  let w := w_u32 (as_upstream_rank v) w in
  let w := put_terms (as_terms v) w in
  let w := put_enum (as_verdict v) w in
  let w := put_reason (as_reason v) w in
  put_enum (as_authority v) w.

Definition get_assessment : Read (Result CandidateAssessment) :=
  let* path := get_id PathTag in
  let* upstream_rank := r_u32 in
  let+ terms := get_terms in
  let+ verdict := get_enum CandidateVerdict (enum_max CandidateVerdict) Reason_enum_invalid in
  let+ reason := get_reason "assessment reason out of range" in
  let+ authority := get_enum AuthorityClass (enum_max AuthorityClass) Reason_enum_invalid in
  when_ok (r_return (mkCandidateAssessment path upstream_rank terms verdict reason authority)).

Definition put_step (step : Reason * Z) (w : ByteWriter) : ByteWriter :=
  let w := put_reason step.1 w in
  w_i64 step.2 w.

(** One iteration of the loop that reads the explanation. *)
Definition get_step : Read (Result (Reason * Z)) :=
  let* raw_reason := r_u16 in
  let* value := r_i64 in
  when_ok
    (if max_reason_value <? raw_reason then
       r_refuse (mkStatus Code_invalid Reason_enum_invalid "explanation reason out of range")
     else r_return (enum_cast raw_reason, value)).

Definition put_decision (v : PromotionDecision) (w : ByteWriter) : ByteWriter :=
  let w := put_id (dec_id v) w in
  let w := put_enum (dec_outcome v) w in
  let w := put_enum (dec_authority_kind v) w in
  let w := put_id (dec_incumbent v) w in
  let w := put_id (dec_set v) w in
  let w := put_id (dec_set_generation v) w in
  let w := put_id (dec_policy_generation v) w in
  let w := put_id (dec_obligations_generation v) w in
  let w := put_authority (dec_basis v) w in
  let w := put_id (dec_attempt v) w in
  let w := put_id (dec_selected v) w in
  let w := w_u32 (wrap_u32 (size_of (dec_ranked v))) w in
  let w := put_many put_assessment (dec_ranked v) w in
  let w := w_u32 (wrap_u32 (size_of (dec_indeterminate_above v))) w in
  let w := put_many put_id (dec_indeterminate_above v) w in
  let w := w_u32 (wrap_u32 (size_of (dec_explanation v))) w in
  let w := put_many put_step (dec_explanation v) w in
  let w := w_u64 (dec_examined v) w in
  let w := w_u64 (dec_supplied v) w in
  let w := w_boolean (dec_search_limited v) w in
  let w := w_boolean (dec_set_complete v) w in
  let w := put_reason (dec_reason v) w in
  put_enum (dec_provenance v) w.

Definition get_decision : Read (Result PromotionDecision) :=
  let* id := get_id DecisionTag in
  let+ outcome := get_enum PromotionOutcome (enum_max PromotionOutcome) Reason_enum_invalid in
  let+ kind := get_enum AuthorityKind (enum_max AuthorityKind) Reason_enum_invalid in
  let* incumbent := get_id PathTag in
  let* set := get_id AlternateSetTag in
  let* set_generation := get_id GenerationTag in
  let* policy_generation := get_id GenerationTag in
  let* obligations_generation := get_id GenerationTag in
  let+ basis := get_authority in
  let* attempt := get_id AttemptTag in
  let* selected := get_id PathTag in
  let+ ranked_count := get_count max_assessments_reported in
  let+ ranked := r_many (Z.to_nat ranked_count) get_assessment [] in
  let+ indeterminate_count := get_count max_indeterminate_reported in
  let* indeterminate := r_many_raw (Z.to_nat indeterminate_count) (get_id PathTag) [] in
  let+ explanation_count := get_count max_explanation_steps in
  let+ explanation := r_many (Z.to_nat explanation_count) get_step [] in
  let* examined := r_u64 in
  let* supplied := r_u64 in
  let* search_limited := r_boolean in
  let* set_complete := r_boolean in
  let+ reason := get_reason "decision reason out of range" in
  let+ provenance := get_enum Provenance (enum_max Provenance) Reason_enum_invalid in
  when_ok (r_return (mkPromotionDecision id outcome kind incumbent set set_generation
    policy_generation obligations_generation basis attempt selected ranked indeterminate
    explanation examined supplied search_limited set_complete reason provenance
    SelectionStats_default)).

(** ** Requests *)

Definition put_request (v : PromotionRequest) (w : ByteWriter) : ByteWriter :=
  let w := put_id (req_incumbent v) w in
  let w := put_enum (req_condition v) w in
  let w := put_id (req_set v) w in
  let w := put_id (req_set_generation v) w in
  let w := put_id (req_policy_generation v) w in
  let w := put_id (req_obligations_generation v) w in
  let w := put_id (req_topology_generation v) w in
  let w := put_id (req_path_authority_generation v) w in
  let w := put_id (req_epoch v) w in
  let w := put_id (req_boot v) w in
  put_id (req_attempt v) w.

Definition get_request : Read (Result PromotionRequest) :=
  let* incumbent := get_id PathTag in
  let+ condition := get_enum IncumbentCondition (enum_max IncumbentCondition)
                      Reason_enum_invalid in
  let* set := get_id AlternateSetTag in
  let* set_generation := get_id GenerationTag in
  let* policy_generation := get_id GenerationTag in
  let* obligations_generation := get_id GenerationTag in
  let* topology_generation := get_id GenerationTag in
  let* path_authority_generation := get_id GenerationTag in
  let* epoch := get_id EpochTag in
  let* boot := get_id BootTag in
  let* attempt := get_id AttemptTag in
  when_ok (r_return (mkPromotionRequest incumbent condition set set_generation policy_generation
    obligations_generation topology_generation path_authority_generation epoch boot attempt)).

(** ** Durable records *)

Definition put_attempt (v : AttemptRecord) (w : ByteWriter) : ByteWriter :=
  let w := put_id (at_id v) w in
  let w := put_id (at_epoch v) w in
  let w := put_id (at_boot v) w in
  let w := put_id (at_incumbent v) w in
  let w := put_id (at_selected v) w in
  let w := put_id (at_set v) w in
  let w := put_id (at_set_generation v) w in
  let w := put_authority (at_basis v) w in
  let w := put_enum (at_state v) w in
  let w := put_reason (at_terminal_reason v) w in
  let w := w_u64 (at_begin_sequence v) w in
  let w := w_u64 (at_terminal_sequence v) w in
  w_u32 (at_revalidations v) w.

Definition get_attempt : Read (Result AttemptRecord) :=
  let* id := get_id AttemptTag in
  let* epoch := get_id EpochTag in
  let* boot := get_id BootTag in
  let* incumbent := get_id PathTag in
  let* selected := get_id PathTag in
  let* set := get_id AlternateSetTag in
  let* set_generation := get_id GenerationTag in
  let+ basis := get_authority in
  let+ state := get_enum AttemptState (enum_max AttemptState) Reason_enum_invalid in
  let+ terminal_reason := get_reason "attempt reason out of range" in
  let* begin_sequence := r_u64 in
  let* terminal_sequence := r_u64 in
  let* revalidations := r_u32 in
  when_ok (r_return (mkAttemptRecord id epoch boot incumbent selected set set_generation basis
    state terminal_reason begin_sequence terminal_sequence revalidations)).

Definition put_fence (v : FenceRecord) (w : ByteWriter) : ByteWriter :=
  let w := put_id (fr_id v) w in
  let w := put_id (fr_epoch v) w in
  let w := put_id (fr_boot v) w in
  let w := put_id (fr_attempt v) w in
  let w := put_id (fr_path v) w in
  let w := put_reason (fr_reason v) w in
  let w := put_authority (fr_at v) w in
  w_u64 (fr_sequence v) w.

Definition get_fence : Read (Result FenceRecord) :=
  let* id := get_id FenceTag in
  let* epoch := get_id EpochTag in
  let* boot := get_id BootTag in
  let* attempt := get_id AttemptTag in
  let* path := get_id PathTag in
  let+ reason := get_reason "fence reason out of range" in
  let+ at_vector := get_authority in
  let* sequence := r_u64 in
  when_ok (r_return (mkFenceRecord id epoch boot attempt path reason at_vector sequence)).

Definition put_lineage (v : LineageEntry) (w : ByteWriter) : ByteWriter :=
  let w := put_id (le_decision v) w in
  let w := put_id (le_attempt v) w in
  let w := put_id (le_epoch v) w in
  let w := put_id (le_boot v) w in
  let w := put_enum (le_outcome v) w in
  let w := put_id (le_incumbent v) w in
  let w := put_id (le_selected v) w in
  let w := put_id (le_set v) w in
  let w := put_authority (le_basis v) w in
  let w := put_reason (le_reason v) w in
  w_u64 (le_sequence v) w.

Definition get_lineage : Read (Result LineageEntry) :=
  let* decision := get_id DecisionTag in
  let* attempt := get_id AttemptTag in
  let* epoch := get_id EpochTag in
  let* boot := get_id BootTag in
  let+ outcome := get_enum PromotionOutcome (enum_max PromotionOutcome) Reason_enum_invalid in
  let* incumbent := get_id PathTag in
  let* selected := get_id PathTag in
  let* set := get_id AlternateSetTag in
  let+ basis := get_authority in
  let+ reason := get_reason "lineage reason out of range" in
  let* sequence := r_u64 in
  when_ok (r_return (mkLineageEntry decision attempt epoch boot outcome incumbent selected set
    basis reason sequence)).

(** ** Canonical documents ([src/decision.cpp]) *)

Definition canonical_bytes (decision : PromotionDecision) : list byte :=
  let writer := put_decision decision (ByteWriter_new max_record_payload) in
  if negb (w_ok writer) then [] else w_buffer writer.

Definition decision_digest (decision : PromotionDecision) : Z :=
  fnv1a64 (canonical_bytes decision).

Definition decision_describe (d : PromotionDecision) : string :=
  (PromotionOutcome_to_string (dec_outcome d) +:+ " reason=" +:+ Reason_to_string (dec_reason d)
   +:+ " incumbent=" +:+ id_hex (Id_value (dec_incumbent d))
   +:+ " selected=" +:+ (if Id_valid (dec_selected d)
                         then id_hex (Id_value (dec_selected d)) else "none")
   +:+ " examined=" +:+ pretty (dec_examined d) +:+ "/" +:+ pretty (dec_supplied d)
   +:+ " policy_gen=" +:+ id_hex (Id_value (dec_policy_generation d))
   +:+ " evidence=" +:+ Provenance_to_string (dec_provenance d)
   +:+ " authority=" +:+ AuthorityKind_to_string (dec_authority_kind d))%string.
