(* ===== verification/WireProps.v ===== *)
(** * Properties of the wire codecs

    The byte layout of each document as a pure function, the values the wire
    can carry, and, for each document, one instance of the [Wire] interface:
    its writer emits that layout and its reader accepts exactly the layouts of
    such values. *)

From S2P Require Import Prelude.
From S2P Require Import Ids.
From S2P Require Import Limits.
From S2P Require Import Status.
From S2P Require Import Checked.
From S2P Require Import Authority.
From S2P Require Import Model.
From S2P Require Import Decision.
From S2P Require Import Records.
From S2P Require Import Bytes.
From S2P Require Import Canonical.
From S2P Require Import Wire.

(** ** The interface *)

Class Wire (A : Type) := {
  wire_put : A -> ByteWriter -> ByteWriter;
  wire_get : Read (Result A);
  wire_enc : A -> list byte;
  wire_wf : A -> Prop;
  wire_emits : forall v, Emits (wire_put v) (wire_enc v);
  wire_decodes : Decodes wire_get wire_enc wire_wf;
  wire_strict : Strict wire_get }.

(** ** Field instances *)

#[global] Typeclasses Opaque r_u8 r_u16 r_u32 r_u64 r_i64 r_boolean get_id get_enum get_reason
  get_count get_terms get_authority get_evidence get_effect get_obligations get_policy
  get_candidate get_set get_assessment get_step get_decision get_request get_attempt get_fence
  get_lineage read_bind read_try when_ok.

Definition enc_id {T} (i : Id T) : list byte := le_bytes 8 (Id_value i).
Definition enc_enum {E} `{Enum E} (e : E) : list byte := le_bytes 1 (enum_value e).
Definition enc_reason (r : Reason) : list byte := le_bytes 2 (enum_value r).

#[export] Instance raw_id T : RawField (get_id T) enc_id Id_wf.
Proof.
  constructor.
  - intros r Hr. unfold get_id, read_bind. pose proof (raw_failed (p := r_u64) r Hr) as Hf.
    by destruct (r_u64 r).
  - intros r i s HA Hi. unfold get_id, read_bind, enc_id in *.
    destruct (raw_read (p := r_u64) r _ s HA Hi) as (r' & -> & HA'). exists r'.
    by destruct i.
  - intros r s i r' HA. unfold get_id, read_bind. destruct (r_u64 r) as [x r1] eqn:E.
    intros [= <- <-]. exact (raw_inv _ _ _ _ HA E).
Qed.

Lemma enum_u8 {E} `{Enum E} (e : E) : enum_max E <= 255 -> is_u8 (enum_value e).
Proof. intros Hm. pose proof (enum_value_range e). unfold_ints. lia. Qed.

(** An enumeration of at most 256 values, read with its last enumerator as bound. *)
Lemma decodes_enum_cast {E} `{Enum E} width (p : Read Z) (P : Z -> Prop) st :
  RawField p (le_bytes width) P -> (forall e : E, P (enum_value e)) ->
  (forall v, P v -> 0 <= v) ->
  Decodes (let* raw := p in
           when_ok (if enum_max E <? raw then r_refuse st else r_return (enum_cast raw)))
    (fun e : E => le_bytes width (enum_value e)) (fun _ => True).
Proof.
  intros Hp He Hnn. constructor.
  - intros r e s HA _. apply (bind_returns p _ (le_bytes width) P r (enum_value e) s); [done|done|].
    intros r' HA'. eapply when_ok_returns; [exact HA'|].
    apply refuse_returns; [apply Z.ltb_ge; pose proof (enum_value_range e); lia|].
    rewrite enum_cast_value. by apply return_returns.
  - intros r s e r' HA Hr.
    apply (bind_inv p _ (le_bytes width) P r s) in Hr as (raw & s' & r1 & Hwf & -> & HA1 & Hr);
      [|intros x; apply _|done].
    rewrite (when_ok_inv _ _ _ HA1) in Hr. apply refuse_inv in Hr as [Hb Hr].
    apply return_inv in Hr as [-> ->]. split; [done|]. exists s'. split; [|done].
    apply Z.ltb_ge in Hb. by rewrite enum_value_cast by (split; [by apply Hnn|done]).
Qed.

#[export] Instance strict_enum E `{Enum E} m reason : Strict (get_enum E m reason).
Proof. unfold get_enum. apply _. Qed.
#[export] Instance strict_reason d : Strict (get_reason d).
Proof. unfold get_reason. apply _. Qed.
#[export] Instance strict_count m : Strict (get_count m).
Proof. unfold get_count. apply _. Qed.

#[export] Instance decodes_reason d : Decodes (get_reason d) enc_reason (fun _ => True).
Proof.
  unfold get_reason. change max_reason_value with (enum_max Reason).
  apply (decodes_enum_cast (E := Reason) 2 r_u16 is_u16); [apply _| |].
  - intros e. pose proof (enum_value_range e) as Hr. change (enum_max Reason) with 91 in Hr.
    unfold_ints. lia.
  - unfold_ints. lia.
Qed.

Lemma decodes_enum E `{Enum E} reason : enum_max E <= 255 ->
  Decodes (get_enum E (enum_max E) reason) enc_enum (fun _ => True).
Proof.
  intros Hm. apply (decodes_enum_cast 1 r_u8 is_u8); [apply _| |unfold_ints; lia].
  intros e. by apply enum_u8.
Qed.

#[export] Hint Extern 0 (Decodes (get_enum _ _ _) _ _) =>
  (apply decodes_enum; vm_compute; congruence) : typeclass_instances.

#[export] Instance decodes_count m : 0 <= m <= UINT32_MAX ->
  Decodes (get_count m) (le_bytes 4) (fun n => 0 <= n <= m).
Proof.
  intros Hm. constructor.
  - intros r n s HA Hn. apply (bind_returns r_u32 _ (le_bytes 4) is_u32 r n s); [done| |].
    { unfold_ints. lia. }
    intros r' HA'. eapply when_ok_returns; [exact HA'|].
    apply refuse_returns; [lia|]. by apply return_returns.
  - intros r s n r' HA Hr.
    apply (bind_inv r_u32 _ (le_bytes 4) is_u32 r s) in Hr as (raw & s' & r1 & Hwf & -> & HA1 & Hr);
      [|intros x; apply _|done].
    rewrite (when_ok_inv _ _ _ HA1) in Hr. apply refuse_inv in Hr as [Hb Hr].
    apply return_inv in Hr as [-> ->]. unfold_ints. split; [lia|]. by exists s'.
Qed.

(** ** Automation *)

Create HintDb emits.
#[export] Hint Constants Opaque : emits.

Lemma emits_eq f a b : Emits f a -> a = b -> Emits f b.
Proof. by intros H <-. Qed.

Lemma emits_i64 v : Emits (w_i64 v) (enc_i64 v).
Proof. apply emits_uint. Qed.
Lemma emits_boolean v : Emits (w_boolean v) (enc_bool v).
Proof. apply emits_uint. Qed.
Lemma emits_id_field {T} (i : Id T) : Emits (put_id i) (enc_id i).
Proof. apply emits_uint. Qed.
Lemma emits_enum {E} `{Enum E} (e : E) : Emits (put_enum e) (enc_enum e).
Proof. apply emits_uint. Qed.
Lemma emits_reason r : Emits (put_reason r) (enc_reason r).
Proof. apply emits_uint. Qed.
Lemma emits_u16 v : Emits (w_u16 v) (le_bytes 2 v).
Proof. apply emits_uint. Qed.
Lemma emits_u32 v : Emits (w_u32 v) (le_bytes 4 v).
Proof. apply emits_uint. Qed.
Lemma emits_u64 v : Emits (w_u64 v) (le_bytes 8 v).
Proof. apply emits_uint. Qed.
Lemma emits_many {A} (put : A -> ByteWriter -> ByteWriter) (enc : A -> list byte) l :
  (forall x, Emits (put x) (enc x)) -> Emits (put_many put l) (l ≫= enc).
Proof. apply emits_foldl. Qed.
#[export] Hint Resolve emits_i64 emits_boolean emits_id_field emits_enum emits_reason emits_u16 emits_u32
  emits_u64 emits_many : emits.

(** A writer made of field writers emits the concatenation of the fields. *)
Ltac emit_fields :=
  lazymatch goal with
  | |- Emits (fun w => ?g w) _ => change (Emits g _) || idtac; solve [eauto with emits nocore]
  | |- Emits (fun w => ?g (@?f w)) _ =>
      eapply (emits_comp f g); [emit_fields | solve [eauto with emits nocore]]
  | |- _ => solve [eauto with emits nocore]
  end.
Ltac solve_emits :=
  cbv zeta; eapply emits_eq; [emit_fields | rewrite <- ?app_assoc; reflexivity].

Lemma validated_inv {A} st (v v' : A) r r' :
  r_validated st v r = (Ok v', r') -> Status_ok st = true /\ v' = v /\ r' = r.
Proof. unfold r_validated. destruct (Status_ok st); cbn; [|done]. by intros [= <- <-]. Qed.

Lemma validated_returns {A} st (v : A) r s :
  At r s -> Status_ok st = true -> Returns (r_validated st v) r v s.
Proof. intros HA Hs. unfold r_validated. rewrite Hs. by apply return_returns. Qed.

(** One step of running a decoder on an encoding. *)
Ltac read_step :=
  lazymatch goal with
  | HA : At ?r _ |- Returns (read_bind ?p ?k) ?r _ _ =>
      eapply (bind_returns p k _ _ r); [exact HA | try done | clear HA; intros ? HA; cbv beta]
  | HA : At ?r _ |- Returns (read_try ?m ?k) ?r _ _ =>
      eapply (try_returns m k _ _ r); [exact HA | try done | clear HA; intros ? HA; cbv beta]
  | HA : At ?r _ |- Returns (when_ok _) ?r _ _ => eapply when_ok_returns; [exact HA|]
  | HA : At ?r _ |- Returns (r_return ?x) ?r ?v _ =>
      replace x with v by (destruct v; reflexivity); apply return_returns; exact HA
  | HA : At ?r _ |- Returns (r_validated _ _) ?r _ _ =>
      lazymatch goal with |- Returns (r_validated _ ?x) _ ?v _ =>
        replace x with v by (destruct v; reflexivity) end;
      apply validated_returns; [exact HA | try done]
  end.

Ltac read_start :=
  lazymatch goal with |- exists r', ?m ?r = (Ok ?v, r') /\ At r' ?s => change (Returns m r v s) end.

(** One step of inverting a successful decoding. *)
Ltac inv_step :=
  lazymatch goal with
  | HA : At ?r ?s, H : read_bind ?p ?k ?r = (Ok _, _) |- _ =>
      let x := fresh "x" in let s' := fresh "s" in let r1 := fresh "r" in
      apply (bind_inv p k _ _ r s) in H as (x & s' & r1 & ? & -> & HA' & H);
        [ clear HA; rename HA' into HA; cbv beta in H | intros; apply _ | exact HA ]
  | HA : At ?r ?s, H : read_try ?m ?k ?r = (Ok _, _) |- _ =>
      let x := fresh "x" in let s' := fresh "s" in let r1 := fresh "r" in
      apply (try_inv m k _ _ r s) in H as (x & s' & r1 & ? & -> & HA' & H);
        [ clear HA; rename HA' into HA; cbv beta in H | exact HA ]
  | HA : At ?r _, H : when_ok ?k ?r = _ |- _ => rewrite (when_ok_inv k r _ HA) in H
  | H : r_return _ _ = (Ok _, _) |- _ => apply return_inv in H as [-> ->]
  | H : r_validated _ _ _ = (Ok _, _) |- _ => apply validated_inv in H as (? & -> & ->)
  end.

(** The decoded value is well formed and the consumed bytes are its encoding. *)
Ltac finish_inv enc wf :=
  split;
  [ unfold wf; repeat (split; [first [assumption | exact I]|]);
    first [assumption | exact I | reflexivity]
  | eexists; split; [unfold enc; rewrite <- ?app_assoc; reflexivity | eassumption] ].

(** A decoder run on the encoding [enc] of a well-formed value. *)
Ltac run_decoder enc wf :=
  let r := fresh "r" in let v := fresh "v" in let s := fresh "s" in
  let HA := fresh "HA" in let Hwf := fresh "Hwf" in
  intros r v s HA Hwf; unfold enc in HA; unfold wf in Hwf; destruct_and? Hwf;
  rewrite <- !app_assoc in HA; read_start; repeat read_step.

Ltac invert_decoder enc wf :=
  let r := fresh "r" in let v := fresh "v" in let s := fresh "s" in
  let HA := fresh "HA" in let r' := fresh "r" in let H := fresh "H" in
  intros r s v r' HA H; repeat inv_step; finish_inv enc wf.

(** ** Score terms and authority *)

Definition enc_terms (t : ScoreTerms) : list byte :=
  enc_i64 (st_health t) ++ enc_i64 (st_cost t) ++ enc_i64 (st_rank t) ++
  enc_i64 (st_capability t) ++ enc_i64 (st_total t).

(** The total is the sum of the parts and no partial sum overflows. *)
Definition terms_wf (t : ScoreTerms) : Prop :=
  is_i64 (st_health t) /\ is_i64 (st_cost t) /\ is_i64 (st_rank t) /\
  is_i64 (st_capability t) /\ is_i64 (st_total t) /\
  is_i64 (st_health t + st_cost t) /\ is_i64 (st_health t + st_cost t + st_rank t) /\
  st_total t = st_health t + st_cost t + st_rank t + st_capability t.

Lemma emits_terms t : Emits (put_terms t) (enc_terms t).
Proof. unfold put_terms, enc_terms. solve_emits. Qed.
#[export] Hint Resolve emits_terms : emits.

#[export] Instance strict_terms : Strict get_terms.
Proof. unfold get_terms. apply _. Qed.

Lemma checked_sum a b c d n :
  is_i64 a -> is_i64 b -> is_i64 c -> is_i64 d ->
  (sum ← checked_add a b; sum ← checked_add sum c; checked_add sum d) = Some n <->
  is_i64 (a + b) /\ is_i64 (a + b + c) /\ n = a + b + c + d /\ is_i64 n.
Proof.
  intros Ha Hb Hc Hd. destruct (checked_add a b) as [s|] eqn:E1; cbn [mbind option_bind].
  2:{ apply checked_add_None in E1; [|done..]. by split; [|intros [? _]]. }
  apply checked_add_spec in E1 as [-> Hs]; [|done..].
  destruct (checked_add (a + b) c) as [s'|] eqn:E2; cbn [mbind option_bind].
  2:{ apply checked_add_None in E2; [|done..]. by split; [|intros (_ & ? & _)]. }
  apply checked_add_spec in E2 as [-> Hs']; [|done..].
  rewrite checked_add_spec by done. tauto.
Qed.

#[export] Instance decodes_terms : Decodes get_terms enc_terms terms_wf.
Proof.
  constructor.
  - intros r t s HA (H1 & H2 & H3 & H4 & H5 & H6 & H7 & H8). unfold enc_terms in HA.
    rewrite <- !app_assoc in HA. unfold get_terms. read_start. repeat read_step.
    rewrite (proj2 (checked_sum _ _ _ _ (st_total t) H1 H2 H3 H4)) by (rewrite H8 in *; done).
    rewrite Z.eqb_refl. cbn [negb]. destruct t. by apply return_returns.
  - intros r s t r' HA H. unfold get_terms in H. repeat inv_step.
    destruct (sum ← _; _) as [n|] eqn:E; [|done]. apply checked_sum in E; [|done..].
    destruct (Z.eqb_spec n x3); cbn [negb] in H; [|done]. inv_step. subst n.
    destruct E as (?&?&?&?). split; [unfold terms_wf; cbn; tauto|].
    eexists. split; [unfold enc_terms; cbn; rewrite <- ?app_assoc; reflexivity|eassumption].
Qed.

Definition enc_authority (v : AuthorityVector) : list byte :=
  enc_id (av_topology v) ++ enc_id (av_path_authority v) ++ enc_id (av_policy v) ++
  enc_id (av_obligations v) ++ enc_id (av_epoch v) ++ enc_id (av_boot v).

Definition authority_wf (v : AuthorityVector) : Prop :=
  Id_wf (av_topology v) /\ Id_wf (av_path_authority v) /\ Id_wf (av_policy v) /\
  Id_wf (av_obligations v) /\ Id_wf (av_epoch v) /\ Id_wf (av_boot v).

Lemma emits_authority v : Emits (put_authority v) (enc_authority v).
Proof. unfold put_authority, enc_authority. solve_emits. Qed.
#[export] Hint Resolve emits_authority : emits.
#[export] Instance strict_authority : Strict get_authority.
Proof. unfold get_authority. apply _. Qed.
#[export] Instance decodes_authority : Decodes get_authority enc_authority authority_wf.
Proof.
  constructor.
  - unfold get_authority. run_decoder enc_authority authority_wf.
  - unfold get_authority. invert_decoder enc_authority authority_wf.
Qed.

(** ** Evidence *)

Definition enc_evidence (v : PathEvidence) : list byte :=
  enc_id (ev_id v) ++ enc_id (ev_path v) ++ enc_enum (ev_freshness v) ++
  enc_enum (ev_eligibility v) ++ enc_enum (ev_reachability v) ++ enc_enum (ev_capacity v) ++
  le_bytes 4 (ev_capabilities v) ++ enc_i64 (ev_health_ppm v) ++ enc_i64 (ev_cost_units v) ++
  le_bytes 8 (ev_observation_seq v) ++ enc_authority (ev_observed_under v) ++
  enc_enum (ev_provenance v).

Definition evidence_wf (v : PathEvidence) : Prop :=
  Id_wf (ev_id v) /\ Id_wf (ev_path v) /\ True /\ True /\ True /\ True /\
  is_u32 (ev_capabilities v) /\ is_i64 (ev_health_ppm v) /\ is_i64 (ev_cost_units v) /\
  is_u64 (ev_observation_seq v) /\ authority_wf (ev_observed_under v) /\ True.

Lemma emits_evidence v : Emits (put_evidence v) (enc_evidence v).
Proof. unfold put_evidence, enc_evidence. solve_emits. Qed.
#[export] Hint Resolve emits_evidence : emits.
#[export] Instance strict_evidence : Strict get_evidence.
Proof. unfold get_evidence. apply _. Qed.
#[export] Instance decodes_evidence : Decodes get_evidence enc_evidence evidence_wf.
Proof.
  unfold get_evidence. constructor.
  - run_decoder enc_evidence evidence_wf.
  - invert_decoder enc_evidence evidence_wf.
Qed.

Definition enc_effect (v : EffectEvidence) : list byte :=
  enc_id (eff_id v) ++ enc_id (eff_path v) ++ le_bytes 8 (eff_observation_seq v) ++
  enc_bool (eff_effect_verified v) ++ enc_authority (eff_observed_under v) ++
  enc_enum (eff_provenance v).

Definition effect_wf (v : EffectEvidence) : Prop :=
  Id_wf (eff_id v) /\ Id_wf (eff_path v) /\ is_u64 (eff_observation_seq v) /\ True /\
  authority_wf (eff_observed_under v) /\ True.

Lemma emits_effect v : Emits (put_effect v) (enc_effect v).
Proof. unfold put_effect, enc_effect. solve_emits. Qed.
#[export] Hint Resolve emits_effect : emits.
#[export] Instance strict_effect : Strict get_effect.
Proof. unfold get_effect. apply _. Qed.
#[export] Instance decodes_effect : Decodes get_effect enc_effect effect_wf.
Proof.
  unfold get_effect. constructor.
  - run_decoder enc_effect effect_wf.
  - invert_decoder enc_effect effect_wf.
Qed.

(** ** Obligations, policy and candidates: only validated values are accepted *)

Definition enc_obligations (v : ServiceObligations) : list byte :=
  enc_id (ob_generation v) ++ le_bytes 4 (ob_required_capabilities v) ++
  enc_i64 (ob_min_health_ppm v) ++ enc_i64 (ob_max_cost_units v) ++
  enc_bool (ob_require_reachable v) ++ enc_bool (ob_require_capacity v) ++
  enc_bool (ob_require_fresh_evidence v).

Definition obligations_wf (v : ServiceObligations) : Prop :=
  Id_wf (ob_generation v) /\ is_u32 (ob_required_capabilities v) /\
  is_i64 (ob_min_health_ppm v) /\ is_i64 (ob_max_cost_units v) /\ True /\ True /\ True /\
  Status_ok (ServiceObligations_validate v) = true.

Lemma emits_obligations v : Emits (put_obligations v) (enc_obligations v).
Proof. unfold put_obligations, enc_obligations. solve_emits. Qed.
#[export] Hint Resolve emits_obligations : emits.
#[export] Instance strict_obligations : Strict get_obligations.
Proof. unfold get_obligations. apply _. Qed.
#[export] Instance decodes_obligations : Decodes get_obligations enc_obligations obligations_wf.
Proof.
  unfold get_obligations. constructor.
  - run_decoder enc_obligations obligations_wf.
  - invert_decoder enc_obligations obligations_wf.
Qed.

Definition enc_policy (v : FailoverPolicy) : list byte :=
  enc_id (pol_generation v) ++ enc_i64 (pol_w_health v) ++ enc_i64 (pol_w_cost v) ++
  enc_i64 (pol_w_rank v) ++ enc_i64 (pol_w_capability v) ++ enc_i64 (pol_min_score v) ++
  le_bytes 4 (pol_search_limit v) ++ le_bytes 4 (pol_max_retained_attempts v) ++
  le_bytes 4 (pol_max_revalidations v) ++ enc_bool (pol_allow_unknown_skip v) ++
  enc_bool (pol_require_verified_effect v).

Definition policy_wf (v : FailoverPolicy) : Prop :=
  Id_wf (pol_generation v) /\ is_i64 (pol_w_health v) /\ is_i64 (pol_w_cost v) /\
  is_i64 (pol_w_rank v) /\ is_i64 (pol_w_capability v) /\ is_i64 (pol_min_score v) /\
  is_u32 (pol_search_limit v) /\ is_u32 (pol_max_retained_attempts v) /\
  is_u32 (pol_max_revalidations v) /\ True /\ True /\
  Status_ok (FailoverPolicy_validate v) = true.

Lemma emits_policy v : Emits (put_policy v) (enc_policy v).
Proof. unfold put_policy, enc_policy. solve_emits. Qed.
#[export] Hint Resolve emits_policy : emits.
#[export] Instance strict_policy : Strict get_policy.
Proof. unfold get_policy. apply _. Qed.
#[export] Instance decodes_policy : Decodes get_policy enc_policy policy_wf.
Proof.
  unfold get_policy. constructor.
  - run_decoder enc_policy policy_wf.
  - invert_decoder enc_policy policy_wf.
Qed.

Definition enc_candidate (v : AlternateCandidate) : list byte :=
  enc_id (cand_path v) ++ le_bytes 4 (cand_upstream_rank v) ++ enc_bool (cand_withdrawn v) ++
  enc_evidence (cand_evidence v) ++ enc_authority (cand_authority v).

Definition candidate_wf (v : AlternateCandidate) : Prop :=
  Id_wf (cand_path v) /\ is_u32 (cand_upstream_rank v) /\ True /\
  evidence_wf (cand_evidence v) /\ authority_wf (cand_authority v) /\
  Status_ok (AlternateCandidate_validate v) = true.

Lemma emits_candidate v : Emits (put_candidate v) (enc_candidate v).
Proof. unfold put_candidate, enc_candidate. solve_emits. Qed.
#[export] Hint Resolve emits_candidate : emits.
#[export] Instance strict_candidate : Strict get_candidate.
Proof. unfold get_candidate. apply _. Qed.
#[export] Instance decodes_candidate : Decodes get_candidate enc_candidate candidate_wf.
Proof.
  unfold get_candidate. constructor.
  - run_decoder enc_candidate candidate_wf.
  - invert_decoder enc_candidate candidate_wf.
Qed.

(** ** Assessments, requests and durable records *)

Definition enc_assessment (v : CandidateAssessment) : list byte :=
  enc_id (as_path v) ++ le_bytes 4 (as_upstream_rank v) ++ enc_terms (as_terms v) ++
  enc_enum (as_verdict v) ++ enc_reason (as_reason v) ++ enc_enum (as_authority v).

Definition assessment_wf (v : CandidateAssessment) : Prop :=
  Id_wf (as_path v) /\ is_u32 (as_upstream_rank v) /\ terms_wf (as_terms v) /\ True /\ True /\
  True.

Lemma emits_assessment v : Emits (put_assessment v) (enc_assessment v).
Proof. unfold put_assessment, enc_assessment. solve_emits. Qed.
#[export] Hint Resolve emits_assessment : emits.
#[export] Instance strict_assessment : Strict get_assessment.
Proof. unfold get_assessment. apply _. Qed.
#[export] Instance decodes_assessment : Decodes get_assessment enc_assessment assessment_wf.
Proof.
  unfold get_assessment. constructor.
  - run_decoder enc_assessment assessment_wf.
  - invert_decoder enc_assessment assessment_wf.
Qed.

Definition enc_request (v : PromotionRequest) : list byte :=
  enc_id (req_incumbent v) ++ enc_enum (req_condition v) ++ enc_id (req_set v) ++
  enc_id (req_set_generation v) ++ enc_id (req_policy_generation v) ++
  enc_id (req_obligations_generation v) ++ enc_id (req_topology_generation v) ++
  enc_id (req_path_authority_generation v) ++ enc_id (req_epoch v) ++ enc_id (req_boot v) ++
  enc_id (req_attempt v).

Definition request_wf (v : PromotionRequest) : Prop :=
  Id_wf (req_incumbent v) /\ True /\ Id_wf (req_set v) /\ Id_wf (req_set_generation v) /\
  Id_wf (req_policy_generation v) /\ Id_wf (req_obligations_generation v) /\
  Id_wf (req_topology_generation v) /\ Id_wf (req_path_authority_generation v) /\
  Id_wf (req_epoch v) /\ Id_wf (req_boot v) /\ Id_wf (req_attempt v).

Lemma emits_request v : Emits (put_request v) (enc_request v).
Proof. unfold put_request, enc_request. solve_emits. Qed.
#[export] Hint Resolve emits_request : emits.
#[export] Instance strict_request : Strict get_request.
Proof. unfold get_request. apply _. Qed.
#[export] Instance decodes_request : Decodes get_request enc_request request_wf.
Proof.
  unfold get_request. constructor.
  - run_decoder enc_request request_wf.
  - invert_decoder enc_request request_wf.
Qed.

Definition enc_attempt (v : AttemptRecord) : list byte :=
  enc_id (at_id v) ++ enc_id (at_epoch v) ++ enc_id (at_boot v) ++ enc_id (at_incumbent v) ++
  enc_id (at_selected v) ++ enc_id (at_set v) ++ enc_id (at_set_generation v) ++
  enc_authority (at_basis v) ++ enc_enum (at_state v) ++ enc_reason (at_terminal_reason v) ++
  le_bytes 8 (at_begin_sequence v) ++ le_bytes 8 (at_terminal_sequence v) ++
  le_bytes 4 (at_revalidations v).

Definition attempt_wf (v : AttemptRecord) : Prop :=
  Id_wf (at_id v) /\ Id_wf (at_epoch v) /\ Id_wf (at_boot v) /\ Id_wf (at_incumbent v) /\
  Id_wf (at_selected v) /\ Id_wf (at_set v) /\ Id_wf (at_set_generation v) /\
  authority_wf (at_basis v) /\ True /\ True /\ is_u64 (at_begin_sequence v) /\
  is_u64 (at_terminal_sequence v) /\ is_u32 (at_revalidations v).

Lemma emits_attempt v : Emits (put_attempt v) (enc_attempt v).
Proof. unfold put_attempt, enc_attempt. solve_emits. Qed.
#[export] Hint Resolve emits_attempt : emits.
#[export] Instance strict_attempt : Strict get_attempt.
Proof. unfold get_attempt. apply _. Qed.
#[export] Instance decodes_attempt : Decodes get_attempt enc_attempt attempt_wf.
Proof.
  unfold get_attempt. constructor.
  - run_decoder enc_attempt attempt_wf.
  - invert_decoder enc_attempt attempt_wf.
Qed.

Definition enc_fence (v : FenceRecord) : list byte :=
  enc_id (fr_id v) ++ enc_id (fr_epoch v) ++ enc_id (fr_boot v) ++ enc_id (fr_attempt v) ++
  enc_id (fr_path v) ++ enc_reason (fr_reason v) ++ enc_authority (fr_at v) ++
  le_bytes 8 (fr_sequence v).

Definition fence_wf (v : FenceRecord) : Prop :=
  Id_wf (fr_id v) /\ Id_wf (fr_epoch v) /\ Id_wf (fr_boot v) /\ Id_wf (fr_attempt v) /\
  Id_wf (fr_path v) /\ True /\ authority_wf (fr_at v) /\ is_u64 (fr_sequence v).

Lemma emits_fence v : Emits (put_fence v) (enc_fence v).
Proof. unfold put_fence, enc_fence. solve_emits. Qed.
#[export] Hint Resolve emits_fence : emits.
#[export] Instance strict_fence : Strict get_fence.
Proof. unfold get_fence. apply _. Qed.
#[export] Instance decodes_fence : Decodes get_fence enc_fence fence_wf.
Proof.
  unfold get_fence. constructor.
  - run_decoder enc_fence fence_wf.
  - invert_decoder enc_fence fence_wf.
Qed.

Definition enc_lineage (v : LineageEntry) : list byte :=
  enc_id (le_decision v) ++ enc_id (le_attempt v) ++ enc_id (le_epoch v) ++ enc_id (le_boot v) ++
  enc_enum (le_outcome v) ++ enc_id (le_incumbent v) ++ enc_id (le_selected v) ++
  enc_id (le_set v) ++ enc_authority (le_basis v) ++ enc_reason (le_reason v) ++
  le_bytes 8 (le_sequence v).

Definition lineage_wf (v : LineageEntry) : Prop :=
  Id_wf (le_decision v) /\ Id_wf (le_attempt v) /\ Id_wf (le_epoch v) /\ Id_wf (le_boot v) /\
  True /\ Id_wf (le_incumbent v) /\ Id_wf (le_selected v) /\ Id_wf (le_set v) /\
  authority_wf (le_basis v) /\ True /\ is_u64 (le_sequence v).

Lemma emits_lineage v : Emits (put_lineage v) (enc_lineage v).
Proof. unfold put_lineage, enc_lineage. solve_emits. Qed.
#[export] Hint Resolve emits_lineage : emits.
#[export] Instance strict_lineage : Strict get_lineage.
Proof. unfold get_lineage. apply _. Qed.
#[export] Instance decodes_lineage : Decodes get_lineage enc_lineage lineage_wf.
Proof.
  unfold get_lineage. constructor.
  - run_decoder enc_lineage lineage_wf.
  - invert_decoder enc_lineage lineage_wf.
Qed.

(** ** Counted sequences *)

Lemma le_bytes_wrap n z : le_bytes n (z mod 256 ^ Z.of_nat n) = le_bytes n z.
Proof.
  revert z. induction n as [|n IH]; intros z; [done|]. cbn [le_bytes].
  rewrite Nat2Z.inj_succ, Z.pow_succ_r by lia.
  rewrite !land_255, !Z.shiftr_div_pow2 by lia. change (2 ^ 8) with 256.
  rewrite <- (IH (z / 256)). rewrite Z.rem_mul_r by lia.
  rewrite (Z.mul_comm 256 ((z / 256) mod _)), Z_mod_plus_full, Z.mod_mod by lia. f_equal. f_equal.
  rewrite Z.div_add by lia. rewrite (Z.div_small (z mod 256)) by (apply Z.mod_pos_bound; lia). lia.
Qed.

Lemma emits_u32_wrapped z : Emits (w_u32 (wrap_u32 z)) (le_bytes 4 z).
Proof.
  eapply emits_eq; [apply emits_u32|]. unfold wrap_u32. change (2 ^ 32) with (256 ^ Z.of_nat 4).
  apply le_bytes_wrap.
Qed.
#[export] Hint Resolve emits_u32_wrapped | 0 : emits.

(** A count followed by that many elements. *)
Definition enc_seq {A} (enc : A -> list byte) (l : list A) : list byte :=
  le_bytes 4 (size_of l) ++ (l ≫= enc).

(** The count bound and the elements of a decoded sequence. *)
Definition seq_wf {A} (wf : A -> Prop) (bound : Z) (l : list A) : Prop :=
  size_of l <= bound /\ Forall wf l.

Section counted.
Context {A C : Type} (m : Read (Result A)) (enc : A -> list byte) (wf : A -> Prop)
  `{!Decodes m enc wf} (bound : Z) (Hbound : 0 <= bound <= UINT32_MAX).

Lemma seq_returns (k : list A -> Read (Result C)) r l s v s' :
  At r (enc_seq enc l ++ s) -> seq_wf wf bound l ->
  (forall r', At r' s -> Returns (k l) r' v s') ->
  Returns (let+ n := get_count bound in let+ x := r_many (Z.to_nat n) m [] in k x) r v s'.
Proof.
  intros HA [Hl Hwf] Hk. unfold enc_seq in HA. rewrite <- app_assoc in HA.
  pose proof (decodes_count bound Hbound). pose proof (size_of_nonneg l).
  eapply (try_returns (get_count bound) _ _ _ r); [exact HA|done|]. clear HA r. intros r HA. cbv beta.
  eapply (try_returns (r_many _ m []) _ _ _ r l); [exact HA| |exact Hk].
  split; [unfold size_of; lia|done].
Qed.

Lemma seq_inv (k : list A -> Read (Result C)) r s v r' :
  At r s -> (let+ n := get_count bound in let+ x := r_many (Z.to_nat n) m [] in k x) r = (Ok v, r') ->
  exists l s' r1, seq_wf wf bound l /\ s = enc_seq enc l ++ s' /\ At r1 s' /\ k l r1 = (Ok v, r').
Proof.
  intros HA H. pose proof (decodes_count bound Hbound).
  apply (try_inv (get_count bound) _ _ _ r s) in H as (n & s1 & r1 & Hn & -> & HA1 & H); [|done].
  apply (try_inv (r_many _ m []) _ _ _ r1 s1) in H as (l & s2 & r2 & [Hl Hwf] & -> & HA2 & H); [|done].
  assert (Hs : size_of l = n) by (unfold size_of; lia).
  exists l, s2, r2. split; [split; [lia|done]|]. split; [|done].
  unfold enc_seq. by rewrite Hs, <- app_assoc.
Qed.
End counted.

Section counted_raw.
Context {B C : Type} (p : Read B) (enc : B -> list byte) (wf : B -> Prop)
  `{!RawField p enc wf} (bound : Z) (Hbound : 0 <= bound <= UINT32_MAX).

Lemma raw_seq_returns (k : list B -> Read (Result C)) r l s v s' :
  At r (enc_seq enc l ++ s) -> seq_wf wf bound l ->
  (forall r', At r' s -> Returns (k l) r' v s') ->
  Returns (let+ n := get_count bound in let* x := r_many_raw (Z.to_nat n) p [] in k x) r v s'.
Proof.
  intros HA [Hl Hwf] Hk. unfold enc_seq in HA. rewrite <- app_assoc in HA.
  pose proof (decodes_count bound Hbound). pose proof (size_of_nonneg l).
  eapply (try_returns (get_count bound) _ _ _ r); [exact HA|done|]. clear HA r. intros r HA.
  cbv beta. eapply (bind_returns (r_many_raw _ p []) _ _ _ r l); [exact HA| |exact Hk].
  split; [unfold size_of; lia|done].
Qed.

Lemma raw_seq_inv (k : list B -> Read (Result C)) r s v r' :
  (forall l, Strict (k l)) -> At r s ->
  (let+ n := get_count bound in let* x := r_many_raw (Z.to_nat n) p [] in k x) r = (Ok v, r') ->
  exists l s' r1, seq_wf wf bound l /\ s = enc_seq enc l ++ s' /\ At r1 s' /\ k l r1 = (Ok v, r').
Proof.
  intros Hk HA H. pose proof (decodes_count bound Hbound).
  apply (try_inv (get_count bound) _ _ _ r s) in H as (n & s1 & r1 & Hn & -> & HA1 & H); [|done].
  apply (bind_inv (r_many_raw _ p []) _ _ _ r1 s1) in H
    as (l & s2 & r2 & [Hl Hwf] & -> & HA2 & H); [|done..].
  assert (Hs : size_of l = n) by (unfold size_of; lia).
  exists l, s2, r2. split; [split; [lia|done]|]. split; [|done].
  unfold enc_seq. by rewrite Hs, <- app_assoc.
Qed.
End counted_raw.

(** ** Alternate sets *)

Definition enc_set (v : AlternateSet) : list byte :=
  enc_id (set_id v) ++ enc_id (set_generation v) ++ enc_enum (set_completeness v) ++
  enc_seq enc_candidate (set_candidates v).

Definition wire_set_wf (v : AlternateSet) : Prop :=
  Id_wf (set_id v) /\ Id_wf (set_generation v) /\
  seq_wf candidate_wf max_candidates_per_set (set_candidates v) /\
  Status_ok (AlternateSet_validate v) = true.

Lemma emits_set v : Emits (put_set v) (enc_set v).
Proof. unfold put_set, enc_set, enc_seq. solve_emits. Qed.
#[export] Hint Resolve emits_set : emits.
#[export] Instance strict_set : Strict get_set.
Proof. unfold get_set. apply _. Qed.

Lemma set_bound : 0 <= max_candidates_per_set <= UINT32_MAX.
Proof. vm_compute. split; congruence. Qed.

#[export] Instance decodes_set : Decodes get_set enc_set wire_set_wf.
Proof.
  unfold get_set. constructor.
  - intros r v s HA (Hi & Hg & Hc & Hv). unfold enc_set in HA. rewrite <- !app_assoc in HA.
    read_start. do 3 read_step.
    eapply (seq_returns get_candidate _ _ _ set_bound); [exact HA|done|].
    clear HA. intros ? HA. repeat read_step.
  - intros r s v r' HA H. do 3 inv_step.
    apply (seq_inv get_candidate enc_candidate candidate_wf _ set_bound _ _ _ _ _ HA) in H
      as (l & s9 & r9 & Hl & -> & HA9 & H). clear HA. rename HA9 into HA. repeat inv_step.
    split; [repeat (split; [done|]); done|].
    eexists. split; [unfold enc_set; rewrite <- ?app_assoc; reflexivity|eassumption].
Qed.

(** ** Decisions *)

Definition enc_step (step : Reason * Z) : list byte := enc_reason step.1 ++ enc_i64 step.2.
Definition step_wf (step : Reason * Z) : Prop := is_i64 step.2.

Lemma emits_step step : Emits (put_step step) (enc_step step).
Proof. unfold put_step, enc_step. solve_emits. Qed.
#[export] Hint Resolve emits_step : emits.

#[export] Instance decodes_step : Decodes get_step enc_step step_wf.
Proof.
  unfold get_step. constructor.
  - intros r v s HA Hv. unfold enc_step, enc_reason in HA. rewrite <- !app_assoc in HA. read_start.
    pose proof (enum_value_range v.1) as Hr. change (enum_max Reason) with 91 in Hr.
    read_step; [unfold_ints; lia|]. repeat read_step.
    apply refuse_returns; [apply Z.ltb_ge; change max_reason_value with 91; lia|].
    rewrite enum_cast_value. destruct v. by apply return_returns.
  - intros r s v r' HA H. repeat inv_step. apply refuse_inv in H as [Hb H]. inv_step.
    split; [done|]. eexists. split; [|eassumption]. unfold enc_step, enc_reason. cbn [fst snd].
    rewrite enum_value_cast; [by rewrite <- app_assoc|].
    apply Z.ltb_ge in Hb. change max_reason_value with 91 in Hb.
    change (enum_max Reason) with 91. unfold_ints. lia.
Qed.

Definition enc_decision (v : PromotionDecision) : list byte :=
  enc_id (dec_id v) ++ enc_enum (dec_outcome v) ++ enc_enum (dec_authority_kind v) ++
  enc_id (dec_incumbent v) ++ enc_id (dec_set v) ++ enc_id (dec_set_generation v) ++
  enc_id (dec_policy_generation v) ++ enc_id (dec_obligations_generation v) ++
  enc_authority (dec_basis v) ++ enc_id (dec_attempt v) ++ enc_id (dec_selected v) ++
  enc_seq enc_assessment (dec_ranked v) ++ enc_seq enc_id (dec_indeterminate_above v) ++
  enc_seq enc_step (dec_explanation v) ++ le_bytes 8 (dec_examined v) ++
  le_bytes 8 (dec_supplied v) ++ enc_bool (dec_search_limited v) ++
  enc_bool (dec_set_complete v) ++ enc_reason (dec_reason v) ++ enc_enum (dec_provenance v).

(** The document carries no statistics: they depend on the supplied order. *)
Definition decision_wf (v : PromotionDecision) : Prop :=
  Id_wf (dec_id v) /\ Id_wf (dec_incumbent v) /\ Id_wf (dec_set v) /\
  Id_wf (dec_set_generation v) /\ Id_wf (dec_policy_generation v) /\
  Id_wf (dec_obligations_generation v) /\ authority_wf (dec_basis v) /\
  Id_wf (dec_attempt v) /\ Id_wf (dec_selected v) /\
  seq_wf assessment_wf max_assessments_reported (dec_ranked v) /\
  seq_wf Id_wf max_indeterminate_reported (dec_indeterminate_above v) /\
  seq_wf step_wf max_explanation_steps (dec_explanation v) /\
  is_u64 (dec_examined v) /\ is_u64 (dec_supplied v) /\
  dec_stats v = SelectionStats_default.

Lemma emits_decision v : Emits (put_decision v) (enc_decision v).
Proof. unfold put_decision, enc_decision, enc_seq. solve_emits. Qed.
#[export] Hint Resolve emits_decision : emits.
#[export] Instance strict_decision : Strict get_decision.
Proof. unfold get_decision. apply _. Qed.

Lemma assessments_bound : 0 <= max_assessments_reported <= UINT32_MAX.
Proof. vm_compute. split; congruence. Qed.
Lemma indeterminate_bound : 0 <= max_indeterminate_reported <= UINT32_MAX.
Proof. vm_compute. split; congruence. Qed.
Lemma steps_bound : 0 <= max_explanation_steps <= UINT32_MAX.
Proof. vm_compute. split; congruence. Qed.

#[export] Instance decodes_decision : Decodes get_decision enc_decision decision_wf.
Proof.
  unfold get_decision. constructor.
  - intros r v s HA Hwf. unfold enc_decision in HA. unfold decision_wf in Hwf.
    destruct_and! Hwf. rewrite <- !app_assoc in HA. read_start. do 11 read_step.
    eapply (seq_returns get_assessment _ _ _ assessments_bound); [exact HA|done|].
    clear HA. intros ? HA.
    eapply (raw_seq_returns (get_id PathTag) _ _ _ indeterminate_bound); [exact HA|done|].
    clear HA. intros ? HA.
    eapply (seq_returns get_step _ _ _ steps_bound); [exact HA|done|].
    clear HA. intros ? HA. do 7 read_step.
    lazymatch goal with |- Returns (r_return ?x) _ _ _ =>
      replace x with v by (destruct v; cbn in *; congruence) end.
    by apply return_returns.
  - intros r s v r' HA H. do 11 inv_step.
    apply (seq_inv get_assessment enc_assessment assessment_wf _ assessments_bound _ _ _ _ _ HA)
      in H as (l1 & s91 & r91 & ? & -> & HA91 & H).
    eapply (raw_seq_inv (get_id PathTag) enc_id Id_wf _ indeterminate_bound _ r91 s91) in H
      as (l2 & s92 & r92 & ? & -> & HA92 & H); [|intros; apply _|exact HA91].
    apply (seq_inv get_step enc_step step_wf _ steps_bound _ _ _ _ _ HA92)
      in H as (l3 & s93 & r93 & ? & -> & HA93 & H).
    clear HA HA91 HA92. do 8 inv_step. finish_inv enc_decision decision_wf.
Qed.

(** ** The interface discharged by every document *)

#[export] Instance wire_authority : Wire AuthorityVector := {|
  wire_put := put_authority; wire_get := get_authority; wire_enc := enc_authority; wire_wf := authority_wf;
  wire_emits := emits_authority; wire_decodes := decodes_authority; wire_strict := strict_authority |}.

#[export] Instance wire_evidence : Wire PathEvidence := {|
  wire_put := put_evidence; wire_get := get_evidence; wire_enc := enc_evidence; wire_wf := evidence_wf;
  wire_emits := emits_evidence; wire_decodes := decodes_evidence; wire_strict := strict_evidence |}.

#[export] Instance wire_effect : Wire EffectEvidence := {|
  wire_put := put_effect; wire_get := get_effect; wire_enc := enc_effect; wire_wf := effect_wf;
  wire_emits := emits_effect; wire_decodes := decodes_effect; wire_strict := strict_effect |}.

#[export] Instance wire_obligations : Wire ServiceObligations := {|
  wire_put := put_obligations; wire_get := get_obligations; wire_enc := enc_obligations; wire_wf := obligations_wf;
  wire_emits := emits_obligations; wire_decodes := decodes_obligations; wire_strict := strict_obligations |}.

#[export] Instance wire_policy : Wire FailoverPolicy := {|
  wire_put := put_policy; wire_get := get_policy; wire_enc := enc_policy; wire_wf := policy_wf;
  wire_emits := emits_policy; wire_decodes := decodes_policy; wire_strict := strict_policy |}.

#[export] Instance wire_candidate : Wire AlternateCandidate := {|
  wire_put := put_candidate; wire_get := get_candidate; wire_enc := enc_candidate; wire_wf := candidate_wf;
  wire_emits := emits_candidate; wire_decodes := decodes_candidate; wire_strict := strict_candidate |}.

#[export] Instance wire_set : Wire AlternateSet := {|
  wire_put := put_set; wire_get := get_set; wire_enc := enc_set; wire_wf := wire_set_wf;
  wire_emits := emits_set; wire_decodes := decodes_set; wire_strict := strict_set |}.

#[export] Instance wire_assessment : Wire CandidateAssessment := {|
  wire_put := put_assessment; wire_get := get_assessment; wire_enc := enc_assessment; wire_wf := assessment_wf;
  wire_emits := emits_assessment; wire_decodes := decodes_assessment; wire_strict := strict_assessment |}.

#[export] Instance wire_decision : Wire PromotionDecision := {|
  wire_put := put_decision; wire_get := get_decision; wire_enc := enc_decision; wire_wf := decision_wf;
  wire_emits := emits_decision; wire_decodes := decodes_decision; wire_strict := strict_decision |}.

#[export] Instance wire_request : Wire PromotionRequest := {|
  wire_put := put_request; wire_get := get_request; wire_enc := enc_request; wire_wf := request_wf;
  wire_emits := emits_request; wire_decodes := decodes_request; wire_strict := strict_request |}.

#[export] Instance wire_attempt : Wire AttemptRecord := {|
  wire_put := put_attempt; wire_get := get_attempt; wire_enc := enc_attempt; wire_wf := attempt_wf;
  wire_emits := emits_attempt; wire_decodes := decodes_attempt; wire_strict := strict_attempt |}.

#[export] Instance wire_fence : Wire FenceRecord := {|
  wire_put := put_fence; wire_get := get_fence; wire_enc := enc_fence; wire_wf := fence_wf;
  wire_emits := emits_fence; wire_decodes := decodes_fence; wire_strict := strict_fence |}.

#[export] Instance wire_lineage : Wire LineageEntry := {|
  wire_put := put_lineage; wire_get := get_lineage; wire_enc := enc_lineage; wire_wf := lineage_wf;
  wire_emits := emits_lineage; wire_decodes := decodes_lineage; wire_strict := strict_lineage |}.

(** ** Consequences of the interface *)

Section interface.
Context {A : Type} `{Wire A}.

Lemma wire_put_fresh max (v : A) :
  0 <= max ->
  (w_ok (wire_put v (ByteWriter_new max)) = true <-> size_of (wire_enc v) <= max) /\
  (size_of (wire_enc v) <= max -> w_buffer (wire_put v (ByteWriter_new max)) = wire_enc v).
Proof.
  intros Hm. destruct (wire_emits v) as [Hfit Hex _].
  destruct (Z.le_gt_cases (size_of (wire_enc v)) max) as [Hle|Hgt].
  - rewrite Hfit; [done|done|]. cbn [w_buffer w_max_size ByteWriter_new]. rewrite size_of_nil. lia.
  - assert (Hs : w_status (wire_put v (ByteWriter_new max)) =
                 make_status Code_exhausted Reason_allocation_denied).
    { apply Hex; [done|..]; cbn [w_buffer w_max_size ByteWriter_new]; rewrite size_of_nil; lia. }
    unfold w_ok. rewrite Hs. split; [|lia]. split; [done|lia].
Qed.

(** Writing then reading gives the value back and consumes every byte. *)
Definition round_trips : Prop :=
  forall (v : A) max, 0 <= max -> wire_wf v ->
    w_ok (wire_put v (ByteWriter_new max)) = true ->
    exists r, wire_get (ByteReader_new (w_buffer (wire_put v (ByteWriter_new max)))) = (Ok v, r) /\
              r_at_end r = true.

(** What the reader accepts in full is what the writer produces for the value it returns. *)
Definition canonical : Prop :=
  forall data (v : A) r, wire_get (ByteReader_new data) = (Ok v, r) -> r_at_end r = true ->
    wire_wf v /\ w_buffer (wire_put v (ByteWriter_new (size_of data))) = data.

Lemma wire_round_trips : round_trips.
Proof.
  intros v max Hm Hwf Hok. destruct (wire_put_fresh max v Hm) as [Hiff Hbuf].
  apply Hiff in Hok. rewrite (Hbuf Hok).
  destruct (wire_decodes (A := A)) as [Hr _].
  destruct (Hr (ByteReader_new (wire_enc v)) v []) as (r & Hg & HA); [|done|].
  { rewrite app_nil_r. apply At_new. }
  exists r. split; [done|]. by apply (At_at_end _ _ HA).
Qed.

Lemma wire_canonical : canonical.
Proof.
  intros data v r Hg He. destruct (wire_decodes (A := A)) as [_ Hi].
  destruct (Hi _ _ _ _ (At_new data) Hg) as (Hwf & s & -> & HA). split; [done|].
  apply (At_at_end _ _ HA) in He as ->. rewrite app_nil_r.
  apply wire_put_fresh; [apply size_of_nonneg|lia].
Qed.
End interface.
Arguments round_trips A {_}.
Arguments canonical A {_}.
