(* ===== verification/WireTheorems.v ===== *)
(** * Theorems of the encoding layer

    Checksums, the wire codecs and the canonical document of a decision. *)

From S2P Require Import Prelude.
From S2P Require Import Ids.
From S2P Require Import Limits.
From S2P Require Import Status.
From S2P Require Import Checked.
From S2P Require Import Authority.
From S2P Require Import Model.
From S2P Require Import Decision.
From S2P Require Import Records.
From S2P Require Import Selector.
From S2P Require Import SortProps.
From S2P Require Import GateProps.
From S2P Require Import SelectorProps.
From S2P Require Import SelectorTheorems.
From S2P Require Import Bytes.
From S2P Require Import Canonical.
From S2P Require Import Wire.
From S2P Require Import WireProps.

(** CRC-32C detects every burst of errors of up to 32 bits, at any bit of a message of
    any length. *)
Theorem crc32c_detects_bursts data data' : burst data data' -> crc32c data <> crc32c data'.
Proof. apply crc32c_burst. Qed.

Lemma crc32c_detects_bursts_witness :
  crc32c [x01; x80; x00; x00; x00; x02] <> crc32c [x01; x00; x00; x00; x00; x02].
Proof.
  apply crc32c_detects_bursts. split; [done|]. split; [discriminate|]. exists 15. intros i.
  apply (burst_window _ _ 15 1); [lia|lia|vm_compute; reflexivity].
Defined.

(** C27: Every document of the wire round-trips: what a writer with room
    produces, the matching reader turns back into the same value, consuming
    every byte. *)
Theorem wire_documents_round_trip :
  round_trips AuthorityVector /\ round_trips PathEvidence /\ round_trips EffectEvidence /\
  round_trips ServiceObligations /\ round_trips FailoverPolicy /\
  round_trips AlternateCandidate /\ round_trips AlternateSet /\
  round_trips CandidateAssessment /\ round_trips PromotionDecision /\
  round_trips PromotionRequest /\ round_trips AttemptRecord /\ round_trips FenceRecord /\
  round_trips LineageEntry.
Proof. repeat apply conj; apply wire_round_trips. Qed.

(** C36: The readers refuse everything else: bytes a reader accepts in full are
    the encoding of the value it returns, and that value passed the validation
    the source performs (ranges, enumerators, counts, [validate()], consistent
    score totals). *)
Theorem wire_documents_canonical :
  canonical AuthorityVector /\ canonical PathEvidence /\ canonical EffectEvidence /\
  canonical ServiceObligations /\ canonical FailoverPolicy /\ canonical AlternateCandidate /\
  canonical AlternateSet /\ canonical CandidateAssessment /\ canonical PromotionDecision /\
  canonical PromotionRequest /\ canonical AttemptRecord /\ canonical FenceRecord /\
  canonical LineageEntry.
Proof. repeat apply conj; apply wire_canonical. Qed.

(** ** The canonical document of a decision *)

Lemma bind_length {A} (enc : A -> list byte) n l :
  (forall x, length (enc x) = n) -> length (l ≫= enc) = (n * length l)%nat.
Proof.
  intros Hn. induction l as [|x l IH]; [cbn; lia|].
  change (length (enc x ++ (l ≫= enc)) = (n * S (length l))%nat).
  rewrite length_app, Hn, IH. lia.
Qed.

Lemma enc_assessment_length a : length (enc_assessment a) = 56%nat.
Proof. reflexivity. Qed.

Lemma enc_decision_length d :
  size_of (enc_decision d) =
  147 + 56 * size_of (dec_ranked d) + 8 * size_of (dec_indeterminate_above d) +
  10 * size_of (dec_explanation d).
Proof.
  unfold enc_decision, enc_seq, size_of. repeat rewrite length_app.
  rewrite (bind_length enc_assessment 56) by apply enc_assessment_length.
  rewrite (bind_length (@enc_id PathTag) 8) by reflexivity.
  rewrite (bind_length enc_step 10) by reflexivity.
  unfold enc_id, enc_enum, enc_reason, enc_bool, enc_authority, enc_id.
  repeat rewrite length_app. rewrite !le_bytes_length. lia.
Qed.

Lemma canonical_bytes_fits d :
  size_of (enc_decision d) <= max_record_payload -> canonical_bytes d = enc_decision d.
Proof.
  intros Hs. unfold canonical_bytes.
  destruct (wire_put_fresh max_record_payload d) as [Hok Hb]; [vm_compute; congruence|].
  cbn [wire_put wire_decision] in *. rewrite (proj2 Hok Hs). cbn [negb]. by apply Hb.
Qed.

Lemma canonical_bytes_comparisons n d : canonical_bytes (with_comparisons n d) = canonical_bytes d.
Proof. reflexivity. Qed.

(** The canonical document of an evaluation exists and does not depend on
    the supplied order: it fits its buffer with room to spare, it is the
    specified layout, and permuting the candidates of an admitted input leaves
    the bytes, hence the digest, unchanged. *)
Theorem decision_document_order_independent input set policy obligations cs' :
  Admissible input set policy obligations -> set_candidates set ≡ₚ cs' ->
  exists d d',
    evaluate input = Ok d /\
    evaluate (input <| si_set := Some (set <| set_candidates := cs' |>) |>) = Ok d' /\
    canonical_bytes d = enc_decision d /\
    147 <= size_of (canonical_bytes d) <= 232211 /\
    canonical_bytes d' = canonical_bytes d /\ decision_digest d' = decision_digest d.
Proof.
  intros Ha Hp. set (set' := set <| set_candidates := cs' |>).
  pose proof (admitted_permuted _ _ _ _ cs' Ha Hp) as Ha'. fold set' in Ha'.
  exists (admitted_document input set policy obligations).
  exists (admitted_document (input <| si_set := Some set' |>) set' policy obligations).
  split; [by apply evaluate_admitted|]. split; [by apply evaluate_admitted|].
  assert (Hsize : 147 <= size_of (enc_decision (admitted_document input set policy obligations))
                  <= 232211).
  { rewrite enc_decision_length.
    destruct (admitted_document_fields input set policy obligations)
      as (Hr & Hx & Hi & _).
    pose proof (examined_size _ _ _ _ Ha) as He.
    pose proof (proj1 (admitted_size _ _ _ _ Ha)) as Hm. unfold_limits.
    pose proof (size_of_nonneg (dec_explanation (admitted_document input set policy obligations))).
    pose proof (size_of_nonneg
      (dec_indeterminate_above (admitted_document input set policy obligations))).
    pose proof (size_of_nonneg (dec_ranked (admitted_document input set policy obligations))).
    lia. }
  assert (Hcan : canonical_bytes (admitted_document input set policy obligations) =
                 enc_decision (admitted_document input set policy obligations)).
  { apply canonical_bytes_fits. unfold_limits. lia. }
  assert (Hperm : canonical_bytes (admitted_document (input <| si_set := Some set' |>) set'
                    policy obligations) =
                  canonical_bytes (admitted_document input set policy obligations)).
  { rewrite <- (canonical_bytes_comparisons 0), <- (canonical_bytes_comparisons 0
      (admitted_document input set policy obligations)).
    f_equal. apply admitted_document_permuted; [|exact Hp].
    exact (set_valid_paths _ (adm_set_ok _ _ _ _ Ha)). }
  split; [exact Hcan|]. rewrite Hcan at 1 2. split; [exact Hsize|].
  split; [exact Hperm|]. unfold decision_digest. by rewrite Hperm.
Qed.

Lemma decision_document_order_independent_witness :
  let cs' := [sample_candidate 13 700; sample_candidate 11 500; sample_candidate 12 900] in
  exists d d',
    evaluate (sample_input sample_candidates) = Ok d /\
    evaluate ((sample_input sample_candidates)
                <| si_set := Some ((sample_set sample_candidates) <| set_candidates := cs' |>) |>)
      = Ok d' /\ decision_digest d' = decision_digest d.
Proof.
  destruct (decision_document_order_independent (sample_input sample_candidates)
    (sample_set sample_candidates) sample_policy sample_obligations
    [sample_candidate 13 700; sample_candidate 11 500; sample_candidate 12 900])
    as (d & d' & H1 & H2 & _ & _ & _ & H3).
  - exact sample_admitted.
  - cbn. unfold sample_candidates. solve_Permutation.
  - exists d, d'. split; [exact H1|]. split; [exact H2|exact H3].
Defined.

(** The digest starts from 1469598103934665603, which is not the FNV-1a 64
    offset basis 14695981039346656037. *)
Lemma fnv1a64_basis_differs : fnv1a64 [] = 1469598103934665603 /\ fnv1a64 [] <> 14695981039346656037.
Proof. vm_compute. split; congruence. Qed.
