(* ===== verification/DocumentProps.v ===== *)
(** * Decision documents within their types

    Whatever [Selector::evaluate] is given within the widths of its types, the
    document it returns is one the wire carries: every integer in its width,
    every list within its bound, the score terms consistent. *)

From S2P Require Import Prelude.
From S2P Require Import Ids.
From S2P Require Import Limits.
From S2P Require Import Status.
From S2P Require Import Checked.
From S2P Require Import Authority.
From S2P Require Import Model.
From S2P Require Import Decision.
From S2P Require Import Records.
From S2P Require Import Selector.
From S2P Require Import SortProps.
From S2P Require Import GateProps.
From S2P Require Import SelectorProps.
From S2P Require Import Bytes.
From S2P Require Import Canonical.
From S2P Require Import Wire.
From S2P Require Import WireProps.

(** A document as the wire sees it: the work statistics stay behind. *)
Definition reported (d : PromotionDecision) : PromotionDecision :=
  d <| dec_stats := SelectionStats_default |>.
Definition document_wf (d : PromotionDecision) : Prop := decision_wf (reported d).

(** The inputs of a selection within the widths of their types. *)
Definition selection_wf (input : SelectionInput) : Prop :=
  Id_wf (si_incumbent input) /\ Id_wf (si_decision_id input) /\ Id_wf (si_attempt input) /\
  authority_wf (si_current input) /\
  (forall set, si_set input = Some set -> wire_set_wf set) /\
  (forall policy, si_policy input = Some policy -> policy_wf policy) /\
  (forall obligations, si_obligations input = Some obligations -> obligations_wf obligations).

(** ** Explanations *)

Lemma explain_wf d r v : document_wf d -> is_i64 v -> document_wf (explain d r v).
Proof.
  intros Hd Hv. unfold explain. destruct (Z.ltb_spec (size_of (dec_explanation d)) max_explanation_steps) as [Hlt|]; [|done].
  unfold document_wf, decision_wf, reported in *. cbn in *.
  destruct_and! Hd. repeat (split; [assumption|]).
  split; [|done].
  destruct H10 as [_ Hall]. split; [|by apply Forall_app; split; [|constructor]].
  autorewrite with pff. lia.
Qed.

Lemma outcome_wf d o r i : document_wf d -> Id_wf i ->
  document_wf (d <| dec_outcome := o |> <| dec_reason := r |> <| dec_selected := i |>).
Proof. unfold document_wf, decision_wf, reported. cbn. tauto. Qed.

Lemma absent_wf {T} : Id_wf (@Id_absent T).
Proof. unfold Id_wf. cbn. unfold_ints. lia. Qed.

Lemma refuse_wf d o r v : document_wf d -> is_i64 v -> document_wf (refuse d o r v).
Proof. intros Hd Hv. apply explain_wf; [|done]. apply outcome_wf; [done|apply absent_wf]. Qed.

Lemma stats_wf d g : document_wf d -> document_wf (d <| dec_stats ::= g |>).
Proof. done. Qed.

Lemma explain_exclusions_wf l d :
  document_wf d -> Forall assessment_wf l -> document_wf (explain_exclusions l d).
Proof.
  intros Hd Hl. revert d Hd. induction Hl as [|a l Ha _ IH]; intros d Hd; [done|].
  cbn [explain_exclusions]. apply IH. case_decide; [|done].
  apply explain_wf; [by apply stats_wf|]. apply i64_of_u64_range, Ha.
Qed.

Lemma zero_i64 : is_i64 0.
Proof. vm_compute. split; congruence. Qed.

Lemma refuse_class_wf cls r d : document_wf d -> document_wf (refuse_class cls r d).
Proof. intros Hd. unfold refuse_class. apply refuse_wf; [done|apply zero_i64]. Qed.

(** ** Scoring *)

Lemma terms_default_wf : terms_wf (as_terms CandidateAssessment_default).
Proof. vm_compute. repeat split; congruence. Qed.

(** Under a validated policy every partial sum of the objective is in range. *)
Lemma objective_terms_wf p o e rank :
  Status_ok (FailoverPolicy_validate p) = true -> terms_wf (objective_terms p o e rank).
Proof.
  intros Hp. apply FailoverPolicy_validate_ok in Hp as (_ & Hw & _).
  rewrite !List.Forall_cons_iff in Hw. destruct Hw as (Hw1 & Hw2 & Hw3 & Hw4 & _).
  unfold objective_terms. cbv zeta.
  set (h := clamp_i64 (ev_health_ppm e) 0 health_scale).
  set (c := clamp_i64 (ev_cost_units e) 0 cost_scale).
  set (r := clamp_i64 rank 0 rank_scale).
  set (k := popcount32 _).
  assert (Hh : 0 <= h <= health_scale) by (apply clamp_i64_range; unfold_limits; lia).
  assert (Hc : 0 <= c <= cost_scale) by (apply clamp_i64_range; unfold_limits; lia).
  assert (Hr : 0 <= r <= rank_scale) by (apply clamp_i64_range; unfold_limits; lia).
  assert (Hk : 0 <= k <= 32) by apply popcount32_range.
  pose proof (mul_bounds _ _ _ Hw1 Hh) as B1.
  pose proof (mul_bounds (pol_w_cost p) (cost_scale - c) cost_scale Hw2 ltac:(lia)) as B2.
  pose proof (mul_bounds (pol_w_rank p) (rank_scale - r) rank_scale Hw3 ltac:(lia)) as B3.
  pose proof (mul_bounds _ _ _ Hw4 Hk) as B4.
  clearbody h c r k. unfold terms_wf. cbn. unfold_limits. unfold_ints. repeat split; lia.
Qed.

(** ** The conclusion *)

Lemma report_indeterminate_wf l acc :
  Forall assessment_wf l -> seq_wf Id_wf max_indeterminate_reported acc ->
  seq_wf Id_wf max_indeterminate_reported (report_indeterminate l acc).
Proof.
  intros Hl [Hb Hacc]. split; [by apply report_indeterminate_bound|].
  revert acc Hb Hacc. induction Hl as [|a l Ha _ IH]; intros acc Hb Hacc; [done|].
  cbn [report_indeterminate]. destruct (_ && _) eqn:E; [|by apply IH].
  zify_bools. apply IH; [autorewrite with pff; lia|].
  apply Forall_app. split; [done|]. constructor; [apply Ha|done].
Qed.

Lemma alter_wf {A} (P : A -> Prop) f p l : Forall P l -> (forall a, P a -> P (f a)) -> Forall P (alter f p l).
Proof.
  intros Hl Hf. apply Forall_lookup. intros i x Hx. rewrite Forall_lookup in Hl.
  destruct (decide (i = p)) as [->|Hne].
  - rewrite list_lookup_alter_eq in Hx. apply fmap_Some in Hx as (a & Ha & ->). by eapply Hf, Hl.
  - rewrite list_lookup_alter_ne in Hx by done. by eapply Hl.
Qed.

Lemma nth_wf {A} (P : A -> Prop) p l d : Forall P l -> P d -> P (nth p l d).
Proof. intros Hl Hd. revert p. induction Hl; intros []; cbn; auto. Qed.

Lemma document_ranked d :
  document_wf d -> size_of (dec_ranked d) <= max_assessments_reported /\ Forall assessment_wf (dec_ranked d).
Proof. unfold document_wf, decision_wf, seq_wf, reported. cbn. tauto. Qed.

Lemma conclude_wf set policy supplied s d :
  document_wf d -> is_u64 supplied -> is_u64 (sc_indeterminate_count s) ->
  is_u64 (sc_stale_exclusions s) -> document_wf (conclude set policy supplied s d).
Proof.
  intros Hd H1%i64_of_u64_range H2%i64_of_u64_range H3%i64_of_u64_range.
  destruct (document_ranked d Hd) as [Hsize Hranked]. unfold conclude. cbv zeta.
  destruct (sc_fatal_conflict s); [by apply refuse_wf|]. destruct (negb (_ =? npos)).
  - set (above := take _ _).
    assert (Hd1 : document_wf (d <| dec_indeterminate_above ::= report_indeterminate above |>)).
    { unfold document_wf, decision_wf, reported in *. cbn in *. destruct_and! Hd.
      repeat (split; [assumption|]). split; [|done].
      apply report_indeterminate_wf; [|assumption]. by apply Forall_take. }
    clearbody above. destruct (_ && _); [by apply refuse_wf|].
    unfold document_wf, decision_wf, reported in *. cbn in *. destruct_and! Hd1.
    repeat (split; [assumption|]). split; [|split; [|by repeat (split; [assumption|])]].
    + apply (nth_wf assessment_wf); [|vm_compute; repeat split; congruence].
      by apply alter_wf.
    + split; [|by apply alter_wf]. unfold size_of. by rewrite length_alter.
  - destruct (0 <? _); [by apply refuse_wf|]. destruct (dec_search_limited d); [by apply refuse_wf|].
    destruct (negb _); [by apply refuse_wf|]. destruct (0 <? _); by apply refuse_wf.
Qed.

(** ** The selection *)

Lemma size_u64 {A} (l : list A) n : size_of l <= n -> n <= UINT64_MAX -> is_u64 (size_of l).
Proof. intros H1 H2. pose proof (size_of_nonneg l). unfold is_u64. lia. Qed.

Section selected.
Context (input : SelectionInput) (set : AlternateSet) (policy : FailoverPolicy)
  (obligations : ServiceObligations)
  (set_ok : wire_set_wf set) (policy_ok : policy_wf policy).

Abbreviation cs := (set_candidates set).
Abbreviation ex := (examined policy obligations (si_current input) cs).
Abbreviation assessed :=
  (assess policy obligations (si_fenced_paths input) (si_incumbent input) (si_current input)).

Lemma policy_validated : Status_ok (FailoverPolicy_validate policy) = true.
Proof. unfold policy_wf in policy_ok. tauto. Qed.

Lemma search_limit_positive : 0 < pol_search_limit policy.
Proof.
  pose proof policy_validated as Hv. apply FailoverPolicy_validate_ok in Hv as (_ & _ & H0 & _).
  unfold policy_wf, is_u32 in policy_ok. lia.
Qed.

Lemma set_size : size_of cs <= max_candidates_per_set.
Proof. destruct set_ok as (_ & _ & [H _] & _). exact H. Qed.

Lemma examined_length : size_of ex <= max_assessments_reported /\ size_of ex <= size_of cs.
Proof.
  pose proof search_limit_positive. pose proof set_size as Hs. unfold SelectorProps.examined, size_of in *.
  rewrite length_take, ordered_perm. unfold_limits. lia.
Qed.

Lemma assess_wf c : candidate_wf c -> assessment_wf (assessed c).
Proof.
  intros Hc. unfold candidate_wf in Hc. unfold assess, assessment_wf.
  rewrite (entry_of_eq policy obligations) by apply policy_validated. cbn.
  split; [tauto|]. split; [tauto|]. split; [|done]. apply objective_terms_wf, policy_validated.
Qed.

Lemma assessed_wf : Forall assessment_wf (assessed <$> ex).
Proof.
  apply Forall_fmap, Forall_forall. intros c Hc%examined_subset. apply assess_wf.
  destruct set_ok as (_ & _ & [_ Hall] & _). rewrite List.Forall_forall in Hall.
  by apply Hall, list_elem_of_In.
Qed.

Lemma count_u64 {A} (p : A -> bool) l : size_of l <= max_assessments_reported -> is_u64 (0 + count p l).
Proof.
  intros Hl. pose proof (count_nonneg p l). pose proof (count_le p l). unfold is_u64.
  unfold_limits. unfold_ints. lia.
Qed.

Lemma select_wf d : document_wf d -> document_wf (select input set policy obligations d).
Proof.
  intros Hd. destruct set_ok as (_ & _ & _ & Hvalid). apply AlternateSet_validate_ok in Hvalid.
  rewrite (select_scanned policy obligations (si_fenced_paths input) (si_incumbent input) (si_current input))
    by (first [done|apply search_limit_positive]).
  destruct examined_length as [Hx Hxc]. pose proof set_size as Hs.
  assert (Hcs : is_u64 (size_of cs)) by (apply (size_u64 _ _ Hs); by vm_compute).
  assert (Hxs : is_u64 (size_of ex)) by (apply (size_u64 _ _ Hx); by vm_compute).
  apply conclude_wf; [|exact Hcs|by apply count_u64..].
  unfold scanned. cbv zeta. apply stats_wf, explain_exclusions_wf; [|apply assessed_wf].
  unfold document_wf, decision_wf, reported, scan_start in *. cbn in *. destruct_and! Hd.
  repeat (split; [assumption|]). split; [|by repeat (split; [assumption|])].
  split; [|apply assessed_wf]. unfold size_of in *. by rewrite length_fmap.
Qed.
End selected.

(** ** The evaluation *)

Lemma identified_wf input set policy obligations :
  selection_wf input -> wire_set_wf set -> policy_wf policy -> obligations_wf obligations ->
  document_wf (identified input set policy obligations).
Proof.
  intros (H1 & H2 & H3 & H4 & _) (Hs1 & Hs2 & [Hs3 _] & _) Hp Ho.
  unfold policy_wf in Hp. unfold obligations_wf in Ho.
  unfold document_wf, decision_wf, reported, identified, blank. cbn.
  repeat (split; [first [assumption|apply absent_wf|tauto]|]).
  do 3 (split; [split; [by vm_compute|constructor]|]). split; [vm_compute; split; congruence|].
  split; [|done]. apply (size_u64 _ _ Hs3). by vm_compute.
Qed.

Lemma blank_wf input : selection_wf input -> document_wf (blank input).
Proof.
  intros (H1 & H2 & H3 & H4 & _). unfold document_wf, decision_wf, reported, blank. cbn.
  repeat (split; [first [assumption|apply absent_wf]|]).
  repeat split; try constructor; vm_compute; congruence.
Qed.

(** Every document of the selector is within its types. *)
Lemma evaluate_wf input d : selection_wf input -> evaluate input = Ok d -> document_wf d.
Proof.
  intros Hi. pose proof (blank_wf _ Hi) as Hb. pose proof Hi as (_ & _ & _ & _ & Hset & Hpol & Hobl).
  unfold evaluate. cbv zeta.
  destruct (si_set input) as [set|]; [|intros [= <-]; by apply refuse_wf, zero_i64].
  destruct (si_policy input) as [policy|]; [|intros [= <-]; by apply refuse_wf, zero_i64].
  destruct (si_obligations input) as [obligations|]; [|intros [= <-]; by apply refuse_wf, zero_i64].
  specialize (Hset _ eq_refl). specialize (Hpol _ eq_refl). specialize (Hobl _ eq_refl).
  pose proof (identified_wf _ _ _ _ Hi Hset Hpol Hobl) as Hd.
  match goal with |- context [Ok (select _ _ _ _ ?D)] =>
    replace D with (identified input set policy obligations) by (vm_compute; reflexivity) end.
  assert (Hr : forall o r, document_wf (refuse (identified input set policy obligations) o r 0))
    by (intros; by apply refuse_wf, zero_i64).
  repeat match goal with
  | |- (if ?b then Ok (refuse _ _ _ _) else _) = _ -> _ => destruct b; [intros [= <-]; apply Hr|]
  | |- (if ?b then Ok (refuse_class _ _ _) else _) = _ -> _ =>
      destruct b; [intros [= <-]; by apply refuse_class_wf|]
  end.
  intros [= <-]. by apply select_wf.
Qed.
