(* ===== verification/Store.v ===== *)
(** * The durable store ([include/pff/store.hpp], [src/store.cpp])

    Journal framing, record payloads, application of a record to the
    materialised state, the snapshot, and the store's operations on its two
    files. *)

From S2P Require Import Prelude.
From S2P Require Import Ids.
From S2P Require Import Limits.
From S2P Require Import Status.
From S2P Require Import Checked.
From S2P Require Import Authority.
From S2P Require Import Model.
From S2P Require Import Decision.
From S2P Require Import Records.
From S2P Require Import Bytes.
From S2P Require Import Canonical.
From S2P Require Import Wire.

Inductive RecordType :=
  | RecordType_policy_set | RecordType_obligations_set | RecordType_alternate_set_put
  | RecordType_fence_recorded | RecordType_attempt_begin | RecordType_attempt_state
  | RecordType_lineage_entry | RecordType_epoch_advance | RecordType_snapshot_marker
  | RecordType_counters.

(** The enumerators are numbered from 1. *)
Definition RecordType_value (t : RecordType) : Z :=
  match t with
  | RecordType_policy_set => 1 | RecordType_obligations_set => 2
  | RecordType_alternate_set_put => 3 | RecordType_fence_recorded => 4
  | RecordType_attempt_begin => 5 | RecordType_attempt_state => 6
  | RecordType_lineage_entry => 7 | RecordType_epoch_advance => 8
  | RecordType_snapshot_marker => 9 | RecordType_counters => 10
  end.

(** [static_cast<RecordType>(raw)], performed after [is_known_record_type]. *)
Definition RecordType_cast (raw : Z) : option RecordType :=
  if raw =? 1 then Some RecordType_policy_set
  else if raw =? 2 then Some RecordType_obligations_set
  else if raw =? 3 then Some RecordType_alternate_set_put
  else if raw =? 4 then Some RecordType_fence_recorded
  else if raw =? 5 then Some RecordType_attempt_begin
  else if raw =? 6 then Some RecordType_attempt_state
  else if raw =? 7 then Some RecordType_lineage_entry
  else if raw =? 8 then Some RecordType_epoch_advance
  else if raw =? 9 then Some RecordType_snapshot_marker
  else if raw =? 10 then Some RecordType_counters
  else None.

Definition RecordType_to_string (t : RecordType) : string :=
  match t with
  | RecordType_policy_set => "policy_set"
  | RecordType_obligations_set => "obligations_set"
  | RecordType_alternate_set_put => "alternate_set_put"
  | RecordType_fence_recorded => "fence_recorded"
  | RecordType_attempt_begin => "attempt_begin"
  | RecordType_attempt_state => "attempt_state"
  | RecordType_lineage_entry => "lineage_entry"
  | RecordType_epoch_advance => "epoch_advance"
  | RecordType_snapshot_marker => "snapshot_marker"
  | RecordType_counters => "counters"
  end.

Definition is_known_record_type (raw : Z) : bool :=
  (RecordType_value RecordType_policy_set <=? raw) &&
  (raw <=? RecordType_value RecordType_counters).

Definition journal_magic : Z := 826689104.
Definition journal_header_bytes : nat := 24.
Definition journal_trailer_bytes : nat := 4.
Definition snapshot_magic : Z := 1397114448.
Definition snapshot_footer_magic : Z := 1162233424.
Definition snapshot_header_bytes : nat := 40.
Definition kSnapshotHeaderCrcOffset : nat := 32.

Record JournalRecordHeader := mkJournalRecordHeader {
  jh_magic : Z;
  jh_version : Z;
  jh_type : Z;
  jh_sequence : Z;
  jh_payload_length : Z;
  jh_header_crc : Z }.

(** [finish]: the bytes of a healthy writer, none of a failed one. *)
Definition finish (writer : ByteWriter) : list byte :=
  if negb (w_ok writer) then [] else w_buffer writer.

Definition end_of : Read Status :=
  fun r => if negb (r_ok r) then (r_status r, r) else require_end r.

Definition read_u32_at (bytes : list byte) (offset : nat) : Z :=
  le_value (take 4 (drop offset bytes)).

(** ** Framing *)

Definition encode_journal_record (type : RecordType) (sequence : Z) (payload : list byte)
    : list byte :=
  if (max_record_payload <? size_of payload) || (sequence =? 0) then []
  else
    let writer := ByteWriter_new (max_record_payload + Z.of_nat journal_header_bytes
                                  + Z.of_nat journal_trailer_bytes) in
    let writer := w_u32 journal_magic writer in
    let writer := w_u16 durable_format_version writer in
    let writer := w_u16 (RecordType_value type) writer in
    let writer := w_u64 sequence writer in
    let writer := w_u32 (wrap_u32 (size_of payload)) writer in
    if negb (w_ok writer) then []
    else
      let writer := w_u32 (crc32c (w_buffer writer)) writer in
      let writer := w_bytes payload writer in
      if negb (w_ok writer) then []
      else finish (w_u32 (crc32c payload) writer).

(** The fields of a header, in order. *)
Definition read_journal_header : Read JournalRecordHeader :=
  let* magic := r_u32 in
  let* version := r_u16 in
  let* type := r_u16 in
  let* sequence := r_u64 in
  let* payload_length := r_u32 in
  let* header_crc := r_u32 in
  fun r => (mkJournalRecordHeader magic version type sequence payload_length header_crc, r).

Definition decode_journal_header (header_bytes : list byte) : Result JournalRecordHeader :=
  if negb (length header_bytes =? journal_header_bytes)%nat then
    Err (mkStatus Code_invalid Reason_length_invalid "journal header length")
  else
    let (header, reader) := read_journal_header (ByteReader_new header_bytes) in
    if negb (r_ok reader) || negb (r_at_end reader) then
      Err (mkStatus Code_invalid Reason_length_invalid "journal header truncated")
    else if negb (jh_magic header =? journal_magic) then
      Err (mkStatus Code_corrupt Reason_format_magic_mismatch "journal magic mismatch")
    else if negb (jh_version header =? durable_format_version) then
      Err (mkStatus Code_version_unsupported Reason_unsupported_version
             "journal format version unsupported")
    else if negb (is_known_record_type (jh_type header)) then
      Err (mkStatus Code_invalid Reason_record_type_invalid "journal record type invalid")
    else if jh_sequence header =? 0 then
      Err (mkStatus Code_corrupt Reason_sequence_regression "journal sequence zero")
    else if max_record_payload <? jh_payload_length header then
      Err (mkStatus Code_corrupt Reason_length_invalid "journal payload length exceeds bound")
    else
      let expected_crc :=
        crc32c (take (journal_header_bytes - journal_trailer_bytes) header_bytes) in
      if negb (expected_crc =? jh_header_crc header) then
        Err (mkStatus Code_corrupt Reason_corrupt_header "journal header integrity failure")
      else Ok header.

(** ** Payloads *)

Definition encode_policy_record (policy : FailoverPolicy) : list byte :=
  finish (put_policy policy (ByteWriter_new max_record_payload)).
Definition encode_obligations_record (obligations : ServiceObligations) : list byte :=
  finish (put_obligations obligations (ByteWriter_new max_record_payload)).
Definition encode_set_record (set : AlternateSet) : list byte :=
  finish (put_set set (ByteWriter_new max_record_payload)).
Definition encode_fence_record (fence : FenceRecord) : list byte :=
  finish (put_fence fence (ByteWriter_new max_record_payload)).
Definition encode_attempt_record (attempt : AttemptRecord) : list byte :=
  finish (put_attempt attempt (ByteWriter_new max_record_payload)).
Definition encode_lineage_record (entry : LineageEntry) : list byte :=
  finish (put_lineage entry (ByteWriter_new max_record_payload)).

Definition encode_epoch_record (authority : AuthorityVector)
    (restart_count attempt_sequence fence_sequence decision_sequence : Z) : list byte :=
  let w := put_authority authority (ByteWriter_new max_record_payload) in
  let w := w_u64 restart_count w in
  let w := w_u64 attempt_sequence w in
  let w := w_u64 fence_sequence w in
  finish (w_u64 decision_sequence w).

Definition encode_counters_record (state : DurableState) : list byte :=
  let w := w_u64 (ds_attempt_sequence state) (ByteWriter_new max_record_payload) in
  let w := w_u64 (ds_fence_sequence state) w in
  let w := w_u64 (ds_decision_sequence state) w in
  let w := w_u64 (ds_fence_overflow state) w in
  let w := w_u64 (ds_attempts_dropped state) w in
  finish (w_boolean (ds_lineage_truncated state) w).

(** ** Application of a record *)

Definition table_full (detail : string) : Status :=
  mkStatus Code_table_full Reason_table_full detail.

Definition put_durable_set (set : AlternateSet) (state : DurableState) : Status * DurableState :=
  match replace_first (fun candidate => Id_eqb (set_id candidate) (set_id set)) set
          (ds_sets state) with
  | Some sets => (ok_status, state <| ds_sets := sets |>)
  | None =>
      if max_alternate_sets <=? size_of (ds_sets state) then
        (table_full "alternate set table full", state)
      else (ok_status, state <| ds_sets ::= fun l => l ++ [set] |>)
  end.

Definition put_durable_fence (fence : FenceRecord) (state : DurableState)
    : Status * DurableState :=
  if max_fences <=? size_of (ds_fences state) then (table_full "fence table full", state)
  else (ok_status, state <| ds_fences ::= fun l => l ++ [fence] |>).

Definition put_durable_attempt (record : AttemptRecord) (state : DurableState)
    : Status * DurableState :=
  match replace_first (fun candidate => Id_eqb (at_id candidate) (at_id record)) record
          (ds_attempts state) with
  | Some attempts => (ok_status, state <| ds_attempts := attempts |>)
  | None =>
      if max_attempts <=? size_of (ds_attempts state) then
        match remove_first (fun candidate => is_terminal_state (at_state candidate))
                (ds_attempts state) with
        | None => (table_full "attempt table full", state)
        | Some attempts =>
            (ok_status, state <| ds_attempts := attempts ++ [record] |>
                          <| ds_attempts_dropped ::= fun n => wrap_u64 (n + 1) |>)
        end
      else (ok_status, state <| ds_attempts ::= fun l => l ++ [record] |>)
  end.

Definition put_durable_lineage (entry : LineageEntry) (state : DurableState) : DurableState :=
  let state :=
    if max_lineage <=? size_of (ds_lineage state) then
      state <| ds_lineage ::= tail |> <| ds_lineage_truncated := true |>
    else state in
  state <| ds_lineage ::= fun l => l ++ [entry] |>.

(** A decoded payload that consumed every byte, or the status of the failure. *)
Definition whole_payload {A} (get : Read (Result A)) (payload : list byte) : Result A :=
  match get (ByteReader_new payload) with
  | (Err status, _) => Err status
  | (Ok value, reader) =>
      let (status, _) := end_of reader in
      if negb (Status_ok status) then Err status else Ok value
  end.

Definition apply_epoch (payload : list byte) (state : DurableState) : Status * DurableState :=
  match whole_payload
          (let+ authority := get_authority in
           let* restart_count := r_u64 in
           let* attempt_sequence := r_u64 in
           let* fence_sequence := r_u64 in
           let* decision_sequence := r_u64 in
           r_return (authority, restart_count, attempt_sequence, fence_sequence,
                     decision_sequence)) payload with
  | Err status => (status, state)
  | Ok (authority, restart_count, attempt_sequence, fence_sequence, decision_sequence) =>
      (ok_status,
       state <| ds_authority := authority |> <| ds_restart_count := restart_count |>
         <| ds_attempt_sequence ::= fun n => Z.max n attempt_sequence |>
         <| ds_fence_sequence ::= fun n => Z.max n fence_sequence |>
         <| ds_decision_sequence ::= fun n => Z.max n decision_sequence |>)
  end.

(** The counters are assigned while they are read, before the payload is known
    to be well formed. *)
Definition apply_counters (payload : list byte) (state : DurableState) : Status * DurableState :=
  let (attempt_sequence, r) := r_u64 (ByteReader_new payload) in
  let state := state <| ds_attempt_sequence ::= fun n => Z.max n attempt_sequence |> in
  let (fence_sequence, r) := r_u64 r in
  let state := state <| ds_fence_sequence ::= fun n => Z.max n fence_sequence |> in
  let (decision_sequence, r) := r_u64 r in
  let state := state <| ds_decision_sequence ::= fun n => Z.max n decision_sequence |> in
  let (fence_overflow, r) := r_u64 r in
  let state := state <| ds_fence_overflow := fence_overflow |> in
  let (attempts_dropped, r) := r_u64 r in
  let state := state <| ds_attempts_dropped := attempts_dropped |> in
  let (truncated, r) := r_boolean r in
  let (status, _) := end_of r in
  if negb (Status_ok status) then (status, state)
  else (ok_status, state <| ds_lineage_truncated ::= fun b => b || truncated |>).

Definition apply_record (state : DurableState) (type : RecordType) (payload : list byte)
    : Status * DurableState :=
  match type with
  | RecordType_policy_set =>
      match whole_payload get_policy payload with
      | Err status => (status, state)
      | Ok policy =>
          (ok_status,
           state <| ds_policy := policy |> <| ds_has_policy := true |>
             <| ds_authority ::= fun v => v <| av_policy := pol_generation policy |> |>)
      end
  | RecordType_obligations_set =>
      match whole_payload get_obligations payload with
      | Err status => (status, state)
      | Ok obligations =>
          (ok_status,
           state <| ds_obligations := obligations |> <| ds_has_obligations := true |>
             <| ds_authority ::=
                  fun v => v <| av_obligations := ob_generation obligations |> |>)
      end
  | RecordType_alternate_set_put =>
      match whole_payload get_set payload with
      | Err status => (status, state)
      | Ok set => put_durable_set set state
      end
  | RecordType_fence_recorded =>
      match whole_payload get_fence payload with
      | Err status => (status, state)
      | Ok fence => put_durable_fence fence state
      end
  | RecordType_attempt_begin | RecordType_attempt_state =>
      match whole_payload get_attempt payload with
      | Err status => (status, state)
      | Ok record => put_durable_attempt record state
      end
  | RecordType_lineage_entry =>
      match whole_payload get_lineage payload with
      | Err status => (status, state)
      | Ok entry => (ok_status, put_durable_lineage entry state)
      end
  | RecordType_epoch_advance => apply_epoch payload state
  | RecordType_snapshot_marker =>
      match whole_payload (let* marker := r_u64 in r_return marker) payload with
      | Err status => (status, state)
      | Ok _ => (ok_status, state)
      end
  | RecordType_counters => apply_counters payload state
  end.

(** ** Snapshot *)

(** The locals captured by the [emit] lambda. *)
Record SnapshotBody := mkSnapshotBody {
  sb_writer : ByteWriter;
  sb_record_count : Z;
  sb_frame_sequence : Z;
  sb_failed : bool }.

Definition emit_record (b : SnapshotBody) (record : RecordType * list byte) : SnapshotBody :=
  let (type, payload) := record in
  let failed := mkSnapshotBody (sb_writer b) (sb_record_count b) (sb_frame_sequence b) true in
  if bool_decide (payload = []) then failed
  else
    let sequence := sb_frame_sequence b + 1 in
    let bytes := encode_journal_record type sequence payload in
    if bool_decide (bytes = []) then
      mkSnapshotBody (sb_writer b) (sb_record_count b) sequence true
    else
      mkSnapshotBody (w_bytes bytes (sb_writer b)) (sb_record_count b + 1) sequence (sb_failed b).

Definition snapshot_records (state : DurableState) : list (RecordType * list byte) :=
  [(RecordType_counters, encode_counters_record state);
   (RecordType_epoch_advance,
     encode_epoch_record (ds_authority state) (ds_restart_count state)
       (ds_attempt_sequence state) (ds_fence_sequence state) (ds_decision_sequence state))] ++
  (if ds_has_policy state
   then [(RecordType_policy_set, encode_policy_record (ds_policy state))] else []) ++
  (if ds_has_obligations state
   then [(RecordType_obligations_set, encode_obligations_record (ds_obligations state))]
   else []) ++
  ((fun set => (RecordType_alternate_set_put, encode_set_record set)) <$> ds_sets state) ++
  ((fun fence => (RecordType_fence_recorded, encode_fence_record fence)) <$> ds_fences state) ++
  ((fun attempt => (RecordType_attempt_state, encode_attempt_record attempt))
     <$> ds_attempts state) ++
  ((fun entry => (RecordType_lineage_entry, encode_lineage_record entry)) <$> ds_lineage state).

Definition encode_snapshot (state : DurableState) : list byte :=
  let b := foldl emit_record (mkSnapshotBody (ByteWriter_new max_snapshot_bytes) 0 0 false)
             (snapshot_records state) in
  if negb (w_ok (sb_writer b)) || sb_failed b then []
  else
    let body := w_buffer (sb_writer b) in
    let out := ByteWriter_new (max_snapshot_bytes + 64) in
    let out := w_u32 snapshot_magic out in
    let out := w_u16 durable_format_version out in
    let out := w_u16 0 out in
    let out := w_u64 (ds_last_sequence state) out in
    let out := w_u32 (sb_record_count b) out in
    let out := w_u32 (wrap_u32 (size_of body)) out in
    let out := w_u32 0 out in
    let out := w_u32 0 out in
    if negb (w_ok out) then []
    else
      let out := w_u32 (crc32c (w_buffer out)) out in
      let out := w_u32 0 out in
      let out := w_bytes body out in
      if negb (w_ok out) then []
      else
        let out := w_u32 (crc32c (w_buffer out)) out in
        finish (w_u32 snapshot_footer_magic out).

Definition corrupt (reason : Reason) (detail : string) : Status :=
  mkStatus Code_corrupt reason detail.

(** The loop over the records of a snapshot body; [fuel] bounds the number of
    records, each at least 28 bytes long. *)
Fixpoint decode_snapshot_body (fuel : nat) (body : list byte) (state : DurableState) (seen : Z)
    : Result (DurableState * Z) :=
  match fuel, body with
  | _, [] => Ok (state, seen)
  | O, _ => Err (corrupt Reason_length_invalid "snapshot record truncated")
  | S fuel', _ =>
      if (length body <? journal_header_bytes)%nat then
        Err (corrupt Reason_length_invalid "snapshot record header truncated")
      else
        let? header := decode_journal_header (take journal_header_bytes body) in
        let payload_length := Z.to_nat (jh_payload_length header) in
        let record_total := (journal_header_bytes + payload_length + journal_trailer_bytes)%nat in
        if (length body <? record_total)%nat then
          Err (corrupt Reason_length_invalid "snapshot record truncated")
        else
          let payload := take payload_length (drop journal_header_bytes body) in
          let stored_payload_crc := read_u32_at body (journal_header_bytes + payload_length) in
          if negb (stored_payload_crc =? crc32c payload) then
            Err (corrupt Reason_integrity_failure "snapshot record integrity failure")
          else
            match RecordType_cast (jh_type header) with
            | None => Err (mkStatus Code_invalid Reason_record_type_invalid "unknown record type")
            | Some type =>
                let (applied, state') := apply_record state type payload in
                if negb (Status_ok applied) then Err applied
                else decode_snapshot_body fuel' (drop record_total body) state' (seen + 1)
            end
  end.

(** The fields of the snapshot header that are used. *)
Record SnapshotHeader := mkSnapshotHeader {
  sh_magic : Z; sh_version : Z; sh_flags : Z; sh_sequence : Z; sh_record_count : Z;
  sh_payload_length : Z; sh_header_crc : Z }.

Definition read_snapshot_header : Read SnapshotHeader :=
  let* magic := r_u32 in
  let* version := r_u16 in
  let* flags := r_u16 in
  let* sequence := r_u64 in
  let* record_count := r_u32 in
  let* payload_length := r_u32 in
  let* reserved := r_u32 in
  let* reserved' := r_u32 in
  let* header_crc := r_u32 in
  let* reserved'' := r_u32 in
  fun r => (mkSnapshotHeader magic version flags sequence record_count payload_length header_crc, r).

Definition decode_snapshot (bytes : list byte) : Result DurableState :=
  if (length bytes <? snapshot_header_bytes + 8)%nat then
    Err (corrupt Reason_length_invalid "snapshot shorter than header")
  else
    let (h, reader) :=
      read_snapshot_header (ByteReader_new (take snapshot_header_bytes bytes)) in
    if negb (r_ok reader) || negb (r_at_end reader) then
      Err (corrupt Reason_corrupt_header "snapshot header truncated")
    else if negb (sh_magic h =? snapshot_magic) then
      Err (corrupt Reason_format_magic_mismatch "snapshot magic mismatch")
    else if negb (sh_version h =? durable_format_version) then
      Err (mkStatus Code_version_unsupported Reason_unsupported_version
             "snapshot format version unsupported")
    else if negb (sh_flags h =? 0) then
      Err (mkStatus Code_invalid Reason_domain_invalid "snapshot flags must be zero")
    else if max_snapshot_bytes <? sh_payload_length h then
      Err (corrupt Reason_length_invalid "snapshot payload length exceeds bound")
    else if max_snapshot_records <? sh_record_count h then
      Err (corrupt Reason_length_invalid "snapshot record count exceeds bound")
    else if negb (crc32c (take kSnapshotHeaderCrcOffset bytes) =? sh_header_crc h) then
      Err (corrupt Reason_corrupt_header "snapshot header integrity failure")
    else
      let payload_length := Z.to_nat (sh_payload_length h) in
      let expected_size := (snapshot_header_bytes + payload_length + 8)%nat in
      if (expected_size <? length bytes)%nat then
        Err (corrupt Reason_trailing_garbage "trailing bytes after snapshot")
      else if (length bytes <? expected_size)%nat then
        Err (corrupt Reason_length_invalid "snapshot truncated")
      else
        let covered := (snapshot_header_bytes + payload_length)%nat in
        if negb (read_u32_at bytes covered =? crc32c (take covered bytes)) then
          Err (corrupt Reason_integrity_failure "snapshot integrity failure")
        else if negb (read_u32_at bytes (covered + 4) =? snapshot_footer_magic) then
          Err (corrupt Reason_corrupt_header "snapshot footer magic mismatch")
        else
          let state := DurableState_default <| ds_last_sequence := sh_sequence h |> in
          let body := take payload_length (drop snapshot_header_bytes bytes) in
          let? result := decode_snapshot_body (length body) body state 0 in
          if negb (result.2 =? sh_record_count h) then
            Err (corrupt Reason_state_inconsistent "snapshot record count does not match payload")
          else Ok result.1.

(** ** The store object

    The two files are part of the state.  Every call into the platform that can
    fail is an argument of the operation that performs it: an outcome chosen by
    the environment, [true] or "all bytes" being success. *)

Record Store := mkStore {
  s_journal_file : option (list byte);
  s_snapshot_file : option (list byte);
  s_journal_open : bool;
  s_lock_held : bool;
  s_inspection_only : bool;
  s_closed : bool;
  s_last_sequence : Z;
  s_journal_bytes : Z;
  s_recovery : RecoveryReport }.

#[export] Instance Store_eta : Eta Store :=
  fun s => mkStore (s_journal_file s) (s_snapshot_file s) (s_journal_open s) (s_lock_held s)
    (s_inspection_only s) (s_closed s) (s_last_sequence s) (s_journal_bytes s) (s_recovery s).

Definition store_io_failure (detail : string) : Status :=
  mkStatus Code_io_failure Reason_io_failure detail.

(** *** Opening *)

Record OpenIo := mkOpenIo {
  oi_directory : bool;       (* the state directory exists or could be created *)
  oi_lock : bool;            (* the writer lock was free *)
  oi_open_journal : bool;    (* opening an existing journal succeeds *)
  oi_create_journal : bool }.

Definition healthy_open : OpenIo := mkOpenIo true true true true.

(** The object [Store::open] starts from, over the files of the directory. *)
Definition Store_fresh (inspection_only : bool) (journal snapshot : option (list byte)) : Store :=
  mkStore journal snapshot false false inspection_only false 0 0 RecoveryReport_default.

Definition Store_open_files (io : OpenIo) (s : Store) : Status * Store :=
  if negb (s_inspection_only s) && negb (oi_lock io) then
    (mkStatus Code_refused Reason_directory_locked
       "another runtime already owns this state directory", s)
  else
    let s := if s_inspection_only s then s else s <| s_lock_held := true |> in
    if bool_decide (is_Some (s_journal_file s)) && oi_open_journal io then
      (ok_status, s <| s_journal_open := true |>)
    else
      let s := s <| s_recovery ::= fun r => r <| rr_journal_absent := true |> |> in
      if s_inspection_only s then (ok_status, s)
      else if negb (oi_create_journal io) then (store_io_failure "cannot create journal", s)
      else (ok_status, s <| s_journal_file := Some [] |> <| s_journal_open := true |>).

Definition Store_open (io : OpenIo) (inspection_only create_directory : bool)
    (journal snapshot : option (list byte)) : Result Store :=
  if create_directory && negb (oi_directory io) then
    Err (store_io_failure "cannot create state directory")
  else
    let (status, s) := Store_open_files io (Store_fresh inspection_only journal snapshot) in
    if negb (Status_ok status) then Err status else Ok s.

(** *** Loading *)

(** [li_exists_snapshot]: the existence check of a snapshot that is there finds it;
    an error of the check counts as absence. *)
Record LoadIo := mkLoadIo {
  li_exists_snapshot : bool;
  li_stat_snapshot : bool;
  li_open_snapshot : bool;
  li_read_snapshot : bool;
  li_stat_journal : bool;
  li_seek_start : bool;
  li_read : nat -> bool;     (* the read at this offset of the journal is complete *)
  li_truncate : bool;
  li_seek_end : bool }.

Definition healthy_load : LoadIo := mkLoadIo true true true true true true (fun _ => true) true true.

Definition load_snapshot (io : LoadIo) (state : DurableState) (s : Store)
    : Status * DurableState * Store :=
  match (if li_exists_snapshot io then s_snapshot_file s else None) with
  | None =>
      (ok_status, state,
       s <| s_recovery ::= fun r => r <| rr_snapshot_loaded := false |> |>
         <| s_last_sequence := 0 |>)
  | Some bytes =>
      if negb (li_stat_snapshot io) then (store_io_failure "cannot stat snapshot", state, s)
      else if max_snapshot_bytes + 64 <? size_of bytes then
        (corrupt Reason_length_invalid "snapshot file exceeds bound", state, s)
      else if negb (li_open_snapshot io) then
        (store_io_failure "cannot open snapshot", state, s)
      else if negb (li_read_snapshot io) then
        (store_io_failure "short read on snapshot", state, s)
      else
        match decode_snapshot bytes with
        | Err status => (status, state, s)
        | Ok state' =>
            (ok_status, state',
             s <| s_last_sequence := ds_last_sequence state' |>
               <| s_recovery ::= fun r => r <| rr_snapshot_loaded := true |>
                    <| rr_snapshot_sequence := ds_last_sequence state' |> |>)
        end
  end.

(** The locals of the replay loop and the status it returns early with. *)
Record Replay := mkReplay {
  rp_status : Status;
  rp_state : DurableState;
  rp_position : nat;
  rp_torn : bool;
  rp_skipped : Z;
  rp_replayed : Z }.

#[export] Instance Replay_eta : Eta Replay :=
  fun r => mkReplay (rp_status r) (rp_state r) (rp_position r) (rp_torn r) (rp_skipped r)
             (rp_replayed r).

(** The loop of [replay_journal] over the bytes from [rp_position] on. *)
Fixpoint replay_records (fuel : nat) (io : LoadIo) (rest : list byte) (rp : Replay) : Replay :=
  match fuel, rest with
  | _, [] => rp
  | O, _ => rp
  | S fuel', _ =>
      let stop status := rp <| rp_status := status |> in
      if (length rest <? journal_header_bytes)%nat then rp <| rp_torn := true |>
      else if negb (li_read io (rp_position rp)) then
        stop (store_io_failure "short read on journal header")
      else
        match decode_journal_header (take journal_header_bytes rest) with
        | Err status => stop status
        | Ok header =>
            let payload_length := Z.to_nat (jh_payload_length header) in
            let record_total :=
              (journal_header_bytes + payload_length + journal_trailer_bytes)%nat in
            if (length rest <? record_total)%nat then rp <| rp_torn := true |>
            else if (0 <? payload_length)%nat
                    && negb (li_read io (rp_position rp + journal_header_bytes)%nat) then
              stop (store_io_failure "short read on journal payload")
            else if negb (li_read io (rp_position rp + journal_header_bytes + payload_length)%nat)
            then stop (store_io_failure "short read on journal trailer")
            else
              let payload := take payload_length (drop journal_header_bytes rest) in
              let stored_crc := read_u32_at rest (journal_header_bytes + payload_length) in
              let last := ds_last_sequence (rp_state rp) in
              if negb (stored_crc =? crc32c payload) then
                stop (corrupt Reason_integrity_failure "journal payload integrity failure")
              else if jh_sequence header <=? last then
                replay_records fuel' io (drop record_total rest)
                  (rp <| rp_skipped ::= Z.succ |> <| rp_position ::= Nat.add record_total |>)
              else if negb (jh_sequence header =? wrap_u64 (last + 1)) then
                stop (corrupt Reason_sequence_regression "journal sequence is not contiguous")
              else
                match RecordType_cast (jh_type header) with
                | None =>
                    stop (mkStatus Code_invalid Reason_record_type_invalid "unknown record type")
                | Some type =>
                    let (applied, state) := apply_record (rp_state rp) type payload in
                    if negb (Status_ok applied) then
                      (rp <| rp_state := state |>) <| rp_status := applied |>
                    else
                      replay_records fuel' io (drop record_total rest)
                        (rp <| rp_state := state <| ds_last_sequence := jh_sequence header |> |>
                           <| rp_replayed ::= Z.succ |>
                           <| rp_position ::= Nat.add record_total |>)
                end
        end
  end.

Definition replay_journal (io : LoadIo) (state : DurableState) (s : Store)
    : Status * DurableState * Store :=
  let s := s <| s_last_sequence := ds_last_sequence state |> in
  match s_journal_file s with
  | Some bytes =>
      if negb (s_journal_open s) || negb (li_stat_journal io) then
        (ok_status, state,
         s <| s_recovery ::= fun r => r <| rr_journal_absent := true |> |>)
      else
        let s := s <| s_recovery ::= fun r => r <| rr_journal_bytes := size_of bytes |> |> in
        if bool_decide (bytes = []) then (ok_status, state, s)
        else if negb (li_seek_start io) then (store_io_failure "cannot seek journal", state, s)
        else
          let rp := replay_records (length bytes) io bytes
                      (mkReplay ok_status state 0 false 0 0) in
          let s := s <| s_recovery ::= fun r =>
            r <| rr_records_skipped ::= Z.add (rp_skipped rp) |>
              <| rr_records_replayed ::= Z.add (rp_replayed rp) |> |> in
          if negb (Status_ok (rp_status rp)) then (rp_status rp, rp_state rp, s)
          else
            let truncated_at := if rp_torn rp then rp_position rp else length bytes in
            let s := s <| s_last_sequence := ds_last_sequence (rp_state rp) |>
              <| s_recovery ::= fun r => r <| rr_journal_bytes := Z.of_nat truncated_at |> |> in
            let s := if rp_torn rp then
                s <| s_recovery ::= fun r => r <| rr_torn_tail_present := true |>
                  <| rr_truncated_bytes := size_of bytes - Z.of_nat truncated_at |> |>
              else s in
            let repair := rp_torn rp && negb (s_inspection_only s) in
            if repair && negb (li_truncate io) then
              (store_io_failure "cannot truncate torn journal tail", rp_state rp, s)
            else
              let s := if repair then
                  s <| s_journal_file := Some (take truncated_at bytes) |>
                    <| s_recovery ::= fun r => r <| rr_torn_tail_recovered := true |> |>
                else s in
              if negb (li_seek_end io) then
                (store_io_failure "cannot seek journal end", rp_state rp, s)
              else
                (ok_status, rp_state rp, s <| s_journal_bytes := Z.of_nat truncated_at |>)
  | None =>
      (ok_status, state, s <| s_recovery ::= fun r => r <| rr_journal_absent := true |> |>)
  end.

Definition Store_load (io : LoadIo) (s : Store) : Result DurableState * Store :=
  if s_closed s then
    (Err (mkStatus Code_invalid Reason_state_inconsistent "store already closed"), s)
  else
    let '(snapshot, state, s) := load_snapshot io DurableState_default s in
    if negb (Status_ok snapshot) then (Err snapshot, s)
    else
      let '(replay, state, s) := replay_journal io state s in
      if negb (Status_ok replay) then (Err replay, s) else (Ok state, s).

(** *** Appending *)

Record AppendIo := mkAppendIo {
  ai_seek : bool;
  ai_written : Z;            (* bytes of the record the write accepted *)
  ai_sync : bool }.

(** An outcome in which every byte of any record is written and flushed. *)
Definition healthy_append : AppendIo := mkAppendIo true (2 * max_record_payload) true.

(** [Store::append].  A stream closed by a failed snapshot is a null pointer in
    the source, which the seek dereferences; here the seek fails. *)
Definition Store_append (io : AppendIo) (type : RecordType) (payload : list byte) (s : Store)
    : Status * Store :=
  if s_closed s then
    (mkStatus Code_invalid Reason_state_inconsistent "store already closed", s)
  else if s_inspection_only s then
    (mkStatus Code_refused Reason_read_only "store opened for inspection only", s)
  else if max_record_payload <? size_of payload then
    (mkStatus Code_invalid Reason_length_invalid "record payload exceeds bound", s)
  else if max_journal_bytes <?
          s_journal_bytes s + size_of payload
          + Z.of_nat (journal_header_bytes + journal_trailer_bytes) then
    (mkStatus Code_exhausted Reason_table_full "journal bound reached", s)
  else if s_last_sequence s =? UINT64_MAX then
    (mkStatus Code_exhausted Reason_table_full "journal sequence exhausted", s)
  else
    let sequence := s_last_sequence s + 1 in
    let record := encode_journal_record type sequence payload in
    if bool_decide (record = []) then
      (mkStatus Code_invalid Reason_invalid_payload "record encoding failed", s)
    else if negb (s_journal_open s) || negb (ai_seek io) then
      (store_io_failure "cannot seek journal end", s)
    else
      let written := take (Z.to_nat (Z.min (ai_written io) (size_of record))) record in
      let s := s <| s_journal_file ::= fun f => Some (default [] f ++ written) |> in
      if negb (length written =? length record)%nat then
        (store_io_failure "cannot write journal record", s)
      else if negb (ai_sync io) then (store_io_failure "cannot flush journal record", s)
      else
        (ok_status, s <| s_journal_bytes ::= Z.add (size_of record) |>
                      <| s_last_sequence := sequence |>).

(** *** Snapshots *)

(** The outcome of [wi_sync_directory] is discarded, as in the source: the files here
    are those a crash of the process leaves, for which it makes no difference. *)
Record SnapshotIo := mkSnapshotIo {
  wi_open : bool;
  wi_write : bool;           (* written in full and synchronised *)
  wi_replace : bool;
  wi_sync_directory : bool;
  wi_reset_journal : bool }.

Definition healthy_snapshot : SnapshotIo := mkSnapshotIo true true true true true.

Definition Store_write_snapshot (io : SnapshotIo) (state : DurableState) (s : Store)
    : Status * Store :=
  if s_closed s then
    (mkStatus Code_invalid Reason_state_inconsistent "store already closed", s)
  else if s_inspection_only s then
    (mkStatus Code_refused Reason_read_only "store opened for inspection only", s)
  else if negb (ds_last_sequence state =? s_last_sequence s) then
    (mkStatus Code_invalid Reason_state_inconsistent "snapshot would discard journal records", s)
  else
    let bytes := encode_snapshot state in
    if bool_decide (bytes = []) then
      (mkStatus Code_exhausted Reason_allocation_denied "snapshot encoding failed", s)
    else if negb (wi_open io) then
      (store_io_failure "cannot open snapshot staging file", s)
    else if negb (wi_write io) then
      (store_io_failure "cannot write snapshot staging file", s)
    else if negb (wi_replace io) then (store_io_failure "cannot replace snapshot", s)
    else
      let s := s <| s_snapshot_file := Some bytes |> in
      let _ := wi_sync_directory io in
      if s_journal_open s && negb (wi_reset_journal io) then
        (store_io_failure "cannot reset journal", s <| s_journal_open := false |>)
      else
        let s := if s_journal_open s then s <| s_journal_file := Some [] |> else s in
        (ok_status,
         s <| s_journal_bytes := 0 |>
           <| s_recovery ::= fun r => r <| rr_snapshot_loaded := true |>
                <| rr_snapshot_sequence := ds_last_sequence state |> |>).

(** *** Closing *)

Definition Store_close (s : Store) : Status * Store :=
  if s_closed s then (ok_status, s)
  else (ok_status, s <| s_closed := true |> <| s_journal_open := false |>
                     <| s_lock_held := false |>).

Definition reset_journal_for_test (truncated : bool) (s : Store) : Store :=
  if negb (s_journal_open s) || s_inspection_only s then s
  else
    let s := if truncated then s <| s_journal_file := Some [] |>
             else s <| s_closed := false |> in
    s <| s_journal_bytes := 0 |>.
