(* ===== verification/StoreProps.v ===== *)
(** * Properties of the store

    Framing is a bijection on well-formed records; replay of a journal applies
    exactly its records and stops cleanly at a torn tail; a snapshot decodes to
    the state it was taken of. *)

From S2P Require Import Prelude.
From S2P Require Import Ids.
From S2P Require Import Limits.
From S2P Require Import Status.
From S2P Require Import Checked.
From S2P Require Import Authority.
From S2P Require Import Model.
From S2P Require Import Decision.
From S2P Require Import Records.
From S2P Require Import Bytes.
From S2P Require Import Canonical.
From S2P Require Import Wire.
From S2P Require Import WireProps.
From S2P Require Import Store.

(** ** Headers *)

Definition header_prefix (h : JournalRecordHeader) : list byte :=
  le_bytes 4 (jh_magic h) ++ le_bytes 2 (jh_version h) ++ le_bytes 2 (jh_type h) ++
  le_bytes 8 (jh_sequence h) ++ le_bytes 4 (jh_payload_length h).

Definition enc_header (h : JournalRecordHeader) : list byte :=
  le_bytes 4 (jh_magic h) ++ le_bytes 2 (jh_version h) ++ le_bytes 2 (jh_type h) ++
  le_bytes 8 (jh_sequence h) ++ le_bytes 4 (jh_payload_length h) ++
  le_bytes 4 (jh_header_crc h).

Definition header_wf (h : JournalRecordHeader) : Prop :=
  is_u32 (jh_magic h) /\ is_u16 (jh_version h) /\ is_u16 (jh_type h) /\
  is_u64 (jh_sequence h) /\ is_u32 (jh_payload_length h) /\ is_u32 (jh_header_crc h).

(** [read_journal_header] followed by the health check. *)
Definition get_journal_header : Read (Result JournalRecordHeader) :=
  let* magic := r_u32 in
  let* version := r_u16 in
  let* type := r_u16 in
  let* sequence := r_u64 in
  let* payload_length := r_u32 in
  let* header_crc := r_u32 in
  when_ok (r_return (mkJournalRecordHeader magic version type sequence payload_length header_crc)).

#[export] Instance decodes_journal_header : Decodes get_journal_header enc_header header_wf.
Proof.
  unfold get_journal_header. constructor.
  - run_decoder enc_header header_wf.
  - invert_decoder enc_header header_wf.
Qed.

Lemma get_journal_header_eq r :
  get_journal_header r =
  let (h, r') := read_journal_header r in
  if r_ok r' then (Ok h, r') else (Err (r_status r'), r').
Proof.
  unfold get_journal_header, read_journal_header, read_bind, when_ok, r_return.
  destruct (r_u32 r) as [? r1], (r_u16 r1) as [? r2], (r_u16 r2) as [? r3], (r_u64 r3) as [? r4],
    (r_u32 r4) as [? r5], (r_u32 r5) as [? r6]. by destruct (r_ok r6).
Qed.

(** What [decode_journal_header] checks. *)
Definition header_ok (h : JournalRecordHeader) : Prop :=
  jh_magic h = journal_magic /\ jh_version h = durable_format_version /\
  1 <= jh_type h <= 10 /\ jh_sequence h <> 0 /\ jh_payload_length h <= max_record_payload /\
  jh_header_crc h = crc32c (header_prefix h).

Lemma enc_header_prefix h :
  take (journal_header_bytes - journal_trailer_bytes) (enc_header h) = header_prefix h.
Proof.
  unfold enc_header. change (journal_header_bytes - journal_trailer_bytes)%nat with 20%nat.
  rewrite !app_assoc. rewrite take_app_length'; [|by rewrite !length_app, !le_bytes_length].
  by rewrite <- !app_assoc.
Qed.

Lemma enc_header_length h : length (enc_header h) = journal_header_bytes.
Proof. unfold enc_header. by rewrite !length_app, !le_bytes_length. Qed.

Lemma decode_header_spec bs h :
  decode_journal_header bs = Ok h <-> bs = enc_header h /\ header_wf h /\ header_ok h.
Proof.
  unfold decode_journal_header. destruct (Nat.eqb_spec (length bs) journal_header_bytes) as [Hl|Hl];
    cbn [negb].
  2:{ split; [done|]. intros [-> _]. by rewrite enc_header_length in Hl. }
  pose proof (get_journal_header_eq (ByteReader_new bs)) as Hg.
  destruct (read_journal_header (ByteReader_new bs)) as [h' r] eqn:Er.
  split.
  - destruct (r_ok r) eqn:Hok; cbn [negb orb]; [|done].
    destruct (dec_inv _ _ _ _ (At_new bs) Hg) as (Hwf & s & -> & HA).
    destruct (r_at_end r) eqn:He; cbn [negb orb]; [|done].
    apply (At_at_end _ _ HA) in He as ->. rewrite app_nil_r, enc_header_prefix.
    destruct (Z.eqb_spec (jh_magic h') journal_magic); cbn [negb]; [|done].
    destruct (Z.eqb_spec (jh_version h') durable_format_version); cbn [negb]; [|done].
    unfold is_known_record_type. cbn [RecordType_value].
    destruct (Z.leb_spec 1 (jh_type h')), (Z.leb_spec (jh_type h') 10); cbn [negb andb]; try done.
    destruct (Z.eqb_spec (jh_sequence h') 0); [done|].
    destruct (Z.ltb_spec max_record_payload (jh_payload_length h')); [done|].
    destruct (Z.eqb_spec (crc32c (header_prefix h')) (jh_header_crc h')); cbn [negb]; [|done].
    intros [= <-]. split; [done|]. split; [done|]. unfold header_ok. repeat split; try done.
  - intros (-> & Hwf & Hm & Hv & Ht & Hs & Hp & Hc).
    destruct (dec_read (ByteReader_new (enc_header h)) h []) as (r' & Hr & HA); [|exact Hwf|].
    { rewrite app_nil_r. apply At_new. }
    rewrite Hg in Hr. destruct (r_ok r) eqn:Hok; [|done]. injection Hr as -> ->.
    rewrite (proj2 (At_at_end _ _ HA) eq_refl). cbn [negb orb].
    rewrite Hm, Hv, !Z.eqb_refl. cbn [negb].
    unfold is_known_record_type. cbn [RecordType_value].
    replace ((1 <=? jh_type h) && (jh_type h <=? 10)) with true by lia. cbn [negb].
    destruct (Z.eqb_spec (jh_sequence h) 0); [done|].
    destruct (Z.ltb_spec max_record_payload (jh_payload_length h)); [lia|].
    rewrite enc_header_prefix, Hc, Z.eqb_refl. done.
Qed.

(** ** Records *)

Definition record_header (type : RecordType) (sequence : Z) (payload : list byte)
    : JournalRecordHeader :=
  let h := mkJournalRecordHeader journal_magic durable_format_version (RecordType_value type)
             sequence (size_of payload) 0 in
  mkJournalRecordHeader journal_magic durable_format_version (RecordType_value type) sequence
    (size_of payload) (crc32c (header_prefix h)).

Definition enc_record (type : RecordType) (sequence : Z) (payload : list byte) : list byte :=
  enc_header (record_header type sequence payload) ++ payload ++ le_bytes 4 (crc32c payload).

Definition record_wf (sequence : Z) (payload : list byte) : Prop :=
  is_u64 sequence /\ sequence <> 0 /\ size_of payload <= max_record_payload.

Lemma RecordType_value_range t : 1 <= RecordType_value t <= 10.
Proof. destruct t; cbn; lia. Qed.

Lemma RecordType_cast_value t : RecordType_cast (RecordType_value t) = Some t.
Proof. by destruct t. Qed.

Lemma RecordType_cast_known raw : 1 <= raw <= 10 -> is_Some (RecordType_cast raw).
Proof.
  intros Hr. unfold RecordType_cast.
  repeat (case_match; [by eexists|]). zify_bools. lia.
Qed.

Lemma record_header_ok t seq p :
  record_wf seq p -> header_wf (record_header t seq p) /\ header_ok (record_header t seq p).
Proof.
  intros (Hs & Hne & Hp). pose proof (size_of_nonneg p). pose proof (RecordType_value_range t).
  pose proof (crc32c_range (header_prefix (record_header t seq p))) as Hc.
  change (header_prefix (record_header t seq p)) with (header_prefix
    (mkJournalRecordHeader journal_magic durable_format_version (RecordType_value t) seq
       (size_of p) 0)) in Hc.
  unfold header_wf, header_ok, record_header.
  cbn [jh_magic jh_version jh_type jh_sequence jh_payload_length jh_header_crc].
  unfold_limits. unfold_ints. unfold journal_magic in *. split.
  - split; [lia|]. split; [lia|]. split; [lia|]. split; [lia|]. split; [lia|exact Hc].
  - do 5 (split; [done|]). reflexivity.
Qed.

Lemma enc_record_length t seq p :
  length (enc_record t seq p) = (journal_header_bytes + length p + journal_trailer_bytes)%nat.
Proof. unfold enc_record. rewrite !length_app, enc_header_length, le_bytes_length.  unfold journal_trailer_bytes. lia. Qed.

Lemma enc_header_split h : enc_header h = header_prefix h ++ le_bytes 4 (jh_header_crc h).
Proof. unfold enc_header, header_prefix. by rewrite <- !app_assoc. Qed.

Lemma record_header_crc t seq p :
  jh_header_crc (record_header t seq p) = crc32c (header_prefix (record_header t seq p)).
Proof. reflexivity. Qed.

Lemma emits_fits_at f bs buffer max :
  Emits f bs -> size_of buffer + size_of bs <= max ->
  f (mkByteWriter buffer max ok_status) = mkByteWriter (buffer ++ bs) max ok_status.
Proof. intros Hf Hle. by rewrite (emits_fits _ _ Hf). Qed.

Lemma size_le_bytes n z : size_of (le_bytes n z) = Z.of_nat n.
Proof. unfold size_of. by rewrite le_bytes_length. Qed.

Lemma encode_journal_record_spec t seq p :
  record_wf seq p -> encode_journal_record t seq p = enc_record t seq p.
Proof.
  intros (Hs & Hne & Hp). unfold encode_journal_record.
  destruct (Z.ltb_spec max_record_payload (size_of p)); [lia|].
  destruct (Z.eqb_spec seq 0); [done|]. cbn [orb].
  change (ByteWriter_new _) with (mkByteWriter [] 1048604 ok_status).
  set (pre := header_prefix (record_header t seq p)).
  assert (Hpre : Emits (fun w => w_u32 (wrap_u32 (size_of p)) (w_u64 seq
            (w_u16 (RecordType_value t) (w_u16 durable_format_version (w_u32 journal_magic w))))) pre).
  { unfold pre, header_prefix, record_header. cbn [jh_magic jh_version jh_type jh_sequence
      jh_payload_length]. solve_emits. }
  assert (Hlen : size_of pre = 20) by (unfold pre, header_prefix;
    autorewrite with pff; rewrite !size_le_bytes; reflexivity).
  pose proof (size_of_nonneg p). unfold_limits.
  pose proof (emits_fits_at _ _ [] 1048604 Hpre) as H1. cbv beta in H1.
  rewrite H1 by (rewrite size_of_nil; lia). clear H1. cbn [app].
  change (w_ok (mkByteWriter pre 1048604 ok_status)) with true. cbn [negb w_buffer].
  rewrite (emits_fits_at _ _ _ _ (emits_uint 4 (crc32c pre))) by (rewrite size_le_bytes; lia).
  rewrite (emits_fits_at _ _ _ _ (emits_bytes p))
    by (autorewrite with pff; rewrite size_le_bytes; lia).
  match goal with |- context [w_ok ?w] => change (w_ok w) with true end. cbn [negb].
  rewrite (emits_fits_at _ _ _ _ (emits_uint 4 (crc32c p)))
    by (autorewrite with pff; rewrite !size_le_bytes; lia).
  unfold finish. match goal with |- context [w_ok ?w] => change (w_ok w) with true end.
  cbn [negb w_buffer]. unfold enc_record. rewrite enc_header_split, record_header_crc. fold pre.
  by rewrite <- !app_assoc.
Qed.

(** ** Reading a record back *)

Lemma enc_record_cons t seq p tail : exists b bs, enc_record t seq p ++ tail = b :: bs.
Proof.
  destruct (enc_record t seq p ++ tail) as [|b bs] eqn:E; [|by eauto].
  apply (f_equal length) in E. rewrite length_app, enc_record_length in E. cbn in E. lia.
Qed.

(** A header, a payload of the length it announces, and a stored checksum. *)
Definition framed (h : JournalRecordHeader) (payload : list byte) (crc : Z) : list byte :=
  enc_header h ++ payload ++ le_bytes 4 crc.

(** The slices of the bytes that start with a framed payload. *)
Lemma framed_slices h p crc tail :
  is_u32 crc ->
  let rest := framed h p crc ++ tail in
  let n := (journal_header_bytes + length p + journal_trailer_bytes)%nat in
  take journal_header_bytes rest = enc_header h /\
  take (length p) (drop journal_header_bytes rest) = p /\
  read_u32_at rest (journal_header_bytes + length p) = crc /\
  drop n rest = tail /\ (n <= length rest)%nat.
Proof.
  intros Hcrc. cbv zeta. unfold framed. rewrite <- !app_assoc.
  pose proof (enc_header_length h) as Hl.
  assert (Hd : drop journal_header_bytes (enc_header h ++ p ++ le_bytes 4 crc ++ tail) =
            p ++ le_bytes 4 crc ++ tail) by (by rewrite <- Hl, drop_app_length).
  split; [by rewrite <- Hl, take_app_length|].
  split; [rewrite Hd; by rewrite take_app_length|].
  split.
  { unfold read_u32_at. rewrite <- drop_drop, Hd, drop_app_length.
    rewrite take_app_length' by (by rewrite le_bytes_length).
    apply le_value_bytes. unfold_ints. change (256 ^ Z.of_nat 4) with 4294967296. lia. }
  split.
  { rewrite <- !drop_drop, Hd, drop_app_length.
    rewrite drop_app_length'; [done|by rewrite le_bytes_length]. }
  rewrite !length_app, Hl, le_bytes_length. unfold journal_trailer_bytes. lia.
Qed.

Lemma record_header_length t seq p :
  Z.to_nat (jh_payload_length (record_header t seq p)) = length p.
Proof. cbn. unfold size_of. lia. Qed.

(** The slices of the bytes that start with a record. *)
Lemma enc_record_slices t seq p tail :
  let rest := enc_record t seq p ++ tail in
  let n := (journal_header_bytes + length p + journal_trailer_bytes)%nat in
  take journal_header_bytes rest = enc_header (record_header t seq p) /\
  take (length p) (drop journal_header_bytes rest) = p /\
  read_u32_at rest (journal_header_bytes + length p) = crc32c p /\
  drop n rest = tail /\ (n <= length rest)%nat.
Proof. exact (framed_slices (record_header t seq p) p (crc32c p) tail (crc32c_range p)). Qed.

(** One iteration of the replay loop on an intact record. *)
Lemma replay_step fuel t seq p tail rp :
  record_wf seq p ->
  let n := (journal_header_bytes + length p + journal_trailer_bytes)%nat in
  let last := ds_last_sequence (rp_state rp) in
  replay_records (S fuel) healthy_load (enc_record t seq p ++ tail) rp =
  if seq <=? last then
    replay_records fuel healthy_load tail
      (rp <| rp_skipped ::= Z.succ |> <| rp_position ::= Nat.add n |>)
  else if negb (seq =? wrap_u64 (last + 1)) then
    rp <| rp_status := corrupt Reason_sequence_regression "journal sequence is not contiguous" |>
  else
    let (applied, state) := apply_record (rp_state rp) t p in
    if negb (Status_ok applied) then (rp <| rp_state := state |>) <| rp_status := applied |>
    else replay_records fuel healthy_load tail
           (rp <| rp_state := state <| ds_last_sequence := seq |> |>
              <| rp_replayed ::= Z.succ |> <| rp_position ::= Nat.add n |>).
Proof.
  intros Hwf n last.
  pose proof (record_header_length t seq p) as Hpl.
  destruct (enc_record_slices t seq p tail) as (Hh & Hp & Hc & Hd & Hn).
  pose proof (record_header_ok t seq p Hwf) as Hok.
  destruct (enc_record_cons t seq p tail) as (b & bs & Hb). rewrite Hb at 1.
  cbn [replay_records]. rewrite <- Hb. rewrite Hh.
  rewrite (proj2 (decode_header_spec _ _) (conj eq_refl Hok)). rewrite Hpl, Hp, Hc, Hd.
  destruct (Nat.ltb_spec (length (enc_record t seq p ++ tail)) journal_header_bytes);
    [unfold journal_header_bytes in *; lia|].
  cbn [li_read healthy_load negb]. rewrite andb_false_r.
  destruct (Nat.ltb_spec (length (enc_record t seq p ++ tail))
              (journal_header_bytes + length p + journal_trailer_bytes)); [lia|].
  rewrite Z.eqb_refl. cbn [negb jh_sequence jh_type record_header].
  by rewrite RecordType_cast_value.
Qed.

(** ** Journals *)

(** The records with consecutive sequences from [first]. *)
Fixpoint journal_of (first : Z) (records : list (RecordType * list byte)) : list byte :=
  match records with
  | [] => []
  | (t, p) :: records' => enc_record t first p ++ journal_of (first + 1) records'
  end.

Definition payloads_fit (records : list (RecordType * list byte)) : Prop :=
  Forall (fun r => size_of r.2 <= max_record_payload) records.

(** The records start at a valid sequence and none passes the last one. *)
Definition sequences_fit (first : Z) (records : list (RecordType * list byte)) : Prop :=
  1 <= first /\ first + size_of records - 1 <= UINT64_MAX.

(** Applying records one after the other, each taking the next sequence. *)
Fixpoint apply_all (state : DurableState) (records : list (RecordType * list byte))
    : Result DurableState :=
  match records with
  | [] => Ok state
  | (t, p) :: records' =>
      let (applied, state') := apply_record state t p in
      if negb (Status_ok applied) then Err applied
      else apply_all (state' <| ds_last_sequence := ds_last_sequence state + 1 |>) records'
  end.

Lemma apply_all_app state r1 r2 :
  apply_all state (r1 ++ r2) = (let? s := apply_all state r1 in apply_all s r2).
Proof.
  revert state. induction r1 as [|[t p] r1 IH]; intros state; [done|]. cbn [apply_all app].
  destruct (apply_record state t p) as [st s']. destruct (negb _); [done|]. apply IH.
Qed.

Lemma apply_all_sequence state records state' :
  apply_all state records = Ok state' ->
  ds_last_sequence state' = ds_last_sequence state + size_of records.
Proof.
  revert state. induction records as [|[t p] rs IH]; intros state; cbn [apply_all].
  - intros [= <-]. rewrite size_of_nil. lia.
  - destruct (apply_record state t p) as [st s']. destruct (negb _); [done|].
    intros H. apply IH in H. rewrite H, size_of_cons. cbn. lia.
Qed.

Lemma journal_of_app first r1 r2 :
  journal_of first (r1 ++ r2) = journal_of first r1 ++ journal_of (first + size_of r1) r2.
Proof.
  revert first. induction r1 as [|[t p] r1 IH]; intros first; cbn [journal_of app].
  - by rewrite size_of_nil, Z.add_0_r.
  - rewrite IH, size_of_cons, <- app_assoc. do 3 f_equal. lia.
Qed.

Lemma journal_of_length_ge first records : (length records <= length (journal_of first records))%nat.
Proof.
  revert first. induction records as [|[t p] rs IH]; intros first; cbn [journal_of length]; [lia|].
  rewrite length_app, enc_record_length. specialize (IH (first + 1)).
  unfold journal_header_bytes. lia.
Qed.

Lemma sequences_fit_cons first t p rs :
  sequences_fit first ((t, p) :: rs) -> is_u64 first /\ first <> 0 /\ sequences_fit (first + 1) rs.
Proof.
  unfold sequences_fit. rewrite size_of_cons. pose proof (size_of_nonneg rs). unfold_ints. lia.
Qed.

(** Replay continues behind a sequence of records it applies. *)
Lemma replay_applies fuel records tail rp state' :
  payloads_fit records -> sequences_fit (ds_last_sequence (rp_state rp) + 1) records ->
  apply_all (rp_state rp) records = Ok state' ->
  replay_records (length records + fuel) healthy_load
    (journal_of (ds_last_sequence (rp_state rp) + 1) records ++ tail) rp =
  replay_records fuel healthy_load tail
    (rp <| rp_state := state' |> <| rp_replayed ::= Z.add (size_of records) |>
       <| rp_position ::= Nat.add (length (journal_of (ds_last_sequence (rp_state rp) + 1) records)) |>).
Proof.
  revert rp. induction records as [|[t p] rs IH]; intros rp Hfit Hseq Happ.
  { cbn in Happ. injection Happ as <-. by destruct rp. }
  apply List.Forall_cons_iff in Hfit as [Hp Hfit].
  apply sequences_fit_cons in Hseq as (Hu & Hne & Hseq).
  cbn [journal_of length Nat.add]. rewrite <- app_assoc.
  rewrite replay_step by (split; [done|split; done]). cbn [apply_all] in Happ.
  destruct (Z.leb_spec (ds_last_sequence (rp_state rp) + 1) (ds_last_sequence (rp_state rp))); [lia|].
  rewrite wrap_u64_id by done. rewrite Z.eqb_refl. cbn [negb].
  destruct (apply_record (rp_state rp) t p) as [applied state1].
  destruct (negb (Status_ok applied)); [done|].
  set (rp1 := (((rp <| rp_state := _ |>) <| rp_replayed ::= _ |>) <| rp_position ::= _ |>)).
  change (ds_last_sequence (rp_state rp) + 1 + 1) with (ds_last_sequence (rp_state rp1) + 1).
  rewrite (IH rp1) by done. rewrite length_app, enc_record_length, size_of_cons.
  f_equal. unfold rp1. destruct rp.
  cbn -[journal_of length journal_header_bytes journal_trailer_bytes size_of Z.add Nat.add].
  f_equal; lia.
Qed.

(** Replay steps over a sequence of records the snapshot already holds. *)
Lemma replay_skips fuel first records tail rp :
  payloads_fit records -> sequences_fit first records ->
  first + size_of records - 1 <= ds_last_sequence (rp_state rp) ->
  replay_records (length records + fuel) healthy_load (journal_of first records ++ tail) rp =
  replay_records fuel healthy_load tail
    (rp <| rp_skipped ::= Z.add (size_of records) |>
       <| rp_position ::= Nat.add (length (journal_of first records)) |>).
Proof.
  revert first rp. induction records as [|[t p] rs IH]; intros first rp Hfit Hseq Hle.
  { by destruct rp. }
  apply List.Forall_cons_iff in Hfit as [Hp Hfit].
  apply sequences_fit_cons in Hseq as (Hu & Hne & Hseq).
  rewrite size_of_cons in Hle. pose proof (size_of_nonneg rs).
  cbn [journal_of length Nat.add]. rewrite <- app_assoc.
  rewrite replay_step by (split; [done|split; done]).
  destruct (Z.leb_spec first (ds_last_sequence (rp_state rp))); [|lia].
  rewrite IH by (done || (cbn; lia)). rewrite length_app, enc_record_length, size_of_cons.
  f_equal. destruct rp.
  cbn -[journal_of length journal_header_bytes journal_trailer_bytes size_of Z.add Nat.add].
  f_equal; lia.
Qed.

(** A payload that does not match its stored checksum stops the replay. *)
Lemma replay_damaged fuel t seq p p' tail rp :
  record_wf seq p -> length p' = length p -> crc32c p <> crc32c p' ->
  replay_records (S fuel) healthy_load (framed (record_header t seq p) p' (crc32c p) ++ tail) rp =
  rp <| rp_status := corrupt Reason_integrity_failure "journal payload integrity failure" |>.
Proof.
  intros Hwf Hlen Hne. pose proof (record_header_length t seq p) as Hpl.
  destruct (framed_slices (record_header t seq p) p' (crc32c p) tail (crc32c_range p))
    as (Hh & Hp & Hc & Hd & Hn).
  pose proof (record_header_ok t seq p Hwf) as Hok.
  set (rest := framed _ _ _ ++ tail) in *.
  destruct rest as [|b bs] eqn:Hb; [cbn in Hn; unfold journal_header_bytes in Hn; lia|].
  cbn [replay_records]. rewrite <- Hb in *. rewrite Hh.
  rewrite (proj2 (decode_header_spec _ _) (conj eq_refl Hok)). rewrite Hpl, <- Hlen, Hp, Hc.
  destruct (Nat.ltb_spec (length rest) journal_header_bytes);
    [unfold journal_header_bytes in *; lia|].
  cbn [li_read healthy_load negb]. rewrite andb_false_r.
  destruct (Nat.ltb_spec (length rest)
              (journal_header_bytes + length p' + journal_trailer_bytes)); [lia|].
  by rewrite (proj2 (Z.eqb_neq _ _) Hne).
Qed.

(** A strict prefix of a record is a torn tail: replay stops in front of it. *)
Lemma replay_torn fuel t seq p cut rp :
  record_wf seq p -> (0 < cut < length (enc_record t seq p))%nat ->
  replay_records (S fuel) healthy_load (take cut (enc_record t seq p)) rp = rp <| rp_torn := true |>.
Proof.
  intros Hwf Hcut. set (rest := take cut (enc_record t seq p)).
  assert (Hl : length rest = cut) by (unfold rest; rewrite length_take; lia).
  destruct rest as [|b bs] eqn:Hr; [cbn in Hl; lia|].
  cbn [replay_records]. rewrite <- Hr in *. clear Hr.
  destruct (Nat.ltb_spec (length rest) journal_header_bytes) as [|Hge]; [done|].
  cbn [li_read healthy_load negb].
  assert (Hh : take journal_header_bytes rest = enc_header (record_header t seq p)).
  { unfold rest, enc_record. rewrite take_take. replace (journal_header_bytes `min` cut)%nat with
      journal_header_bytes by lia. rewrite take_app_length'; [done|by rewrite enc_header_length]. }
  rewrite Hh, (proj2 (decode_header_spec _ _) (conj eq_refl (record_header_ok t seq p Hwf))).
  replace (Z.to_nat (jh_payload_length (record_header t seq p))) with (length p)
    by (cbn; unfold size_of; lia).
  rewrite enc_record_length in Hcut.
  destruct (Nat.ltb_spec (length rest)
              (journal_header_bytes + length p + journal_trailer_bytes)); [done|lia].
Qed.

(** ** What the two files hold *)

(** The state the snapshot contributes. *)
Definition snapshot_holds (snapshot : option (list byte)) (base : DurableState) : Prop :=
  match snapshot with
  | None => base = DurableState_default
  | Some bytes => size_of bytes <= max_snapshot_bytes + 64 /\ decode_snapshot bytes = Ok base
  end.

(** The files hold [state]: the snapshot decodes to some [base], the journal is
    an intact run of records from [first] on (an absent journal being an empty
    one), the snapshot already covers a prefix of them, and the others lead from
    [base] to [state]. *)
Record Holds (journal snapshot : option (list byte)) (state base : DurableState) (first : Z)
    (old new : list (RecordType * list byte)) : Prop := {
  holds_snapshot : snapshot_holds snapshot base;
  holds_journal : default [] journal = journal_of first (old ++ new);
  holds_fit : payloads_fit (old ++ new);
  holds_sequences : sequences_fit first (old ++ new);
  holds_covered : first + size_of old - 1 = ds_last_sequence base;
  holds_apply : apply_all base new = Ok state }.

Definition DiskHolds (journal snapshot : option (list byte)) (state : DurableState) : Prop :=
  exists base first old new, Holds journal snapshot state base first old new.

(** The unfinished write of a record: some of its bytes, not all of them. *)
Definition torn_write (state : DurableState) (tail : list byte) : Prop :=
  exists t p cut, record_wf (ds_last_sequence state + 1) p /\
    (0 < cut < length (enc_record t (ds_last_sequence state + 1) p))%nat /\
    tail = take cut (enc_record t (ds_last_sequence state + 1) p).

(** The files hold [state] behind a torn record. *)
Definition DiskTorn (journal snapshot : option (list byte)) (state : DurableState) : Prop :=
  exists intact tail, journal = Some (intact ++ tail) /\ torn_write state tail /\
    DiskHolds (Some intact) snapshot state.

(** A store open for writing whose memory agrees with its files. *)
Record Represents (s : Store) (state : DurableState) : Prop := {
  rep_disk : DiskHolds (s_journal_file s) (s_snapshot_file s) state;
  rep_open : s_journal_open s = true;
  rep_closed : s_closed s = false;
  rep_writable : s_inspection_only s = false;
  rep_last : s_last_sequence s = ds_last_sequence state;
  rep_bytes : s_journal_bytes s = size_of (default [] (s_journal_file s)) }.

Lemma Holds_last journal snapshot state base first old new :
  Holds journal snapshot state base first old new ->
  ds_last_sequence state = first + size_of old + size_of new - 1.
Proof.
  intros []. apply apply_all_sequence in holds_apply0. lia.
Qed.

(** Replay of an intact journal, followed by anything. *)
Lemma replay_holds fuel journal snapshot state base first old new tail :
  Holds journal snapshot state base first old new ->
  exists rp, (rp_status rp = ok_status /\ rp_state rp = state /\ rp_torn rp = false /\
      rp_position rp = length (journal_of first (old ++ new))) /\
    replay_records (length (old ++ new) + fuel) healthy_load
      (journal_of first (old ++ new) ++ tail) (mkReplay ok_status base 0 false 0 0) =
    replay_records fuel healthy_load tail rp.
Proof.
  intros [_ _ Hfit Hseq Hcov Happ]. unfold payloads_fit in Hfit.
  apply Forall_app in Hfit as [Hfo Hfn].
  unfold sequences_fit in Hseq. rewrite size_of_app in Hseq.
  pose proof (size_of_nonneg old). pose proof (size_of_nonneg new).
  rewrite length_app, journal_of_app, <- app_assoc, <- Nat.add_assoc.
  rewrite replay_skips; [|done|unfold sequences_fit; lia|cbn; lia].
  set (rp1 := (((mkReplay ok_status base 0 false 0 0) <| rp_skipped ::= _ |>) <| rp_position ::= _ |>)).
  replace (first + size_of old) with (ds_last_sequence (rp_state rp1) + 1) by (cbn; lia).
  rewrite (replay_applies fuel new tail rp1 state); [|done|unfold sequences_fit; cbn; lia|done].
  eexists. split; [|reflexivity]. unfold rp1.
  cbn -[length journal_of]. rewrite length_app. repeat split. lia.
Qed.

(** The loop over a journal that may end in a torn record. *)
Lemma replay_disk journal snapshot state base first old new tail :
  Holds journal snapshot state base first old new ->
  tail = [] \/ torn_write state tail ->
  let bytes := default [] journal ++ tail in
  let rp := replay_records (length bytes) healthy_load bytes (mkReplay ok_status base 0 false 0 0) in
  rp_status rp = ok_status /\ rp_state rp = state /\
  rp_torn rp = negb (bool_decide (tail = [])) /\ rp_position rp = length (default [] journal).
Proof.
  intros HH Ht. cbv zeta. rewrite (holds_journal _ _ _ _ _ _ _ HH).
  set (jb := journal_of first (old ++ new)).
  pose proof (journal_of_length_ge first (old ++ new)) as Hge. fold jb in Hge.
  rewrite length_app.
  replace (length jb + length tail)%nat
    with (length (old ++ new) + (length tail + (length jb - length (old ++ new))))%nat by lia.
  destruct (replay_holds (length tail + (length jb - length (old ++ new))) _ _ _ _ _ _ _ tail HH)
    as (rp & (Hs & Hst & Hto & Hpo) & Hrep).
  fold jb in Hrep, Hpo. rewrite Hrep. clear Hrep.
  destruct Ht as [->|(t & p & cut & Hwf & Hcut & ->)].
  { destruct (length [] + _)%nat; cbn [replay_records]; by rewrite Hs, Hst, Hto, Hpo. }
  rewrite length_take.
  replace (cut `min` length (enc_record t (ds_last_sequence state + 1) p))%nat with cut by lia.
  destruct cut as [|cut]; [lia|]. cbn [Nat.add]. rewrite replay_torn by done.
  rewrite <- Hs, <- Hst, <- Hpo. do 2 (split; [done|]). split; [|done].
  rewrite bool_decide_eq_false_2; [done|].
  destruct (enc_record t _ p) eqn:E; [cbn in Hcut; lia|done].
Qed.

(** *** Loading *)

(** The fields loading leaves alone. *)
Record same_handle (s s' : Store) : Prop := {
  same_snapshot : s_snapshot_file s' = s_snapshot_file s;
  same_open : s_journal_open s' = s_journal_open s;
  same_closed : s_closed s' = s_closed s;
  same_inspection : s_inspection_only s' = s_inspection_only s }.

(** What the recovery report says of the journal: the intact bytes it keeps, and the
    bytes behind them, which are reported present, recovered and truncated. *)
Record tail_report (intact tail : list byte) (r : RecoveryReport) : Prop := {
  tr_present : rr_torn_tail_present r = negb (bool_decide (tail = []));
  tr_recovered : rr_torn_tail_recovered r = negb (bool_decide (tail = []));
  tr_truncated : rr_truncated_bytes r = size_of tail;
  tr_journal : rr_journal_bytes r = size_of intact }.

Lemma load_snapshot_holds s base :
  snapshot_holds (s_snapshot_file s) base -> tail_report [] [] (s_recovery s) ->
  exists s', load_snapshot healthy_load DurableState_default s = (ok_status, base, s') /\
    same_handle s s' /\ s_journal_file s' = s_journal_file s /\
    s_journal_bytes s' = s_journal_bytes s /\ tail_report [] [] (s_recovery s').
Proof.
  unfold load_snapshot, snapshot_holds. intros H [E1 E2 E3 E4]. cbn [li_exists_snapshot healthy_load].
  destruct (s_snapshot_file s) as [bytes|] eqn:E.
  - destruct H as [Hle Hd]. cbn [negb li_stat_snapshot li_open_snapshot li_read_snapshot].
    destruct (Z.ltb_spec (max_snapshot_bytes + 64) (size_of bytes)); [lia|].
    rewrite Hd. eexists. split; [done|]. split; [by constructor|]. do 2 (split; [done|]). by constructor.
  - subst. eexists. split; [done|]. split; [by constructor|]. do 2 (split; [done|]). by constructor.
Qed.

Lemma replay_journal_holds s state base intact tail first old new :
  s_journal_file s = Some (intact ++ tail) -> s_journal_open s = true ->
  s_inspection_only s = false -> s_journal_bytes s = 0 -> tail_report [] [] (s_recovery s) ->
  Holds (Some intact) (s_snapshot_file s) state base first old new ->
  tail = [] \/ torn_write state tail ->
  exists s', replay_journal healthy_load base s = (ok_status, state, s') /\
    same_handle s s' /\ s_journal_file s' = Some intact /\
    s_last_sequence s' = ds_last_sequence state /\ s_journal_bytes s' = size_of intact /\
    tail_report intact tail (s_recovery s').
Proof.
  intros Hj Ho Hi Hb [R1 R2 R3 R4] HH Ht. unfold replay_journal.
  change (s_journal_file (s <| s_last_sequence := _ |>)) with (s_journal_file s). rewrite Hj.
  change (s_journal_open (s <| s_last_sequence := _ |>)) with (s_journal_open s). rewrite Ho.
  cbn [negb orb li_stat_journal li_seek_start li_truncate li_seek_end healthy_load].
  destruct (bool_decide_reflect (intact ++ tail = [])) as [Hnil|Hnil].
  { apply app_eq_nil in Hnil as [-> ->].
    pose proof (replay_disk _ _ _ _ _ _ _ _ HH Ht) as (_ & Hst & _). cbn in Hst. subst base.
    eexists. split; [reflexivity|]. split; [by constructor|]. cbn. rewrite Hj.
    do 3 (split; [done|]). by constructor. }
  pose proof (replay_disk _ _ _ _ _ _ _ _ HH Ht) as (Hs & Hst & Hto & Hpo).
  cbn [default] in *. set (rp := replay_records _ _ _ _) in *.
  rewrite Hs, Hst, Hto, Hpo.
  unfold id. change (Status_ok ok_status) with true. cbn [negb].
  destruct (bool_decide_reflect (tail = [])) as [->|Htl]; cbn [negb andb].
  - eexists. split; [reflexivity|]. split; [by constructor|].
    cbn -[length size_of]. rewrite Hj, app_nil_r. do 3 (split; [done|]).
    constructor; cbn -[length size_of]; [by rewrite R1|by rewrite R2|by rewrite R3|done].
  - match goal with |- context [s_inspection_only ?x] => change (s_inspection_only x) with (s_inspection_only s) end.
    rewrite Hi. cbn [negb andb]. eexists. split; [reflexivity|]. split; [by constructor|].
    cbn -[length size_of take]. rewrite take_app_length. do 3 (split; [done|]).
    constructor; cbn -[length size_of]; rewrite ?(bool_decide_eq_false_2 _ Htl); try done.
    rewrite size_of_app. unfold size_of. lia.
Qed.

Lemma Store_open_healthy create journal snapshot :
  exists s, Store_open healthy_open false create journal snapshot = Ok s /\
    s_journal_file s = Some (default [] journal) /\ s_snapshot_file s = snapshot /\
    s_journal_open s = true /\ s_closed s = false /\ s_inspection_only s = false /\
    s_journal_bytes s = 0 /\ tail_report [] [] (s_recovery s).
Proof.
  unfold Store_open. cbn [oi_directory healthy_open negb]. rewrite andb_false_r.
  destruct journal as [j|]; eexists; (split; [reflexivity|]); by repeat split.
Qed.

(** Loading files that hold a state, whether or not a torn record follows. *)
Lemma load_disk create intact tail journal snapshot state :
  default [] journal = intact ++ tail -> DiskHolds (Some intact) snapshot state ->
  tail = [] \/ torn_write state tail ->
  exists s0 s, Store_open healthy_open false create journal snapshot = Ok s0 /\
    Store_load healthy_load s0 = (Ok state, s) /\ Represents s state /\
    s_snapshot_file s = snapshot /\ s_journal_file s = Some intact /\
    tail_report intact tail (s_recovery s).
Proof.
  intros Hj (base & first & old & new & HH) Ht.
  destruct (Store_open_healthy create journal snapshot) as (s0 & Ho & Hj0 & Hs0 & Hop & Hcl & Hi & Hb & Hrr).
  rewrite Hj in Hj0.
  destruct (load_snapshot_holds s0 base) as (s1 & Hl1 & [Ha Hb1 Hc Hd] & Hj1 & Hjb & Hr1); [|done|].
  { rewrite Hs0. exact (holds_snapshot _ _ _ _ _ _ _ HH). }
  destruct (replay_journal_holds s1 state base intact tail first old new)
    as (s2 & Hr & [Ha2 Hb2 Hc2 Hd2] & Hj2 & Hl2 & Hjb2 & Hr2); try congruence.
  exists s0, s2. split; [done|]. split; [|split; [|split; [congruence|split; [congruence|done]]]].
  - unfold Store_load. rewrite Hcl, Hl1. change (Status_ok ok_status) with true.
    cbn [negb]. rewrite Hr. reflexivity.
  - constructor; try congruence.
    + rewrite Hj2, Ha2, Ha, Hs0. exists base, first, old, new. done.
    + rewrite Hj2. done.
Qed.
