(* ===== verification/StateProps.v ===== *)
(** * Properties of the durable state

    Payload codecs, the bounds and well-formedness of the materialised state
    under any record, and the snapshot as an exact image of such a state. *)

From S2P Require Import Prelude.
From S2P Require Import Ids.
From S2P Require Import Limits.
From S2P Require Import Status.
From S2P Require Import Checked.
From S2P Require Import Authority.
From S2P Require Import Model.
From S2P Require Import Decision.
From S2P Require Import Records.
From S2P Require Import Bytes.
From S2P Require Import Canonical.
From S2P Require Import Wire.
From S2P Require Import WireProps.
From S2P Require Import Store.
From S2P Require Import StoreProps.

(** ** Payloads *)

Lemma finish_put {A} `{Wire A} (v : A) max :
  0 <= max -> size_of (wire_enc v) <= max ->
  finish (wire_put v (ByteWriter_new max)) = wire_enc v.
Proof.
  intros Hm Hle. destruct (wire_put_fresh max v Hm) as [Hok Hbuf]. unfold finish.
  rewrite (proj2 Hok Hle). exact (Hbuf Hle).
Qed.

Lemma finish_emits f bs max :
  Emits f bs -> 0 <= max -> size_of bs <= max -> finish (f (ByteWriter_new max)) = bs.
Proof.
  intros Hf Hm Hle. unfold finish. rewrite (emits_fits _ _ Hf); [done|done|].
  cbn [w_buffer w_max_size ByteWriter_new]. rewrite size_of_nil. lia.
Qed.

Lemma end_of_At r s : At r s -> Status_ok (end_of r).1 = true <-> s = [].
Proof.
  intros HA. unfold end_of. rewrite (at_ok _ _ HA). cbn [negb]. by apply require_end_At.
Qed.

(** A payload is accepted when it is the encoding of a well-formed value. *)
Lemma whole_payload_spec {A} (get : Read (Result A)) enc wf `{!Decodes get enc wf} payload v :
  whole_payload get payload = Ok v <-> wf v /\ payload = enc v.
Proof.
  unfold whole_payload. split.
  - destruct (get (ByteReader_new payload)) as [[x|st] r] eqn:E; [|done].
    destruct (dec_inv _ _ _ _ (At_new payload) E) as (Hwf & s & -> & HA).
    pose proof (end_of_At _ _ HA) as He. destruct (end_of r) as [st r2]. cbn [fst] in He.
    destruct (Status_ok st) eqn:Hst; cbn [negb]; [|done]. intros [= <-].
    split; [done|]. rewrite (proj1 He) by done. by rewrite app_nil_r.
  - intros [Hwf ->]. destruct (dec_read (ByteReader_new (enc v)) v []) as (r & -> & HA); [|done|].
    { rewrite app_nil_r. apply At_new. }
    pose proof (end_of_At _ _ HA) as He. destruct (end_of r) as [st r2]. cbn [fst] in He.
    by rewrite (proj2 He eq_refl).
Qed.

(** ** The sizes of the encodings *)

Create Rewrite HintDb sizes.

Lemma size_enc_id {T} (i : Id T) : size_of (enc_id i) = 8.
Proof. apply size_le_bytes. Qed.
Lemma size_enc_enum {E} `{Enum E} (e : E) : size_of (enc_enum e) = 1.
Proof. apply size_le_bytes. Qed.
Lemma size_enc_reason r : size_of (enc_reason r) = 2.
Proof. apply size_le_bytes. Qed.
Lemma size_enc_bool b : size_of (enc_bool b) = 1.
Proof. apply size_le_bytes. Qed.
Lemma size_enc_i64 v : size_of (enc_i64 v) = 8.
Proof. apply size_le_bytes. Qed.
#[export] Hint Rewrite @size_enc_id @size_enc_enum size_enc_reason size_enc_bool size_enc_i64
  size_le_bytes : sizes.

Ltac solve_size := autorewrite with pff sizes; reflexivity.

Lemma size_enc_authority v : size_of (enc_authority v) = 48.
Proof. unfold enc_authority. solve_size. Qed.
#[export] Hint Rewrite size_enc_authority : sizes.
Lemma size_enc_evidence v : size_of (enc_evidence v) = 97.
Proof. unfold enc_evidence. solve_size. Qed.
#[export] Hint Rewrite size_enc_evidence : sizes.
Lemma size_enc_candidate v : size_of (enc_candidate v) = 158.
Proof. unfold enc_candidate. solve_size. Qed.
Lemma size_enc_obligations v : size_of (enc_obligations v) = 31.
Proof. unfold enc_obligations. solve_size. Qed.
Lemma size_enc_policy v : size_of (enc_policy v) = 62.
Proof. unfold enc_policy. solve_size. Qed.
Lemma size_enc_attempt v : size_of (enc_attempt v) = 127.
Proof. unfold enc_attempt. solve_size. Qed.
Lemma size_enc_fence v : size_of (enc_fence v) = 98.
Proof. unfold enc_fence. solve_size. Qed.
Lemma size_enc_lineage v : size_of (enc_lineage v) = 115.
Proof. unfold enc_lineage. solve_size. Qed.

Lemma size_of_bind {A B} (f : A -> list B) l n :
  (forall x, size_of (f x) = n) -> size_of (l ≫= f) = size_of l * n.
Proof.
  intros Hf. induction l as [|x l IH]; [done|]. cbn [mbind list_bind].
  change (f x ++ (_ : list B)) with (f x ++ (l ≫= f)). rewrite size_of_app, size_of_cons, IH, Hf. lia.
Qed.

Lemma size_enc_set v : size_of (enc_set v) = 21 + 158 * size_of (set_candidates v).
Proof.
  unfold enc_set, enc_seq. autorewrite with pff sizes.
  rewrite (size_of_bind _ _ 158) by apply size_enc_candidate. lia.
Qed.
#[export] Hint Rewrite size_enc_candidate size_enc_obligations size_enc_policy size_enc_attempt
  size_enc_fence size_enc_lineage size_enc_set : sizes.

(** ** The composite payloads *)

Definition enc_epoch (v : AuthorityVector * Z * Z * Z * Z) : list byte :=
  let '(authority, restart_count, attempts, fences, decisions) := v in
  enc_authority authority ++ le_bytes 8 restart_count ++ le_bytes 8 attempts ++
  le_bytes 8 fences ++ le_bytes 8 decisions.

Definition epoch_wf (v : AuthorityVector * Z * Z * Z * Z) : Prop :=
  let '(authority, restart_count, attempts, fences, decisions) := v in
  authority_wf authority /\ is_u64 restart_count /\ is_u64 attempts /\ is_u64 fences /\
  is_u64 decisions.

Definition get_epoch : Read (Result (AuthorityVector * Z * Z * Z * Z)) :=
  let+ authority := get_authority in
  let* restart_count := r_u64 in
  let* attempt_sequence := r_u64 in
  let* fence_sequence := r_u64 in
  let* decision_sequence := r_u64 in
  r_return (authority, restart_count, attempt_sequence, fence_sequence, decision_sequence).

(** The same reads with the health check that the end check performs anyway. *)
Definition get_epoch_checked : Read (Result (AuthorityVector * Z * Z * Z * Z)) :=
  let+ authority := get_authority in
  let* restart_count := r_u64 in
  let* attempt_sequence := r_u64 in
  let* fence_sequence := r_u64 in
  let* decision_sequence := r_u64 in
  when_ok (r_return (authority, restart_count, attempt_sequence, fence_sequence,
                     decision_sequence)).

Lemma whole_payload_failed {A} (v : A) r :
  r_ok r = false ->
  (let (status, _) := end_of r in if negb (Status_ok status) then Err status else Ok v)
  = Err (r_status r).
Proof. unfold end_of. intros Hr. rewrite Hr. cbn [negb]. unfold r_ok in Hr. by rewrite Hr. Qed.

Lemma get_epoch_eq payload : whole_payload get_epoch payload = whole_payload get_epoch_checked payload.
Proof.
  unfold whole_payload, get_epoch, get_epoch_checked, read_try, read_bind, r_return, when_ok.
  destruct (get_authority (ByteReader_new payload)) as [[a|st] r1]; [|done].
  destruct (r_u64 r1) as [? r2], (r_u64 r2) as [? r3], (r_u64 r3) as [? r4], (r_u64 r4) as [? r5].
  destruct (r_ok r5) eqn:Hok; cbn [negb]; [done|]. by apply whole_payload_failed.
Qed.

#[export] Instance decodes_epoch : Decodes get_epoch_checked enc_epoch epoch_wf.
Proof.
  unfold get_epoch_checked. constructor.
  - intros r [[[[a rc] n1] n2] n3] s HA Hwf. cbn [enc_epoch epoch_wf] in *. destruct_and? Hwf.
    rewrite <- !app_assoc in HA. read_start. repeat read_step.
  - intros r s v r' HA H. repeat inv_step. cbn [enc_epoch epoch_wf]. split; [tauto|].
    eexists. split; [rewrite <- ?app_assoc; reflexivity|eassumption].
Qed.

(** What an epoch record does. *)
Definition with_epoch (v : AuthorityVector * Z * Z * Z * Z) (state : DurableState)
    : DurableState :=
  let '(authority, restart_count, attempt_sequence, fence_sequence, decision_sequence) := v in
  state <| ds_authority := authority |> <| ds_restart_count := restart_count |>
    <| ds_attempt_sequence ::= fun n => Z.max n attempt_sequence |>
    <| ds_fence_sequence ::= fun n => Z.max n fence_sequence |>
    <| ds_decision_sequence ::= fun n => Z.max n decision_sequence |>.

Lemma apply_epoch_eq payload state :
  apply_epoch payload state =
  match whole_payload get_epoch_checked payload with
  | Err status => (status, state)
  | Ok v => (ok_status, with_epoch v state)
  end.
Proof.
  rewrite <- get_epoch_eq. unfold apply_epoch. fold get_epoch.
  destruct (whole_payload get_epoch payload) as [[[[[a rc] n1] n2] n3]|st]; done.
Qed.

Lemma encode_epoch_record_spec a rc n1 n2 n3 :
  encode_epoch_record a rc n1 n2 n3 = enc_epoch (a, rc, n1, n2, n3).
Proof.
  apply (finish_emits (fun w => w_u64 n3 (w_u64 n2 (w_u64 n1 (w_u64 rc (put_authority a w))))));
    [|done|].
  - cbn [enc_epoch]. solve_emits.
  - cbn [enc_epoch]. autorewrite with pff sizes. vm_compute. congruence.
Qed.

(** *** Counters *)

Definition enc_counters (state : DurableState) : list byte :=
  le_bytes 8 (ds_attempt_sequence state) ++ le_bytes 8 (ds_fence_sequence state) ++
  le_bytes 8 (ds_decision_sequence state) ++ le_bytes 8 (ds_fence_overflow state) ++
  le_bytes 8 (ds_attempts_dropped state) ++ enc_bool (ds_lineage_truncated state).

Lemma encode_counters_record_spec state : encode_counters_record state = enc_counters state.
Proof.
  apply (finish_emits (fun w => w_boolean (ds_lineage_truncated state)
    (w_u64 (ds_attempts_dropped state) (w_u64 (ds_fence_overflow state)
      (w_u64 (ds_decision_sequence state) (w_u64 (ds_fence_sequence state)
        (w_u64 (ds_attempt_sequence state) w)))))));
    [|done|].
  - unfold enc_counters. solve_emits.
  - unfold enc_counters. autorewrite with pff sizes. vm_compute. congruence.
Qed.

(** The counters of [src] merged into [state]. *)
Definition with_counters (src state : DurableState) : DurableState :=
  state <| ds_attempt_sequence ::= fun n => Z.max n (ds_attempt_sequence src) |>
    <| ds_fence_sequence ::= fun n => Z.max n (ds_fence_sequence src) |>
    <| ds_decision_sequence ::= fun n => Z.max n (ds_decision_sequence src) |>
    <| ds_fence_overflow := ds_fence_overflow src |>
    <| ds_attempts_dropped := ds_attempts_dropped src |>
    <| ds_lineage_truncated ::= fun b => b || ds_lineage_truncated src |>.

Definition counters_wf (state : DurableState) : Prop :=
  is_u64 (ds_attempt_sequence state) /\ is_u64 (ds_fence_sequence state) /\
  is_u64 (ds_decision_sequence state) /\ is_u64 (ds_fence_overflow state) /\
  is_u64 (ds_attempts_dropped state).

Lemma apply_counters_enc src state :
  counters_wf src -> apply_counters (enc_counters src) state = (ok_status, with_counters src state).
Proof.
  intros (H1 & H2 & H3 & H4 & H5). unfold apply_counters.
  pose proof (At_new (enc_counters src)) as HA. unfold enc_counters in *.
  destruct (raw_read (p := r_u64) _ _ _ HA H1) as (r1 & -> & HA1).
  destruct (raw_read (p := r_u64) _ _ _ HA1 H2) as (r2 & -> & HA2).
  destruct (raw_read (p := r_u64) _ _ _ HA2 H3) as (r3 & -> & HA3).
  destruct (raw_read (p := r_u64) _ _ _ HA3 H4) as (r4 & -> & HA4).
  destruct (raw_read (p := r_u64) _ _ _ HA4 H5) as (r5 & -> & HA5).
  rewrite <- (app_nil_r (enc_bool _)) in HA5.
  destruct (raw_read (p := r_boolean) _ _ _ HA5 I) as (r6 & -> & HA6).
  pose proof (end_of_At _ _ HA6) as He. destruct (end_of r6) as [st r7]. cbn [fst] in He.
  by rewrite (proj2 He eq_refl).
Qed.

(** ** The bounds of the materialised state *)

(** Every table is within its limit and holds well-formed values, no two sets
    or attempts share an identity, and every counter is a 64-bit word. *)
Record tables_wf (s : DurableState) : Prop := {
  tw_authority : authority_wf (ds_authority s);
  tw_policy : if ds_has_policy s then policy_wf (ds_policy s)
              else ds_policy s = FailoverPolicy_default;
  tw_obligations : if ds_has_obligations s then obligations_wf (ds_obligations s)
                   else ds_obligations s = ServiceObligations_default;
  tw_sets : seq_wf wire_set_wf max_alternate_sets (ds_sets s);
  tw_sets_distinct : NoDup (set_id <$> ds_sets s);
  tw_fences : seq_wf fence_wf max_fences (ds_fences s);
  tw_attempts : seq_wf attempt_wf max_attempts (ds_attempts s);
  tw_attempts_distinct : NoDup (at_id <$> ds_attempts s);
  tw_lineage : seq_wf lineage_wf max_lineage (ds_lineage s);
  tw_counters : counters_wf s;
  tw_last : is_u64 (ds_last_sequence s);
  tw_restarts : is_u64 (ds_restart_count s) }.

Lemma tables_wf_default : tables_wf DurableState_default.
Proof.
  constructor; try reflexivity; try (split; [vm_compute; congruence|constructor]); try constructor;
    vm_compute; repeat split; congruence.
Qed.

(** *** Replacing and removing in a keyed table *)

Section keyed.
Context {A T} (key : A -> Id T) (wf : A -> Prop).

Lemma replace_first_keys x l l' :
  replace_first (fun y => Id_eqb (key y) (key x)) x l = Some l' -> key <$> l' = key <$> l.
Proof.
  revert l'. induction l as [|y l IH]; intros l'; [done|]. cbn [replace_first].
  destruct (Id_eqb_spec (key y) (key x)) as [He|He].
  - intros [= <-]. rewrite !fmap_cons. by rewrite He.
  - destruct (replace_first _ x l) as [l2|] eqn:E; [|done]. intros [= <-].
    rewrite !fmap_cons. by rewrite (IH l2).
Qed.

Lemma replace_first_Forall p x l l' :
  wf x -> Forall wf l -> replace_first p x l = Some l' -> Forall wf l'.
Proof.
  intros Hx. revert l'. induction l as [|y l IH]; intros l' Hl; [done|]. cbn [replace_first].
  apply List.Forall_cons_iff in Hl as [Hy Hl]. destruct (p y).
  - intros [= <-]. by constructor.
  - destruct (replace_first p x l) as [l2|]; [|done]. intros [= <-]. constructor; [done|].
    by apply IH.
Qed.

Lemma replace_first_None x l :
  replace_first (fun y => Id_eqb (key y) (key x)) x l = None <-> key x ∉ key <$> l.
Proof.
  induction l as [|y l IH].
  - split; [intros _; apply not_elem_of_nil|done].
  - cbn [replace_first]. rewrite fmap_cons, not_elem_of_cons.
    destruct (Id_eqb_spec (key y) (key x)) as [He|He].
    + split; [done|]. intros [Hn _]. by rewrite He in Hn.
    + rewrite <- IH. destruct (replace_first _ x l); split; try done.
      by intros [_ ?].
Qed.

Lemma remove_first_sublist p (l l' : list A) : remove_first p l = Some l' -> sublist l' l.
Proof.
  revert l'. induction l as [|y l IH]; intros l'; [done|]. cbn [remove_first]. destruct (p y).
  - intros [= <-]. by apply sublist_cons.
  - destruct (remove_first p l) as [l2|]; [|done]. intros [= <-]. by apply sublist_skip, IH.
Qed.

Lemma NoDup_keys_snoc x l : NoDup (key <$> l) -> key x ∉ key <$> l -> NoDup (key <$> l ++ [x]).
Proof.
  intros Hl Hx. rewrite fmap_app. apply list.NoDup_app. split; [done|]. split.
  - intros k Hk Hk'. apply list_elem_of_singleton in Hk'. by subst.
  - apply NoDup_singleton.
Qed.
End keyed.

Lemma seq_wf_snoc {A} (wf : A -> Prop) bound l x :
  seq_wf wf bound l -> wf x -> size_of l < bound -> seq_wf wf bound (l ++ [x]).
Proof.
  intros [Hl Hwf] Hx Hlt. split; [autorewrite with pff; lia|]. apply Forall_app. split; [done|].
  by constructor.
Qed.

Lemma seq_wf_sublist {A} (wf : A -> Prop) bound l l' :
  seq_wf wf bound l -> sublist l' l -> seq_wf wf bound l'.
Proof.
  intros [Hl Hwf] Hs. split.
  - apply sublist_length in Hs. unfold size_of in *. lia.
  - rewrite List.Forall_forall in *. intros x Hx. apply Hwf.
    apply list_elem_of_In. apply list_elem_of_In in Hx. eapply elem_of_sublist; eauto.
Qed.

(** *** Each update preserves the bounds *)

Lemma put_durable_set_wf set s : wire_set_wf set -> tables_wf s -> tables_wf (put_durable_set set s).2.
Proof.
  intros Hset [ ]. unfold put_durable_set.
  destruct (replace_first _ set (ds_sets s)) as [sets|] eqn:E.
  - constructor; try assumption; cbn [snd ds_sets update_field].
    + destruct tw_sets0 as [Hl Hwf]. split.
      * apply replace_first_length in E. unfold size_of in *. cbn. lia.
      * by apply (replace_first_Forall _ _ _ _ _ Hset Hwf E).
    + cbn. by rewrite (replace_first_keys set_id _ _ _ E).
  - apply (replace_first_None set_id) in E.
    destruct (Z.leb_spec max_alternate_sets (size_of (ds_sets s))); [by constructor|].
    constructor; try assumption; cbn -[size_of max_alternate_sets].
    + by apply seq_wf_snoc.
    + by apply NoDup_keys_snoc.
Qed.

Lemma put_durable_fence_wf f s : fence_wf f -> tables_wf s -> tables_wf (put_durable_fence f s).2.
Proof.
  intros Hf [ ]. unfold put_durable_fence.
  destruct (Z.leb_spec max_fences (size_of (ds_fences s))); [by constructor|].
  constructor; try assumption; cbn -[size_of max_fences]. by apply seq_wf_snoc.
Qed.

Lemma put_durable_lineage_wf e s : lineage_wf e -> tables_wf s -> tables_wf (put_durable_lineage e s).
Proof.
  intros He [ ]. unfold put_durable_lineage.
  destruct (Z.leb_spec max_lineage (size_of (ds_lineage s))) as [Hle|Hlt].
  - constructor; try assumption; cbn -[size_of max_lineage]. destruct tw_lineage0 as [Hl Hwf].
    destruct (ds_lineage s) as [|x l].
    + unfold size_of in Hle; cbn in Hle. unfold max_lineage in Hle. lia.
    + apply List.Forall_cons_iff in Hwf as [_ Hwf]. cbn -[size_of max_lineage].
      rewrite size_of_cons in *. apply seq_wf_snoc; [split; [lia|done]|done|lia].
  - constructor; try assumption; cbn -[size_of max_lineage]. by apply seq_wf_snoc.
Qed.

Lemma put_durable_attempt_wf r s :
  attempt_wf r -> tables_wf s -> tables_wf (put_durable_attempt r s).2.
Proof.
  intros Hr [ ]. unfold put_durable_attempt.
  destruct (replace_first _ r (ds_attempts s)) as [l|] eqn:E.
  - constructor; try assumption; cbn -[size_of max_attempts].
    + destruct tw_attempts0 as [Hl Hwf]. split.
      * apply replace_first_length in E. unfold size_of in *. lia.
      * by apply (replace_first_Forall _ _ _ _ _ Hr Hwf E).
    + by rewrite (replace_first_keys at_id _ _ _ E).
  - apply (replace_first_None at_id) in E.
    destruct (Z.leb_spec max_attempts (size_of (ds_attempts s))).
    + destruct (remove_first _ (ds_attempts s)) as [l|] eqn:E2; [|by constructor].
      pose proof (remove_first_sublist _ _ _ E2) as Hsub.
      apply remove_first_length in E2.
      pose proof tw_attempts0 as [Hl _].
      constructor; try assumption; cbn -[size_of max_attempts wrap_u64].
      * apply seq_wf_snoc; [by apply (seq_wf_sublist _ _ _ _ tw_attempts0)|done|].
        unfold size_of in *. lia.
      * apply NoDup_keys_snoc;
          [eapply sublist_NoDup; [exact tw_attempts_distinct0|by apply fmap_sublist]|].
        intros Hin. apply E. eapply elem_of_sublist; [exact Hin|]. by apply fmap_sublist.
      * destruct tw_counters0 as (?&?&?&?&?). unfold counters_wf. cbn -[wrap_u64].
        do 4 (split; [assumption|]). apply wrap_u64_range.
    + constructor; try assumption; cbn -[size_of max_attempts].
      * by apply seq_wf_snoc.
      * by apply NoDup_keys_snoc.
Qed.

Lemma r_u64_range r : is_u64 (r_u64 r).1.
Proof.
  unfold r_u64, r_uint. destruct (negb (r_ok r)); [unfold_ints; cbn; lia|].
  destruct (Nat.ltb_spec (r_remaining r) 8); [unfold_ints; cbn; lia|]. cbn [fst].
  apply uint_wf_u64. pose proof (le_value_range (take 8 (drop (r_offset r) (r_data r)))) as Hr.
  rewrite length_take, length_drop in Hr. unfold r_remaining in *.
  by replace (8 `min` (length (r_data r) - r_offset r))%nat with 8%nat in Hr by lia.
Qed.

Lemma is_u64_max a b : is_u64 a -> is_u64 b -> is_u64 (Z.max a b).
Proof. unfold is_u64. lia. Qed.

Lemma with_epoch_wf v s : epoch_wf v -> tables_wf s -> tables_wf (with_epoch v s).
Proof.
  destruct v as [[[[a rc] n1] n2] n3]. cbn [epoch_wf with_epoch].
  intros (Ha & Hrc & H1 & H2 & H3) [ ]. constructor; try assumption.
  destruct tw_counters0 as (?&?&?&?&?). unfold counters_wf. cbn -[Z.max].
  do 3 (split; [by apply is_u64_max|]). done.
Qed.

(** Even a payload that is refused leaves counters that are words. *)
Lemma apply_counters_wf payload s : tables_wf s -> tables_wf (apply_counters payload s).2.
Proof.
  intros [ ]. unfold apply_counters.
  pose proof (r_u64_range (ByteReader_new payload)) as H1.
  destruct (r_u64 (ByteReader_new payload)) as [n1 r1].
  pose proof (r_u64_range r1) as H2. destruct (r_u64 r1) as [n2 r2].
  pose proof (r_u64_range r2) as H3. destruct (r_u64 r2) as [n3 r3].
  pose proof (r_u64_range r3) as H4. destruct (r_u64 r3) as [n4 r4].
  pose proof (r_u64_range r4) as H5. destruct (r_u64 r4) as [n5 r5].
  destruct (r_boolean r5) as [b r6]. destruct (end_of r6) as [st r7].
  destruct tw_counters0 as (?&?&?&?&?).
  assert (Hc : counters_wf (s <| ds_attempt_sequence ::= fun n => Z.max n n1 |>
      <| ds_fence_sequence ::= fun n => Z.max n n2 |>
      <| ds_decision_sequence ::= fun n => Z.max n n3 |>
      <| ds_fence_overflow := n4 |> <| ds_attempts_dropped := n5 |>)).
  { unfold counters_wf. cbn -[Z.max]. do 3 (split; [by apply is_u64_max|]). done. }
  destruct (negb (Status_ok st)); constructor; assumption.
Qed.

Lemma authority_wf_policy a g : authority_wf a -> Id_wf g -> authority_wf (a <| av_policy := g |>).
Proof. unfold authority_wf. cbn [av_topology av_path_authority av_policy av_obligations av_epoch
  av_boot update_field]. tauto. Qed.
Lemma authority_wf_obligations a g :
  authority_wf a -> Id_wf g -> authority_wf (a <| av_obligations := g |>).
Proof. unfold authority_wf. cbn [av_topology av_path_authority av_policy av_obligations av_epoch
  av_boot update_field]. tauto. Qed.

(** No record whatever its bytes takes the state out of its bounds. *)
Lemma apply_record_wf s t p : tables_wf s -> tables_wf (apply_record s t p).2.
Proof.
  intros Hs. destruct t; cbn [apply_record].
  - destruct (whole_payload get_policy p) as [v|st] eqn:E; [|done].
    apply (whole_payload_spec get_policy enc_policy policy_wf) in E as [Hv _].
    destruct Hs. constructor; try assumption.
    apply authority_wf_policy; [done|apply Hv].
  - destruct (whole_payload get_obligations p) as [v|st] eqn:E; [|done].
    apply (whole_payload_spec get_obligations enc_obligations obligations_wf) in E as [Hv _].
    destruct Hs. constructor; try assumption.
    apply authority_wf_obligations; [done|apply Hv].
  - destruct (whole_payload get_set p) as [v|st] eqn:E; [|done].
    apply (whole_payload_spec get_set enc_set wire_set_wf) in E as [Hv _].
    by apply put_durable_set_wf.
  - destruct (whole_payload get_fence p) as [v|st] eqn:E; [|done].
    apply (whole_payload_spec get_fence enc_fence fence_wf) in E as [Hv _].
    by apply put_durable_fence_wf.
  - destruct (whole_payload get_attempt p) as [v|st] eqn:E; [|done].
    apply (whole_payload_spec get_attempt enc_attempt attempt_wf) in E as [Hv _].
    by apply put_durable_attempt_wf.
  - destruct (whole_payload get_attempt p) as [v|st] eqn:E; [|done].
    apply (whole_payload_spec get_attempt enc_attempt attempt_wf) in E as [Hv _].
    by apply put_durable_attempt_wf.
  - destruct (whole_payload get_lineage p) as [v|st] eqn:E; [|done].
    apply (whole_payload_spec get_lineage enc_lineage lineage_wf) in E as [Hv _].
    by apply put_durable_lineage_wf.
  - rewrite apply_epoch_eq.
    destruct (whole_payload get_epoch_checked p) as [v|st] eqn:E; [|done].
    apply (whole_payload_spec get_epoch_checked enc_epoch epoch_wf) in E as [Hv _].
    by apply with_epoch_wf.
  - destruct (whole_payload _ p); done.
  - by apply apply_counters_wf.
Qed.
