(* ===== verification/SnapshotProps.v ===== *)
(** * Properties of the snapshot

    A snapshot of a bounded state never fails to encode, and decodes to exactly
    that state. *)

From S2P Require Import Prelude.
From S2P Require Import Ids.
From S2P Require Import Limits.
From S2P Require Import Status.
From S2P Require Import Checked.
From S2P Require Import Authority.
From S2P Require Import Model.
From S2P Require Import Decision.
From S2P Require Import Records.
From S2P Require Import Bytes.
From S2P Require Import Canonical.
From S2P Require Import Wire.
From S2P Require Import WireProps.
From S2P Require Import Store.
From S2P Require Import StoreProps.
From S2P Require Import StateProps.

(** ** The body *)

Definition records_emit (records : list (RecordType * list byte)) : Prop :=
  Forall (fun r => r.2 <> [] /\ size_of r.2 <= max_record_payload) records.

Lemma records_emit_fit records : records_emit records -> payloads_fit records.
Proof. apply List.Forall_impl. by intros r [_ ?]. Qed.

Lemma emit_record_spec buf max count seq t p :
  p <> [] -> size_of p <= max_record_payload -> 0 <= seq < UINT64_MAX ->
  size_of buf + size_of (enc_record t (seq + 1) p) <= max ->
  emit_record (mkSnapshotBody (mkByteWriter buf max ok_status) count seq false) (t, p) =
  mkSnapshotBody (mkByteWriter (buf ++ enc_record t (seq + 1) p) max ok_status)
    (count + 1) (seq + 1) false.
Proof.
  intros Hp Hfit Hseq Hmax. unfold emit_record. rewrite bool_decide_eq_false_2 by done.
  cbn [sb_frame_sequence sb_writer sb_record_count sb_failed].
  rewrite encode_journal_record_spec by (split; [unfold_ints; lia|split; [lia|done]]).
  destruct (enc_record_cons t (seq + 1) p []) as (b & bs & Hb). rewrite app_nil_r in Hb.
  rewrite bool_decide_eq_false_2 by (by rewrite Hb).
  by rewrite (emits_fits_at _ _ _ _ (emits_bytes _)).
Qed.

Lemma emit_records_spec records buf max count seq :
  records_emit records -> 0 <= seq -> seq + size_of records <= UINT64_MAX ->
  size_of buf + size_of (journal_of (seq + 1) records) <= max ->
  foldl emit_record (mkSnapshotBody (mkByteWriter buf max ok_status) count seq false) records =
  mkSnapshotBody (mkByteWriter (buf ++ journal_of (seq + 1) records) max ok_status)
    (count + size_of records) (seq + size_of records) false.
Proof.
  revert buf count seq. induction records as [|[t p] rs IH]; intros buf count seq Hr Hs Hle Hmax.
  { cbn. rewrite app_nil_r. rewrite size_of_nil. do 2 f_equal; lia. }
  apply List.Forall_cons_iff in Hr as [[Hp Hf] Hr]. cbn [snd] in *.
  rewrite size_of_cons in Hle. pose proof (size_of_nonneg rs).
  cbn [journal_of] in Hmax. rewrite size_of_app in Hmax.
  pose proof (size_of_nonneg (journal_of (seq + 1 + 1) rs)).
  cbn [foldl]. rewrite emit_record_spec by (done || lia).
  rewrite IH by (done || lia || (rewrite size_of_app; lia)).
  cbn [journal_of]. rewrite size_of_cons, app_assoc. f_equal; lia.
Qed.

(** Applying records without counting sequences. *)
Fixpoint apply_records (state : DurableState) (records : list (RecordType * list byte))
    : Result DurableState :=
  match records with
  | [] => Ok state
  | (t, p) :: records' =>
      let (applied, state') := apply_record state t p in
      if negb (Status_ok applied) then Err applied else apply_records state' records'
  end.

Lemma apply_records_app state r1 r2 :
  apply_records state (r1 ++ r2) = (let? s := apply_records state r1 in apply_records s r2).
Proof.
  revert state. induction r1 as [|[t p] r1 IH]; intros state; [done|]. cbn [apply_records app].
  destruct (apply_record state t p) as [st s']. destruct (negb _); [done|]. apply IH.
Qed.

Lemma decode_body_step fuel t seq p tail state seen :
  record_wf seq p ->
  decode_snapshot_body (S fuel) (enc_record t seq p ++ tail) state seen =
  let (applied, state') := apply_record state t p in
  if negb (Status_ok applied) then Err applied
  else decode_snapshot_body fuel tail state' (seen + 1).
Proof.
  intros Hwf.
  pose proof (record_header_length t seq p) as Hpl.
  destruct (enc_record_slices t seq p tail) as (Hh & Hp & Hc & Hd & Hn).
  pose proof (record_header_ok t seq p Hwf) as Hok.
  destruct (enc_record_cons t seq p tail) as (b & bs & Hb). rewrite Hb at 1.
  cbn [decode_snapshot_body]. rewrite <- Hb. rewrite Hh.
  rewrite (proj2 (decode_header_spec _ _) (conj eq_refl Hok)). cbv iota beta zeta.
  rewrite Hpl, Hp, Hc, Hd.
  destruct (Nat.ltb_spec (length (enc_record t seq p ++ tail)) journal_header_bytes);
    [unfold journal_header_bytes in *; lia|].
  destruct (Nat.ltb_spec (length (enc_record t seq p ++ tail))
              (journal_header_bytes + length p + journal_trailer_bytes)); [lia|].
  rewrite Z.eqb_refl. cbn [negb jh_type record_header]. by rewrite RecordType_cast_value.
Qed.

Lemma decode_body_journal fuel records first state state' seen :
  payloads_fit records -> sequences_fit first records ->
  apply_records state records = Ok state' ->
  decode_snapshot_body (length records + fuel) (journal_of first records) state seen =
  Ok (state', seen + size_of records).
Proof.
  revert first state seen. induction records as [|[t p] rs IH]; intros first state seen Hfit Hseq.
  { cbn. intros [= <-]. rewrite size_of_nil, Z.add_0_r. by destruct fuel. }
  apply List.Forall_cons_iff in Hfit as [Hp Hfit].
  apply sequences_fit_cons in Hseq as (Hu & Hne & Hseq).
  cbn [journal_of length Nat.add apply_records]. rewrite decode_body_step by (split; [done|split; done]).
  destruct (apply_record state t p) as [applied state1].
  destruct (negb (Status_ok applied)); [done|]. intros H. rewrite (IH _ _ _ Hfit Hseq H).
  rewrite size_of_cons. do 2 f_equal. lia.
Qed.

(** ** The frame around the body *)

Definition snapshot_prefix (last count : Z) (body : list byte) : list byte :=
  le_bytes 4 snapshot_magic ++ le_bytes 2 durable_format_version ++ le_bytes 2 0 ++
  le_bytes 8 last ++ le_bytes 4 count ++ le_bytes 4 (size_of body) ++ le_bytes 4 0 ++ le_bytes 4 0.

Definition snapshot_head (last count : Z) (body : list byte) : list byte :=
  snapshot_prefix last count body ++ le_bytes 4 (crc32c (snapshot_prefix last count body)) ++
  le_bytes 4 0.

Definition snapshot_of (last count : Z) (body : list byte) : list byte :=
  snapshot_head last count body ++ body ++
  le_bytes 4 (crc32c (snapshot_head last count body ++ body)) ++ le_bytes 4 snapshot_footer_magic.

Lemma snapshot_prefix_length last count body : length (snapshot_prefix last count body) = 32%nat.
Proof. unfold snapshot_prefix. by rewrite !length_app, !le_bytes_length. Qed.
Lemma snapshot_head_length last count body : length (snapshot_head last count body) = 40%nat.
Proof. unfold snapshot_head. by rewrite !length_app, !le_bytes_length, snapshot_prefix_length. Qed.

Lemma size_snapshot_of last count body : size_of (snapshot_of last count body) = 48 + size_of body.
Proof.
  unfold snapshot_of. rewrite !size_of_app, !size_le_bytes. unfold size_of at 1.
  rewrite snapshot_head_length. lia.
Qed.

Lemma encode_snapshot_spec s :
  records_emit (snapshot_records s) ->
  size_of (journal_of 1 (snapshot_records s)) <= max_snapshot_bytes ->
  encode_snapshot s =
  snapshot_of (ds_last_sequence s) (size_of (snapshot_records s)) (journal_of 1 (snapshot_records s)).
Proof.
  intros Hr Hle. unfold encode_snapshot.
  pose proof (journal_of_length_ge 1 (snapshot_records s)) as Hge.
  set (records := snapshot_records s) in *. set (body := journal_of 1 records) in *.
  assert (Hcount : size_of records <= 67108864) by (unfold size_of in *; unfold_limits; lia).
  change (ByteWriter_new max_snapshot_bytes) with (mkByteWriter [] max_snapshot_bytes ok_status).
  rewrite emit_records_spec; [|done|lia|unfold_ints; lia|exact Hle].
  change (0 + 1) with 1. rewrite app_nil_l. fold body. rewrite Z.add_0_l.
  cbn [sb_writer sb_failed sb_record_count w_buffer]. change (w_ok (mkByteWriter body _ ok_status)) with true.
  cbn [negb orb]. change (ByteWriter_new (max_snapshot_bytes + 64)) with (mkByteWriter [] 67108928 ok_status).
  set (pre := snapshot_prefix (ds_last_sequence s) (size_of records) body).
  assert (Hpre : Emits (fun w => w_u32 0 (w_u32 0 (w_u32 (wrap_u32 (size_of body))
      (w_u32 (size_of records) (w_u64 (ds_last_sequence s) (w_u16 0
        (w_u16 durable_format_version (w_u32 snapshot_magic w)))))))) pre).
  { unfold pre, snapshot_prefix. solve_emits. }
  assert (Hlen : size_of pre = 32) by (unfold size_of, pre; by rewrite snapshot_prefix_length).
  pose proof (size_of_nonneg body). unfold_limits.
  pose proof (emits_fits_at _ _ [] 67108928 Hpre) as H1. cbv beta in H1.
  rewrite H1 by (rewrite size_of_nil; lia). clear H1. rewrite app_nil_l.
  change (w_ok (mkByteWriter pre 67108928 ok_status)) with true. cbn [negb w_buffer].
  rewrite (emits_fits_at _ _ _ _ (emits_uint 4 (crc32c pre))) by (rewrite size_le_bytes; lia).
  rewrite (emits_fits_at _ _ _ _ (emits_uint 4 0)) by (rewrite size_of_app, !size_le_bytes; lia).
  rewrite <- app_assoc. change (pre ++ le_bytes 4 (crc32c pre) ++ le_bytes 4 0)
    with (snapshot_head (ds_last_sequence s) (size_of records) body).
  set (head := snapshot_head (ds_last_sequence s) (size_of records) body).
  assert (Hh : size_of head = 40) by (unfold size_of, head; by rewrite snapshot_head_length).
  rewrite (emits_fits_at _ _ _ _ (emits_bytes body)) by lia.
  match goal with |- context [w_ok ?w] => change (w_ok w) with true end. cbn [negb w_buffer].
  rewrite (emits_fits_at _ _ _ _ (emits_uint 4 _)) by (rewrite size_of_app, size_le_bytes; lia).
  rewrite (emits_fits_at _ _ _ _ (emits_uint 4 _)) by (rewrite !size_of_app, !size_le_bytes; lia).
  unfold finish. match goal with |- context [w_ok ?w] => change (w_ok w) with true end.
  cbn [negb w_buffer]. unfold snapshot_of. fold head. by rewrite <- !app_assoc.
Qed.

Lemma read_snapshot_header_of last count body :
  is_u64 last -> is_u32 count -> is_u32 (size_of body) ->
  exists r, read_snapshot_header (ByteReader_new (snapshot_head last count body)) =
    (mkSnapshotHeader snapshot_magic durable_format_version 0 last count (size_of body)
       (crc32c (snapshot_prefix last count body)), r) /\ At r [].
Proof.
  intros Hl Hc Hb. unfold read_snapshot_header, read_bind.
  pose proof (At_new (snapshot_head last count body)) as HA.
  set (crc := crc32c (snapshot_prefix last count body)).
  assert (Hcrc : is_u32 crc) by (pose proof (crc32c_range (snapshot_prefix last count body)); exact H).
  unfold snapshot_head in HA at 2. fold crc in HA. unfold snapshot_prefix in HA.
  rewrite <- !app_assoc in HA. rewrite <- (app_nil_r (le_bytes 4 0)) in HA at 3.
  assert (H0 : is_u32 0 /\ is_u16 0 /\ is_u32 snapshot_magic /\ is_u16 durable_format_version)
    by (unfold_ints; unfold snapshot_magic, durable_format_version; lia).
  destruct H0 as (H32 & H16 & Hm & Hv).
  destruct (raw_read (p := r_u32) _ _ _ HA Hm) as (r1 & -> & HA1).
  destruct (raw_read (p := r_u16) _ _ _ HA1 Hv) as (r2 & -> & HA2).
  destruct (raw_read (p := r_u16) _ _ _ HA2 H16) as (r3 & -> & HA3).
  destruct (raw_read (p := r_u64) _ _ _ HA3 Hl) as (r4 & -> & HA4).
  destruct (raw_read (p := r_u32) _ _ _ HA4 Hc) as (r5 & -> & HA5).
  destruct (raw_read (p := r_u32) _ _ _ HA5 Hb) as (r6 & -> & HA6).
  destruct (raw_read (p := r_u32) _ _ _ HA6 H32) as (r7 & -> & HA7).
  destruct (raw_read (p := r_u32) _ _ _ HA7 H32) as (r8 & -> & HA8).
  destruct (raw_read (p := r_u32) _ _ _ HA8 Hcrc) as (r9 & -> & HA9).
  destruct (raw_read (p := r_u32) _ _ _ HA9 H32) as (r10 & -> & HA10).
  by exists r10.
Qed.

(** The slices of a framed snapshot. *)
Lemma snapshot_slices last count body :
  let bytes := snapshot_of last count body in
  take snapshot_header_bytes bytes = snapshot_head last count body /\
  take kSnapshotHeaderCrcOffset bytes = snapshot_prefix last count body /\
  take (snapshot_header_bytes + length body) bytes = snapshot_head last count body ++ body /\
  take (length body) (drop snapshot_header_bytes bytes) = body /\
  read_u32_at bytes (snapshot_header_bytes + length body) =
    crc32c (snapshot_head last count body ++ body) /\
  read_u32_at bytes (snapshot_header_bytes + length body + 4) = snapshot_footer_magic /\
  length bytes = (snapshot_header_bytes + length body + 8)%nat.
Proof.
  cbv zeta. pose proof (snapshot_head_length last count body) as Hl.
  unfold snapshot_of. set (head := snapshot_head last count body) in *.
  set (crc := crc32c (head ++ body)). change snapshot_header_bytes with 40%nat. rewrite <- Hl.
  assert (Hhb : head ++ body ++ le_bytes 4 crc ++ le_bytes 4 snapshot_footer_magic =
            (head ++ body) ++ le_bytes 4 crc ++ le_bytes 4 snapshot_footer_magic)
    by (by rewrite <- app_assoc).
  assert (Hlen : (length head + length body)%nat = length (head ++ body)) by (by rewrite length_app).
  assert (Hcrc : 0 <= crc < 256 ^ Z.of_nat 4)
    by (pose proof (crc32c_range (head ++ body)); unfold_ints; change (256 ^ Z.of_nat 4) with 4294967296; lia).
  split; [by rewrite take_app_length|].
  split.
  { unfold head, snapshot_head. rewrite <- app_assoc. apply take_app_length'.
    by rewrite snapshot_prefix_length. }
  split; [by rewrite Hhb, Hlen, take_app_length|].
  split; [by rewrite drop_app_length, take_app_length|].
  unfold read_u32_at. rewrite Hlen, Hhb. split.
  { rewrite drop_app_length, take_app_length' by (by rewrite le_bytes_length).
    by apply le_value_bytes. }
  split.
  { rewrite <- drop_drop, drop_app_length, drop_app_length' by (by rewrite le_bytes_length).
    rewrite take_ge by (by rewrite le_bytes_length). apply le_value_bytes. vm_compute.
    split; congruence. }
  rewrite !length_app, !le_bytes_length. lia.
Qed.

Lemma decode_snapshot_of last count body state :
  is_u64 last -> count <= max_snapshot_records -> 0 <= count ->
  size_of body <= max_snapshot_bytes ->
  decode_snapshot_body (length body) body (DurableState_default <| ds_last_sequence := last |>) 0 =
    Ok (state, count) ->
  decode_snapshot (snapshot_of last count body) = Ok state.
Proof.
  intros Hl Hc Hc0 Hb Hd. pose proof (size_of_nonneg body).
  destruct (read_snapshot_header_of last count body) as (r & Hr & HA);
    [done|unfold_limits; unfold_ints; lia..|].
  destruct (snapshot_slices last count body) as (H1 & H2 & H3 & H4 & H5 & H6 & H7).
  unfold decode_snapshot. rewrite H1, H2, Hr. cbn [sh_magic sh_version sh_flags sh_sequence
    sh_record_count sh_payload_length sh_header_crc].
  rewrite (at_ok _ _ HA), (proj2 (At_at_end _ _ HA) eq_refl). cbn [negb orb].
  destruct (Nat.ltb_spec (length (snapshot_of last count body)) (snapshot_header_bytes + 8)); [lia|].
  rewrite !Z.eqb_refl. cbn [negb].
  destruct (Z.ltb_spec max_snapshot_bytes (size_of body)); [lia|].
  destruct (Z.ltb_spec max_snapshot_records count); [lia|].
  replace (Z.to_nat (size_of body)) with (length body) by (unfold size_of; lia).
  rewrite H3, H4, H5, H6, H7, Nat.ltb_irrefl, !Z.eqb_refl. cbn [negb]. rewrite Hd.
  cbn [fst snd]. by rewrite Z.eqb_refl.
Qed.

(** ** The records of a bounded state *)

(** The generations the authority vector shows are those of the installed
    documents. *)
Definition basis_consistent (s : DurableState) : Prop :=
  (ds_has_policy s = true -> av_policy (ds_authority s) = pol_generation (ds_policy s)) /\
  (ds_has_obligations s = true ->
     av_obligations (ds_authority s) = ob_generation (ds_obligations s)).

Lemma size_set_bound v : wire_set_wf v -> size_of (enc_set v) <= 647189.
Proof.
  intros (_ & _ & [Hl _] & _). rewrite size_enc_set. unfold_limits. lia.
Qed.

Lemma enc_nonempty {A} (l : list A) : 0 < size_of l -> l <> [].
Proof. intros H ->. unfold size_of in H. cbn [length] in H. lia. Qed.

(** The payloads of a bounded state are the encodings of its parts. *)
Definition state_records (s : DurableState) : list (RecordType * list byte) :=
  [(RecordType_counters, enc_counters s);
   (RecordType_epoch_advance,
     enc_epoch (ds_authority s, ds_restart_count s, ds_attempt_sequence s, ds_fence_sequence s,
                ds_decision_sequence s))] ++
  (if ds_has_policy s then [(RecordType_policy_set, enc_policy (ds_policy s))] else []) ++
  (if ds_has_obligations s then [(RecordType_obligations_set, enc_obligations (ds_obligations s))]
   else []) ++
  ((fun set => (RecordType_alternate_set_put, enc_set set)) <$> ds_sets s) ++
  ((fun fence => (RecordType_fence_recorded, enc_fence fence)) <$> ds_fences s) ++
  ((fun attempt => (RecordType_attempt_state, enc_attempt attempt)) <$> ds_attempts s) ++
  ((fun entry => (RecordType_lineage_entry, enc_lineage entry)) <$> ds_lineage s).

Create Rewrite HintDb payloads.

Ltac solve_small := autorewrite with sizes; vm_compute; congruence.

Lemma encode_policy_record_spec v : encode_policy_record v = enc_policy v.
Proof. apply (finish_emits (put_policy v) _ _ (emits_policy v)); solve_small. Qed.
Lemma encode_obligations_record_spec v : encode_obligations_record v = enc_obligations v.
Proof. apply (finish_emits (put_obligations v) _ _ (emits_obligations v)); solve_small. Qed.
Lemma encode_fence_record_spec v : encode_fence_record v = enc_fence v.
Proof. apply (finish_emits (put_fence v) _ _ (emits_fence v)); solve_small. Qed.
Lemma encode_attempt_record_spec v : encode_attempt_record v = enc_attempt v.
Proof. apply (finish_emits (put_attempt v) _ _ (emits_attempt v)); solve_small. Qed.
Lemma encode_lineage_record_spec v : encode_lineage_record v = enc_lineage v.
Proof. apply (finish_emits (put_lineage v) _ _ (emits_lineage v)); solve_small. Qed.
Lemma encode_set_record_spec v : wire_set_wf v -> encode_set_record v = enc_set v.
Proof.
  intros Hv. apply (finish_emits (put_set v) _ _ (emits_set v)); [solve_small|].
  pose proof (size_set_bound v Hv). unfold_limits. lia.
Qed.
#[export] Hint Rewrite encode_counters_record_spec encode_epoch_record_spec
  encode_policy_record_spec encode_obligations_record_spec encode_fence_record_spec
  encode_attempt_record_spec encode_lineage_record_spec : payloads.

Lemma snapshot_records_spec s : tables_wf s -> snapshot_records s = state_records s.
Proof.
  intros Hs. unfold snapshot_records, state_records. autorewrite with payloads.
  do 4 f_equal. apply list_fmap_ext. intros i v Hi. f_equal. apply encode_set_record_spec. destruct (tw_sets _ Hs) as [_ Hwf].
  exact (Forall_lookup_1 _ _ _ _ Hwf Hi).
Qed.

(** Every record takes at most [n] bytes in the journal. *)
Lemma size_enc_record t seq p : size_of (enc_record t seq p) = 28 + size_of p.
Proof. unfold size_of. rewrite enc_record_length. unfold journal_header_bytes, journal_trailer_bytes. lia. Qed.

(** The bytes the records take, wherever the run starts. *)
Fixpoint records_size (records : list (RecordType * list byte)) : Z :=
  match records with [] => 0 | (_, p) :: rs => 28 + size_of p + records_size rs end.

Lemma size_journal_of first records : size_of (journal_of first records) = records_size records.
Proof.
  revert first. induction records as [|[t p] rs IH]; intros first; [done|]. cbn [journal_of records_size].
  by rewrite size_of_app, size_enc_record, IH.
Qed.

Lemma records_size_app r1 r2 : records_size (r1 ++ r2) = records_size r1 + records_size r2.
Proof.
  induction r1 as [|[t p] r1 IH]; [done|]. cbn [records_size app]. rewrite IH. lia.
Qed.

Lemma size_of_fmap {A B} (f : A -> B) l : size_of (f <$> l) = size_of l.
Proof. unfold size_of. by rewrite length_fmap. Qed.
#[export] Hint Rewrite @size_of_fmap : pff.

(** The records of one table. *)
Lemma records_size_table {A} t (enc : A -> list byte) n bound l :
  Forall (fun x => size_of (enc x) <= n) l -> size_of l <= bound -> 0 <= n ->
  records_size ((fun x => (t, enc x)) <$> l) <= bound * (28 + n).
Proof.
  intros H Hl Hn. transitivity (size_of l * (28 + n)); [|nia]. clear Hl.
  induction H as [|x l Hx H IH]; [done|]. rewrite fmap_cons, size_of_cons. cbn [records_size]. lia.
Qed.

Lemma records_emit_table {A} t (enc : A -> list byte) l :
  Forall (fun x => 0 < size_of (enc x) <= max_record_payload) l ->
  records_emit ((fun x => (t, enc x)) <$> l).
Proof.
  intros H. apply list.Forall_fmap. eapply List.Forall_impl; [|exact H].
  intros x [Hx ?]. cbn [compose snd]. split; [by apply enc_nonempty|done].
Qed.

Lemma Forall_all {A} (P : A -> Prop) l : (forall x, P x) -> Forall P l.
Proof. intros H. induction l; by constructor. Qed.

Lemma sets_sized s :
  tables_wf s -> Forall (fun x => 0 < size_of (enc_set x) <= 647189) (ds_sets s).
Proof.
  intros Hs. destruct (tw_sets _ Hs) as [_ Hwf]. eapply List.Forall_impl; [|exact Hwf].
  intros v Hv. split; [|by apply size_set_bound]. rewrite size_enc_set.
  pose proof (size_of_nonneg (set_candidates v)). lia.
Qed.

Lemma state_records_emit s : tables_wf s -> records_emit (state_records s).
Proof.
  intros Hs. unfold state_records, records_emit.
  rewrite !list.Forall_app. split; [|split; [|split; [|split; [|split; [|split]]]]].
  - constructor; [|constructor; [|constructor]]; cbn [snd];
      (split; [apply enc_nonempty|]); unfold enc_counters, enc_epoch;
      autorewrite with pff sizes; vm_compute; congruence.
  - destruct (ds_has_policy s); [|constructor]. constructor; [|constructor].
    cbn [snd]. split; [apply enc_nonempty|]; autorewrite with sizes; vm_compute; congruence.
  - destruct (ds_has_obligations s); [|constructor]. constructor; [|constructor].
    cbn [snd]. split; [apply enc_nonempty|]; autorewrite with sizes; vm_compute; congruence.
  - apply records_emit_table. eapply List.Forall_impl; [|by apply sets_sized].
    cbn beta. unfold_limits. lia.
  - apply records_emit_table, Forall_all. intros x. autorewrite with sizes. by vm_compute.
  - apply records_emit_table, Forall_all. intros x. autorewrite with sizes. by vm_compute.
  - apply records_emit_table, Forall_all. intros x. autorewrite with sizes. by vm_compute.
Qed.

Lemma records_size_option (b : bool) t p :
  size_of p <= 62 -> records_size (if b then [(t, p)] else []) <= 90.
Proof. intros Hp. destruct b; cbn [records_size]; lia. Qed.

Lemma size_of_option {A} (b : bool) (x : A) : size_of (if b then [x] else []) <= 1.
Proof. destruct b; vm_compute; congruence. Qed.

Lemma state_records_count s : tables_wf s -> size_of (state_records s) <= max_snapshot_records.
Proof.
  intros Hs. destruct (tw_sets _ Hs) as [H1 _], (tw_fences _ Hs) as [H2 _],
    (tw_attempts _ Hs) as [H3 _], (tw_lineage _ Hs) as [H4 _].
  unfold state_records. autorewrite with pff.
  pose proof (size_of_option (ds_has_policy s) (RecordType_policy_set, enc_policy (ds_policy s))).
  pose proof (size_of_option (ds_has_obligations s)
    (RecordType_obligations_set, enc_obligations (ds_obligations s))).
  unfold_limits. lia.
Qed.

Lemma state_records_size s :
  tables_wf s -> size_of (journal_of 1 (state_records s)) <= max_snapshot_bytes.
Proof.
  intros Hs. destruct (tw_sets _ Hs) as [H1 _], (tw_fences _ Hs) as [H2 _],
    (tw_attempts _ Hs) as [H3 _], (tw_lineage _ Hs) as [H4 _].
  rewrite size_journal_of. unfold state_records. rewrite !records_size_app.
  assert (Hsets : Forall (fun x => size_of (enc_set x) <= 647189) (ds_sets s)).
  { eapply List.Forall_impl; [|by apply sets_sized]. cbn beta. lia. }
  pose proof (records_size_table RecordType_alternate_set_put enc_set _ _ _ Hsets H1).
  pose proof (records_size_table RecordType_fence_recorded enc_fence 98 _ (ds_fences s)
    (Forall_all _ _ (fun x => Z.eq_le_incl _ _ (size_enc_fence x))) H2).
  pose proof (records_size_table RecordType_attempt_state enc_attempt 127 _ (ds_attempts s)
    (Forall_all _ _ (fun x => Z.eq_le_incl _ _ (size_enc_attempt x))) H3).
  pose proof (records_size_table RecordType_lineage_entry enc_lineage 115 _ (ds_lineage s)
    (Forall_all _ _ (fun x => Z.eq_le_incl _ _ (size_enc_lineage x))) H4).
  pose proof (records_size_option (ds_has_policy s) RecordType_policy_set
    (enc_policy (ds_policy s)) (Z.eq_le_incl _ _ (size_enc_policy _))).
  pose proof (records_size_option (ds_has_obligations s) RecordType_obligations_set
    (enc_obligations (ds_obligations s)) ltac:(rewrite size_enc_obligations; lia)).
  assert (Hc : size_of (enc_counters s) = 41) by (unfold enc_counters; solve_size).
  cbn [records_size]. cbn [enc_epoch]. autorewrite with pff sizes in *. rewrite Hc.
  unfold_limits. lia.
Qed.

(** ** Replaying the records of a state rebuilds it *)

Lemma apply_table {A} t (enc : A -> list byte) (push : A -> DurableState -> DurableState) l s0
    (ready : DurableState -> A -> list A -> Prop) :
  (forall s x rest, ready s x rest -> apply_record s t (enc x) = (ok_status, push x s)) ->
  (forall s x y rest, ready s x (y :: rest) -> ready (push x s) y rest) ->
  (forall x rest, l = x :: rest -> ready s0 x rest) ->
  apply_records s0 ((fun x => (t, enc x)) <$> l) = Ok (foldl (fun s x => push x s) s0 l).
Proof.
  intros Hstep Hnext. revert s0. induction l as [|x l IH]; intros s0 Hready; [done|].
  rewrite fmap_cons. cbn [apply_records foldl].
  rewrite (Hstep s0 x l) by (by apply Hready). change (negb (Status_ok ok_status)) with false.
  cbv iota. apply IH. intros y rest ->. apply Hnext. by apply Hready.
Qed.

Definition push_set (set : AlternateSet) (s : DurableState) : DurableState :=
  s <| ds_sets ::= fun l => l ++ [set] |>.
Definition push_fence (fence : FenceRecord) (s : DurableState) : DurableState :=
  s <| ds_fences ::= fun l => l ++ [fence] |>.
Definition push_attempt (attempt : AttemptRecord) (s : DurableState) : DurableState :=
  s <| ds_attempts ::= fun l => l ++ [attempt] |>.
Definition push_lineage (entry : LineageEntry) (s : DurableState) : DurableState :=
  s <| ds_lineage ::= fun l => l ++ [entry] |>.

Lemma apply_sets s0 l :
  seq_wf wire_set_wf max_alternate_sets (ds_sets s0 ++ l) -> NoDup (set_id <$> ds_sets s0 ++ l) ->
  apply_records s0 ((fun x => (RecordType_alternate_set_put, enc_set x)) <$> l) =
  Ok (foldl (fun s x => push_set x s) s0 l).
Proof.
  intros Hl Hd.
  apply (apply_table _ _ _ _ _ (fun s x rest =>
    seq_wf wire_set_wf max_alternate_sets (ds_sets s ++ x :: rest) /\
    NoDup (set_id <$> ds_sets s ++ x :: rest))).
  - intros s x rest [[Hs Hwf] Hn]. cbn [apply_record].
    apply Forall_app in Hwf as [_ Hwf]. apply List.Forall_cons_iff in Hwf as [Hx _].
    rewrite (proj2 (whole_payload_spec get_set enc_set wire_set_wf _ x) (conj Hx eq_refl)).
    unfold put_durable_set. rewrite (proj2 (replace_first_None set_id x (ds_sets s))).
    2:{ rewrite fmap_app, fmap_cons in Hn. apply list.NoDup_app in Hn as (_ & Hn & _).
        intros Hin. apply (Hn _ Hin). by left. }
    rewrite size_of_app, size_of_cons in Hs. pose proof (size_of_nonneg rest).
    destruct (Z.leb_spec max_alternate_sets (size_of (ds_sets s))); [lia|done].
  - intros s x y rest. unfold push_set. cbn [ds_sets update_field]. by rewrite <- app_assoc.
  - by intros x rest <-.
Qed.

Lemma apply_fences s0 l :
  seq_wf fence_wf max_fences (ds_fences s0 ++ l) ->
  apply_records s0 ((fun x => (RecordType_fence_recorded, enc_fence x)) <$> l) =
  Ok (foldl (fun s x => push_fence x s) s0 l).
Proof.
  intros Hl.
  apply (apply_table _ _ _ _ _ (fun s x rest => seq_wf fence_wf max_fences (ds_fences s ++ x :: rest))).
  - intros s x rest [Hs Hwf]. cbn [apply_record].
    apply Forall_app in Hwf as [_ Hwf]. apply List.Forall_cons_iff in Hwf as [Hx _].
    rewrite (proj2 (whole_payload_spec get_fence enc_fence fence_wf _ x) (conj Hx eq_refl)).
    unfold put_durable_fence. rewrite size_of_app, size_of_cons in Hs. pose proof (size_of_nonneg rest).
    destruct (Z.leb_spec max_fences (size_of (ds_fences s))); [lia|done].
  - intros s x y rest. unfold push_fence. cbn [ds_fences update_field]. by rewrite <- app_assoc.
  - by intros x rest <-.
Qed.

Lemma apply_attempts s0 l :
  seq_wf attempt_wf max_attempts (ds_attempts s0 ++ l) -> NoDup (at_id <$> ds_attempts s0 ++ l) ->
  apply_records s0 ((fun x => (RecordType_attempt_state, enc_attempt x)) <$> l) =
  Ok (foldl (fun s x => push_attempt x s) s0 l).
Proof.
  intros Hl Hd.
  apply (apply_table _ _ _ _ _ (fun s x rest =>
    seq_wf attempt_wf max_attempts (ds_attempts s ++ x :: rest) /\
    NoDup (at_id <$> ds_attempts s ++ x :: rest))).
  - intros s x rest [[Hs Hwf] Hn]. cbn [apply_record].
    apply Forall_app in Hwf as [_ Hwf]. apply List.Forall_cons_iff in Hwf as [Hx _].
    rewrite (proj2 (whole_payload_spec get_attempt enc_attempt attempt_wf _ x) (conj Hx eq_refl)).
    unfold put_durable_attempt. rewrite (proj2 (replace_first_None at_id x (ds_attempts s))).
    2:{ rewrite fmap_app, fmap_cons in Hn. apply list.NoDup_app in Hn as (_ & Hn & _).
        intros Hin. apply (Hn _ Hin). by left. }
    rewrite size_of_app, size_of_cons in Hs. pose proof (size_of_nonneg rest).
    destruct (Z.leb_spec max_attempts (size_of (ds_attempts s))); [lia|done].
  - intros s x y rest. unfold push_attempt. cbn [ds_attempts update_field]. by rewrite <- app_assoc.
  - by intros x rest <-.
Qed.

Lemma apply_lineage s0 l :
  seq_wf lineage_wf max_lineage (ds_lineage s0 ++ l) ->
  apply_records s0 ((fun x => (RecordType_lineage_entry, enc_lineage x)) <$> l) =
  Ok (foldl (fun s x => push_lineage x s) s0 l).
Proof.
  intros Hl.
  apply (apply_table _ _ _ _ _ (fun s x rest =>
    seq_wf lineage_wf max_lineage (ds_lineage s ++ x :: rest))).
  - intros s x rest [Hs Hwf]. cbn [apply_record].
    apply Forall_app in Hwf as [_ Hwf]. apply List.Forall_cons_iff in Hwf as [Hx _].
    rewrite (proj2 (whole_payload_spec get_lineage enc_lineage lineage_wf _ x) (conj Hx eq_refl)).
    unfold put_durable_lineage. rewrite size_of_app, size_of_cons in Hs. pose proof (size_of_nonneg rest).
    destruct (Z.leb_spec max_lineage (size_of (ds_lineage s))); [lia|done].
  - intros s x y rest. unfold push_lineage. cbn [ds_lineage update_field]. by rewrite <- app_assoc.
  - by intros x rest <-.
Qed.

(** Pushing a list is appending it. *)
Ltac solve_pushes :=
  intros l; induction l as [|x l IH]; intros s; cbn [foldl];
  [ destruct s; cbn; by rewrite app_nil_r
  | rewrite IH; destruct s; cbn; by rewrite <- app_assoc ].

Lemma foldl_push_sets :
  forall l s, foldl (fun s x => push_set x s) s l = s <| ds_sets ::= fun k => k ++ l |>.
Proof. solve_pushes. Qed.
Lemma foldl_push_fences :
  forall l s, foldl (fun s x => push_fence x s) s l = s <| ds_fences ::= fun k => k ++ l |>.
Proof. solve_pushes. Qed.
Lemma foldl_push_attempts :
  forall l s, foldl (fun s x => push_attempt x s) s l = s <| ds_attempts ::= fun k => k ++ l |>.
Proof. solve_pushes. Qed.
Lemma foldl_push_lineage :
  forall l s, foldl (fun s x => push_lineage x s) s l = s <| ds_lineage ::= fun k => k ++ l |>.
Proof. solve_pushes. Qed.

(** The state after the two counter records. *)
Definition counted (s : DurableState) : DurableState :=
  mkDurableState (ds_authority s) false FailoverPolicy_default false ServiceObligations_default
    [] [] [] [] (ds_attempt_sequence s) (ds_fence_sequence s) (ds_decision_sequence s)
    (ds_last_sequence s) (ds_restart_count s) (ds_lineage_truncated s) (ds_fence_overflow s)
    (ds_attempts_dropped s).

Lemma apply_counted s rest :
  tables_wf s ->
  apply_records (DurableState_default <| ds_last_sequence := ds_last_sequence s |>)
    ([(RecordType_counters, enc_counters s);
      (RecordType_epoch_advance,
        enc_epoch (ds_authority s, ds_restart_count s, ds_attempt_sequence s,
                   ds_fence_sequence s, ds_decision_sequence s))] ++ rest) =
  apply_records (counted s) rest.
Proof.
  intros Hs. pose proof (tw_counters _ Hs) as Hc. cbn [app apply_records apply_record].
  rewrite (apply_counters_enc s _ Hc). change (negb (Status_ok ok_status)) with false. cbv iota.
  rewrite apply_epoch_eq.
  destruct Hc as (H1 & H2 & H3 & H4 & H5).
  rewrite (proj2 (whole_payload_spec get_epoch_checked enc_epoch epoch_wf _
    (ds_authority s, ds_restart_count s, ds_attempt_sequence s, ds_fence_sequence s,
     ds_decision_sequence s)) (conj (conj (tw_authority _ Hs) (conj (tw_restarts _ Hs)
       (conj H1 (conj H2 H3)))) eq_refl)).
  change (negb (Status_ok ok_status)) with false. cbv iota. f_equal.
  unfold counted, with_counters, with_epoch, DurableState_default.
  cbn -[Z.max]. unfold is_u64 in *. f_equal; lia.
Qed.

(** The documents and the tables follow. *)
Definition documented (s : DurableState) : DurableState :=
  mkDurableState (ds_authority s) (ds_has_policy s) (ds_policy s) (ds_has_obligations s)
    (ds_obligations s)
    [] [] [] [] (ds_attempt_sequence s) (ds_fence_sequence s) (ds_decision_sequence s)
    (ds_last_sequence s) (ds_restart_count s) (ds_lineage_truncated s) (ds_fence_overflow s)
    (ds_attempts_dropped s).

Lemma apply_documented s rest :
  tables_wf s -> basis_consistent s ->
  apply_records (counted s)
    ((if ds_has_policy s then [(RecordType_policy_set, enc_policy (ds_policy s))] else []) ++
     (if ds_has_obligations s
      then [(RecordType_obligations_set, enc_obligations (ds_obligations s))] else []) ++ rest) =
  apply_records (documented s) rest.
Proof.
  intros Hs [Hp Ho]. pose proof (tw_policy _ Hs) as Hwp. pose proof (tw_obligations _ Hs) as Hwo.
  unfold counted, documented.
  assert (Hpol : forall k, apply_records (counted s) ((if ds_has_policy s then
      [(RecordType_policy_set, enc_policy (ds_policy s))] else []) ++ k) =
    apply_records ((counted s) <| ds_has_policy := ds_has_policy s |>
      <| ds_policy := ds_policy s |>) k).
  { intros k. destruct (ds_has_policy s) eqn:E; cbn [app apply_records apply_record].
    - rewrite (proj2 (whole_payload_spec get_policy enc_policy policy_wf _ _) (conj Hwp eq_refl)).
      change (negb (Status_ok ok_status)) with false. cbv iota. f_equal.
      unfold counted. cbn. rewrite <- (Hp eq_refl). by destruct (ds_authority s).
    - by rewrite Hwp. }
  fold (counted s). rewrite Hpol. clear Hpol.
  destruct (ds_has_obligations s) eqn:E; cbn [app apply_records apply_record].
  - rewrite (proj2 (whole_payload_spec get_obligations enc_obligations obligations_wf _ _)
      (conj Hwo eq_refl)).
    change (negb (Status_ok ok_status)) with false. cbv iota. f_equal.
    unfold counted. cbn. rewrite <- (Ho eq_refl). by destruct (ds_authority s).
  - by rewrite Hwo.
Qed.

Lemma apply_state_records s :
  tables_wf s -> basis_consistent s ->
  apply_records (DurableState_default <| ds_last_sequence := ds_last_sequence s |>)
    (state_records s) = Ok s.
Proof.
  intros Hs Hc. unfold state_records. rewrite apply_counted, apply_documented by done.
  rewrite apply_records_app, apply_sets by (apply (tw_sets _ Hs) || apply (tw_sets_distinct _ Hs)).
  rewrite foldl_push_sets.
  rewrite apply_records_app, apply_fences by apply (tw_fences _ Hs). rewrite foldl_push_fences.
  rewrite apply_records_app, apply_attempts
    by (apply (tw_attempts _ Hs) || apply (tw_attempts_distinct _ Hs)).
  rewrite foldl_push_attempts, apply_lineage by apply (tw_lineage _ Hs).
  rewrite foldl_push_lineage. by destruct s.
Qed.

(** The frame of the snapshot of a bounded state. *)
Lemma encode_snapshot_state s :
  tables_wf s -> encode_snapshot s =
    snapshot_of (ds_last_sequence s) (size_of (state_records s)) (journal_of 1 (state_records s)).
Proof.
  intros Hs. rewrite <- (snapshot_records_spec s Hs). apply encode_snapshot_spec;
    rewrite (snapshot_records_spec s Hs); [by apply state_records_emit|by apply state_records_size].
Qed.

Lemma decode_encode_snapshot s :
  tables_wf s -> basis_consistent s -> decode_snapshot (encode_snapshot s) = Ok s.
Proof.
  intros Hs Hc. rewrite encode_snapshot_state by done.
  pose proof (state_records_count s Hs). pose proof (state_records_size s Hs).
  pose proof (size_of_nonneg (state_records s)).
  pose proof (journal_of_length_ge 1 (state_records s)) as Hge.
  apply decode_snapshot_of; [apply (tw_last _ Hs)|done..|].
  replace (length (journal_of 1 (state_records s))) with (length (state_records s) +
    (length (journal_of 1 (state_records s)) - length (state_records s)))%nat by lia.
  rewrite (decode_body_journal _ _ _ _ s); [done|apply records_emit_fit, state_records_emit, Hs| |].
  - unfold sequences_fit. unfold_limits. unfold_ints. lia.
  - by apply apply_state_records.
Qed.

Lemma encode_snapshot_size s :
  tables_wf s -> 48 <= size_of (encode_snapshot s) <= max_snapshot_bytes + 48.
Proof.
  intros Hs. rewrite encode_snapshot_state, size_snapshot_of by done.
  pose proof (state_records_size s Hs). pose proof (size_of_nonneg (journal_of 1 (state_records s))).
  lia.
Qed.
