(* ===== verification/LoadProps.v ===== *)
(** * Properties of loading, appending and compacting

    What a load can return, how one append moves the files from one state to
    the next, and what a snapshot leaves behind at every point it can fail. *)

From S2P Require Import Prelude.
From S2P Require Import Ids.
From S2P Require Import Limits.
From S2P Require Import Status.
From S2P Require Import Checked.
From S2P Require Import Authority.
From S2P Require Import Model.
From S2P Require Import Decision.
From S2P Require Import Records.
From S2P Require Import Bytes.
From S2P Require Import Canonical.
From S2P Require Import Wire.
From S2P Require Import WireProps.
From S2P Require Import Store.
From S2P Require Import StoreProps.
From S2P Require Import StateProps.
From S2P Require Import SnapshotProps.

(** ** Loading stays within the bounds *)

Lemma tables_wf_last s n : tables_wf s -> is_u64 n -> tables_wf (s <| ds_last_sequence := n |>).
Proof. intros [ ] Hn. by constructor. Qed.

Lemma decode_header_sequence bs h : decode_journal_header bs = Ok h -> is_u64 (jh_sequence h).
Proof. rewrite decode_header_spec. by intros (_ & (_ & _ & _ & ? & _) & _). Qed.

(** Whatever the bytes and whichever read fails. *)
Lemma replay_records_wf fuel io rest rp :
  tables_wf (rp_state rp) -> tables_wf (rp_state (replay_records fuel io rest rp)).
Proof.
  revert rest rp. induction fuel as [|fuel IH]; intros rest rp Hs; destruct rest as [|b bs];
    try exact Hs.
  set (rest := b :: bs). cbn [replay_records]. fold rest.
  destruct (_ <? journal_header_bytes)%nat; [exact Hs|].
  destruct (negb (li_read io _)); [exact Hs|].
  destruct (decode_journal_header _) as [h|st] eqn:Eh; [|exact Hs]. cbv zeta.
  apply decode_header_sequence in Eh.
  destruct (_ <? _)%nat; [exact Hs|]. destruct (_ && _); [exact Hs|].
  destruct (negb (li_read io _)); [exact Hs|]. destruct (negb (_ =? crc32c _)); [exact Hs|].
  destruct (jh_sequence h <=? _); [by apply IH|]. destruct (negb (_ =? wrap_u64 _)); [exact Hs|].
  destruct (RecordType_cast _) as [t|]; [|exact Hs].
  pose proof (apply_record_wf (rp_state rp) t
    (take (Z.to_nat (jh_payload_length h)) (drop journal_header_bytes rest)) Hs) as Ha.
  destruct (apply_record _ _ _) as [applied state]. cbn [snd] in Ha.
  destruct (negb (Status_ok applied)); [exact Ha|]. apply IH. by apply tables_wf_last.
Qed.

Lemma decode_snapshot_body_wf fuel body state seen state' seen' :
  tables_wf state -> decode_snapshot_body fuel body state seen = Ok (state', seen') ->
  tables_wf state'.
Proof.
  revert body state seen. induction fuel as [|fuel IH]; intros body state seen Hs;
    destruct body as [|b bs]; try done; try (by intros [= <- <-]).
  set (body := b :: bs). cbn [decode_snapshot_body]. fold body.
  destruct (_ <? journal_header_bytes)%nat; [done|].
  destruct (decode_journal_header _) as [h|st]; [|done]. cbv zeta.
  destruct (_ <? _)%nat; [done|]. destruct (negb (_ =? crc32c _)); [done|].
  destruct (RecordType_cast _) as [t|]; [|done].
  pose proof (apply_record_wf state t
    (take (Z.to_nat (jh_payload_length h)) (drop journal_header_bytes body)) Hs) as Ha.
  destruct (apply_record _ _ _) as [applied state1]. cbn [snd] in Ha.
  destruct (negb (Status_ok applied)); [done|]. by apply IH.
Qed.

Lemma read_snapshot_header_sequence r : is_u64 (sh_sequence (read_snapshot_header r).1).
Proof.
  unfold read_snapshot_header, read_bind.
  destruct (r_u32 r) as [? r1], (r_u16 r1) as [? r2], (r_u16 r2) as [? r3].
  pose proof (r_u64_range r3) as Hr. destruct (r_u64 r3) as [? r4].
  destruct (r_u32 r4) as [? r5], (r_u32 r5) as [? r6], (r_u32 r6) as [? r7],
    (r_u32 r7) as [? r8], (r_u32 r8) as [? r9], (r_u32 r9) as [? r10]. exact Hr.
Qed.

Lemma decode_snapshot_wf bytes state : decode_snapshot bytes = Ok state -> tables_wf state.
Proof.
  unfold decode_snapshot. destruct (_ <? _)%nat; [done|].
  pose proof (read_snapshot_header_sequence
    (ByteReader_new (take snapshot_header_bytes bytes))) as Hq.
  destruct (read_snapshot_header _) as [h r]. cbn [fst] in Hq.
  destruct (_ || _); [done|]. destruct (negb (_ =? snapshot_magic)); [done|].
  destruct (negb (_ =? durable_format_version)); [done|]. destruct (negb (sh_flags h =? 0)); [done|].
  destruct (max_snapshot_bytes <? _); [done|]. destruct (max_snapshot_records <? _); [done|].
  destruct (negb (_ =? sh_header_crc h)); [done|]. cbv zeta.
  destruct (_ <? length bytes)%nat; [done|]. destruct (length bytes <? _)%nat; [done|].
  destruct (negb _); [done|]. destruct (negb (_ =? snapshot_footer_magic)); [done|].
  destruct (decode_snapshot_body _ _ _ _) as [[s n]|st] eqn:E; [|done].
  destruct (negb _); [done|]. intros [= <-]. cbn [fst].
  eapply decode_snapshot_body_wf; [|exact E]. apply tables_wf_last; [apply tables_wf_default|done].
Qed.

Lemma load_snapshot_wf io s st state s' :
  load_snapshot io DurableState_default s = (st, state, s') -> tables_wf state.
Proof.
  unfold load_snapshot. pose proof tables_wf_default as Hd.
  destruct (if li_exists_snapshot io then _ else _) as [bytes|]; [|by intros [= <- <- <-]].
  destruct (negb (li_stat_snapshot io)); [by intros [= <- <- <-]|].
  destruct (_ <? size_of bytes); [by intros [= <- <- <-]|].
  destruct (negb (li_open_snapshot io)); [by intros [= <- <- <-]|].
  destruct (negb (li_read_snapshot io)); [by intros [= <- <- <-]|].
  destruct (decode_snapshot bytes) as [d|e] eqn:E; intros [= <- <- <-]; [|done].
  by apply decode_snapshot_wf in E.
Qed.

Lemma replay_journal_wf io state s st state' s' :
  tables_wf state -> replay_journal io state s = (st, state', s') -> tables_wf state'.
Proof.
  intros Hs. unfold replay_journal.
  destruct (s_journal_file _) as [bytes|]; [|by intros [= <- <- <-]].
  destruct (_ || _); [by intros [= <- <- <-]|]. cbv zeta.
  destruct (bool_decide (bytes = [])); [by intros [= <- <- <-]|].
  destruct (negb (li_seek_start io)); [by intros [= <- <- <-]|].
  pose proof (replay_records_wf (length bytes) io bytes (mkReplay ok_status state 0 false 0 0) Hs) as Hr.
  set (rp := replay_records _ _ _ _) in *.
  destruct (negb (Status_ok (rp_status rp))); [by intros [= <- <- <-]|].
  destruct (_ && negb (li_truncate io)); [by intros [= <- <- <-]|].
  destruct (negb (li_seek_end io)); by intros [= <- <- <-].
Qed.

(** ** Appending *)

Lemma Store_load_wf io s state s' : Store_load io s = (Ok state, s') -> tables_wf state.
Proof.
  unfold Store_load. destruct (s_closed s); [done|].
  destruct (load_snapshot io DurableState_default s) as [[st1 state1] s1] eqn:E1.
  destruct (negb (Status_ok st1)); [done|].
  destruct (replay_journal io state1 s1) as [[st2 state2] s2] eqn:E2.
  destruct (negb (Status_ok st2)); [done|]. intros [= <- _].
  eapply replay_journal_wf; [|exact E2]. by eapply load_snapshot_wf.
Qed.

Lemma size_of_singleton {A} (x : A) : size_of [x] = 1.
Proof. reflexivity. Qed.

Lemma Holds_snoc journal snapshot state base first old new t p st state1 :
  Holds journal snapshot state base first old new ->
  apply_record state t p = (st, state1) -> Status_ok st = true ->
  record_wf (ds_last_sequence state + 1) p ->
  Holds (Some (default [] journal ++ enc_record t (ds_last_sequence state + 1) p)) snapshot
    (state1 <| ds_last_sequence := ds_last_sequence state + 1 |>) base first old (new ++ [(t, p)]).
Proof.
  intros HH Ha Hst Hwf. pose proof (Holds_last _ _ _ _ _ _ _ HH) as Hlast.
  destruct HH as [H1 H2 H3 H4 H5 H6].
  constructor; rewrite ?app_assoc; [done|..|done|].
  - cbn [default]. rewrite journal_of_app, H2. cbn [journal_of]. rewrite app_nil_r, size_of_app.
    unfold id. by replace (first + (size_of old + size_of new)) with (ds_last_sequence state + 1) by lia.
  - apply Forall_app. split; [done|]. constructor; [by apply Hwf|done].
  - destruct Hwf as ((_ & Hm) & _). unfold sequences_fit in *.
    rewrite !size_of_app, size_of_singleton in *. lia.
  - rewrite apply_all_app, H6. cbn [apply_all]. rewrite Ha, Hst. done.
Qed.

(** The record an append writes is well formed. *)
Lemma append_record_wf s state payload :
  Represents s state -> (max_record_payload <? size_of payload) = false ->
  (s_last_sequence s =? UINT64_MAX) = false -> record_wf (ds_last_sequence state + 1) payload.
Proof.
  intros [(base & first & old & new & HH) _ _ _ Hl _] Hp Hq. zify_bools.
  pose proof (Holds_last _ _ _ _ _ _ _ HH) as Hlast. destruct HH as [_ _ _ Hseq _ _].
  unfold sequences_fit in Hseq. rewrite size_of_app in Hseq.
  pose proof (size_of_nonneg old). pose proof (size_of_nonneg new).
  unfold record_wf, is_u64. rewrite Hl in Hq. lia.
Qed.

(** Where the files stand after an append. *)
Inductive appended (state next : DurableState) (s s' : Store) : Status -> Prop :=
  | appended_refused st tail :
      Status_ok st = false -> default [] (s_journal_file s') = default [] (s_journal_file s) ++ tail ->
      tail = [] \/ torn_write state tail -> appended state next s s' st
  | appended_unsynced st :
      Status_ok st = false -> DiskHolds (s_journal_file s') (s_snapshot_file s) next ->
      appended state next s s' st
  | appended_done : Represents s' next -> appended state next s s' ok_status.

Lemma appended_unchanged state next s st :
  Status_ok st = false -> appended state next s s st.
Proof. intros Hst. apply (appended_refused _ _ _ _ st []); [done| |by left]. by rewrite app_nil_r. Qed.

Lemma Store_append_spec io t payload s state st0 state1 :
  Represents s state -> apply_record state t payload = (st0, state1) -> Status_ok st0 = true ->
  let next := state1 <| ds_last_sequence := ds_last_sequence state + 1 |> in
  let (st, s') := Store_append io t payload s in
  appended state next s s' st /\ s_snapshot_file s' = s_snapshot_file s.
Proof.
  intros HR Ha Hst0 next. pose proof (append_record_wf s state payload HR) as Hwf.
  destruct HR as [(base & first & old & new & HH) Ho Hc Hi Hl Hb]. unfold Store_append.
  rewrite Hc, Hi. destruct (max_record_payload <? size_of payload); [by split; [apply appended_unchanged|]|].
  destruct (max_journal_bytes <? _); [by split; [apply appended_unchanged|]|].
  destruct (s_last_sequence s =? UINT64_MAX); [by split; [apply appended_unchanged|]|].
  specialize (Hwf eq_refl eq_refl). rewrite Hl, encode_journal_record_spec by done.
  set (record := enc_record t (ds_last_sequence state + 1) payload).
  destruct (bool_decide (record = [])); [by split; [apply appended_unchanged|]|].
  rewrite Ho. cbn [negb orb].
  destruct (negb (ai_seek io)); [by split; [apply appended_unchanged|]|].
  set (k := Z.to_nat (Z.min (ai_written io) (size_of record))).
  assert (Hk : (k <= length record)%nat) by (unfold k, size_of; lia).
  rewrite length_take. replace (k `min` length record)%nat with k by lia.
  pose proof (Holds_snoc _ _ _ _ _ _ _ t payload st0 state1 HH Ha Hst0 Hwf) as HN. fold next record in HN.
  destruct (Nat.eqb_spec k (length record)) as [Hk'|Hk']; cbn [negb].
  - rewrite Hk', firstn_all. destruct (negb (ai_sync io)).
    + split; [|done]. apply appended_unsynced; [done|]. exists base, first, old, (new ++ [(t, payload)]). exact HN.
    + split; [|done]. apply appended_done. constructor; try done.
      * exists base, first, old, (new ++ [(t, payload)]). exact HN.
      * cbn -[size_of]. rewrite Hb, size_of_app. unfold id. lia.
  - split; [|done]. apply (appended_refused _ _ _ _ _ (take k record)); [done|done|].
    destruct k as [|k]; [by left|]. right. exists t, payload, (S k). split; [done|].
    split; [fold record; lia|done].
Qed.

(** The next load after an append finds the old or the new state. *)
Lemma appended_recovers create state next s s' st :
  Represents s state -> appended state next s s' st -> s_snapshot_file s' = s_snapshot_file s ->
  exists recovered s0 s1,
    Store_open healthy_open false create (s_journal_file s') (s_snapshot_file s') = Ok s0 /\
    Store_load healthy_load s0 = (Ok recovered, s1) /\ Represents s1 recovered /\
    (recovered = state \/ recovered = next) /\ (Status_ok st = true -> recovered = next).
Proof.
  intros HR Happ Hsn. rewrite Hsn.
  assert (Hnext : DiskHolds (s_journal_file s') (s_snapshot_file s) next ->
    exists s0 s1, Store_open healthy_open false create (s_journal_file s') (s_snapshot_file s) = Ok s0 /\
      Store_load healthy_load s0 = (Ok next, s1) /\ Represents s1 next).
  { intros (base & first & old & new & HH).
    destruct (load_disk create (default [] (s_journal_file s')) [] (s_journal_file s')
      (s_snapshot_file s) next) as (s0 & s1 & Ho & Hl & HR1 & _); [by rewrite app_nil_r| |by left|eauto].
    exists base, first, old, new. by destruct HH; constructor. }
  destruct Happ as [st tail Hst Hj Ht|st Hst Hd|Hrep].
  - destruct (load_disk create _ tail _ (s_snapshot_file s) state Hj) as (s0 & s1 & Ho & Hl & HR1 & _);
      [|done|].
    { destruct (rep_disk _ _ HR) as (base & first & old & new & HH). exists base, first, old, new.
      by destruct HH; constructor. }
    exists state, s0, s1. rewrite Hst. repeat split; try done; [apply HR1..|by left].
  - destruct (Hnext Hd) as (s0 & s1 & ? & ? & ?). exists next, s0, s1.
    rewrite Hst. do 3 (split; [done|]). split; [by right|done].
  - destruct (Hnext) as (s0 & s1 & ? & ? & ?); [|exists next, s0, s1].
    { rewrite <- Hsn. apply Hrep. }
    do 3 (split; [done|]). split; [by right|done].
Qed.

(** ** Compacting *)

Lemma snapshot_holds_state s :
  tables_wf s -> basis_consistent s -> snapshot_holds (Some (encode_snapshot s)) s.
Proof.
  intros Hs Hc. split; [|by apply decode_encode_snapshot].
  pose proof (encode_snapshot_size s Hs). lia.
Qed.

Lemma encode_snapshot_nonempty s : tables_wf s -> encode_snapshot s <> [].
Proof. intros Hs. apply enc_nonempty. pose proof (encode_snapshot_size s Hs). lia. Qed.

(** A snapshot of a state as recent as the journal makes the whole journal
    redundant, whether or not the journal has been emptied yet. *)
Lemma snapshot_covers journal snapshot state state' :
  DiskHolds journal snapshot state -> ds_last_sequence state' = ds_last_sequence state ->
  tables_wf state' -> basis_consistent state' ->
  DiskHolds journal (Some (encode_snapshot state')) state'.
Proof.
  intros (base & first & old & new & HH) Heq Hs Hc. pose proof (Holds_last _ _ _ _ _ _ _ HH) as Hl.
  destruct HH as [H1 H2 H3 H4 H5 H6]. exists state', first, (old ++ new), [].
  constructor; rewrite ?app_nil_r; try done; [by apply snapshot_holds_state|].
  rewrite size_of_app. lia.
Qed.

Lemma snapshot_alone state :
  tables_wf state -> basis_consistent state ->
  DiskHolds (Some []) (Some (encode_snapshot state)) state.
Proof.
  intros Hs Hc. exists state, (ds_last_sequence state + 1), [], [].
  pose proof (tw_last _ Hs) as [Hl Hu].
  constructor; try done; [by apply snapshot_holds_state|constructor| |].
  - unfold sequences_fit. cbn [app]. rewrite size_of_nil. lia.
  - rewrite size_of_nil. lia.
Qed.

(** Snapshotting another state as recent as the one the files hold. *)
Lemma Store_write_snapshot_moves io s state state' :
  Represents s state -> ds_last_sequence state' = ds_last_sequence state ->
  tables_wf state' -> basis_consistent state' ->
  let (st, s') := Store_write_snapshot io state' s in
  (DiskHolds (s_journal_file s') (s_snapshot_file s') state \/
   DiskHolds (s_journal_file s') (s_snapshot_file s') state') /\
  (Status_ok st = true -> Represents s' state' /\ s_journal_file s' = Some [] /\
     s_snapshot_file s' = Some (encode_snapshot state')).
Proof.
  intros [Hd Ho Hc Hi Hl Hb] Heq Hs Hcons. unfold Store_write_snapshot. rewrite Hc, Hi, Hl, Heq, Z.eqb_refl.
  cbn [negb]. rewrite bool_decide_eq_false_2 by (by apply encode_snapshot_nonempty).
  pose proof (snapshot_covers _ _ _ _ Hd Heq Hs Hcons) as Hcov.
  pose proof (snapshot_alone _ Hs Hcons) as Hal.
  destruct (negb (wi_open io)); [by split; [left|]|]. destruct (negb (wi_write io)); [by split; [left|]|].
  destruct (negb (wi_replace io)); [by split; [left|]|]. cbv zeta.
  change (s_journal_open (s <| s_snapshot_file := _ |>)) with (s_journal_open s). rewrite Ho.
  destruct (wi_reset_journal io); cbn [negb andb]; [|by split; [right|]].
  split; [right; exact Hal|]. intros _. split; [|done].
  constructor; try assumption; [exact (eq_trans Hl (eq_sym Heq))|reflexivity].
Qed.

Lemma Store_write_snapshot_spec io s state :
  Represents s state -> tables_wf state -> basis_consistent state ->
  let (st, s') := Store_write_snapshot io state s in
  DiskHolds (s_journal_file s') (s_snapshot_file s') state /\
  (Status_ok st = true -> Represents s' state /\ s_journal_file s' = Some [] /\
     s_snapshot_file s' = Some (encode_snapshot state)).
Proof.
  intros HR Hs Hc. pose proof (Store_write_snapshot_moves io s state state HR eq_refl Hs Hc) as H.
  destruct (Store_write_snapshot io state s) as [st s']. destruct H as [H1 H2]. split; [|done].
  by destruct H1.
Qed.
