(* ===== verification/TableProps.v ===== *)
(** * Tables in key order

    The coordinator keeps attempts in a map traversed in key order, the store in
    a vector.  Here the vector is the ordered values of a map: replacing,
    appending and evicting in the vector are updates of that map. *)

From S2P Require Import Prelude.
From S2P Require Import Ids.
From S2P Require Import Records.

Section entries.
Context {T : IdTag} {A : Type}.
Implicit Types m : gmap (Id T) A.

Abbreviation entries := (ordered_entries (K := Id T) (A := A) Id_value).
Abbreviation le := (entry_le (K := Id T) (A := A) Id_value).

(** The ordered entries are the only ordered listing of the map. *)
Lemma entries_unique m l :
  l ≡ₚ map_to_list m -> StronglySorted le l -> entries m = l.
Proof.
  intros Hp Hs. apply (StronglySorted_unique_strong le).
  - intros [k1 x1] [k2 x2] H1 H2 Hle1 Hle2. unfold entry_le in *. cbn [fst] in *.
    assert (k1 = k2) as -> by (apply Id_value_inj; lia).
    rewrite Hp, elem_of_map_to_list in H2. apply elem_of_ordered_entries in H1. congruence.
  - apply ordered_entries_sorted.
  - exact Hs.
  - by rewrite ordered_entries_perm.
Qed.

Lemma entries_split m k x :
  m !! k = Some x -> exists pre post, entries m = pre ++ (k, x) :: post /\
    (k ∉ pre.*1) /\ (k ∉ post.*1).
Proof.
  intros Hk. apply (elem_of_ordered_entries Id_value) in Hk.
  apply list_elem_of_split in Hk as (pre & post & He). exists pre, post. split; [done|].
  pose proof (ordered_entries_NoDup_fst Id_value m) as Hn.
  rewrite He, fmap_app, fmap_cons in Hn. apply list.NoDup_app in Hn as (_ & Hn & Hc).
  apply NoDup_cons in Hc as [Hc _]. cbn [fst] in *. split; [|done].
  intros Hin. apply (Hn k Hin). by left.
Qed.

Lemma sorted_middle (pre post : list (Id T * A)) k x y :
  StronglySorted le (pre ++ (k, x) :: post) -> StronglySorted le (pre ++ (k, y) :: post).
Proof.
  induction pre as [|e pre IH]; cbn [app]; intros Hs; apply StronglySorted_inv in Hs as [Hs Hf];
    constructor; try done; [by apply IH|].
  apply List.Forall_forall. rewrite List.Forall_forall in Hf. intros z Hz.
  apply in_app_or in Hz as [Hz|[<-|Hz]].
  - apply Hf, in_or_app. by left.
  - apply (Hf (k, x)), in_or_app. right. by left.
  - apply Hf, in_or_app. right. by right.
Qed.

Lemma sorted_drop (pre post : list (Id T * A)) e :
  StronglySorted le (pre ++ e :: post) -> StronglySorted le (pre ++ post).
Proof.
  induction pre as [|e' pre IH]; cbn [app]; intros Hs; apply StronglySorted_inv in Hs as [Hs Hf];
    [done|]. constructor; [by apply IH|].
  apply List.Forall_forall. rewrite List.Forall_forall in Hf. intros z Hz. apply Hf.
  apply in_app_or in Hz as [Hz|Hz]; apply in_or_app; [by left|right; by right].
Qed.

(** Replacing the value of a key in place. *)
Lemma entries_replace m k x y pre post :
  entries m = pre ++ (k, x) :: post -> entries (<[k := y]> m) = pre ++ (k, y) :: post.
Proof.
  intros He.
  assert (Hk : m !! k = Some x).
  { apply (elem_of_ordered_entries Id_value). rewrite He. apply elem_of_app. right. by left. }
  apply entries_unique.
  - rewrite <- insert_delete_eq, map_to_list_insert by apply lookup_delete_eq.
    rewrite <- (insert_delete_id m k x Hk) in He at 1.
    pose proof (ordered_entries_perm Id_value (<[k := x]> (delete k m))) as Hp.
    rewrite He, map_to_list_insert in Hp by apply lookup_delete_eq.
    rewrite <- Permutation_middle in Hp. apply Permutation_cons_inv in Hp.
    by rewrite <- Permutation_middle, Hp.
  - apply (sorted_middle pre post k x). rewrite <- He. apply ordered_entries_sorted.
Qed.

(** A new greatest key goes to the end. *)
Lemma entries_append m k x :
  (forall k', is_Some (m !! k') -> Id_value k' < Id_value k) ->
  entries (<[k := x]> m) = entries m ++ [(k, x)].
Proof.
  intros Hgt. apply entries_unique.
  - rewrite map_to_list_insert.
    + by rewrite <- Permutation_cons_append, ordered_entries_perm.
    + destruct (m !! k) eqn:Hk; [|done]. specialize (Hgt k ltac:(eauto)). lia.
  - assert (Hall : forall e, e ∈ entries m -> le e (k, x)).
    { intros [k' x'] Hin. apply elem_of_ordered_entries in Hin. unfold entry_le. cbn [fst].
      specialize (Hgt k' ltac:(eauto)). lia. }
    pose proof (ordered_entries_sorted Id_value m) as Hs.
    induction (entries m) as [|e l IH]; cbn [app]; [repeat constructor|].
    apply StronglySorted_inv in Hs as [Hs Hf]. constructor.
    + apply IH; [|done]. intros e' He'. apply Hall. by right.
    + apply Forall_app. split; [done|]. repeat constructor. apply Hall. by left.
Qed.

(** Removing an entry leaves the others in order. *)
Lemma entries_delete m k x pre post :
  entries m = pre ++ (k, x) :: post -> entries (delete k m) = pre ++ post.
Proof.
  intros He.
  assert (Hk : m !! k = Some x).
  { apply (elem_of_ordered_entries Id_value). rewrite He. apply elem_of_app. right. by left. }
  apply entries_unique.
  - pose proof (ordered_entries_perm Id_value m) as Hp.
    rewrite He, <- Permutation_middle in Hp.
    rewrite <- (insert_delete_id m k x Hk), map_to_list_insert in Hp by apply lookup_delete_eq.
    by apply Permutation_cons_inv in Hp.
  - apply (sorted_drop pre post (k, x)). rewrite <- He. apply ordered_entries_sorted.
Qed.
End entries.

(** ** Attempt tables *)

Abbreviation table := (gmap AttemptId AttemptRecord).
Definition entries (m : table) : list (AttemptId * AttemptRecord) := ordered_entries Id_value m.
Definition values (m : table) : list AttemptRecord := (entries m).*2.

(** Attempts are filed under their own identity. *)
Definition filed (m : table) : Prop := forall id r, m !! id = Some r -> at_id r = id.

Definition same_id (id : AttemptId) (c : AttemptRecord) : bool := Id_eqb (at_id c) id.
Definition finished (e : AttemptId * AttemptRecord) : bool := is_terminal_state (at_state e.2).

(** Filing a record in a table that holds at most [limit] of them. *)
Definition file (limit : Z) (record : AttemptRecord) (m : table) : option table :=
  match m !! at_id record with
  | Some _ => Some (<[at_id record := record]> m)
  | None =>
      if limit <=? Z.of_nat (size m) then
        match List.find finished (entries m) with
        | None => None
        | Some (old, _) => Some (<[at_id record := record]> (delete old m))
        end
      else Some (<[at_id record := record]> m)
  end.

Lemma elem_of_entries m id r : (id, r) ∈ entries m <-> m !! id = Some r.
Proof. apply elem_of_ordered_entries. Qed.

Lemma elem_of_values m r : filed m -> r ∈ values m <-> m !! at_id r = Some r.
Proof.
  intros Hf. unfold values. rewrite list_elem_of_fmap. split.
  - intros ([id r'] & -> & Hin). apply elem_of_entries in Hin. cbn [snd].
    by rewrite (Hf _ _ Hin).
  - intros Hr. exists (at_id r, r). split; [done|]. by apply elem_of_entries.
Qed.

Lemma size_values m : size_of (values m) = Z.of_nat (size m).
Proof. unfold values, size_of. rewrite length_fmap. unfold entries. by rewrite ordered_entries_length. Qed.

Lemma filed_insert m r : filed m -> filed (<[at_id r := r]> m).
Proof. intros Hf id r' Hl. apply lookup_insert_Some in Hl as [[<- <-]|[_ Hl]]; [done|by apply Hf]. Qed.
Lemma filed_delete m id : filed m -> filed (delete id m).
Proof. intros Hf id' r Hl. apply lookup_delete_Some in Hl as [_ Hl]. by apply Hf. Qed.

Lemma same_id_entries m pre k r post :
  filed m -> entries m = pre ++ (k, r) :: post -> k ∉ pre.*1 ->
  forall y, replace_first (same_id k) y (values m) = Some (pre.*2 ++ y :: post.*2).
Proof.
  intros Hf He Hk y.
  assert (Hall : forall e, e ∈ entries m -> at_id e.2 = e.1).
  { intros [id r'] Hin. apply elem_of_entries in Hin. by apply Hf. }
  unfold values. rewrite He in Hall |- *. clear He Hf.
  induction pre as [|[k' r'] pre IH]; cbn [app fmap list_fmap snd replace_first].
  - pose proof (Hall (k, r) ltac:(by left)) as Hr. cbn [fst snd] in Hr.
    unfold same_id. by rewrite Hr, Id_eqb_refl.
  - pose proof (Hall (k', r') ltac:(by left)) as Hr. cbn [fst snd] in Hr.
    unfold same_id at 1. rewrite Hr.
    rewrite (proj2 (Id_eqb_neq k' k)).
    + rewrite IH; [done| |].
      * intros Hin. apply Hk. by right.
      * intros e Hin. apply Hall. by right.
    + intros ->. apply Hk. by left.
Qed.

Lemma values_replace m k r y :
  filed m -> m !! k = Some r ->
  replace_first (same_id k) y (values m) = Some (values (<[k := y]> m)).
Proof.
  intros Hf Hk. destruct (entries_split m k r Hk) as (pre & post & He & Hpre & _).
  rewrite (same_id_entries m pre k r post Hf He Hpre). f_equal.
  unfold values, entries. rewrite (entries_replace m k r y pre post He).
  by rewrite fmap_app, fmap_cons.
Qed.

Lemma values_absent m k y : filed m -> m !! k = None -> replace_first (same_id k) y (values m) = None.
Proof.
  intros Hf Hk. assert (Hall : forall r, r ∈ values m -> same_id k r = false).
  { intros r Hin. apply (elem_of_values m r Hf) in Hin. apply Id_eqb_neq. congruence. }
  induction (values m) as [|r l IH]; [done|]. cbn. rewrite (Hall r) by (by left).
  rewrite IH; [done|]. intros r' Hin. apply Hall. by right.
Qed.

Lemma values_append m r :
  (forall k, is_Some (m !! k) -> Id_value k < Id_value (at_id r)) ->
  values (<[at_id r := r]> m) = values m ++ [r].
Proof. intros Hgt. unfold values, entries. by rewrite entries_append, fmap_app. Qed.

(** Removing the first finished record of the vector. *)
Lemma values_evict m :
  remove_first (fun c => is_terminal_state (at_state c)) (values m) =
  match List.find finished (entries m) with
  | None => None
  | Some (old, _) => Some (values (delete old m))
  end.
Proof.
  assert (Hgo : forall l, match List.find finished l with
    | None => remove_first (fun c => is_terminal_state (at_state c)) l.*2 = None
    | Some e => exists pre post, l = pre ++ e :: post /\
        remove_first (fun c => is_terminal_state (at_state c)) l.*2 = Some (pre.*2 ++ post.*2)
    end).
  { induction l as [|[k r] l IH]; [done|]. cbn. unfold finished at 1. cbn [snd].
    destruct (is_terminal_state (at_state r)); [by exists [], l|].
    destruct (List.find finished l) as [e|].
    - destruct IH as (pre & post & -> & Hr). exists ((k, r) :: pre), post. split; [done|].
      rewrite Hr. done.
    - by rewrite IH. }
  specialize (Hgo (entries m)). unfold values at 1.
  destruct (List.find finished (entries m)) as [[k r]|]; [|done].
  destruct Hgo as (pre & post & He & ->). f_equal. unfold values, entries.
  by rewrite (entries_delete m k r pre post He), fmap_app.
Qed.

(** The first finished entry is the finished one of least identity. *)
Lemma find_finished m :
  match List.find finished (entries m) with
  | None => forall k r, m !! k = Some r -> is_terminal_state (at_state r) = false
  | Some (k, r) => m !! k = Some r /\ is_terminal_state (at_state r) = true /\
      forall k' r', m !! k' = Some r' -> is_terminal_state (at_state r') = true ->
        Id_value k <= Id_value k'
  end.
Proof.
  pose proof (ordered_entries_sorted Id_value m) as Hs.
  assert (Hel : forall k r, (k, r) ∈ entries m <-> m !! k = Some r) by apply elem_of_entries.
  change (ordered_entries Id_value m) with (entries m) in Hs.
  assert (Hgo : match List.find finished (entries m) with
    | None => forall k r, (k, r) ∈ entries m -> is_terminal_state (at_state r) = false
    | Some (k, r) => (k, r) ∈ entries m /\ is_terminal_state (at_state r) = true /\
        forall k' r', (k', r') ∈ entries m -> is_terminal_state (at_state r') = true ->
          Id_value k <= Id_value k'
    end).
  { clear Hel. induction (entries m) as [|[k r] l IH]; [by intros k r ?%not_elem_of_nil|].
    apply StronglySorted_inv in Hs as [Hs Hf]. specialize (IH Hs). cbn. unfold finished at 1. cbn [snd].
    destruct (is_terminal_state (at_state r)) eqn:Hr.
    - split; [by left|]. split; [done|]. intros k' r' [[= <- <-]|Hin]%elem_of_cons _; [lia|].
      rewrite List.Forall_forall in Hf. apply list_elem_of_In, Hf in Hin. exact Hin.
    - destruct (List.find finished l) as [[k1 r1]|].
      + destruct IH as (Hin & Ht & Hle). split; [by right|]. split; [done|].
        intros k' r' [[= <- <-]|Hin']%elem_of_cons Ht'; [congruence|eauto].
      + intros k' r' [[= <- <-]|Hin']%elem_of_cons; eauto. }
  destruct (List.find finished (entries m)) as [[k r]|].
  - destruct Hgo as (Hin & Ht & Hle). split; [by apply Hel|]. split; [done|].
    intros k' r' Hl. apply Hle. by apply Hel.
  - intros k r Hl. apply (Hgo k). by apply Hel.
Qed.

(** ** Two tables that forget at different bounds *)

(** The table in memory, which forgets beyond [limit], is covered by the durable
    one: nothing in memory is missing there, what is only there has ended, and
    the two differ only once memory has started to forget. *)
Record covers (limit : Z) (memory durable : table) : Prop := {
  cv_filed : filed durable;
  cv_sub : memory ⊆ durable;
  cv_ended : forall id r, durable !! id = Some r -> memory !! id = None ->
    is_terminal_state (at_state r) = true;
  cv_full : memory = durable \/ limit <= Z.of_nat (size memory) }.

Lemma covers_filed limit a m : covers limit a m -> filed a.
Proof.
  intros Hc id r Hr. apply (cv_filed _ _ _ Hc). by apply (lookup_weaken _ _ _ _ Hr), (cv_sub _ _ _ Hc).
Qed.

Lemma covers_refl limit m : filed m -> covers limit m m.
Proof. intros Hf. constructor; [done|done|congruence|by left]. Qed.

Lemma covers_lookup limit a m id r : covers limit a m -> a !! id = Some r -> m !! id = Some r.
Proof. intros Hc Hr. by apply (lookup_weaken _ _ _ _ Hr), (cv_sub _ _ _ Hc). Qed.

(** Filing a known attempt. *)
Lemma covers_replace limit a m r r0 :
  covers limit a m -> a !! at_id r = Some r0 ->
  covers limit (<[at_id r := r]> a) (<[at_id r := r]> m).
Proof.
  intros Hc Hr. pose proof (covers_lookup _ _ _ _ _ Hc Hr) as Hm. destruct Hc as [Hf Hsub Hend Hfull].
  constructor.
  - by apply filed_insert.
  - by apply insert_mono.
  - intros id r' Hl Hn. apply lookup_insert_None in Hn as [Hn Hne].
    rewrite lookup_insert_ne in Hl by done. by apply (Hend id).
  - destruct Hfull as [->|Hfull]; [by left|right]. by rewrite (size_replace a _ r0).
Qed.

(** Filing a new attempt, with memory forgetting [old]. *)
Lemma covers_new limit a m m' r old r0 :
  covers limit a m -> filed m' -> a !! old = Some r0 -> is_terminal_state (at_state r0) = true ->
  a !! at_id r = None -> limit <= Z.of_nat (size a) ->
  delete old a ⊆ m' -> m' ⊆ m ->
  covers limit (<[at_id r := r]> (delete old a)) (<[at_id r := r]> m').
Proof.
  intros Hc Hf' Ho Ht Hr Hfull Hsub Hsub'. destruct Hc as [Hf Hs Hend _]. constructor.
  - by apply filed_insert.
  - by apply insert_mono.
  - intros id r' Hl Hn. apply lookup_insert_None in Hn as [Hn Hne].
    rewrite lookup_insert_ne in Hl by done.
    pose proof (lookup_weaken _ _ _ _ Hl Hsub') as Hm.
    apply lookup_delete_None in Hn as [<-|Hn]; [|by apply (Hend id)].
    rewrite (lookup_weaken _ _ _ _ Ho Hs) in Hm. by injection Hm as <-.
  - right. rewrite map_size_insert, lookup_delete_ne, Hr by (intros ->; congruence).
    rewrite map_size_delete, Ho.
    assert (size a <> O) by (intros H0%map_size_empty_inv; by rewrite H0 in Ho). lia.
Qed.

(** Filing an attempt in memory files it in the durable table, and the covering
    is kept: the identity is known to memory or new to both. *)
Lemma covers_file limit bound a m r a' :
  covers limit a m -> 0 < limit <= bound -> Z.of_nat (size m) <= bound ->
  (a !! at_id r = None -> m !! at_id r = None) -> file limit r a = Some a' ->
  exists m', file bound r m = Some m' /\ covers limit a' m' /\ Z.of_nat (size m') <= bound.
Proof.
  intros Hc Hl Hb Hnew. unfold file.
  destruct (a !! at_id r) as [r0|] eqn:Hr.
  { intros [= <-]. pose proof (covers_lookup _ _ _ _ _ Hc Hr) as Hm. rewrite Hm.
    eexists. split; [done|]. split; [by eapply covers_replace|]. by rewrite (size_replace m _ r0). }
  specialize (Hnew eq_refl). rewrite Hnew.
  destruct (Z.leb_spec limit (Z.of_nat (size a))) as [Hfull|Hroom].
  2:{ intros [= <-]. destruct (cv_full _ _ _ Hc) as [Heq|?]; [|lia]. rewrite Heq in *.
      destruct (Z.leb_spec bound (Z.of_nat (size m))); [lia|]. eexists. split; [done|]. split.
      - by apply covers_refl, filed_insert, (cv_filed _ _ _ Hc).
      - rewrite map_size_insert, Hnew. lia. }
  pose proof (find_finished a) as Hfa. destruct (List.find finished (entries a)) as [[old r0]|]; [|done].
  intros [= <-]. destruct Hfa as (Ho & Ht & Hle).
  destruct (Z.leb_spec bound (Z.of_nat (size m))) as [Hmfull|Hmroom].
  - pose proof (find_finished m) as Hfm. pose proof (covers_lookup _ _ _ _ _ Hc Ho) as Hom.
    destruct (List.find finished (entries m)) as [[old' r1]|]; [|by rewrite (Hfm old r0 Hom) in Ht].
    destruct Hfm as (Ho' & Ht' & Hle'). specialize (Hle' old r0 Hom Ht).
    eexists. split; [done|]. split.
    + eapply covers_new; eauto; [by apply filed_delete, (cv_filed _ _ _ Hc)| |apply delete_subseteq].
      apply map_subseteq_spec. intros id x Hx. apply lookup_delete_Some in Hx as [Hne Hx].
      rewrite lookup_delete_ne; [by eapply covers_lookup|]. intros ->.
      assert (x = r1) as -> by (pose proof (covers_lookup _ _ _ _ _ Hc Hx); congruence).
      specialize (Hle id r1 Hx Ht'). apply Hne, Id_value_inj. lia.
    + rewrite map_size_insert, lookup_delete_ne, Hnew by (intros ->; congruence).
      rewrite map_size_delete, Ho'.
      assert (size m <> O) by (intros H0%map_size_empty_inv; by rewrite H0 in Ho'). lia.
  - eexists. split; [done|]. split.
    + eapply covers_new; eauto; [apply (cv_filed _ _ _ Hc)|].
      transitivity a; [apply delete_subseteq|apply (cv_sub _ _ _ Hc)].
    + rewrite map_size_insert, Hnew. lia.
Qed.

Lemma file_lookup limit r m m' : file limit r m = Some m' -> m' !! at_id r = Some r.
Proof. unfold file. repeat case_match; intros [= <-]; apply lookup_insert_eq. Qed.

Lemma file_keys limit r m m' k :
  file limit r m = Some m' -> is_Some (m' !! k) -> k = at_id r \/ is_Some (m !! k).
Proof.
  intros Hm [x Hx]. unfold file in Hm.
  assert (Hgo : m' = <[at_id r := r]> m \/ exists old, m' = <[at_id r := r]> (delete old m)).
  { repeat case_match; simplify_eq; eauto. }
  destruct Hgo as [->|[old ->]]; apply lookup_insert_Some in Hx as [[<- _]|[_ Hx]]; [by left|
    right; by exists x|by left|]. apply lookup_delete_Some in Hx as [_ Hx]. right. by exists x.
Qed.

Lemma file_again limit r m r0 : m !! at_id r = Some r0 ->
  file limit r (<[at_id r := r]> m) = file limit r m.
Proof. intros Hr. unfold file. by rewrite lookup_insert_eq, Hr, insert_insert_eq. Qed.
