(* ===== verification/StoreTheorems.v ===== *)
(** * Theorems of the durable store

    Crash safety of appending and compacting, recovery from a torn tail,
    detection of damage, the bounds of whatever is loaded, and two behaviours of
    a failed append that the design does not want. *)

From S2P Require Import Prelude.
From S2P Require Import Ids.
From S2P Require Import Limits.
From S2P Require Import Status.
From S2P Require Import Checked.
From S2P Require Import Authority.
From S2P Require Import Model.
From S2P Require Import Decision.
From S2P Require Import Records.
From S2P Require Import Bytes.
From S2P Require Import Canonical.
From S2P Require Import Wire.
From S2P Require Import WireProps.
From S2P Require Import Store.
From S2P Require Import StoreProps.
From S2P Require Import StateProps.
From S2P Require Import SnapshotProps.
From S2P Require Import LoadProps.

(** ** Fixtures *)

Definition sample_store : Store :=
  mkStore (Some []) None true true false false 0 0 RecoveryReport_default.
Definition sample_payload : list byte := enc_fence FenceRecord_default.
Definition sample_next : DurableState :=
  (put_durable_fence FenceRecord_default DurableState_default).2 <| ds_last_sequence := 1 |>.

Lemma empty_disk : DiskHolds (Some []) None DurableState_default.
Proof.
  exists DurableState_default, 1, [], [].
  constructor; try done. constructor.
Qed.

Lemma sample_represents : Represents sample_store DurableState_default.
Proof. constructor; try done. exact empty_disk. Qed.

Lemma sample_applies :
  apply_record DurableState_default RecordType_fence_recorded sample_payload =
  (ok_status, (put_durable_fence FenceRecord_default DurableState_default).2).
Proof. vm_compute. reflexivity. Qed.

Lemma sample_consistent : basis_consistent DurableState_default.
Proof. by split. Qed.

(** ** Appending *)

(** C17: An append is atomic across a crash.  For a store whose files hold
    [state] and a record that applies to it, whatever the seek, the write and
    the flush do (a short write leaves any prefix of the record), opening and
    loading the files afterwards succeeds and gives either [state] or the state
    with the record applied and the sequence advanced, and it gives the latter
    when the append was acknowledged. *)
Theorem append_atomic io type payload create s state st0 state1 :
  Represents s state -> apply_record state type payload = (st0, state1) ->
  Status_ok st0 = true ->
  let next := state1 <| ds_last_sequence := ds_last_sequence state + 1 |> in
  let (st, s') := Store_append io type payload s in
  (Status_ok st = true -> Represents s' next) /\
  exists recovered s0 s1,
    Store_open healthy_open false create (s_journal_file s') (s_snapshot_file s') = Ok s0 /\
    Store_load healthy_load s0 = (Ok recovered, s1) /\ Represents s1 recovered /\
    (recovered = state \/ recovered = next) /\ (Status_ok st = true -> recovered = next).
Proof.
  intros HR Ha Hst next. pose proof (Store_append_spec io type payload s state st0 state1 HR Ha Hst) as H.
  cbv zeta in H. destruct (Store_append io type payload s) as [st s']. destruct H as [Happ Hsn].
  split; [|by apply (appended_recovers create state next s s' st HR Happ Hsn)].
  destruct Happ as [st tail Hs|st Hs|]; [by rewrite Hs|by rewrite Hs|done].
Qed.

Lemma append_atomic_witness :
  let (st, s') := Store_append (mkAppendIo true 30 true) RecordType_fence_recorded sample_payload
                    sample_store in
  (Status_ok st = true -> Represents s' sample_next) /\
  exists recovered s0 s1,
    Store_open healthy_open false true (s_journal_file s') (s_snapshot_file s') = Ok s0 /\
    Store_load healthy_load s0 = (Ok recovered, s1) /\ Represents s1 recovered /\
    (recovered = DurableState_default \/ recovered = sample_next) /\
    (Status_ok st = true -> recovered = sample_next).
Proof.
  exact (append_atomic (mkAppendIo true 30 true) RecordType_fence_recorded sample_payload true
    sample_store DurableState_default _ _ sample_represents sample_applies eq_refl).
Defined.

(** ** Torn tails *)

(** C19: A torn tail is recovered.  Files that hold [state], followed by any
    proper prefix of one more record, load as [state]; the recovery report says that
    a torn tail was present and recovered, and how many bytes were truncated and
    kept; the journal is cut back to its intact records and can be appended to
    again. *)
Theorem torn_tail_recovered create intact tail snapshot state :
  DiskHolds (Some intact) snapshot state -> torn_write state tail ->
  exists s0 s,
    Store_open healthy_open false create (Some (intact ++ tail)) snapshot = Ok s0 /\
    Store_load healthy_load s0 = (Ok state, s) /\ Represents s state /\
    s_journal_file s = Some intact /\
    rr_torn_tail_present (s_recovery s) = true /\ rr_torn_tail_recovered (s_recovery s) = true /\
    rr_truncated_bytes (s_recovery s) = size_of tail /\
    rr_journal_bytes (s_recovery s) = size_of intact.
Proof.
  intros Hd Ht.
  destruct (load_disk create intact tail (Some (intact ++ tail)) snapshot state)
    as (s0 & s & Ho & Hl & HR & _ & Hj & [E1 E2 E3 E4]); [done..|by right|].
  assert (Hn : tail <> []).
  { destruct Ht as (t & p & cut & _ & Hcut & ->). destruct (enc_record _ _ _); [cbn in Hcut; lia|].
    destruct cut; [lia|done]. }
  rewrite (bool_decide_eq_false_2 _ Hn) in E1, E2. exists s0, s. by repeat (split; [done|]).
Qed.

Lemma torn_tail_recovered_witness :
  exists s0 s,
    Store_open healthy_open false true
      (Some ([] ++ take 40 (enc_record RecordType_fence_recorded 1 sample_payload))) None = Ok s0 /\
    Store_load healthy_load s0 = (Ok DurableState_default, s) /\
    Represents s DurableState_default /\ s_journal_file s = Some [] /\
    rr_torn_tail_present (s_recovery s) = true /\ rr_torn_tail_recovered (s_recovery s) = true /\
    rr_truncated_bytes (s_recovery s) =
      size_of (take 40 (enc_record RecordType_fence_recorded 1 sample_payload)) /\
    rr_journal_bytes (s_recovery s) = 0.
Proof.
  apply (torn_tail_recovered true [] _ None DurableState_default empty_disk).
  exists RecordType_fence_recorded, sample_payload, 40%nat.
  split; [by repeat split|]. split; [|reflexivity].
  rewrite enc_record_length. vm_compute. lia.
Defined.

(** ** Damage *)

(** The replay of a journal whose record behind [intact] is damaged. *)
Lemma load_damaged create intact snapshot state t p p' tail :
  DiskHolds (Some intact) snapshot state -> record_wf (ds_last_sequence state + 1) p ->
  length p' = length p -> crc32c p <> crc32c p' ->
  let journal := intact ++ framed (record_header t (ds_last_sequence state + 1) p) p' (crc32c p)
                   ++ tail in
  exists s0 s,
    Store_open healthy_open false create (Some journal) snapshot = Ok s0 /\
    Store_load healthy_load s0 =
      (Err (corrupt Reason_integrity_failure "journal payload integrity failure"), s) /\
    s_journal_file s = Some journal /\ s_snapshot_file s = snapshot.
Proof.
  intros (base & first & old & new & HH) Hwf Hlen Hne journal.
  destruct (Store_open_healthy create (Some journal) snapshot)
    as (s0 & Ho & Hj0 & Hs0 & Hop & Hcl & Hi & Hb & Hrr).
  destruct (load_snapshot_holds s0 base) as (s1 & Hl1 & [Ha Hb1 Hc Hd] & Hj1 & Hjb & _); [|done|].
  { rewrite Hs0. exact (holds_snapshot _ _ _ _ _ _ _ HH). }
  exists s0. unfold Store_load. rewrite Hcl, Hl1. change (Status_ok ok_status) with true.
  cbn [negb]. unfold replay_journal.
  change (s_journal_file (s1 <| s_last_sequence := _ |>)) with (s_journal_file s1).
  change (s_journal_open (s1 <| s_last_sequence := _ |>)) with (s_journal_open s1).
  rewrite Hj1, Hj0, Hb1, Hop. cbn [default negb orb li_stat_journal li_seek_start healthy_load]. unfold id.
  set (damaged := framed _ _ _) in *.
  assert (Hdl : (0 < length damaged)%nat)
    by (unfold damaged, framed; rewrite length_app, enc_header_length; unfold journal_header_bytes; lia).
  rewrite bool_decide_eq_false_2.
  2:{ intros E. apply (f_equal length) in E. unfold journal in E. rewrite !length_app in E.
      cbn in E. lia. }
  pose proof (holds_journal _ _ _ _ _ _ _ HH) as Hjo. cbn [default] in Hjo. unfold id in Hjo.
  pose proof (journal_of_length_ge first (old ++ new)) as Hge.
  assert (Hrep : exists rp, replay_records (length journal) healthy_load journal
      (mkReplay ok_status base 0 false 0 0) = rp /\
      rp_status rp = corrupt Reason_integrity_failure "journal payload integrity failure").
  { eexists. split; [reflexivity|]. unfold journal. rewrite Hjo. rewrite !length_app.
    replace (length (journal_of first (old ++ new)) + (length damaged + length tail))%nat
      with (length (old ++ new) + S (length (journal_of first (old ++ new)) - length (old ++ new)
              + (length damaged - 1) + length tail))%nat by lia.
    destruct (replay_holds (S (length (journal_of first (old ++ new)) - length (old ++ new)
              + (length damaged - 1) + length tail)) _ _ _ _ _ _ _ (damaged ++ tail) HH)
      as (rp & _ & ->).
    unfold damaged. by rewrite replay_damaged. }
  destruct Hrep as (rp & -> & ->). eexists. split; [done|]. split; [reflexivity|].
  split; [cbn; by rewrite Hj1|cbn; by rewrite Ha].
Qed.

(** C37: Damage inside a record is detected, never repaired by discarding
    records.  If a burst of errors hit the payload of a journal record, of any length
    and at any bit within 32 consecutive ones, a load stops with an integrity failure
    at that record, and leaves both files as they are.  The record is the one that
    follows an intact journal; anything may follow it. *)
Theorem payload_damage_detected create intact snapshot state type payload damaged tail :
  DiskHolds (Some intact) snapshot state ->
  record_wf (ds_last_sequence state + 1) payload -> burst payload damaged ->
  let header := record_header type (ds_last_sequence state + 1) payload in
  let journal := intact ++ framed header damaged (crc32c payload) ++ tail in
  exists s0 s,
    Store_open healthy_open false create (Some journal) snapshot = Ok s0 /\
    Store_load healthy_load s0 =
      (Err (corrupt Reason_integrity_failure "journal payload integrity failure"), s) /\
    s_journal_file s = Some journal /\ s_snapshot_file s = snapshot.
Proof.
  intros Hd Hwf Hb header journal. apply load_damaged; [done|done|by destruct Hb|by apply crc32c_burst].
Qed.

(** The 32 bits from bit 7 of the first byte on straddle five bytes. *)
Lemma payload_damage_detected_witness :
  let payload := [x85; xff; xff; xff; x7f; x01; x00; x00] in
  let damaged := [x05; x00; x00; x00; x00; x01; x00; x00] in
  let journal := [] ++ framed (record_header RecordType_snapshot_marker 1 payload) damaged
                         (crc32c payload) ++ [] in
  exists s0 s,
    Store_open healthy_open false true (Some journal) None = Ok s0 /\
    Store_load healthy_load s0 =
      (Err (corrupt Reason_integrity_failure "journal payload integrity failure"), s) /\
    s_journal_file s = Some journal /\ s_snapshot_file s = None.
Proof.
  intros payload damaged journal.
  apply (payload_damage_detected true [] None DurableState_default RecordType_snapshot_marker
    payload damaged [] empty_disk).
  - repeat split; vm_compute; congruence.
  - split; [reflexivity|]. split; [discriminate|]. exists 7. intros i.
    apply (burst_window _ _ 7 (Z.ones 32)); [split; vm_compute; congruence|lia|vm_compute; reflexivity].
Defined.

(** ** Bounds of a loaded state *)

(** Nothing on disk can take the runtime out of its bounds.  Whatever the
    bytes of the two files and whichever system calls fail, a state that a load
    returns has every table within its limit, only validated entries, distinct
    set and attempt identities and 64-bit counters. *)
Theorem load_bounded io s state s' :
  Store_load io s = (Ok state, s') -> tables_wf state.
Proof. apply Store_load_wf. Qed.

Lemma load_bounded_witness : tables_wf DurableState_default.
Proof.
  apply (load_bounded healthy_load sample_store DurableState_default
    ((sample_store <| s_recovery ::= fun r => r <| rr_snapshot_loaded := false |> |>
      <| s_last_sequence := 0 |>) <| s_recovery ::= fun r => r <| rr_journal_bytes := 0 |> |>)).
  vm_compute. reflexivity.
Defined.

(** ** Snapshots *)

(** C28: A snapshot is an exact image.  The snapshot of any state within its
    bounds, whose authority names the generations of the policy and the obligations
    it holds, fits the size limit (it never fails to encode, even with every table
    full) and decodes to that very state. *)
Theorem snapshot_round_trip state :
  tables_wf state -> basis_consistent state ->
  0 < size_of (encode_snapshot state) <= max_snapshot_bytes + 64 /\
  decode_snapshot (encode_snapshot state) = Ok state.
Proof.
  intros Hs Hc. pose proof (encode_snapshot_size state Hs). split; [lia|].
  by apply decode_encode_snapshot.
Qed.

Lemma snapshot_round_trip_witness :
  0 < size_of (encode_snapshot DurableState_default) <= max_snapshot_bytes + 64 /\
  decode_snapshot (encode_snapshot DurableState_default) = Ok DurableState_default.
Proof. exact (snapshot_round_trip _ tables_wf_default sample_consistent). Defined.

(** C31: Compaction never loses state.  Whichever step of writing a snapshot
    fails, in particular a crash after the new snapshot is in place and before
    the journal is emptied, loading the files gives the same state; and when it
    succeeds the snapshot alone holds the state and the journal is empty. *)
Theorem write_snapshot_safe io create s state :
  Represents s state -> tables_wf state -> basis_consistent state ->
  let (st, s') := Store_write_snapshot io state s in
  (exists s0 s1,
     Store_open healthy_open false create (s_journal_file s') (s_snapshot_file s') = Ok s0 /\
     Store_load healthy_load s0 = (Ok state, s1) /\ Represents s1 state) /\
  (Status_ok st = true -> Represents s' state /\ s_journal_file s' = Some [] /\
     s_snapshot_file s' = Some (encode_snapshot state)).
Proof.
  intros HR Hs Hc. pose proof (Store_write_snapshot_spec io s state HR Hs Hc) as H.
  destruct (Store_write_snapshot io state s) as [st s']. destruct H as [Hd Hok]. split; [|exact Hok].
  destruct Hd as (base & first & old & new & HH).
  destruct (load_disk create (default [] (s_journal_file s')) [] (s_journal_file s')
    (s_snapshot_file s') state) as (s0 & s1 & Ho & Hl & HR1 & _); [by rewrite app_nil_r| |by left|eauto].
  exists base, first, old, new. by destruct HH; constructor.
Qed.

Lemma write_snapshot_safe_witness :
  let (st, s') := Store_write_snapshot (mkSnapshotIo true true true true false) DurableState_default
                    sample_store in
  (exists s0 s1,
     Store_open healthy_open false true (s_journal_file s') (s_snapshot_file s') = Ok s0 /\
     Store_load healthy_load s0 = (Ok DurableState_default, s1) /\
     Represents s1 DurableState_default) /\
  (Status_ok st = true -> Represents s' DurableState_default /\ s_journal_file s' = Some [] /\
     s_snapshot_file s' = Some (encode_snapshot DurableState_default)).
Proof.
  exact (write_snapshot_safe (mkSnapshotIo true true true true false) true sample_store
    DurableState_default sample_represents tables_wf_default sample_consistent).
Defined.

(** ** Two behaviours of a failed append *)

(** What the next process sees of the files of [s]. *)
Definition reload (s : Store) : Result DurableState :=
  let? s0 := Store_open healthy_open false false (s_journal_file s) (s_snapshot_file s) in
  (Store_load healthy_load s0).1.

Definition second_fence : FenceRecord := FenceRecord_default <| fr_sequence := 7 |>.

(** A short write is not undone.  After an append that failed part way
    through the record, the next append is acknowledged although it lands
    behind the remains of the first, and the journal can no longer be loaded. *)
Theorem short_write_poisons_journal :
  let (st1, s1) := Store_append (mkAppendIo true 30 true) RecordType_fence_recorded
                     sample_payload sample_store in
  let (st2, s2) := Store_append healthy_append RecordType_fence_recorded sample_payload s1 in
  Status_ok st1 = false /\ Status_ok st2 = true /\
  reload s2 = Err (corrupt Reason_integrity_failure "journal payload integrity failure").
Proof. vm_compute. repeat split. Qed.

(** A failed flush leaves the record in the journal under a sequence that
    is used again.  The next append is acknowledged, but replay applies the
    first record with that sequence and skips the second: the acknowledged
    fence is lost and the failed one is in force. *)
Theorem failed_flush_shadows_next_append :
  let (st1, s1) := Store_append (mkAppendIo true 4096 false) RecordType_fence_recorded
                     sample_payload sample_store in
  let (st2, s2) := Store_append healthy_append RecordType_fence_recorded
                     (enc_fence second_fence) s1 in
  Status_ok st1 = false /\ Status_ok st2 = true /\
  exists state, reload s2 = Ok state /\ ds_fences state = [FenceRecord_default].
Proof. vm_compute. split; [done|]. split; [done|]. by eexists. Qed.

(** A refused counters payload has already raised the counters, although
    [apply_record] is documented to leave the state untouched then. *)
Lemma refused_counters_applied :
  let (st, s) := apply_record DurableState_default RecordType_counters (le_bytes 8 5) in
  Status_ok st = false /\ ds_attempt_sequence s = 5.
Proof. vm_compute. done. Qed.

(** An attempt record does not raise the attempt counter, so a replay that ends
    with one hands out its identity again. *)
Lemma replayed_attempt_keeps_counter record state st state' :
  apply_record state RecordType_attempt_begin (enc_attempt record) = (st, state') ->
  ds_attempt_sequence state' = ds_attempt_sequence state.
Proof.
  cbn [apply_record]. destruct (whole_payload get_attempt (enc_attempt record)); [|by intros [= <- <-]].
  unfold put_durable_attempt. destruct (replace_first _ _ _); [by intros [= <- <-]|].
  destruct (max_attempts <=? _); [|by intros [= <- <-]].
  destruct (remove_first _ _); by intros [= <- <-].
Qed.

(** When an existing journal cannot be opened, for whatever reason, the owner
    creates it anew: everything in it is gone. *)
Lemma unopened_journal_is_emptied bytes snapshot :
  exists s, Store_open (mkOpenIo true true false true) false true (Some bytes) snapshot = Ok s /\
    s_journal_file s = Some [].
Proof. by eexists. Qed.

(** When the size of the journal cannot be read, the journal is taken for absent:
    loading succeeds with the state of the snapshot, and the next append repeats
    the sequence of a record that is still there. *)
Lemma unsized_journal_is_ignored bytes :
  exists s, (let? s0 := Store_open healthy_open false true (Some bytes) None in
             (Store_load (mkLoadIo true true true true false true (fun _ => true) true true) s0).1)
            = Ok DurableState_default /\
    s = (Store_load (mkLoadIo true true true true false true (fun _ => true) true true)
           (mkStore (Some bytes) None true true false false 0 0 RecoveryReport_default)).2 /\
    s_journal_file s = Some bytes /\ s_last_sequence s = 0 /\ s_journal_open s = true.
Proof. by eexists. Qed.
