(* ===== verification/Fabric.v ===== *)
(** * The promotion coordinator ([include/pff/fabric.hpp], [src/fabric.cpp])

    The whole of the coordinator's state and every operation on it, in an
    explicit state-and-error monad.  The store it owns is part of the state;
    what the platform does to each store call is decided by an environment. *)

From S2P Require Import Prelude.
From S2P Require Import Ids.
From S2P Require Import Limits.
From S2P Require Import Status.
From S2P Require Import Checked.
From S2P Require Import Authority.
From S2P Require Import Model.
From S2P Require Import Decision.
From S2P Require Import Records.
From S2P Require Import Selector.
From S2P Require Import Bytes.
From S2P Require Import Canonical.
From S2P Require Import Wire.
From S2P Require Import Store.

Record FabricOptions := mkFabricOptions {
  fo_directory : string;
  fo_provenance : Provenance;
  fo_max_retained_attempts : Z;
  fo_enable_compaction : bool;
  fo_compaction_journal_bytes : Z }.

Definition FabricOptions_default (directory : string) : FabricOptions :=
  mkFabricOptions directory Provenance_synthetic 256 true max_journal_bytes.

Record Grant := mkGrant {
  gr_id : GrantId;
  gr_attempt : AttemptId;
  gr_path : PathId;
  gr_basis : AuthorityVector;
  gr_kind : AuthorityKind }.

Definition Grant_default : Grant :=
  mkGrant Id_absent Id_absent Id_absent AuthorityVector_default AuthorityKind_grant.

Record PromotionAuthorization := mkPromotionAuthorization {
  pa_decision : PromotionDecision;
  pa_grant : Grant }.

Definition pa_authorized (a : PromotionAuthorization) : bool :=
  bool_decide (dec_outcome (pa_decision a) = PromotionOutcome_authorized) &&
  Id_valid (dec_selected (pa_decision a)).

(** A refusal carries no grant. *)
Definition refusal_of (decision : PromotionDecision) : PromotionAuthorization :=
  mkPromotionAuthorization decision Grant_default.

Record Fabric := mkFabric {
  fb_store : Store;
  fb_identity : FabricIdentity;
  fb_options : FabricOptions;
  fb_state : DurableState;
  fb_sets : gmap AlternateSetId AlternateSet;
  fb_evidence : gmap PathId PathEvidence;
  fb_attempts : gmap AttemptId AttemptRecord;
  fb_path_fences : gmap PathId Reason;
  fb_active_attempt : AttemptId;
  fb_grants : gmap AttemptId Grant;
  fb_stats : FabricStats;
  fb_evidence_sequence : Z }.

#[export] Instance Fabric_eta : Eta Fabric :=
  fun f => mkFabric (fb_store f) (fb_identity f) (fb_options f) (fb_state f) (fb_sets f)
    (fb_evidence f) (fb_attempts f) (fb_path_fences f) (fb_active_attempt f) (fb_grants f)
    (fb_stats f) (fb_evidence_sequence f).

(** ** Operations that can fail

    A member function returning [Status] is an [Op unit], one returning
    [Result<T>] an [Op T]; the object keeps whatever was changed before a
    failure. *)

Definition Op (A : Type) : Type := Fabric -> Result A * Fabric.

Definition op_return {A} (x : A) : Op A := fun f => (Ok x, f).
Definition op_fail {A} (s : Status) : Op A := fun f => (Err s, f).
Definition op_bind {A B} (m : Op A) (k : A -> Op B) : Op B :=
  fun f => match m f with (Ok x, f') => k x f' | (Err s, f') => (Err s, f') end.
Definition op_modify (g : Fabric -> Fabric) : Op unit := fun f => (Ok tt, g f).
Definition op_read {A} (k : Fabric -> Op A) : Op A := fun f => k f f.
Definition op_status (s : Status) : Op unit := fun f =>
  (if Status_ok s then Ok tt else Err s, f).

Notation "'let!' x := m 'in' k" := (op_bind m (fun x => k))
  (at level 10, x name, m at level 100, k at level 200).
Notation "'set!' g 'in' k" := (op_bind (op_modify g) (fun _ => k))
  (at level 10, g at level 100, k at level 200).
Notation "'with!' f 'in' k" := (op_read (fun f => k))
  (at level 10, f name, k at level 200).

Fixpoint for_each {A} (l : list A) (body : A -> Op unit) : Op unit :=
  match l with
  | [] => op_return tt
  | x :: l' => let! _ := body x in for_each l' body
  end.

(** Unsigned increments. *)
Definition bump (n : Z) : Z := wrap_u64 (n + 1).

(** What the platform does to the store calls of one operation: the outcome of
    an append and of a snapshot, chosen from the store they are issued on. *)
Record Env := mkEnv {
  env_append : Store -> AppendIo;
  env_snapshot : Store -> SnapshotIo }.

Definition healthy_env : Env := mkEnv (fun _ => healthy_append) (fun _ => healthy_snapshot).

Definition authority_reason (cls : AuthorityClass) : Reason :=
  match cls with
  | AuthorityClass_current => Reason_authority_current
  | AuthorityClass_stale => Reason_authority_stale
  | AuthorityClass_unknown => Reason_authority_unknown
  | AuthorityClass_conflict => Reason_authority_conflict
  end.

Definition refusal_outcome_for (comparison : AuthorityComparison) : PromotionOutcome :=
  match cmp_overall comparison with
  | AuthorityClass_current => PromotionOutcome_unsupported
  | AuthorityClass_conflict => PromotionOutcome_refused_conflict
  | _ => PromotionOutcome_refused_stale_authority
  end.

Definition fail_with {A} (c : Code) (r : Reason) (detail : string) : Op A :=
  op_fail (mkStatus c r detail).

(** The attempts in the order of the map. *)
Definition attempt_entries (f : Fabric) : list (AttemptId * AttemptRecord) :=
  ordered_entries Id_value (fb_attempts f).

Definition store_attempt (id : AttemptId) (record : AttemptRecord) (f : Fabric) : Fabric :=
  f <| fb_attempts ::= <[id := record]> |>.

Section ops.
Context (env : Env).

(** ** Helpers *)

Definition append_locked (type : RecordType) (payload : list byte) : Op unit :=
  fun f =>
    let (status, store) := Store_append (env_append env (fb_store f)) type payload (fb_store f) in
    let f := f <| fb_store := store |> in
    if negb (Status_ok status) then (Err status, f)
    else (Ok tt, f <| fb_state ::= fun s => s <| ds_last_sequence := s_last_sequence store |> |>
                   <| fb_stats ::= fun s => s <| fs_journal_records ::= bump |> |>).

Definition sync_attempts (f : Fabric) : Fabric :=
  f <| fb_state ::= fun s => s <| ds_attempts := (attempt_entries f).*2 |> |>.

Definition find_attempt (id : AttemptId) (f : Fabric) : option AttemptRecord :=
  fb_attempts f !! id.

Definition retain_attempt (record : AttemptRecord) : Op unit :=
  fun f =>
    match fb_attempts f !! at_id record with
    | Some _ => (Ok tt, store_attempt (at_id record) record f)
    | None =>
        if fo_max_retained_attempts (fb_options f) <=? Z.of_nat (size (fb_attempts f)) then
          match List.find (fun entry => is_terminal_state (at_state entry.2)) (attempt_entries f) with
          | None => (Err (mkStatus Code_table_full Reason_table_full "attempt table full"), f)
          | Some (evictable, _) =>
              (Ok tt,
               f <| fb_attempts ::= fun m => <[at_id record := record]> (delete evictable m) |>
                 <| fb_state ::= fun s => s <| ds_attempts_dropped ::= bump |> |>
                 <| fb_stats ::= fun s => s <| fs_attempts_dropped ::= bump |> |>)
          end
        else (Ok tt, store_attempt (at_id record) record f)
    end.

Definition persist_attempt (record : AttemptRecord) (is_begin : bool) : Op unit :=
  let payload := encode_attempt_record record in
  if bool_decide (payload = []) then
    fail_with Code_invalid Reason_invalid_payload "cannot encode attempt record"
  else
    let! _ := append_locked (if is_begin then RecordType_attempt_begin
                             else RecordType_attempt_state) payload in
    set! (fun f => f <| fb_state ::= fun s =>
            s <| ds_attempt_sequence ::= fun n => Z.max n (Id_value (at_id record)) |> |>) in
    retain_attempt record.

Definition persist_lineage (entry : LineageEntry) : Op unit :=
  let payload := encode_lineage_record entry in
  if bool_decide (payload = []) then
    fail_with Code_invalid Reason_invalid_payload "cannot encode lineage record"
  else
    let! _ := append_locked RecordType_lineage_entry payload in
    op_modify (fun f => f <| fb_state ::= fun s =>
      let s := s <| ds_decision_sequence ::= fun n => Z.max n (Id_value (le_decision entry)) |> in
      let s := if max_lineage <=? size_of (ds_lineage s)
               then s <| ds_lineage ::= tail |> <| ds_lineage_truncated := true |> else s in
      s <| ds_lineage ::= fun l => l ++ [entry] |> |>).

Definition persist_fence (fence : FenceRecord) : Op unit :=
  with! f in
  if max_fences <=? size_of (ds_fences (fb_state f)) then
    set! (fun f => f <| fb_state ::= fun s => s <| ds_fence_overflow ::= bump |> |>) in
    fail_with Code_exhausted Reason_table_full "fence table full"
  else
    let payload := encode_fence_record fence in
    if bool_decide (payload = []) then
      fail_with Code_invalid Reason_invalid_payload "cannot encode fence record"
    else
      let! _ := append_locked RecordType_fence_recorded payload in
      op_modify (fun f => f <| fb_state ::= fun s =>
        s <| ds_fences ::= fun l => l ++ [fence] |>
          <| ds_fence_sequence ::= fun n => Z.max n (Id_value (fr_id fence)) |> |>).

Definition record_fence (attempt : AttemptId) (path : PathId) (reason : Reason) : Op unit :=
  with! f in
  if ds_fence_sequence (fb_state f) =? UINT64_MAX then
    fail_with Code_exhausted Reason_table_full "fence sequence exhausted"
  else
    persist_fence (mkFenceRecord (Id_from_value (ds_fence_sequence (fb_state f) + 1))
      (fi_epoch (fb_identity f)) (fi_boot (fb_identity f)) attempt path reason
      (ds_authority (fb_state f)) (wrap_u64 (ds_last_sequence (fb_state f) + 1))).

Definition count_fence (f : Fabric) : Fabric :=
  f <| fb_stats ::= fun s => s <| fs_fences_recorded ::= bump |> |>.

Definition fenced_path_ids (f : Fabric) : list PathId :=
  (ordered_entries Id_value (fb_path_fences f)).*1.

Definition active_ids (f : Fabric) : list AttemptId :=
  (List.filter (fun entry => is_active_state (at_state entry.2)) (attempt_entries f)).*1.

(** The record an attempt ends with. *)
Definition ended (state : AttemptState) (reason : Reason) (sequence : Z) (record : AttemptRecord)
    : AttemptRecord :=
  record <| at_state := state |> <| at_terminal_reason := reason |>
    <| at_terminal_sequence := sequence |>.

(** Ending one attempt and fencing it, as both the restart and
    [fence_attempts_locked] do for each attempt in flight. *)
Definition end_and_fence (state : AttemptState) (reason : Reason) (id : AttemptId) : Op unit :=
  with! f in
  match find_attempt id f with
  | None => op_return tt
  | Some record =>
      let record := ended state reason (ds_last_sequence (fb_state f)) record in
      set! store_attempt id record in
      let! _ := persist_attempt record false in
      let! _ := record_fence id Id_absent reason in
      op_modify count_fence
  end.

Definition fence_attempts (reason : Reason) (state : AttemptState) : Op unit :=
  with! f in
  let targets := active_ids f in
  let! _ := for_each targets (end_and_fence state reason) in
  if bool_decide (targets = []) then op_return tt
  else op_modify (fun f =>
         f <| fb_active_attempt := Id_absent |>
           <| fb_grants ::= fun m => foldl (fun m id => delete id m) m targets |>).

(** The status and the reason reported through the reference parameter. *)
Definition validate_target (evidence : PathEvidence) (f : Fabric) : Status * Reason :=
  let fail code reason detail := (mkStatus code reason detail, reason) in
  let valid := PathEvidence_validate evidence in
  if negb (Status_ok valid) then (valid, status_reason valid)
  else
    let comparison := classify (ev_observed_under evidence) (ds_authority (fb_state f)) in
    if negb (bool_decide (cmp_overall comparison = AuthorityClass_current)) then
      fail Code_stale (authority_reason (cmp_overall comparison))
        "target evidence is not bound to current authority"
    else if bool_decide (is_Some (fb_path_fences f !! ev_path evidence)) then
      fail Code_fenced Reason_path_fenced "target path is fenced"
    else if negb (bool_decide (ev_freshness evidence = Freshness_fresh)) then
      fail Code_stale (if decide (ev_freshness evidence = Freshness_stale)
                       then Reason_evidence_stale else Reason_evidence_unknown)
        "target evidence is not fresh"
    else if negb (bool_decide (ev_eligibility evidence = Eligibility_eligible)) then
      fail Code_refused (if decide (ev_eligibility evidence = Eligibility_ineligible)
                         then Reason_eligibility_ineligible else Reason_eligibility_unknown)
        "target is not proven eligible"
    else if negb (ds_has_obligations (fb_state f)) then
      fail Code_refused Reason_obligations_invalid "no service obligations installed"
    else
      let obligations := ds_obligations (fb_state f) in
      if ob_require_reachable obligations
         && negb (bool_decide (ev_reachability evidence = Reachability_reachable)) then
        fail Code_refused (if decide (ev_reachability evidence = Reachability_unreachable)
                           then Reason_reachability_unreachable else Reason_reachability_unknown)
          "target is not proven reachable"
      else if ob_require_capacity obligations
              && negb (bool_decide (ev_capacity evidence = CapacityClass_sufficient)) then
        fail Code_refused (if decide (ev_capacity evidence = CapacityClass_insufficient)
                           then Reason_capacity_insufficient else Reason_capacity_unknown)
          "target capacity is not proven sufficient"
      else if negb (Z.land (ev_capabilities evidence) (ob_required_capabilities obligations)
                    =? ob_required_capabilities obligations) then
        fail Code_refused Reason_capability_missing "target lacks a required capability"
      else if ev_health_ppm evidence <? ob_min_health_ppm obligations then
        fail Code_refused Reason_health_below_obligation "target health is below the obligation"
      else if ob_max_cost_units obligations <? ev_cost_units evidence then
        fail Code_refused Reason_cost_above_obligation "target cost is above the obligation"
      else (ok_status, Reason_authority_current).

(** [select_locked] always returns a decision. *)
Definition select_locked (incumbent : PathId) (condition : IncumbentCondition)
    (set_id : AlternateSetId) (decision_id : DecisionId) (attempt : AttemptId)
    (kind : AuthorityKind) (f : Fabric) : PromotionDecision :=
  let state := fb_state f in
  let decision := PromotionDecision_default
    <| dec_id := decision_id |> <| dec_incumbent := incumbent |>
    <| dec_basis := ds_authority state |> <| dec_attempt := attempt |>
    <| dec_provenance := fo_provenance (fb_options f) |> <| dec_authority_kind := kind |>
    <| dec_set := set_id |> in
  let structural outcome reason :=
    decision <| dec_outcome := outcome |> <| dec_reason := reason |>
      <| dec_explanation := [(reason, 0)] |> in
  match fb_sets f !! set_id with
  | None => structural PromotionOutcome_refused_invalid_input Reason_domain_invalid
  | Some set =>
      if negb (ds_has_policy state) then
        structural PromotionOutcome_refused_policy_invalid Reason_policy_invalid
      else if negb (ds_has_obligations state) then
        structural PromotionOutcome_refused_obligations_invalid Reason_obligations_invalid
      else
        let input := mkSelectionInput incumbent (Some set) (Some (ds_obligations state))
          (Some (ds_policy state)) (ds_authority state) (set_generation set)
          (fenced_path_ids f) decision_id attempt (fo_provenance (fb_options f)) in
        match Selector.evaluate input with
        | Err status => structural PromotionOutcome_refused_invalid_input (status_reason status)
        | Ok out => out <| dec_authority_kind := kind |>
        end
  end.

Definition snapshot_state (f : Fabric) : DurableState :=
  (fb_state f) <| ds_attempts := (attempt_entries f).*2 |>.

Definition compact_if_needed : Op unit :=
  fun f =>
    if negb (fo_enable_compaction (fb_options f)) then (Ok tt, f)
    else if s_journal_bytes (fb_store f) <? fo_compaction_journal_bytes (fb_options f)
    then (Ok tt, f)
    else
      let (status, store) :=
        Store_write_snapshot (env_snapshot env (fb_store f)) (snapshot_state f) (fb_store f) in
      op_status status (f <| fb_store := store |>).

(** ** Ingest *)

Definition apply_policy (policy : FailoverPolicy) : Op unit :=
  let valid := FailoverPolicy_validate policy in
  if negb (Status_ok valid) then op_fail valid
  else
    with! f in
    let state := fb_state f in
    if ds_has_policy state && Id_ltb (pol_generation policy) (pol_generation (ds_policy state)) then
      fail_with Code_stale Reason_policy_generation_stale
        "policy generation is behind the installed policy"
    else if ds_has_policy state
            && Id_eqb (pol_generation policy) (pol_generation (ds_policy state)) then
      if FailoverPolicy_eqb policy (ds_policy state) then op_return tt
      else fail_with Code_conflict Reason_generation_conflict
             "policy generation reused with different content"
    else
      let payload := encode_policy_record policy in
      if bool_decide (payload = []) then
        fail_with Code_invalid Reason_invalid_payload "cannot encode policy"
      else
        let! _ := append_locked RecordType_policy_set payload in
        set! (fun f => f <| fb_state ::= fun s =>
                s <| ds_policy := policy |> <| ds_has_policy := true |>
                  <| ds_authority ::= fun a => a <| av_policy := pol_generation policy |> |> |>) in
        let! _ := fence_attempts Reason_authority_fenced AttemptState_fenced in
        compact_if_needed.

Definition apply_obligations (obligations : ServiceObligations) : Op unit :=
  let valid := ServiceObligations_validate obligations in
  if negb (Status_ok valid) then op_fail valid
  else
    with! f in
    let state := fb_state f in
    if ds_has_obligations state
       && Id_ltb (ob_generation obligations) (ob_generation (ds_obligations state)) then
      fail_with Code_stale Reason_obligations_generation_stale
        "obligation generation is behind the installed set"
    else if ds_has_obligations state
            && Id_eqb (ob_generation obligations) (ob_generation (ds_obligations state)) then
      if ServiceObligations_eqb obligations (ds_obligations state) then op_return tt
      else fail_with Code_conflict Reason_generation_conflict
             "obligation generation reused with different content"
    else
      let payload := encode_obligations_record obligations in
      if bool_decide (payload = []) then
        fail_with Code_invalid Reason_invalid_payload "cannot encode obligations"
      else
        let! _ := append_locked RecordType_obligations_set payload in
        set! (fun f => f <| fb_state ::= fun s =>
                s <| ds_obligations := obligations |> <| ds_has_obligations := true |>
                  <| ds_authority ::=
                       fun a => a <| av_obligations := ob_generation obligations |> |> |>) in
        let! _ := fence_attempts Reason_authority_fenced AttemptState_fenced in
        compact_if_needed.

(** The loop that compares a resubmitted set with the installed one: path, rank
    and withdrawal of each candidate, in order. *)
Fixpoint same_candidates (a b : list AlternateCandidate) : bool :=
  match a, b with
  | x :: a', y :: b' =>
      if negb (Id_eqb (cand_path x) (cand_path y))
         || negb (cand_upstream_rank x =? cand_upstream_rank y)
         || negb (Bool.eqb (cand_withdrawn x) (cand_withdrawn y)) then false
      else same_candidates a' b'
  | _, _ => true
  end.

Definition store_set (set : AlternateSet) (f : Fabric) : Fabric :=
  f <| fb_sets ::= <[set_id set := set]> |>
    <| fb_state ::= fun s =>
         s <| ds_sets ::= fun l =>
           match replace_first (fun candidate => Id_eqb (set_id candidate) (set_id set)) set l with
           | None => l ++ [set]
           | Some l' => l'
           end |> |>.

Definition apply_alternate_set (set : AlternateSet) : Op unit :=
  let valid := AlternateSet_validate set in
  if negb (Status_ok valid) then op_fail valid
  else
    with! f in
    let put : Op unit :=
      let payload := encode_set_record set in
      if bool_decide (payload = []) then
        fail_with Code_invalid Reason_invalid_payload "cannot encode alternate set"
      else
        let! _ := append_locked RecordType_alternate_set_put payload in
        set! store_set set in
        compact_if_needed in
    match fb_sets f !! set_id set with
    | Some existing =>
        if Id_ltb (set_generation set) (set_generation existing) then
          fail_with Code_stale Reason_set_generation_mismatch
            "alternate set generation is behind the installed set"
        else if Id_eqb (set_generation set) (set_generation existing) then
          if bool_decide (set_completeness set = set_completeness existing)
             && (size_of (set_candidates set) =? size_of (set_candidates existing))
             && same_candidates (set_candidates set) (set_candidates existing)
          then op_return tt
          else fail_with Code_conflict Reason_generation_conflict
                 "alternate set generation reused with different content"
        else put
    | None =>
        if max_alternate_sets <=? Z.of_nat (size (fb_sets f)) then
          fail_with Code_exhausted Reason_table_full "alternate set table full"
        else put
    end.

Definition reject_evidence (f : Fabric) : Fabric :=
  f <| fb_stats ::= fun s => s <| fs_evidence_rejected ::= bump |> |>.
Definition accept_evidence (evidence : PathEvidence) (f : Fabric) : Fabric :=
  f <| fb_evidence ::= <[ev_path evidence := evidence]> |>
    <| fb_stats ::= fun s => s <| fs_evidence_accepted ::= bump |> |>.

Definition apply_evidence (evidence : PathEvidence) : Op unit :=
  let valid := PathEvidence_validate evidence in
  if negb (Status_ok valid) then set! reject_evidence in op_fail valid
  else
    with! f in
    match fb_evidence f !! ev_path evidence with
    | Some existing =>
        if ev_observation_seq evidence <=? ev_observation_seq existing then
          set! reject_evidence in
          fail_with Code_stale Reason_evidence_superseded
            "evidence observation sequence is not newer than the stored one"
        else op_modify (accept_evidence evidence)
    | None =>
        if max_evidence_entries <=? Z.of_nat (size (fb_evidence f)) then
          set! reject_evidence in
          fail_with Code_exhausted Reason_table_full "evidence table full"
        else op_modify (accept_evidence evidence)
    end.

Definition set_authority (authority : AuthorityVector) : Op unit :=
  with! f in
  let current := ds_authority (fb_state f) in
  if Id_ltb (av_topology authority) (av_topology current)
     || Id_ltb (av_path_authority authority) (av_path_authority current) then
    fail_with Code_stale Reason_topology_generation_stale
      "topology or path authority generation regressed"
  else if Id_valid (av_epoch authority) && negb (Id_eqb (av_epoch authority) (av_epoch current)) then
    fail_with Code_stale Reason_epoch_stale
      "the coordinator epoch is owned by the runtime, not by callers"
  else if Id_valid (av_boot authority) && negb (Id_eqb (av_boot authority) (av_boot current)) then
    fail_with Code_stale Reason_boot_mismatch
      "the boot identity is owned by the runtime, not by callers"
  else if Id_eqb (av_topology authority) (av_topology current)
          && Id_eqb (av_path_authority authority) (av_path_authority current) then op_return tt
  else
    set! (fun f => f <| fb_state ::= fun s => s <| ds_authority ::= fun a =>
            a <| av_topology := av_topology authority |>
              <| av_path_authority := av_path_authority authority |> |> |>) in
    with! f in
    let state := fb_state f in
    let payload := encode_epoch_record (ds_authority state) (ds_restart_count state)
      (ds_attempt_sequence state) (ds_fence_sequence state) (ds_decision_sequence state) in
    if bool_decide (payload = []) then
      fail_with Code_invalid Reason_invalid_payload "cannot encode authority update"
    else
      let! _ := append_locked RecordType_epoch_advance payload in
      let! _ := fence_attempts Reason_authority_fenced AttemptState_fenced in
      compact_if_needed.

Definition release (id : AttemptId) (f : Fabric) : Fabric :=
  f <| fb_grants ::= delete id |>
    <| fb_active_attempt ::= fun a => if Id_eqb a id then Id_absent else a |>.

(** The body of the loop of [fence_path] over the attempts. *)
Definition revoke_path (path : PathId) (id : AttemptId) : Op unit :=
  with! f in
  match find_attempt id f with
  | Some attempt =>
      if is_active_state (at_state attempt) && Id_eqb (at_selected attempt) path then
        let record := ended AttemptState_fenced Reason_path_fenced
                        (ds_last_sequence (fb_state f)) attempt in
        set! store_attempt id record in
        let! _ := persist_attempt record false in
        op_modify (release id)
      else op_return tt
  | None => op_return tt
  end.

Definition fence_path (path : PathId) (reason : Reason) : Op unit :=
  if negb (Id_valid path) then
    fail_with Code_invalid Reason_domain_invalid "fence path identity absent"
  else
    with! f in
    if bool_decide (is_Some (fb_path_fences f !! path)) then op_return tt
    else
      let! _ := record_fence Id_absent path reason in
      set! (fun f => count_fence (f <| fb_path_fences ::= <[path := reason]> |>)) in
      with! f in
      let! _ := for_each (attempt_entries f).*1 (revoke_path path) in
      compact_if_needed.

Definition fence_all (reason : Reason) : Op unit := fence_attempts reason AttemptState_fenced.

(** ** Decisions *)

Definition bump_decision (f : Fabric) : Fabric :=
  f <| fb_state ::= fun s => s <| ds_decision_sequence ::= bump |> |>.
Definition bump_attempt (f : Fabric) : Fabric :=
  f <| fb_state ::= fun s => s <| ds_attempt_sequence ::= bump |> |>.
Definition stat (update : FabricStats -> FabricStats) (f : Fabric) : Fabric :=
  f <| fb_stats ::= update |>.

Definition Fabric_evaluate (incumbent : PathId) (condition : IncumbentCondition)
    (set : AlternateSetId) : Op PromotionDecision :=
  with! f in
  if ds_decision_sequence (fb_state f) =? UINT64_MAX then
    fail_with Code_exhausted Reason_table_full "decision sequence exhausted"
  else
    let decision_id := Id_from_value (ds_decision_sequence (fb_state f) + 1) in
    let decision := select_locked incumbent condition set decision_id Id_absent
                      AuthorityKind_recommendation f in
    set! bump_decision in
    op_return (decision <| dec_authority_kind := AuthorityKind_recommendation |>).

(** The decision document of a lost admission. *)
Definition contention (incumbent : PathId) (set : AlternateSetId) (f : Fabric) : PromotionDecision :=
  PromotionDecision_default
    <| dec_id := Id_from_value (wrap_u64 (ds_decision_sequence (fb_state f) + 1)) |>
    <| dec_outcome := PromotionOutcome_refused_already_owned |>
    <| dec_authority_kind := AuthorityKind_recommendation |>
    <| dec_incumbent := incumbent |> <| dec_set := set |>
    <| dec_basis := ds_authority (fb_state f) |>
    <| dec_provenance := fo_provenance (fb_options f) |>
    <| dec_reason := Reason_attempt_active |>
    <| dec_explanation := [(Reason_attempt_active, i64_of_u64 (Id_value (fb_active_attempt f)))] |>.

(** The lineage entry of an attempt under the current authority. *)
Definition lineage_of (decision : DecisionId) (attempt : AttemptId) (outcome : PromotionOutcome)
    (incumbent selected : PathId) (set : AlternateSetId) (reason : Reason) (f : Fabric)
    : LineageEntry :=
  mkLineageEntry decision attempt (fi_epoch (fb_identity f)) (fi_boot (fb_identity f)) outcome
    incumbent selected set (ds_authority (fb_state f)) reason (ds_last_sequence (fb_state f)).

Definition new_attempt (id : AttemptId) (incumbent selected : PathId) (set : AlternateSetId)
    (set_generation : Generation) (f : Fabric) : AttemptRecord :=
  mkAttemptRecord id (fi_epoch (fb_identity f)) (fi_boot (fb_identity f)) incumbent selected set
    set_generation (ds_authority (fb_state f)) AttemptState_claimed Reason_none
    (wrap_u64 (ds_last_sequence (fb_state f) + 1)) 0 0.

(** The path taken when no candidate was authorized. *)
Definition begin_refused (decision_id : DecisionId) (record : AttemptRecord)
    (decision : PromotionDecision) : Op PromotionAuthorization :=
  with! f in
  let record := ended AttemptState_refused (dec_reason decision)
                  (ds_last_sequence (fb_state f)) record in
  let! _ := persist_attempt record false in
  with! f in
  let! _ := persist_lineage (lineage_of decision_id (at_id record) (dec_outcome decision)
              (at_incumbent record) Id_absent (at_set record) (dec_reason decision) f) in
  set! stat (fun s => if is_indeterminate (dec_outcome decision)
                      then s <| fs_promotions_indeterminate ::= bump |>
                      else s <| fs_promotions_refused ::= bump |>) in
  let! _ := compact_if_needed in
  op_return (refusal_of decision).

(** The path taken when the selected candidate is granted. *)
Definition begin_authorized (record : AttemptRecord) (decision : PromotionDecision)
    : Op PromotionAuthorization :=
  let record := record <| at_state := AttemptState_authorized |> in
  let! _ := persist_attempt record false in
  with! f in
  let grant := mkGrant (Id_from_value (Id_value (at_id record))) (at_id record)
                 (dec_selected decision) (ds_authority (fb_state f)) AuthorityKind_grant in
  set! (fun f => stat (fun s => s <| fs_promotions_authorized ::= bump |>)
          (f <| fb_active_attempt := at_id record |> <| fb_grants ::= <[at_id record := grant]> |>)) in
  let! _ := compact_if_needed in
  op_return (mkPromotionAuthorization decision grant).

Definition is_structural (o : PromotionOutcome) : bool :=
  bool_decide (o = PromotionOutcome_refused_invalid_input) ||
  bool_decide (o = PromotionOutcome_refused_policy_invalid) ||
  bool_decide (o = PromotionOutcome_refused_obligations_invalid).

(** Whether another attempt owns the transition. *)
Definition owned (f : Fabric) : bool :=
  Id_valid (fb_active_attempt f) &&
  match fb_attempts f !! fb_active_attempt f with
  | Some active => is_active_state (at_state active)
  | None => false
  end.

Definition begin_promotion (incumbent : PathId) (condition : IncumbentCondition)
    (set : AlternateSetId) : Op PromotionAuthorization :=
  if negb (Id_valid incumbent) || negb (Id_valid set) then
    fail_with Code_invalid Reason_domain_invalid "promotion request identities absent"
  else
    with! f in
    if owned f then
      set! stat (fun s => s <| fs_promotions_refused ::= bump |>) in
      op_return (refusal_of (contention incumbent set f))
    else
      set! (fun f => f <| fb_active_attempt := Id_absent |>) in
      with! f in
      let state := fb_state f in
      if (ds_attempt_sequence state =? UINT64_MAX) || (ds_decision_sequence state =? UINT64_MAX) then
        fail_with Code_exhausted Reason_table_full "attempt sequence exhausted"
      else
        let attempt_id := Id_from_value (ds_attempt_sequence state + 1) in
        let decision_id := Id_from_value (ds_decision_sequence state + 1) in
        let decision := select_locked incumbent condition set decision_id attempt_id
                          AuthorityKind_grant f in
        set! bump_decision in
        if is_structural (dec_outcome decision) then
          set! stat (fun s => s <| fs_promotions_refused ::= bump |>) in
          op_return (refusal_of decision)
        else
          with! f in
          let record := new_attempt attempt_id incumbent (dec_selected decision) set
                          (dec_set_generation decision) f in
          let! _ := persist_attempt record true in
          set! bump_attempt in
          if negb (bool_decide (dec_outcome decision = PromotionOutcome_authorized))
             || negb (Id_valid (dec_selected decision))
          then begin_refused decision_id record decision
          else begin_authorized record decision.

Definition reject_stale (f : Fabric) : Fabric :=
  stat (fun s => s <| fs_stale_completions_rejected ::= bump |>) f.

(** The evidence a verified effect leaves behind. *)
Definition effect_evidence (effect : EffectEvidence) : PathEvidence :=
  mkPathEvidence (eff_id effect) (eff_path effect) Freshness_fresh Eligibility_eligible
    Reachability_reachable CapacityClass_sufficient 0 0 0 (eff_observation_seq effect)
    (eff_observed_under effect) (eff_provenance effect).

(** An effect observation no newer than the stored evidence of its path. *)
Definition effect_superseded (effect : EffectEvidence) (f : Fabric) : bool :=
  match fb_evidence f !! eff_path effect with
  | Some stored => eff_observation_seq effect <=? ev_observation_seq stored
  | None => false
  end.

Definition commit_effect (attempt_id : AttemptId) (record : AttemptRecord) (effect : EffectEvidence)
    : Op unit :=
  with! f in
  let record := ended AttemptState_committed Reason_none (ds_last_sequence (fb_state f)) record in
  set! store_attempt attempt_id record in
  let! _ := persist_attempt record false in
  with! f in
  let! _ := persist_lineage (lineage_of (Id_from_value (ds_decision_sequence (fb_state f)))
              attempt_id PromotionOutcome_promoted (at_incumbent record) (at_selected record)
              (at_set record) Reason_selected f) in
  set! (fun f => stat (fun s => s <| fs_promotions_committed ::= bump |>)
          (f <| fb_evidence ::= <[eff_path effect := effect_evidence effect]> |>
             <| fb_active_attempt := Id_absent |> <| fb_grants ::= delete attempt_id |>)) in
  compact_if_needed.

Definition record_effect (attempt_id : AttemptId) (effect : EffectEvidence) : Op unit :=
  with! f in
  match find_attempt attempt_id f with
  | None => fail_with Code_not_found Reason_attempt_not_found "unknown attempt"
  | Some record =>
      if bool_decide (at_state record = AttemptState_committed) then
        fail_with Code_refused Reason_attempt_already_committed "attempt is already committed"
      else if bool_decide (at_state record = AttemptState_fenced) then
        set! reject_stale in
        fail_with Code_fenced Reason_attempt_fenced "attempt was fenced"
      else if bool_decide (at_state record = AttemptState_superseded)
              || bool_decide (at_state record = AttemptState_interrupted) then
        set! reject_stale in
        fail_with Code_superseded Reason_attempt_superseded "attempt was superseded"
      else if is_terminal_state (at_state record) then
        fail_with Code_refused Reason_attempt_terminal "attempt is terminal"
      else if negb (Id_eqb (fb_active_attempt f) attempt_id) then
        set! reject_stale in
        fail_with Code_superseded Reason_attempt_superseded "a newer attempt owns the transition"
      else
        let valid := EffectEvidence_validate effect in
        if negb (Status_ok valid) then op_fail valid
        else if negb (bool_decide
                  (cmp_overall (classify (eff_observed_under effect) (ds_authority (fb_state f)))
                   = AuthorityClass_current)) then
          fail_with Code_stale Reason_effect_authority_mismatch
            "verified effect is not bound to current authority"
        else if negb (Id_eqb (eff_path effect) (at_selected record)) then
          fail_with Code_invalid Reason_effect_path_mismatch
            "verified effect belongs to a different path"
        else if effect_superseded effect f then
          fail_with Code_stale Reason_evidence_superseded
            "effect observation sequence is not newer than the stored one"
        else commit_effect attempt_id record effect
  end.

Definition abandon_attempt (attempt_id : AttemptId) (reason : Reason) : Op unit :=
  with! f in
  match find_attempt attempt_id f with
  | None => fail_with Code_not_found Reason_attempt_not_found "unknown attempt"
  | Some record =>
      if is_terminal_state (at_state record) then
        fail_with Code_refused Reason_attempt_terminal "attempt is terminal"
      else
        let record := ended AttemptState_abandoned reason (ds_last_sequence (fb_state f)) record in
        set! store_attempt attempt_id record in
        let! _ := persist_attempt record false in
        with! f in
        let! _ := persist_lineage (lineage_of (Id_from_value (ds_decision_sequence (fb_state f)))
                    attempt_id PromotionOutcome_refused_superseded_attempt (at_incumbent record)
                    Id_absent (at_set record) reason f) in
        set! release attempt_id in
        compact_if_needed
  end.

Definition rollback (attempt_id : AttemptId) (incumbent_evidence : PathEvidence) : Op unit :=
  with! f in
  match find_attempt attempt_id f with
  | None => fail_with Code_not_found Reason_attempt_not_found "unknown attempt"
  | Some record =>
      if bool_decide (at_state record = AttemptState_committed) then
        fail_with Code_refused Reason_rollback_not_committed
          "a committed promotion is reverted, not rolled back"
      else if is_terminal_state (at_state record) then
        fail_with Code_refused Reason_attempt_terminal "attempt is terminal"
      else if negb (Id_eqb (fb_active_attempt f) attempt_id) then
        set! reject_stale in
        fail_with Code_superseded Reason_attempt_superseded "a newer attempt owns the transition"
      else if negb (Id_valid (ev_path incumbent_evidence))
              || negb (Id_eqb (ev_path incumbent_evidence) (at_incumbent record)) then
        fail_with Code_invalid Reason_effect_path_mismatch
          "rollback evidence does not describe the incumbent path"
      else
        let (target_status, target_reason) := validate_target incumbent_evidence f in
        if negb (Status_ok target_status) then
          fail_with Code_refused Reason_rollback_incumbent_invalid (status_detail target_status)
        else
          set! stat (fun s => s <| fs_revalidations ::= bump |>) in
          if ds_has_policy (fb_state f)
             && (pol_max_revalidations (ds_policy (fb_state f)) <=? at_revalidations record) then
            fail_with Code_exhausted Reason_revalidation_exhausted "revalidation budget exhausted"
          else
            let record := ended AttemptState_rolled_back target_reason
              (ds_last_sequence (fb_state f))
              (record <| at_revalidations ::= fun n => wrap_u32 (n + 1) |>) in
            set! store_attempt attempt_id record in
            let! _ := persist_attempt record false in
            with! f in
            let! _ := persist_lineage
                        (lineage_of (Id_from_value (ds_decision_sequence (fb_state f)))
                           attempt_id PromotionOutcome_rolled_back (at_incumbent record)
                           (at_selected record) (at_set record) target_reason f) in
            set! (fun f => stat (fun s => s <| fs_rollbacks ::= bump |>) (release attempt_id f)) in
            compact_if_needed
  end.

Definition reverted_decision (decision_id : DecisionId) (attempt_id : AttemptId)
    (committed : AttemptRecord) (target : PathEvidence) (reason : Reason) (f : Fabric)
    : PromotionDecision :=
  PromotionDecision_default
    <| dec_id := decision_id |> <| dec_outcome := PromotionOutcome_reverted |>
    <| dec_authority_kind := AuthorityKind_grant |> <| dec_incumbent := at_selected committed |>
    <| dec_selected := ev_path target |> <| dec_basis := ds_authority (fb_state f) |>
    <| dec_attempt := attempt_id |> <| dec_reason := reason |>
    <| dec_provenance := fo_provenance (fb_options f) |>
    <| dec_explanation := [(reason, i64_of_u64 (Id_value (ev_path target)))] |>.

Definition reverted_attempt (attempt_id : AttemptId) (committed : AttemptRecord)
    (target : PathEvidence) (reason : Reason) (f : Fabric) : AttemptRecord :=
  mkAttemptRecord attempt_id (fi_epoch (fb_identity f)) (fi_boot (fb_identity f))
    (at_selected committed) (ev_path target) (at_set committed) (at_set_generation committed)
    (ds_authority (fb_state f)) AttemptState_committed reason
    (wrap_u64 (ds_last_sequence (fb_state f) + 1)) (ds_last_sequence (fb_state f))
    (wrap_u32 (at_revalidations committed + 1)).

Definition commit_revert (attempt_id : AttemptId) (decision_id : DecisionId)
    (committed : AttemptRecord) (target : PathEvidence) (reason : Reason) : Op PromotionDecision :=
  set! stat (fun s => s <| fs_revalidations ::= bump |>) in
  with! f in
  let decision := reverted_decision decision_id attempt_id committed target reason f in
  let record := reverted_attempt attempt_id committed target reason f in
  let! _ := persist_attempt record true in
  set! bump_attempt in
  set! bump_decision in
  with! f in
  let! _ := persist_lineage (lineage_of decision_id attempt_id PromotionOutcome_reverted
              (at_incumbent record) (at_selected record) (at_set record) reason f) in
  set! stat (fun s => s <| fs_reversions ::= bump |>) in
  let! _ := compact_if_needed in
  op_return decision.

Definition revert (committed_attempt : AttemptId) (target : PathEvidence) : Op PromotionDecision :=
  with! f in
  match fb_attempts f !! committed_attempt with
  | None => fail_with Code_not_found Reason_attempt_not_found "unknown attempt"
  | Some committed =>
      if negb (bool_decide (at_state committed = AttemptState_committed)) then
        fail_with Code_refused Reason_rollback_not_committed
          "reversion applies to a committed promotion"
      else
        let (target_status, target_reason) := validate_target target f in
        if negb (Status_ok target_status) then
          fail_with Code_refused Reason_rollback_incumbent_invalid (status_detail target_status)
        else if ds_has_policy (fb_state f)
                && (pol_max_revalidations (ds_policy (fb_state f)) <=? at_revalidations committed)
        then fail_with Code_exhausted Reason_revalidation_exhausted "revalidation budget exhausted"
        else if Id_valid (fb_active_attempt f) then
          fail_with Code_refused Reason_attempt_active
            "another promotion attempt owns the transition"
        else
          let state := fb_state f in
          if (ds_attempt_sequence state =? UINT64_MAX) || (ds_decision_sequence state =? UINT64_MAX)
          then fail_with Code_exhausted Reason_table_full "attempt sequence exhausted"
          else
            commit_revert (Id_from_value (ds_attempt_sequence state + 1))
              (Id_from_value (ds_decision_sequence state + 1)) committed target target_reason
  end.

(** ** Opening *)

(** What the platform supplies to a new incarnation. *)
Record Entropy := mkEntropy {
  en_boot : Z;
  en_incarnation : Z;
  en_process_id : Z;
  en_unix_micros : Z }.

(** [emplace] keeps the first entry of a key. *)
Definition emplace {K A} `{Countable K} (k : K) (x : A) (m : gmap K A) : gmap K A :=
  match m !! k with Some _ => m | None => <[k := x]> m end.

(** The object over a loaded store, before the restart is recorded. *)
Definition Fabric_loaded (options : FabricOptions) (store : Store) (state : DurableState) : Fabric :=
  mkFabric store FabricIdentity_default options state
    (foldl (fun m set => emplace (set_id set) set m) ∅ (ds_sets state))
    ∅
    (foldl (fun m attempt => emplace (at_id attempt) attempt m) ∅ (ds_attempts state))
    (foldl (fun m fence => if Id_valid (fr_path fence) then emplace (fr_path fence) (fr_reason fence) m
                           else m) ∅ (ds_fences state))
    Id_absent ∅ FabricStats_default 0.

(** The new incarnation's identity, in memory. *)
Definition incarnate (entropy : Entropy) (f : Fabric) : Fabric :=
  let epoch := Id_from_value (Id_value (av_epoch (ds_authority (fb_state f))) + 1) in
  let boot := Id_from_value (en_boot entropy) in
  let f := f <| fb_state ::= fun s =>
    s <| ds_restart_count ::= bump |>
      <| ds_authority ::= fun a => a <| av_epoch := epoch |> <| av_boot := boot |> |> |> in
  f <| fb_identity := mkFabricIdentity (Id_from_value (en_incarnation entropy)) boot epoch
         (en_process_id entropy) (en_unix_micros entropy) (ds_restart_count (fb_state f)) |>
    <| fb_stats ::= fun s => s <| fs_restarts := ds_restart_count (fb_state f) |> |>.

(** The part of [Fabric::open] after the store has been loaded. *)
Definition Fabric_start (entropy : Entropy) : Op unit :=
  with! f in
  if Id_value (av_epoch (ds_authority (fb_state f))) =? UINT64_MAX then
    fail_with Code_exhausted Reason_table_full "coordinator epoch exhausted"
  else
    set! incarnate entropy in
    with! f in
    let state := fb_state f in
    let payload := encode_epoch_record (ds_authority state) (ds_restart_count state)
      (ds_attempt_sequence state) (ds_fence_sequence state) (ds_decision_sequence state) in
    if bool_decide (payload = []) then
      fail_with Code_invalid Reason_invalid_payload "cannot encode restart record"
    else
      let! _ := append_locked RecordType_epoch_advance payload in
      with! f in
      let! _ := for_each (active_ids f) (end_and_fence AttemptState_interrupted Reason_restart_fenced) in
      set! (fun f => sync_attempts (f <| fb_active_attempt := Id_absent |> <| fb_grants := ∅ |>)) in
      compact_if_needed.

Definition Fabric_open (options : FabricOptions) (open_io : OpenIo) (load_io : LoadIo)
    (entropy : Entropy) (journal snapshot : option (list byte)) : Result Fabric :=
  if (fo_max_retained_attempts options =? 0) || (max_attempts <? fo_max_retained_attempts options)
  then Err (mkStatus Code_invalid Reason_domain_invalid "max_retained_attempts out of range")
  else
    let? store := Store_open open_io false true journal snapshot in
    match Store_load load_io store with
    | (Err status, _) => Err status
    | (Ok state, store) =>
        match Fabric_start entropy (Fabric_loaded options store state) with
        | (Err status, _) => Err status
        | (Ok _, f) => Ok f
        end
    end.

End ops.

(** ** Queries *)

Definition Fabric_alternate_set_count (f : Fabric) : Z := Z.of_nat (size (fb_sets f)).
Definition Fabric_active_attempt_count (f : Fabric) : Z := size_of (active_ids f).
Definition Fabric_policy_installed (f : Fabric) : bool := ds_has_policy (fb_state f).
Definition Fabric_obligations_installed (f : Fabric) : bool := ds_has_obligations (fb_state f).
Definition Fabric_recovery (f : Fabric) : RecoveryReport := s_recovery (fb_store f).
Definition Fabric_authority (f : Fabric) : AuthorityVector := ds_authority (fb_state f).

Definition Fabric_attempt (id : AttemptId) (f : Fabric) : Result AttemptRecord :=
  match fb_attempts f !! id with
  | None => Err (mkStatus Code_not_found Reason_attempt_not_found "unknown attempt")
  | Some record => Ok record
  end.

Definition Fabric_attempts (f : Fabric) : list AttemptRecord := (attempt_entries f).*2.

Definition Fabric_active_attempts (f : Fabric) : list AttemptRecord :=
  (List.filter (fun entry => is_active_state (at_state entry.2)) (attempt_entries f)).*2.

(** The last [limit] entries, oldest first. *)
Definition Fabric_lineage (limit : nat) (f : Fabric) : list LineageEntry :=
  let lineage := ds_lineage (fb_state f) in
  drop (length lineage - Nat.min limit (length lineage)) lineage.

Definition Fabric_fences (f : Fabric) : list FenceRecord := ds_fences (fb_state f).

Definition Fabric_alternate_set (id : AlternateSetId) (f : Fabric) : Result AlternateSet :=
  match fb_sets f !! id with
  | None => Err (mkStatus Code_not_found Reason_domain_invalid "unknown alternate set")
  | Some set => Ok set
  end.

Definition Fabric_policy (f : Fabric) : Result FailoverPolicy :=
  if negb (ds_has_policy (fb_state f)) then
    Err (mkStatus Code_not_found Reason_policy_invalid "no policy installed")
  else Ok (ds_policy (fb_state f)).

Definition Fabric_obligations (f : Fabric) : Result ServiceObligations :=
  if negb (ds_has_obligations (fb_state f)) then
    Err (mkStatus Code_not_found Reason_obligations_invalid "no obligations installed")
  else Ok (ds_obligations (fb_state f)).

Definition Fabric_path_evidence (path : PathId) (f : Fabric) : Result PathEvidence :=
  match fb_evidence f !! path with
  | None => Err (mkStatus Code_not_found Reason_evidence_unknown "no evidence for path")
  | Some evidence => Ok evidence
  end.
