(* ===== verification/Coordinator.v ===== *)
(** * The abstract coordinator

    What the coordinator promises, as a labelled transition system on the part
    of its state that carries authority: who owns the transition, what became of
    every attempt, which paths are fenced, which documents and observations are
    in force.  [Fabric.v] is shown to implement it; the safety properties are
    proved here once. *)

From S2P Require Import Prelude.
From S2P Require Import Ids.
From S2P Require Import Limits.
From S2P Require Import Status.
From S2P Require Import Checked.
From S2P Require Import Authority.
From S2P Require Import Model.
From S2P Require Import Decision.
From S2P Require Import Records.
From S2P Require Import Selector.
From S2P Require Import Bytes.
From S2P Require Import Canonical.
From S2P Require Import Wire.
From S2P Require Import Store.
From S2P Require Import Fabric.

Record View := mkView {
  v_authority : AuthorityVector;
  v_policy : option FailoverPolicy;
  v_obligations : option ServiceObligations;
  v_sets : gmap AlternateSetId AlternateSet;
  v_evidence : gmap PathId PathEvidence;
  v_fences : gmap PathId Reason;
  v_attempts : gmap AttemptId AttemptRecord;
  v_active : AttemptId;
  v_last_attempt : Z }.

#[export] Instance View_eta : Eta View :=
  fun v => mkView (v_authority v) (v_policy v) (v_obligations v) (v_sets v) (v_evidence v)
    (v_fences v) (v_attempts v) (v_active v) (v_last_attempt v).

(** The abstraction of a coordinator object. *)
Definition view (f : Fabric) : View :=
  let s := fb_state f in
  mkView (ds_authority s)
    (if ds_has_policy s then Some (ds_policy s) else None)
    (if ds_has_obligations s then Some (ds_obligations s) else None)
    (fb_sets f) (fb_evidence f) (fb_path_fences f) (fb_attempts f) (fb_active_attempt f)
    (ds_attempt_sequence s).

(** ** Transitions *)

(** What may happen to the authority-bearing state. *)
Inductive Label :=
  | LPolicy (p : FailoverPolicy)
  | LObligations (o : ServiceObligations)
  | LSet (s : AlternateSet)
  | LObserve (e : PathEvidence)
  | LAuthority (topology path_authority : Generation)
  | LFence (p : PathId) (r : Reason)
  | LClaim (id : AttemptId)
  | LAuthorize (id : AttemptId) (p : PathId)
  | LCommit (id : AttemptId) (e : EffectEvidence)
  | LRevert (id : AttemptId) (committed : AttemptId) (e : PathEvidence)
  | LEnd (id : AttemptId) (s : AttemptState)
  | LRelease
  | LSkip
  | LSeen (id : AttemptId)
  | LRestart (boot : BootId).

(** The attempt keeps its identity and its scope. *)
Definition same_scope (a b : AttemptRecord) : Prop :=
  at_id a = at_id b /\ at_incumbent a = at_incumbent b /\ at_selected a = at_selected b /\
  at_set a = at_set b /\ at_basis a = at_basis b.

(** The decision the selector takes on the documents in force. *)
Definition decides (v : View) (incumbent : PathId) (set_id : AlternateSetId)
    (d : PromotionDecision) : Prop :=
  exists set policy obligations decision_id attempt provenance,
    v_sets v !! set_id = Some set /\ v_policy v = Some policy /\
    v_obligations v = Some obligations /\
    Selector.evaluate (mkSelectionInput incumbent (Some set) (Some obligations) (Some policy)
      (v_authority v) (set_generation set) (ordered_entries Id_value (v_fences v)).*1
      decision_id attempt provenance) = Ok d.

(** A reversion target is proven usable under the current authority. *)
Record Usable (v : View) (e : PathEvidence) (o : ServiceObligations) : Prop := {
  us_valid : Status_ok (PathEvidence_validate e) = true;
  us_obligations : v_obligations v = Some o;
  us_authority : ev_observed_under e = v_authority v /\ AuthorityVector_present (v_authority v);
  us_not_fenced : v_fences v !! ev_path e = None;
  us_fresh : ev_freshness e = Freshness_fresh;
  us_eligible : ev_eligibility e = Eligibility_eligible;
  us_reachable : ob_require_reachable o = true -> ev_reachability e = Reachability_reachable;
  us_capacity : ob_require_capacity o = true -> ev_capacity e = CapacityClass_sufficient;
  us_capabilities : Z.land (ev_capabilities e) (ob_required_capabilities o)
                    = ob_required_capabilities o;
  us_health : ob_min_health_ppm o <= ev_health_ppm e;
  us_cost : ev_cost_units e <= ob_max_cost_units o }.

(** Room for one more attempt: the table itself, or the table without one
    finished attempt. *)
Definition makes_room (m m' : gmap AttemptId AttemptRecord) : Prop :=
  m' = m \/ exists old r, m !! old = Some r /\ is_terminal_state (at_state r) = true /\
              m' = delete old m.

Inductive trans : Label -> View -> View -> Prop :=
  | t_policy v p :
      Status_ok (FailoverPolicy_validate p) = true ->
      (forall p0, v_policy v = Some p0 -> Id_ltb (pol_generation p0) (pol_generation p) = true) ->
      trans (LPolicy p) v
        (v <| v_policy := Some p |>
           <| v_authority ::= fun a => a <| av_policy := pol_generation p |> |>)
  | t_obligations v o :
      Status_ok (ServiceObligations_validate o) = true ->
      (forall o0, v_obligations v = Some o0 ->
         Id_ltb (ob_generation o0) (ob_generation o) = true) ->
      trans (LObligations o) v
        (v <| v_obligations := Some o |>
           <| v_authority ::= fun a => a <| av_obligations := ob_generation o |> |>)
  | t_set v s :
      Status_ok (AlternateSet_validate s) = true ->
      (forall s0, v_sets v !! set_id s = Some s0 ->
         Id_ltb (set_generation s0) (set_generation s) = true) ->
      trans (LSet s) v (v <| v_sets ::= <[set_id s := s]> |>)
  | t_observe v e :
      (forall e0, v_evidence v !! ev_path e = Some e0 ->
         ev_observation_seq e0 < ev_observation_seq e) ->
      trans (LObserve e) v (v <| v_evidence ::= <[ev_path e := e]> |>)
  | t_authority v t p :
      Id_ltb t (av_topology (v_authority v)) = false ->
      Id_ltb p (av_path_authority (v_authority v)) = false ->
      trans (LAuthority t p) v
        (v <| v_authority ::= fun a => a <| av_topology := t |> <| av_path_authority := p |> |>)
  | t_fence v p r :
      Id_valid p = true -> v_fences v !! p = None ->
      trans (LFence p r) v (v <| v_fences ::= <[p := r]> |>)
  | t_claim v id r m :
      Id_value id = v_last_attempt v + 1 -> at_id r = id -> at_state r = AttemptState_claimed ->
      at_basis r = v_authority v -> v_active v = Id_absent -> makes_room (v_attempts v) m ->
      trans (LClaim id) v
        (v <| v_attempts := <[id := r]> m |> <| v_last_attempt := Id_value id |>)
  | t_authorize v id r d :
      v_attempts v !! id = Some r -> at_state r = AttemptState_claimed ->
      Id_valid id = true -> v_active v = Id_absent -> at_basis r = v_authority v ->
      decides v (at_incumbent r) (at_set r) d -> dec_outcome d = PromotionOutcome_authorized ->
      dec_selected d = at_selected r ->
      trans (LAuthorize id (at_selected r)) v
        (v <| v_attempts ::= <[id := r <| at_state := AttemptState_authorized |>]> |>
           <| v_active := id |>)
  | t_commit v id e r r' :
      v_attempts v !! id = Some r -> is_terminal_state (at_state r) = false -> v_active v = id ->
      Status_ok (EffectEvidence_validate e) = true ->
      eff_observed_under e = v_authority v -> AuthorityVector_present (v_authority v) ->
      eff_path e = at_selected r ->
      (forall e0, v_evidence v !! eff_path e = Some e0 ->
         ev_observation_seq e0 < eff_observation_seq e) ->
      same_scope r r' -> at_state r' = AttemptState_committed ->
      trans (LCommit id e) v (v <| v_attempts ::= <[id := r']> |>)
  | t_revert v id committed e o r c m :
      Id_value id = v_last_attempt v + 1 -> v_active v = Id_absent ->
      v_attempts v !! committed = Some c -> at_state c = AttemptState_committed ->
      Usable v e o -> at_id r = id -> at_state r = AttemptState_committed ->
      at_incumbent r = at_selected c -> at_selected r = ev_path e -> at_basis r = v_authority v ->
      makes_room (v_attempts v) m ->
      trans (LRevert id committed e) v
        (v <| v_attempts := <[id := r]> m |> <| v_last_attempt := Id_value id |>)
  | t_end v id s r r' :
      v_attempts v !! id = Some r -> is_terminal_state (at_state r) = false ->
      same_scope r r' -> at_state r' = s -> is_terminal_state s = true ->
      s <> AttemptState_committed ->
      trans (LEnd id s) v (v <| v_attempts ::= <[id := r']> |>)
  | t_release v :
      (forall r, v_attempts v !! v_active v = Some r -> is_terminal_state (at_state r) = true) ->
      trans LRelease v (v <| v_active := Id_absent |>)
  | t_skip v :
      v_last_attempt v < UINT64_MAX ->
      trans LSkip v (v <| v_last_attempt ::= Z.succ |>)
  | t_seen v id :
      is_Some (v_attempts v !! id) ->
      trans (LSeen id) v (v <| v_last_attempt ::= fun n => Z.max n (Id_value id) |>)
  | t_restart v boot :
      trans (LRestart boot) v
        (v <| v_authority ::= fun a =>
             a <| av_epoch := Id_from_value (Id_value (av_epoch a) + 1) |> <| av_boot := boot |> |>).

(** A run whose every label is permitted. *)
Definition steps (allowed : Label -> Prop) : View -> View -> Prop :=
  rtc (fun v v' => exists l, allowed l /\ trans l v v').

Lemma steps_refl allowed v : steps allowed v v.
Proof. apply rtc_refl. Qed.
Lemma steps_trans allowed v1 v2 v3 : steps allowed v1 v2 -> steps allowed v2 v3 -> steps allowed v1 v3.
Proof. apply (transitivity (R := rtc _)). Qed.
Lemma steps_one (allowed : Label -> Prop) l v v' : allowed l -> trans l v v' -> steps allowed v v'.
Proof. intros Ha Ht. apply rtc_once. by exists l. Qed.

(** A property every permitted transition preserves holds along a run. *)
Lemma steps_invariant (allowed : Label -> Prop) (P : View -> Prop) v v' :
  (forall l a b, allowed l -> trans l a b -> P a -> P b) -> steps allowed v v' -> P v -> P v'.
Proof. intros Hstep H. induction H as [|a b c (l & Hl & Ht) _ IH]; [done|]. eauto. Qed.

(** A reflexive and transitive relation every permitted transition respects
    relates the ends of a run. *)
Lemma steps_relation (allowed : Label -> Prop) (P : View -> Prop) (R : View -> View -> Prop) v v' :
  (forall l a b, allowed l -> trans l a b -> P a -> P b /\ R a b) ->
  (forall a, R a a) -> (forall a b c, R a b -> R b c -> R a c) ->
  steps allowed v v' -> P v -> R v v'.
Proof.
  intros Hstep Hrefl Htrans H. induction H as [|a b c (l & Hl & Ht) _ IH]; [done|].
  intros Ha. destruct (Hstep l a b Hl Ht Ha) as [Hb Hab]. eauto.
Qed.

(** ** The invariant *)

(** Attempts are filed under their own identity. *)
Definition keyed (v : View) : Prop :=
  forall id r, v_attempts v !! id = Some r -> at_id r = id.

(** Attempts are filed under their own identity, whoever may complete a
    transition is the one owner, and the documents in force are validated. *)
Record Inv (v : View) : Prop := {
  inv_keys : keyed v;
  inv_owner : forall id r, v_attempts v !! id = Some r -> is_grant_state (at_state r) = true ->
    id = v_active v /\ Id_valid id = true;
  inv_policy : forall p, v_policy v = Some p -> Status_ok (FailoverPolicy_validate p) = true }.

Lemma grant_not_terminal s : is_grant_state s = true -> is_terminal_state s = false.
Proof. by destruct s. Qed.

Lemma makes_room_lookup m m' id r : makes_room m m' -> m' !! id = Some r -> m !! id = Some r.
Proof. intros [->|(old & ro & _ & _ & ->)]; [done|]. intros H. by apply lookup_delete_Some in H as [_ H]. Qed.

(** Case analysis of a lookup behind an insertion. *)
Ltac insert_cases H :=
  apply lookup_insert_Some in H as [[<- <-]|[? H]].

(** A record in a state that grants nothing. *)
Ltac not_a_grant Hg :=
  match goal with H : at_state _ = _ |- _ => by rewrite H in Hg end.

Ltac scope_id :=
  match goal with H : same_scope _ _ |- _ => destruct H as [<- _] end.

Lemma trans_keyed l v v' : trans l v v' -> keyed v -> keyed v'.
Proof.
  intros Ht Hk. destruct Ht; try exact Hk; intros id' r1 Hl; cbn [v_attempts update_field] in Hl.
  - insert_cases Hl; [done|]. apply Hk. by eapply makes_room_lookup.
  - insert_cases Hl; [cbn; by apply (Hk id r)|]. by apply Hk.
  - insert_cases Hl; [|by apply Hk]. scope_id. by apply Hk.
  - insert_cases Hl; [done|]. apply Hk. by eapply makes_room_lookup.
  - insert_cases Hl; [|by apply Hk]. scope_id. by apply Hk.
Qed.

Lemma trans_inv l v v' : trans l v v' -> Inv v -> Inv v'.
Proof.
  intros Ht [Hk Ho Hp]. constructor; [by eapply trans_keyed|..]; destruct Ht;
    cbn [v_attempts v_active v_policy v_authority update_field]; try done.
  - intros id' r' Hl Hg. insert_cases Hl; [not_a_grant Hg|]. apply (Ho id' r'); [|done].
    by eapply makes_room_lookup.
  - intros id' r' Hl Hg. insert_cases Hl; [done|]. destruct (Ho id' r' Hl Hg) as [-> Hv].
    match goal with Ha : v_active v = Id_absent |- _ => by rewrite Ha in Hv end.
  - intros id' r1 Hl Hg. insert_cases Hl; [not_a_grant Hg|]. by apply (Ho id' r1).
  - intros id' r' Hl Hg. insert_cases Hl; [not_a_grant Hg|]. apply (Ho id' r'); [|done].
    by eapply makes_room_lookup.
  - intros id' r1 Hl Hg. insert_cases Hl; [|by apply (Ho id' r1)].
    apply grant_not_terminal in Hg. congruence.
  - intros id' r' Hl Hg. destruct (Ho id' r' Hl Hg) as [-> _]. apply grant_not_terminal in Hg.
    rewrite (H r' Hl) in Hg. done.
  - by intros p' [= <-].
Qed.

Lemma steps_keyed allowed v v' : steps allowed v v' -> keyed v -> keyed v'.
Proof. apply steps_invariant. intros l a b _. apply trans_keyed. Qed.

Lemma steps_inv allowed v v' : steps allowed v v' -> Inv v -> Inv v'.
Proof. apply steps_invariant. intros l a b _. apply trans_inv. Qed.

(** ** Finished attempts stay as they are *)

(** Every identity in the table was handed out. *)
Definition fresh (v : View) : Prop :=
  forall id, is_Some (v_attempts v !! id) -> Id_value id <= v_last_attempt v.

(** An attempt that has ended is never altered, only forgotten, and an identity
    that was handed out is never used again. *)
Definition settled (a b : View) : Prop :=
  v_last_attempt a <= v_last_attempt b /\
  forall id, Id_value id <= v_last_attempt a ->
    match v_attempts a !! id with
    | None => v_attempts b !! id = None
    | Some r => is_terminal_state (at_state r) = true ->
        v_attempts b !! id = Some r \/ v_attempts b !! id = None
    end.

Lemma settled_refl a : settled a a.
Proof. split; [lia|]. intros id _. destruct (v_attempts a !! id); [by left|done]. Qed.

Lemma settled_trans a b c : settled a b -> settled b c -> settled a c.
Proof.
  intros [Hl1 H1] [Hl2 H2]. split; [lia|]. intros id Hid. specialize (H1 id Hid).
  specialize (H2 id ltac:(lia)). destruct (v_attempts a !! id) as [r|].
  - intros Ht. destruct (H1 Ht) as [Hb|Hb]; rewrite Hb in H2; [by apply H2|by right].
  - by rewrite H1 in H2.
Qed.

Lemma fresh_room v m id r :
  fresh v -> makes_room (v_attempts v) m -> Id_value id = v_last_attempt v + 1 ->
  fresh (v <| v_attempts := <[id := r]> m |> <| v_last_attempt := Id_value id |>) /\
  settled v (v <| v_attempts := <[id := r]> m |> <| v_last_attempt := Id_value id |>).
Proof.
  intros Hf Hm Hid. split.
  - intros id' [r' Hr']. cbn [v_attempts v_last_attempt update_field] in *.
    insert_cases Hr'; [lia|].
    apply (makes_room_lookup _ _ _ _ Hm) in Hr'. specialize (Hf id' (ex_intro _ _ Hr')). lia.
  - split; [cbn; lia|]. intros id' Hle. cbn [v_attempts v_last_attempt update_field].
    assert (Hne : id <> id') by (intros ->; lia). rewrite lookup_insert_ne by done.
    destruct Hm as [->|(old & ro & Ho & Hto & ->)].
    + destruct (v_attempts v !! id'); [by left|done].
    + destruct (decide (old = id')) as [->|Hne'].
      * rewrite Ho, lookup_delete_eq. by right.
      * rewrite lookup_delete_ne by done. destruct (v_attempts v !! id'); [by left|done].
Qed.

(** Replacing an attempt in flight. *)
Lemma fresh_replace v w id r r' :
  fresh v -> v_attempts v !! id = Some r -> is_terminal_state (at_state r) = false ->
  v_attempts w = <[id := r']> (v_attempts v) -> v_last_attempt w = v_last_attempt v ->
  fresh w /\ settled v w.
Proof.
  intros Hf Hr Ht Ha Hl. split.
  - intros id' [r1 Hr1]. rewrite Hl. rewrite Ha in Hr1. insert_cases Hr1; apply Hf; by eexists.
  - split; [lia|]. intros id' _. rewrite Ha. destruct (decide (id = id')) as [->|Hne].
    + rewrite Hr. congruence.
    + rewrite lookup_insert_ne by done. destruct (v_attempts v !! id'); [by left|done].
Qed.

(** Moving the counter forward. *)
Lemma fresh_forward v w :
  fresh v -> v_attempts w = v_attempts v -> v_last_attempt v <= v_last_attempt w ->
  fresh w /\ settled v w.
Proof.
  intros Hf Ha Hl. split.
  - intros id Hid. rewrite Ha in Hid. specialize (Hf id Hid). lia.
  - split; [lia|]. intros id _. rewrite Ha. destruct (v_attempts v !! id); [by left|done].
Qed.

Lemma trans_settled l v v' : trans l v v' -> fresh v -> fresh v' /\ settled v v'.
Proof.
  intros Ht Hf. destruct Ht;
    try (apply (fresh_forward v); [done|done|cbn; lia]); try (by apply fresh_room).
  - by eapply (fresh_replace v _ id r); [|done|rewrite H0|..].
  - by eapply (fresh_replace v _ id r).
  - by eapply (fresh_replace v _ id r).
Qed.

Lemma steps_settled allowed v v' : steps allowed v v' -> fresh v -> fresh v' /\ settled v v'.
Proof.
  intros Hs Hf. split.
  - revert Hs Hf. apply steps_invariant. intros l a b _ Ht Ha. by apply (trans_settled l a b).
  - revert Hs Hf. apply steps_relation; [|apply settled_refl|apply settled_trans].
    intros l a b _. apply trans_settled.
Qed.

(** ** Generations and observations only move forward *)

Definition id_le {T} (a b : Id T) : Prop := Id_value a <= Id_value b.

Record forward (a b : View) : Prop := {
  fw_epoch : id_le (av_epoch (v_authority a)) (av_epoch (v_authority b));
  fw_topology : id_le (av_topology (v_authority a)) (av_topology (v_authority b));
  fw_path_authority : id_le (av_path_authority (v_authority a)) (av_path_authority (v_authority b));
  fw_policy : forall p, v_policy a = Some p -> exists p', v_policy b = Some p' /\
    (p' = p \/ Id_value (pol_generation p) < Id_value (pol_generation p'));
  fw_obligations : forall o, v_obligations a = Some o -> exists o', v_obligations b = Some o' /\
    (o' = o \/ Id_value (ob_generation o) < Id_value (ob_generation o'));
  fw_sets : forall id s, v_sets a !! id = Some s -> exists s', v_sets b !! id = Some s' /\
    (s' = s \/ Id_value (set_generation s) < Id_value (set_generation s'));
  fw_evidence : forall p e, v_evidence a !! p = Some e -> exists e', v_evidence b !! p = Some e' /\
    (e' = e \/ ev_observation_seq e < ev_observation_seq e');
  fw_fences : forall p r, v_fences a !! p = Some r -> v_fences b !! p = Some r }.

Lemma forward_refl a : forward a a.
Proof. constructor; unfold id_le; try done; eauto. Qed.

Lemma forward_trans a b c : forward a b -> forward b c -> forward a c.
Proof.
  intros [] []. constructor; unfold id_le in *; try lia; auto.
  - intros p Hp. destruct (fw_policy0 p Hp) as (p' & Hp' & H1).
    destruct (fw_policy1 p' Hp') as (p2 & Hp2 & H2). exists p2. split; [done|].
    destruct H1 as [->|H1], H2 as [->|H2]; auto; right; lia.
  - intros p Hp. destruct (fw_obligations0 p Hp) as (p' & Hp' & H1).
    destruct (fw_obligations1 p' Hp') as (p2 & Hp2 & H2). exists p2. split; [done|].
    destruct H1 as [->|H1], H2 as [->|H2]; auto; right; lia.
  - intros id p Hp. destruct (fw_sets0 id p Hp) as (p' & Hp' & H1).
    destruct (fw_sets1 id p' Hp') as (p2 & Hp2 & H2). exists p2. split; [done|].
    destruct H1 as [->|H1], H2 as [->|H2]; auto; right; lia.
  - intros id p Hp. destruct (fw_evidence0 id p Hp) as (p' & Hp' & H1).
    destruct (fw_evidence1 id p' Hp') as (p2 & Hp2 & H2). exists p2. split; [done|].
    destruct H1 as [->|H1], H2 as [->|H2]; auto; right; lia.
Qed.

Lemma insert_forward {K A} `{Countable K} (m : gmap K A) (k : K) (x : A) (lt : A -> A -> Prop) :
  (forall y, m !! k = Some y -> lt y x) ->
  forall k' y, m !! k' = Some y -> exists y', <[k := x]> m !! k' = Some y' /\ (y' = y \/ lt y y').
Proof.
  intros Hlt k' y Hy. destruct (decide (k = k')) as [->|Hne].
  - rewrite lookup_insert_eq. eauto.
  - rewrite lookup_insert_ne by done. eauto.
Qed.

Lemma trans_forward l v v' : trans l v v' -> forward v v'.
Proof.
  intros Ht. destruct Ht; constructor; unfold id_le;
    cbn [v_authority v_policy v_obligations v_sets v_evidence v_fences update_field
         av_epoch av_topology av_path_authority Id_value]; try done; try lia; eauto.
  - intros p0 Hp0. exists p. split; [done|]. right. apply Z.ltb_lt. by apply H0.
  - intros o0 Ho0. exists o. split; [done|]. right. apply Z.ltb_lt. by apply H0.
  - apply (insert_forward (v_sets v) (set_id s) s
      (fun a b => Id_value (set_generation a) < Id_value (set_generation b))).
    intros y Hy. apply Z.ltb_lt. by apply H0.
  - by apply (insert_forward (v_evidence v) (ev_path e) e
      (fun a b => ev_observation_seq a < ev_observation_seq b)).
  - by apply Z.ltb_ge.
  - by apply Z.ltb_ge.
  - intros p' r' Hr'. rewrite lookup_insert_ne; [done|]. congruence.
Qed.

Lemma steps_forward allowed v v' : steps allowed v v' -> forward v v'.
Proof.
  intros Hs. apply (steps_relation allowed (fun _ => True) forward v v'); [|apply forward_refl|apply forward_trans|exact Hs|done].
  intros l a b _ Ht _. split; [done|]. by apply trans_forward in Ht.
Qed.

(** ** How an attempt becomes committed *)

Definition committed_at (v : View) (id : AttemptId) : Prop :=
  exists r, v_attempts v !! id = Some r /\ at_state r = AttemptState_committed.

Lemma trans_commits l v v' id :
  trans l v v' -> committed_at v' id ->
  committed_at v id \/ (exists e, l = LCommit id e) \/ (exists c e, l = LRevert id c e).
Proof.
  unfold committed_at. intros Ht (r & Hr & Hc). destruct Ht; cbn [v_attempts update_field] in Hr; eauto 6;
    try (insert_cases Hr; [try congruence; try done; eauto 6
      |try (apply (makes_room_lookup _ _ _ _ ltac:(eassumption)) in Hr); eauto 6]).
Qed.

#[export] Instance committed_at_dec v id : Decision (committed_at v id).
Proof.
  unfold committed_at. destruct (v_attempts v !! id) as [r|].
  - destruct (decide (at_state r = AttemptState_committed)) as [Hc|Hc]; [left; eauto|].
    right. intros (r' & [= ->] & Hc'). done.
  - right. by intros (? & ? & _).
Defined.

(** A commitment during a run happened at one of its transitions. *)
Lemma steps_commits allowed v v' id :
  steps allowed v v' -> ~ committed_at v id -> committed_at v' id ->
  exists a b l, steps allowed v a /\ trans l a b /\ allowed l /\ steps allowed b v' /\
    ((exists e, l = LCommit id e) \/ (exists c e, l = LRevert id c e)).
Proof.
  intros Hs. induction Hs as [|v b w (l & Hl & Ht) Hs IH]; intros Hn Hc; [done|].
  destruct (decide (committed_at b id)) as [Hb|Hb].
  - destruct (trans_commits l v b id Ht Hb) as [Hv|Hl']; [done|].
    exists v, b, l. split; [apply steps_refl|done].
  - destruct (IH Hb Hc) as (a1 & b1 & l1 & Ha1 & H1 & H2 & H3 & H4).
    exists a1, b1, l1. split; [|done]. eapply rtc_l; [|exact Ha1]. by exists l.
Qed.
