(* ===== verification/FabricProps.v ===== *)
(** * The coordinator implements its abstract specification

    Every operation of [Fabric.v], whatever the store does and whether it
    succeeds or fails, moves the view along permitted transitions of
    [Coordinator.v]. *)

From S2P Require Import Prelude.
From S2P Require Import Ids.
From S2P Require Import Limits.
From S2P Require Import Status.
From S2P Require Import Checked.
From S2P Require Import Authority.
From S2P Require Import Model.
From S2P Require Import Decision.
From S2P Require Import Records.
From S2P Require Import Selector.
From S2P Require Import GateProps.
From S2P Require Import SelectorProps.
From S2P Require Import SelectorTheorems.
From S2P Require Import Bytes.
From S2P Require Import Canonical.
From S2P Require Import Wire.
From S2P Require Import WireProps.
From S2P Require Import Store.
From S2P Require Import Fabric.
From S2P Require Import Coordinator.

(** ** Commands *)

(** The operations of the public interface that can change the object. *)
Inductive Command :=
  | CApplyPolicy (p : FailoverPolicy)
  | CApplyObligations (o : ServiceObligations)
  | CApplyAlternateSet (s : AlternateSet)
  | CApplyEvidence (e : PathEvidence)
  | CSetAuthority (a : AuthorityVector)
  | CFencePath (p : PathId) (r : Reason)
  | CFenceAll (r : Reason)
  | CEvaluate (incumbent : PathId) (condition : IncumbentCondition) (set : AlternateSetId)
  | CBeginPromotion (incumbent : PathId) (condition : IncumbentCondition) (set : AlternateSetId)
  | CRecordEffect (id : AttemptId) (e : EffectEvidence)
  | CAbandon (id : AttemptId) (r : Reason)
  | CRollback (id : AttemptId) (e : PathEvidence)
  | CRevert (id : AttemptId) (e : PathEvidence).

Definition forget {A} (m : Op A) : Op unit := let! _ := m in op_return tt.

Definition execute (env : Env) (c : Command) : Op unit :=
  match c with
  | CApplyPolicy p => apply_policy env p
  | CApplyObligations o => apply_obligations env o
  | CApplyAlternateSet s => apply_alternate_set env s
  | CApplyEvidence e => apply_evidence e
  | CSetAuthority a => set_authority env a
  | CFencePath p r => fence_path env p r
  | CFenceAll r => fence_all env r
  | CEvaluate i co s => forget (Fabric_evaluate i co s)
  | CBeginPromotion i co s => forget (begin_promotion env i co s)
  | CRecordEffect id e => record_effect env id e
  | CAbandon id r => abandon_attempt env id r
  | CRollback id e => rollback env id e
  | CRevert id e => forget (revert env id e)
  end.

(** *** Arguments within the widths of their types *)

Definition policy_fits (p : FailoverPolicy) : Prop :=
  Id_wf (pol_generation p) /\ is_i64 (pol_w_health p) /\ is_i64 (pol_w_cost p) /\
  is_i64 (pol_w_rank p) /\ is_i64 (pol_w_capability p) /\ is_i64 (pol_min_score p) /\
  is_u32 (pol_search_limit p) /\ is_u32 (pol_max_retained_attempts p) /\
  is_u32 (pol_max_revalidations p).

Definition obligations_fit (o : ServiceObligations) : Prop :=
  Id_wf (ob_generation o) /\ is_u32 (ob_required_capabilities o) /\
  is_i64 (ob_min_health_ppm o) /\ is_i64 (ob_max_cost_units o).

Definition candidate_fits (c : AlternateCandidate) : Prop :=
  Id_wf (cand_path c) /\ is_u32 (cand_upstream_rank c) /\
  evidence_wf (cand_evidence c) /\ authority_wf (cand_authority c).

Definition set_fits (s : AlternateSet) : Prop :=
  Id_wf (set_id s) /\ Id_wf (set_generation s) /\ Forall candidate_fits (set_candidates s).

(** The arguments a caller of the typed interface can pass. *)
Definition command_wf (c : Command) : Prop :=
  match c with
  | CApplyPolicy p => policy_fits p
  | CApplyObligations o => obligations_fit o
  | CApplyAlternateSet s => set_fits s
  | CApplyEvidence e => evidence_wf e
  | CSetAuthority a => authority_wf a
  | CFencePath p _ => Id_wf p
  | CFenceAll _ => True
  | CEvaluate i _ s | CBeginPromotion i _ s => Id_wf i /\ Id_wf s
  | CRecordEffect id e => Id_wf id /\ effect_wf e
  | CAbandon id _ => Id_wf id
  | CRollback id e | CRevert id e => Id_wf id /\ evidence_wf e
  end.

(** What a command may do. *)
Definition allowed (c : Command) (l : Label) : Prop :=
  match l with
  | LRelease | LSeen _ => True
  | LPolicy p => c = CApplyPolicy p
  | LObligations o => c = CApplyObligations o
  | LSet s => c = CApplyAlternateSet s
  | LObserve e => c = CApplyEvidence e \/
      exists id eff, c = CRecordEffect id eff /\ e = effect_evidence eff
  | LAuthority t p => exists a, c = CSetAuthority a /\ t = av_topology a /\ p = av_path_authority a
  | LFence p r => c = CFencePath p r
  | LClaim _ => exists i co s, c = CBeginPromotion i co s
  | LAuthorize _ _ => exists i co s, c = CBeginPromotion i co s
  | LCommit id e => c = CRecordEffect id e
  | LRevert _ id e => c = CRevert id e
  | LSkip => (exists i co s, c = CBeginPromotion i co s) \/ exists id e, c = CRevert id e
  | LEnd id s =>
      match c with
      | CApplyPolicy _ | CApplyObligations _ | CSetAuthority _ | CFencePath _ _ | CFenceAll _ =>
          s = AttemptState_fenced
      | CBeginPromotion _ _ _ => s = AttemptState_refused
      | CAbandon id' _ => id = id' /\ s = AttemptState_abandoned
      | CRollback id' _ => id = id' /\ s = AttemptState_rolled_back
      | _ => False
      end
  | LRestart _ => False
  end.

(** What the restart may do. *)
Definition allowed_restart (l : Label) : Prop :=
  match l with
  | LRelease | LSeen _ | LRestart _ => True
  | LEnd _ s => s = AttemptState_interrupted
  | _ => False
  end.

(** ** Operations that leave the view alone *)

Lemma bind_result {A B} (m : Op A) (k : A -> Op B) f :
  op_bind m k f = match m f with (Ok x, f') => k x f' | (Err s, f') => (Err s, f') end.
Proof. reflexivity. Qed.

Definition vkeep {A} (m : Op A) : Prop := forall f, view (m f).2 = view f.

Lemma vkeep_bind {A B} (m : Op A) (k : A -> Op B) :
  vkeep m -> (forall x, vkeep (k x)) -> vkeep (op_bind m k).
Proof.
  intros Hm Hk f. rewrite bind_result. specialize (Hm f). destruct (m f) as [[x|s] f']; [|done].
  by rewrite Hk.
Qed.
Lemma vkeep_return {A} (x : A) : vkeep (op_return x).
Proof. done. Qed.
Lemma vkeep_fail {A} s : vkeep (@op_fail A s).
Proof. done. Qed.
Lemma vkeep_modify g : (forall f, view (g f) = view f) -> vkeep (op_modify g).
Proof. intros Hg f. apply Hg. Qed.
Lemma vkeep_read {A} (k : Fabric -> Op A) : (forall f, vkeep (k f)) -> vkeep (op_read k).
Proof. intros Hk f. apply Hk. Qed.

Create HintDb vkeep.
#[export] Hint Resolve vkeep_return vkeep_fail : vkeep.

Ltac vkeep_step :=
  lazymatch goal with
  | |- forall _, _ => intros
  | |- vkeep (op_bind _ _) => apply vkeep_bind
  | |- vkeep (op_return _) => apply vkeep_return
  | |- vkeep (op_fail _) => apply vkeep_fail
  | |- vkeep (fail_with _ _ _) => apply vkeep_fail
  | |- vkeep (op_read _) => apply vkeep_read
  | |- vkeep (op_modify _) => apply vkeep_modify; intros; reflexivity
  | |- vkeep (let _ := _ in _) => cbv zeta
  | |- vkeep (if ?b then _ else _) => destruct b
  | |- vkeep _ => solve [auto with vkeep nocore]
  end.
Ltac solve_vkeep := repeat vkeep_step.

Section keep.
Context (env : Env).

Lemma append_keep t p : vkeep (append_locked env t p).
Proof.
  intros f. unfold append_locked. destruct (Store_append _ _ _ _) as [status store].
  by destruct (negb (Status_ok status)).
Qed.
Hint Resolve append_keep : vkeep.

Lemma lineage_keep e : vkeep (persist_lineage env e).
Proof.
  unfold persist_lineage, fail_with. destruct (bool_decide _); [apply vkeep_fail|].
  apply vkeep_bind; [apply append_keep|]. intros _. apply vkeep_modify. intros f.
  unfold view. cbn -[max_lineage size_of Z.leb].
  by destruct (max_lineage <=? size_of (ds_lineage (fb_state f))).
Qed.
Hint Resolve lineage_keep : vkeep.

Lemma persist_fence_keep e : vkeep (persist_fence env e).
Proof. unfold persist_fence. solve_vkeep. Qed.
Hint Resolve persist_fence_keep : vkeep.

Lemma record_fence_keep a p r : vkeep (record_fence env a p r).
Proof. unfold record_fence. solve_vkeep. Qed.

Lemma compact_keep : vkeep (compact_if_needed env).
Proof.
  intros f. unfold compact_if_needed. repeat (case_match; [done|]).
  destruct (Store_write_snapshot _ _ _) as [status store]. done.
Qed.
End keep.
#[export] Hint Resolve append_keep lineage_keep persist_fence_keep record_fence_keep compact_keep : vkeep.

(** ** Filing an attempt *)

Definition seen (id : AttemptId) (v : View) : View :=
  v <| v_last_attempt ::= fun n => Z.max n (Id_value id) |>.

Lemma attempt_entries_lookup f id r : (id, r) ∈ attempt_entries f <-> fb_attempts f !! id = Some r.
Proof. apply elem_of_ordered_entries. Qed.

Lemma retain_view record f :
  match retain_attempt record f with
  | (Ok _, f') => exists m, makes_room (fb_attempts f) m /\
      (is_Some (fb_attempts f !! at_id record) -> m = fb_attempts f) /\
      view f' = (view f) <| v_attempts := <[at_id record := record]> m |>
  | (Err _, f') => f' = f /\ fb_attempts f !! at_id record = None
  end.
Proof.
  unfold retain_attempt. destruct (fb_attempts f !! at_id record) as [r|] eqn:E.
  { exists (fb_attempts f). split; [by left|]. split; reflexivity || done. }
  destruct (fo_max_retained_attempts _ <=? _).
  - destruct (List.find _ (attempt_entries f)) as [[old r]|] eqn:Ef; [|done].
    apply List.find_some in Ef as [Hin Ht]. apply list_elem_of_In, attempt_entries_lookup in Hin.
    exists (delete old (fb_attempts f)). split; [|split; [|done]].
    + right. by exists old, r.
    + by intros [? ?].
  - exists (fb_attempts f). split; [by left|]. split; reflexivity || done.
Qed.

Lemma persist_attempt_view env record is_begin f :
  match persist_attempt env record is_begin f with
  | (Ok _, f') => exists m, makes_room (fb_attempts f) m /\
      (is_Some (fb_attempts f !! at_id record) -> m = fb_attempts f) /\
      view f' = (seen (at_id record) (view f)) <| v_attempts := <[at_id record := record]> m |>
  | (Err _, f') => view f' = view f \/
      (view f' = seen (at_id record) (view f) /\ fb_attempts f !! at_id record = None)
  end.
Proof.
  unfold persist_attempt. destruct (bool_decide _); [by left|]. rewrite bind_result.
  pose proof (append_keep env (if is_begin then RecordType_attempt_begin
    else RecordType_attempt_state) (encode_attempt_record record) f) as Ha.
  destruct (append_locked env _ _ f) as [[u|s] f1]; cbn [snd] in Ha; [|by left].
  rewrite bind_result. cbn [op_modify].
  set (f2 := f1 <| fb_state ::= _ |>).
  assert (Hat : fb_attempts f2 = fb_attempts f) by exact (f_equal v_attempts Ha).
  assert (Hv : view f2 = seen (at_id record) (view f)).
  { rewrite <- Ha. done. }
  pose proof (retain_view record f2) as Hr. rewrite Hat, Hv in Hr.
  destruct (retain_attempt record f2) as [[u'|s] f3]; [exact Hr|].
  destruct Hr as [-> Hn]. right. by split.
Qed.

(** Filing a record that is in the table already. *)
Lemma persist_existing_view env record is_begin f :
  fb_attempts f !! at_id record = Some record ->
  view (persist_attempt env record is_begin f).2 = view f \/
  view (persist_attempt env record is_begin f).2 = seen (at_id record) (view f).
Proof.
  intros Hl. pose proof (persist_attempt_view env record is_begin f) as H.
  destruct (persist_attempt env record is_begin f) as [[u|s] f']; cbn [snd].
  - destruct H as (m & _ & Hm & ->). right. rewrite Hm by eauto. rewrite insert_id by done.
    reflexivity.
  - destruct H as [H|[_ H]]; [by left|congruence].
Qed.

(** ** Running along transitions *)

Definition vrun (P : Label -> Prop) {A} (m : Op A) (f : Fabric) : Prop :=
  steps P (view f) (view (m f).2).

Section run.
Context (P : Label -> Prop).

Lemma vrun_keep {A} (m : Op A) f : vkeep m -> vrun P m f.
Proof. intros Hm. unfold vrun. rewrite Hm. apply steps_refl. Qed.

Lemma vrun_bind {A B} (m : Op A) (k : A -> Op B) f :
  vrun P m f -> keyed (view f) ->
  (forall x f1, m f = (Ok x, f1) -> keyed (view f1) -> vrun P (k x) f1) ->
  vrun P (op_bind m k) f.
Proof.
  unfold vrun. intros Hm HI Hk. rewrite bind_result. destruct (m f) as [[x|s] f1] eqn:E; [|exact Hm].
  cbn [snd] in Hm. eapply steps_trans; [exact Hm|]. apply (Hk x); [done|]. by eapply steps_keyed.
Qed.

Lemma vrun_keep_bind {A B} (m : Op A) (k : A -> Op B) f :
  vkeep m -> keyed (view f) ->
  (forall x f1, view f1 = view f -> keyed (view f1) -> vrun P (k x) f1) -> vrun P (op_bind m k) f.
Proof.
  unfold vrun. intros Hm HI Hk. rewrite bind_result. specialize (Hm f).
  destruct (m f) as [[x|s] f1]; cbn [snd] in *; [|rewrite Hm; apply steps_refl].
  specialize (Hk x f1 Hm). rewrite Hm in Hk. by apply Hk.
Qed.

Lemma vrun_set {A} (g : Fabric -> Fabric) (k : Op A) f :
  keyed (view f) -> steps P (view f) (view (g f)) ->
  (keyed (view (g f)) -> vrun P k (g f)) -> vrun P (set! g in k) f.
Proof.
  unfold vrun. rewrite bind_result. cbn [op_modify]. intros HI Hs Hk.
  eapply steps_trans; [exact Hs|]. apply Hk. by eapply steps_keyed.
Qed.

Lemma vrun_set_keep {A} (g : Fabric -> Fabric) (k : Op A) f :
  view (g f) = view f -> vrun P k (g f) -> vrun P (set! g in k) f.
Proof.
  unfold vrun. intros Hg Hk. rewrite bind_result. cbn [op_modify]. by rewrite Hg in Hk.
Qed.

Lemma vrun_modify (g : Fabric -> Fabric) f :
  steps P (view f) (view (g f)) -> vrun P (op_modify g) f.
Proof. done. Qed.

Lemma vrun_read {A} (k : Fabric -> Op A) f : vrun P (k f) f -> vrun P (op_read k) f.
Proof. done. Qed.

Lemma vrun_fail {A} c r d f : vrun P (@fail_with A c r d) f.
Proof. apply vrun_keep, vkeep_fail. Qed.
Lemma vrun_return {A} (x : A) f : vrun P (op_return x) f.
Proof. apply vrun_keep, vkeep_return. Qed.

Lemma vrun_for_each {A} (l : list A) (body : A -> Op unit) f :
  keyed (view f) -> (forall x f', x ∈ l -> keyed (view f') -> vrun P (body x) f') ->
  vrun P (for_each l body) f.
Proof.
  revert f. induction l as [|x l IH]; intros f HI Hb; [apply vrun_keep, vkeep_return|].
  cbn [for_each]. apply vrun_bind; [apply Hb; [by left|done]|done|].
  intros _ f1 _ HI1. apply IH; [done|]. intros y f' Hy. apply Hb. by right.
Qed.
End run.

(** ** Ending attempts *)

Lemma ended_scope s why at_ r : same_scope r (ended s why at_ r).
Proof. by repeat split. Qed.

Lemma seen_steps (P : Label -> Prop) id v :
  P (LSeen id) -> is_Some (v_attempts v !! id) -> steps P v (seen id v).
Proof. intros HP Hs. eapply steps_one; [exact HP|]. by apply t_seen. Qed.

(** Filing an altered record over the old one. *)
Lemma refile_view env id r r' is_begin f :
  keyed (view f) -> fb_attempts f !! id = Some r -> same_scope r r' ->
  let v := (view f) <| v_attempts ::= <[id := r']> |> in
  let f1 := (persist_attempt env r' is_begin (store_attempt id r' f)).2 in
  view f1 = v \/ view f1 = seen id v.
Proof.
  intros HI Hr Hs v f1. assert (Hid : at_id r' = id).
  { destruct Hs as [<- _]. by apply HI. }
  destruct (persist_existing_view env r' is_begin (store_attempt id r' f)) as [H|H].
  { rewrite Hid. cbn. by rewrite lookup_insert_eq. }
  - left. exact H.
  - right. rewrite Hid in H. exact H.
Qed.

Lemma seen_lookup v id0 id r : v_attempts v !! id = Some r -> v_attempts (seen id0 v) !! id = Some r.
Proof. done. Qed.

(** The views between filing a record and what follows. *)
Definition refiled (id : AttemptId) (r' : AttemptRecord) (v w : View) : Prop :=
  let v' := v <| v_attempts ::= <[id := r']> |> in w = v' \/ w = seen id v'.

Lemma refiled_lookup id r' v w : refiled id r' v w -> v_attempts w !! id = Some r'.
Proof. intros [->| ->]; cbn; apply lookup_insert_eq. Qed.

Lemma refiled_active id r' v w : refiled id r' v w -> v_active w = v_active v.
Proof. by intros [->| ->]. Qed.

Lemma refiled_steps (P : Label -> Prop) l id r' v w :
  refiled id r' v w -> P l -> P (LSeen id) -> trans l v (v <| v_attempts ::= <[id := r']> |>) ->
  steps P v w.
Proof.
  intros Hr HP HPs Ht. eapply steps_trans; [eapply steps_one; [exact HP|exact Ht]|].
  destruct Hr as [->| ->]; [apply steps_refl|]. apply seen_steps; [done|].
  cbn. rewrite lookup_insert_eq. by eexists.
Qed.

(** Altering and filing an attempt, then going on. *)
Lemma refile_bind (P : Label -> Prop) env l id r r' is_begin f {A} (k : Op A) :
  keyed (view f) -> fb_attempts f !! id = Some r -> same_scope r r' -> P l -> P (LSeen id) ->
  trans l (view f) ((view f) <| v_attempts ::= <[id := r']> |>) ->
  (forall f1, refiled id r' (view f) (view f1) -> keyed (view f1) -> vrun P k f1) ->
  vrun P (set! store_attempt id r' in let! _ := persist_attempt env r' is_begin in k) f.
Proof.
  intros HI Hr Hs HP HPs Ht Hk. pose proof (refile_view env id r r' is_begin f HI Hr Hs) as Hv.
  cbv zeta in Hv. unfold vrun in *. rewrite !bind_result. cbn [op_modify]. rewrite bind_result.
  destruct (persist_attempt env r' is_begin (store_attempt id r' f)) as [[u|e] f1]; cbn [snd] in *;
    pose proof (refiled_steps P l id r' _ _ Hv HP HPs Ht) as Hst; [|exact Hst].
  eapply steps_trans; [exact Hst|]. apply Hk; [exact Hv|]. by eapply steps_keyed.
Qed.

(** The table after ending attempt [id]. *)
Lemma end_and_fence_view env s why id r f :
  keyed (view f) -> fb_attempts f !! id = Some r ->
  exists r', same_scope r r' /\ at_state r' = s /\
    let v := (view f) <| v_attempts ::= <[id := r']> |> in
    let f' := (end_and_fence env s why id f).2 in
    view f' = v \/ view f' = seen id v.
Proof.
  intros HI Hr. set (r' := ended s why (ds_last_sequence (fb_state f)) r).
  exists r'. split; [apply ended_scope|]. split; [done|]. cbv zeta.
  unfold end_and_fence, op_read. unfold find_attempt. rewrite Hr. rewrite bind_result. cbn [op_modify].
  rewrite bind_result. fold r'.
  pose proof (refile_view env id r r' false f HI Hr (ended_scope _ _ _ _)) as Hv. cbv zeta in Hv.
  destruct (persist_attempt env r' false (store_attempt id r' f)) as [[u|e] f1]; cbn [snd] in *; [|exact Hv].
  assert (Hk : view ((let! _ := record_fence env id Id_absent why in op_modify count_fence) f1).2 = view f1).
  { apply vkeep_bind; [apply record_fence_keep|]. intros _. by apply vkeep_modify. }
  by rewrite Hk.
Qed.

Lemma active_ids_spec f id :
  id ∈ active_ids f <-> exists r, fb_attempts f !! id = Some r /\ is_active_state (at_state r) = true.
Proof.
  unfold active_ids. rewrite list_elem_of_fmap. split.
  - intros ([id' r] & -> & Hin). apply list_elem_of_In, List.filter_In in Hin as [Hin Ha].
    apply list_elem_of_In, attempt_entries_lookup in Hin. eauto.
  - intros (r & Hr & Ha). exists (id, r). split; [done|].
    apply list_elem_of_In, List.filter_In. split; [|done].
    by apply list_elem_of_In, attempt_entries_lookup.
Qed.

Lemma List_filter_none {A} (p : A -> bool) l :
  (forall x, x ∈ l -> p x = false) -> List.filter p l = [].
Proof.
  induction l as [|x l IH]; intros H; [done|]. cbn. rewrite (H x) by apply list_elem_of_here.
  apply IH. intros y Hy. apply H. by apply list_elem_of_further.
Qed.

Lemma sublist_filter {A} (p : A -> bool) l : sublist (List.filter p l) l.
Proof. induction l as [|x l IH]; cbn; [done|]. destruct (p x); by constructor. Qed.

Lemma active_ids_NoDup f : NoDup (active_ids f).
Proof.
  unfold active_ids. eapply sublist_NoDup; [apply (ordered_entries_NoDup_fst Id_value (fb_attempts f))|].
  apply fmap_sublist, sublist_filter.
Qed.

Section ending.
Context (env : Env) (P : Label -> Prop) (s : AttemptState) (why : Reason)
  (Hterm : is_terminal_state s = true) (Hnc : s <> AttemptState_committed)
  (HPe : forall id, P (LEnd id s)) (HPs : forall id, P (LSeen id)).

Lemma end_and_fence_run id r f :
  keyed (view f) -> fb_attempts f !! id = Some r -> is_active_state (at_state r) = true ->
  vrun P (end_and_fence env s why id) f.
Proof.
  intros HI Hr Ha. destruct (end_and_fence_view env s why id r f HI Hr) as (r' & Hsc & Hst & Hv).
  cbv zeta in Hv.
  assert (H1 : steps P (view f) ((view f) <| v_attempts ::= <[id := r']> |>)).
  { eapply steps_one; [apply HPe|]. eapply t_end; [exact Hr| |done|done|done|done].
    unfold is_active_state in Ha. by apply negb_true_iff. }
  unfold vrun. destruct Hv as [->| ->]; [done|]. eapply steps_trans; [exact H1|].
  apply seen_steps; [done|]. cbn. rewrite lookup_insert_eq. by eexists.
Qed.

(** Ending a list of attempts in flight. *)
Lemma end_all_run l f :
  keyed (view f) -> NoDup l ->
  (forall id, id ∈ l -> exists r, fb_attempts f !! id = Some r /\ is_active_state (at_state r) = true) ->
  let f' := (for_each l (end_and_fence env s why) f).2 in
  vrun P (for_each l (end_and_fence env s why)) f /\
  v_active (view f') = v_active (view f) /\
  (forall id, id ∉ l -> fb_attempts f' !! id = fb_attempts f !! id) /\
  (Result_ok (for_each l (end_and_fence env s why) f).1 = true ->
     forall id, id ∈ l -> exists r, fb_attempts f' !! id = Some r /\ at_state r = s).
Proof.
  cbv zeta. revert f. induction l as [|x l IH]; intros f HI Hnd Hl.
  { split; [apply vrun_keep, vkeep_return|]. split; [done|]. split; [done|].
    intros _ id Hid. by apply not_elem_of_nil in Hid. }
  apply NoDup_cons in Hnd as [Hx Hnd]. destruct (Hl x) as (r & Hr & Ha); [by left|].
  pose proof (end_and_fence_run x r f HI Hr Ha) as Hrun.
  destruct (end_and_fence_view env s why x r f HI Hr) as (r' & Hsc & Hst & Hv). cbv zeta in Hv.
  cbn [for_each]. unfold vrun in *. rewrite bind_result.
  destruct (end_and_fence env s why x f) as [[u|e] f1] eqn:E; cbn [fst snd] in *.
  - assert (Hat : fb_attempts f1 = <[x := r']> (fb_attempts f))
      by (destruct Hv as [Hv|Hv]; exact (f_equal v_attempts Hv)).
    assert (Hac : v_active (view f1) = v_active (view f))
      by (destruct Hv as [Hv|Hv]; exact (f_equal v_active Hv)).
    destruct (IH f1) as (Hrun' & Ha' & Hout & Hin).
    + by eapply steps_keyed.
    + done.
    + intros id Hid. rewrite Hat. rewrite lookup_insert_ne by (intros ->; done).
      apply Hl. by right.
    + split; [by eapply steps_trans|]. split; [by rewrite Ha'|]. split.
      * intros id Hid. apply not_elem_of_cons in Hid as [Hne Hid]. rewrite Hout by done.
        by rewrite Hat, lookup_insert_ne.
      * intros Hok id Hid. apply elem_of_cons in Hid as [->|Hid]; [|by apply Hin].
        exists r'. rewrite Hout by done. by rewrite Hat, lookup_insert_eq.
  - split; [exact Hrun|]. split; [destruct Hv as [Hv|Hv]; exact (f_equal v_active Hv)|].
    split; [|done]. intros id Hid. apply not_elem_of_cons in Hid as [Hne _].
    assert (Hat : fb_attempts f1 = <[x := r']> (fb_attempts f))
      by (destruct Hv as [Hv|Hv]; exact (f_equal v_attempts Hv)).
    by rewrite Hat, lookup_insert_ne.
Qed.

(** Once they have ended, whoever is marked as owner owns nothing. *)
Lemma end_active_released f :
  keyed (view f) ->
  let f' := (for_each (active_ids f) (end_and_fence env s why) f).2 in
  Result_ok (for_each (active_ids f) (end_and_fence env s why) f).1 = true ->
  forall id r, fb_attempts f' !! id = Some r -> is_terminal_state (at_state r) = true.
Proof.
  intros HI f' Hok id r Hr.
  destruct (end_all_run (active_ids f) f HI (active_ids_NoDup f)) as (_ & _ & Hout & Hin).
  { intros i Hi. by apply active_ids_spec. }
  destruct (decide (id ∈ active_ids f)) as [Hid|Hid].
  - destruct (Hin Hok id Hid) as (r1 & Hr1 & Hs). unfold f' in Hr. rewrite Hr1 in Hr.
    injection Hr as <-. by rewrite Hs.
  - unfold f' in Hr. rewrite Hout in Hr by done.
    destruct (is_terminal_state (at_state r)) eqn:Ht; [done|]. exfalso. apply Hid.
    apply active_ids_spec. exists r. unfold is_active_state. by rewrite Ht.
Qed.
End ending.

Lemma for_each_authority env s why l f :
  keyed (view f) ->
  v_authority (view (for_each l (end_and_fence env s why) f).2) = v_authority (view f).
Proof.
  revert f. induction l as [|x l IH]; intros f HI; [done|]. cbn [for_each]. rewrite bind_result.
  destruct (fb_attempts f !! x) as [r|] eqn:Hr.
  - destruct (end_and_fence_view env s why x r f HI Hr) as (r' & Hsc & _ & Hv). cbv zeta in Hv.
    assert (Hau : v_authority (view (end_and_fence env s why x f).2) = v_authority (view f))
      by (destruct Hv as [Hv|Hv]; exact (f_equal v_authority Hv)).
    assert (HI' : keyed (view (end_and_fence env s why x f).2)).
    { destruct Hv as [-> | ->]; intros id r1 Hl; cbn in Hl; insert_cases Hl;
        try (by apply HI); destruct Hsc as [<- _]; by apply HI. }
    destruct (end_and_fence env s why x f) as [[u|e] f1]; cbn [snd] in *; [|done].
    by rewrite IH, Hau.
  - unfold end_and_fence, op_read, find_attempt. rewrite Hr. cbn. by apply IH.
Qed.

Lemma fence_attempts_run (P : Label -> Prop) env why s f :
  is_terminal_state s = true -> s <> AttemptState_committed ->
  (forall id, P (LEnd id s)) -> (forall id, P (LSeen id)) -> P LRelease ->
  keyed (view f) -> vrun P (fence_attempts env why s) f.
Proof.
  intros Ht Hnc HPe HPs HPr HI. unfold fence_attempts. change (vrun P (?k f) f) with (vrun P (k f) f).
  unfold vrun, op_read. cbv zeta. apply vrun_bind; [|done|].
  - apply (end_all_run env P s why Ht Hnc HPe HPs); [done|apply active_ids_NoDup|].
    intros id. apply active_ids_spec.
  - intros u f1 Hf1 HI1. destruct (bool_decide (active_ids f = [])); [apply vrun_keep, vkeep_return|].
    apply vrun_modify. eapply steps_one; [exact HPr|]. apply t_release. intros r Hr.
    pose proof (end_active_released env P s why Ht Hnc HPe HPs f HI) as Hrel. cbv zeta in Hrel.
    rewrite Hf1 in Hrel. by eapply Hrel.
Qed.

(** Authority-bearing changes are followed by fencing and compaction. *)
Lemma fence_then_compact_run (P : Label -> Prop) env why s f :
  is_terminal_state s = true -> s <> AttemptState_committed ->
  (forall id, P (LEnd id s)) -> (forall id, P (LSeen id)) -> P LRelease ->
  keyed (view f) ->
  vrun P (let! _ := fence_attempts env why s in compact_if_needed env) f.
Proof.
  intros. apply vrun_bind; [by apply fence_attempts_run|done|].
  intros. apply vrun_keep, compact_keep.
Qed.

(** Dropping the mark of ownership of a finished attempt. *)
Lemma release_steps (P : Label -> Prop) id r f :
  P LRelease -> fb_attempts f !! id = Some r -> is_terminal_state (at_state r) = true ->
  steps P (view f) (view (release id f)).
Proof.
  intros HP Hr Ht. unfold release. destruct (Id_eqb_spec (fb_active_attempt f) id) as [He|He].
  - eapply steps_one; [exact HP|].
    lazymatch goal with |- trans _ _ (view ?x) =>
      replace (view x) with ((view f) <| v_active := Id_absent |>) end.
    + apply t_release. cbn. rewrite He, Hr. by intros r' [= <-].
    + unfold view. cbn. by rewrite He, Id_eqb_refl.
  - lazymatch goal with |- steps _ _ (view ?x) => replace (view x) with (view f) end.
    + apply steps_refl.
    + unfold view. cbn. rewrite (proj2 (Id_eqb_neq _ _) He). done.
Qed.

(** ** Ingest *)

(** The goals left by a refusal. *)
Ltac refuse_run :=
  lazymatch goal with
  | |- vrun _ (fail_with _ _ _) _ => apply vrun_fail
  | |- vrun _ (op_return _) _ => apply vrun_return
  | |- vrun _ (op_fail _) _ => apply vrun_keep, vkeep_fail
  | |- vrun _ (op_bind (op_modify _) _) _ => apply vrun_set_keep; [reflexivity|refuse_run]
  | |- vrun _ (if ?b then _ else _) _ => destruct b; refuse_run
  end.

Lemma view_policy f : v_policy (view f) = if ds_has_policy (fb_state f) then Some (ds_policy (fb_state f)) else None.
Proof. done. Qed.

(** A generation that is neither behind nor equal is ahead. *)
Lemma generation_ahead {T} (a b : Id T) : Id_ltb a b = false -> Id_eqb a b = false -> Id_ltb b a = true.
Proof. unfold Id_ltb, Id_eqb. intros H1 H2. zify_bools. lia. Qed.

Lemma apply_policy_run env p f : keyed (view f) -> vrun (allowed (CApplyPolicy p)) (apply_policy env p) f.
Proof.
  intros HI. unfold apply_policy.
  destruct (Status_ok (FailoverPolicy_validate p)) eqn:Hok; cbn [negb]; [|refuse_run].
  apply vrun_read. cbv zeta.
  destruct (ds_has_policy (fb_state f) && Id_ltb _ _) eqn:Hlt; [refuse_run|].
  destruct (ds_has_policy (fb_state f) && Id_eqb _ _) eqn:Heq; [refuse_run|].
  destruct (bool_decide _); [refuse_run|].
  apply vrun_keep_bind; [apply append_keep|done|]. intros _ f1 Hv1 HI1.
  apply vrun_set; [done| |].
  - eapply (steps_one _ (LPolicy p)); [done|].
    change (view (f1 <| fb_state ::= _ |>)) with ((view f1) <| v_policy := Some p |>
           <| v_authority ::= fun a => a <| av_policy := pol_generation p |> |>).
    apply t_policy; [done|]. rewrite Hv1. cbn [v_policy view]. intros p0 Hp0.
    destruct (ds_has_policy (fb_state f)); [|done]. injection Hp0 as <-. by apply generation_ahead.
  - by apply fence_then_compact_run.
Qed.

Lemma apply_obligations_run env o f :
  keyed (view f) -> vrun (allowed (CApplyObligations o)) (apply_obligations env o) f.
Proof.
  intros HI. unfold apply_obligations.
  destruct (Status_ok (ServiceObligations_validate o)) eqn:Hok; cbn [negb]; [|refuse_run].
  apply vrun_read. cbv zeta.
  destruct (ds_has_obligations (fb_state f) && Id_ltb _ _) eqn:Hlt; [refuse_run|].
  destruct (ds_has_obligations (fb_state f) && Id_eqb _ _) eqn:Heq; [refuse_run|].
  destruct (bool_decide _); [refuse_run|].
  apply vrun_keep_bind; [apply append_keep|done|]. intros _ f1 Hv1 HI1.
  apply vrun_set; [done| |].
  - eapply (steps_one _ (LObligations o)); [done|].
    change (view (f1 <| fb_state ::= _ |>)) with ((view f1) <| v_obligations := Some o |>
           <| v_authority ::= fun a => a <| av_obligations := ob_generation o |> |>).
    apply t_obligations; [done|]. rewrite Hv1. cbn [v_obligations view]. intros o0 Ho0.
    destruct (ds_has_obligations (fb_state f)); [|done]. injection Ho0 as <-.
    by apply generation_ahead.
  - by apply fence_then_compact_run.
Qed.

Lemma apply_alternate_set_run env s f :
  keyed (view f) -> vrun (allowed (CApplyAlternateSet s)) (apply_alternate_set env s) f.
Proof.
  intros HI. unfold apply_alternate_set.
  destruct (Status_ok (AlternateSet_validate s)) eqn:Hok; cbn [negb]; [|refuse_run].
  apply vrun_read. cbv zeta.
  match goal with |- context [match _ with Some _ => _ | None => if _ then _ else ?put end] =>
    assert (Hput : (forall s0, fb_sets f !! set_id s = Some s0 ->
      Id_ltb (set_generation s0) (set_generation s) = true) ->
      vrun (allowed (CApplyAlternateSet s)) put f) end.
  { intros Hgen. destruct (bool_decide _); [refuse_run|].
    apply vrun_keep_bind; [apply append_keep|done|]. intros _ f1 Hv1 HI1.
    apply vrun_set; [done| |intros _; apply vrun_keep, compact_keep].
    eapply (steps_one _ (LSet s)); [done|].
    change (view (store_set s f1)) with ((view f1) <| v_sets ::= <[set_id s := s]> |>).
    apply t_set; [done|]. rewrite Hv1. exact Hgen. }
  destruct (fb_sets f !! set_id s) as [s0|] eqn:Es.
  - destruct (Id_ltb _ _) eqn:Hlt; [refuse_run|].
    destruct (Id_eqb _ _) eqn:Heq; [refuse_run|].
    apply Hput. intros s1 [= <-]. by apply generation_ahead.
  - destruct (max_alternate_sets <=? _); [refuse_run|]. by apply Hput.
Qed.

Lemma observe_steps (P : Label -> Prop) e f :
  P (LObserve e) ->
  (forall e0, fb_evidence f !! ev_path e = Some e0 -> ev_observation_seq e0 < ev_observation_seq e) ->
  steps P (view f) ((view f) <| v_evidence ::= <[ev_path e := e]> |>).
Proof. intros HP Hnew. eapply steps_one; [exact HP|]. by apply t_observe. Qed.

Lemma apply_evidence_run e f :
  keyed (view f) -> vrun (allowed (CApplyEvidence e)) (apply_evidence e) f.
Proof.
  intros HI. unfold apply_evidence.
  destruct (Status_ok (PathEvidence_validate e)) eqn:Hok; cbn [negb]; [|refuse_run].
  apply vrun_read. cbv zeta. destruct (fb_evidence f !! ev_path e) as [e0|] eqn:Ee.
  - destruct (Z.leb_spec (ev_observation_seq e) (ev_observation_seq e0)); [refuse_run|].
    apply vrun_modify, observe_steps; [by left|]. rewrite Ee. intros e1 [= <-]. lia.
  - destruct (max_evidence_entries <=? _); [refuse_run|].
    apply vrun_modify, observe_steps; [by left|]. by rewrite Ee.
Qed.

Lemma set_authority_run env a f :
  keyed (view f) -> vrun (allowed (CSetAuthority a)) (set_authority env a) f.
Proof.
  intros HI. unfold set_authority. apply vrun_read. cbv zeta.
  destruct (Id_ltb _ _ || Id_ltb _ _) eqn:Hreg; [refuse_run|].
  destruct (Id_valid (av_epoch a) && _); [refuse_run|].
  destruct (Id_valid (av_boot a) && _); [refuse_run|].
  destruct (Id_eqb _ _ && Id_eqb _ _); [refuse_run|].
  apply orb_false_elim in Hreg as [H1 H2]. apply vrun_set; [done| |].
  - eapply (steps_one _ (LAuthority (av_topology a) (av_path_authority a))); [by exists a|].
    by apply (t_authority (view f)).
  - intros HI1. apply vrun_read. cbv zeta. destruct (bool_decide _); [refuse_run|].
    apply vrun_keep_bind; [apply append_keep|done|]. intros _ f2 Hv2 HI2.
    by apply fence_then_compact_run.
Qed.

(** The loop body changes the attempt it visits and no other, and what it
    leaves there does not hold the fenced path. *)
Lemma revoke_path_run (P : Label -> Prop) env p id f :
  (forall i, P (LEnd i AttemptState_fenced)) -> (forall i, P (LSeen i)) -> P LRelease ->
  keyed (view f) ->
  let f' := (revoke_path env p id f).2 in
  vrun P (revoke_path env p id) f /\ fb_path_fences f' = fb_path_fences f /\
  (forall id', id' <> id -> fb_attempts f' !! id' = fb_attempts f !! id') /\
  (forall r, fb_attempts f' !! id = Some r -> is_active_state (at_state r) = true ->
     at_selected r <> p).
Proof.
  intros HPe HPs HPr HI. unfold vrun, revoke_path, op_read, find_attempt.
  destruct (fb_attempts f !! id) as [a|] eqn:Ea; cbv beta zeta.
  2:{ split; [apply steps_refl|]. cbn. split; [done|]. split; [done|]. congruence. }
  destruct (is_active_state (at_state a) && Id_eqb (at_selected a) p) eqn:Hact.
  2:{ split; [apply steps_refl|]. cbn. split; [done|]. split; [done|]. intros r Hr Har Hs.
      rewrite Ea in Hr. injection Hr as <-. apply Id_eqb_eq in Hs. by rewrite Har, Hs in Hact. }
  apply andb_prop in Hact as [Hact _]. apply negb_true_iff in Hact.
  set (a' := ended _ _ _ a).
  pose proof (refile_view env id a a' false f HI Ea (ended_scope _ _ _ _)) as Hv. cbv zeta in Hv.
  rewrite !bind_result. cbn [op_modify]. rewrite bind_result.
  assert (Hf : fb_path_fences (persist_attempt env a' false (store_attempt id a' f)).2 = fb_path_fences f)
    by (destruct Hv as [Hv|Hv]; exact (f_equal v_fences Hv)).
  assert (Hat : fb_attempts (persist_attempt env a' false (store_attempt id a' f)).2 =
            <[id := a']> (fb_attempts f))
    by (destruct Hv as [Hv|Hv]; exact (f_equal v_attempts Hv)).
  destruct (persist_attempt env a' false (store_attempt id a' f)) as [[u|e] f3]; cbn [snd] in *.
  - pose proof (refiled_steps P (LEnd id AttemptState_fenced) id a' _ _ Hv (HPe id) (HPs id)
      ltac:(by eapply (t_end _ id _ a))) as Hst.
    cbn [op_modify snd]. split.
    { eapply steps_trans; [exact Hst|]. apply (release_steps P id a'); [done| |done].
      by rewrite Hat, lookup_insert_eq. }
    change (fb_path_fences (release id f3)) with (fb_path_fences f3).
    change (fb_attempts (release id f3)) with (fb_attempts f3). rewrite Hat. split; [done|].
    split; [intros id' Hne; by rewrite lookup_insert_ne|].
    rewrite lookup_insert_eq. by intros r [= <-].
  - pose proof (refiled_steps P (LEnd id AttemptState_fenced) id a' _ _ Hv (HPe id) (HPs id)
      ltac:(by eapply (t_end _ id _ a))) as Hst.
    split; [exact Hst|]. rewrite Hat. split; [done|].
    split; [intros id' Hne; by rewrite lookup_insert_ne|].
    rewrite lookup_insert_eq. by intros r [= <-].
Qed.

(** The whole loop. *)
Lemma revoke_all_run (P : Label -> Prop) env p l f :
  (forall i, P (LEnd i AttemptState_fenced)) -> (forall i, P (LSeen i)) -> P LRelease ->
  keyed (view f) -> NoDup l ->
  let f' := (for_each l (revoke_path env p) f).2 in
  vrun P (for_each l (revoke_path env p)) f /\ fb_path_fences f' = fb_path_fences f /\
  (forall id, id ∉ l -> fb_attempts f' !! id = fb_attempts f !! id) /\
  (Result_ok (for_each l (revoke_path env p) f).1 = true -> forall id r, id ∈ l ->
     fb_attempts f' !! id = Some r -> is_active_state (at_state r) = true -> at_selected r <> p).
Proof.
  intros HPe HPs HPr. revert f. induction l as [|x l IH]; intros f HI Hnd.
  { cbn. split; [apply vrun_keep, vkeep_return|]. split; [done|]. split; [done|].
    intros _ id r Hid. by apply not_elem_of_nil in Hid. }
  apply NoDup_cons in Hnd as [Hx Hnd].
  destruct (revoke_path_run P env p x f HPe HPs HPr HI) as (Hrun & Hfe & Hout & Hin).
  cbn [for_each]. unfold vrun in *. rewrite bind_result.
  destruct (revoke_path env p x f) as [[u|e] f1]; cbn [fst snd] in *.
  - destruct (IH f1) as (Hrun' & Hfe' & Hout' & Hin'); [by eapply steps_keyed|done|].
    split; [by eapply steps_trans|]. split; [by rewrite Hfe'|]. split.
    + intros id Hid. apply not_elem_of_cons in Hid as [Hne Hid]. rewrite Hout' by done. by apply Hout.
    + intros Hok id r Hid Hr. apply elem_of_cons in Hid as [->|Hid]; [|by apply (Hin' Hok id)].
      rewrite Hout' in Hr by done. by apply Hin.
  - split; [exact Hrun|]. split; [done|]. split; [|done].
    intros id Hid. apply not_elem_of_cons in Hid as [Hne _]. by apply Hout.
Qed.

Lemma attempt_keys_NoDup f : NoDup (attempt_entries f).*1.
Proof. apply ordered_entries_NoDup_fst. Qed.

Lemma fence_path_run env p r f :
  keyed (view f) -> vrun (allowed (CFencePath p r)) (fence_path env p r) f.
Proof.
  intros HI. unfold fence_path. destruct (Id_valid p) eqn:Hp; cbn [negb]; [|refuse_run].
  apply vrun_read. destruct (bool_decide_reflect (is_Some (fb_path_fences f !! p))) as [|Hn]; [refuse_run|].
  apply vrun_keep_bind; [apply record_fence_keep|done|]. intros _ f1 Hv1 HI1.
  apply vrun_set; [done| |].
  - eapply (steps_one _ (LFence p r)); [done|].
    change (view (count_fence _)) with ((view f1) <| v_fences ::= <[p := r]> |>).
    apply t_fence; [done|]. rewrite Hv1. cbn. by apply eq_None_not_Some.
  - intros HI2. apply vrun_read. apply vrun_bind; [|done|intros; apply vrun_keep, compact_keep].
    by apply revoke_all_run; [done..|apply attempt_keys_NoDup].
Qed.

Lemma fence_all_run env r f : keyed (view f) -> vrun (allowed (CFenceAll r)) (fence_all env r) f.
Proof. intros HI. unfold fence_all. by apply fence_attempts_run. Qed.

(** ** Decisions *)

Lemma evaluate_keep i co s : vkeep (Fabric_evaluate i co s).
Proof. unfold Fabric_evaluate. solve_vkeep. Qed.

(** Identities have not run out. *)
Definition ids_left (f : Fabric) : Prop :=
  0 <= ds_attempt_sequence (fb_state f) < UINT64_MAX - 1.

Lemma seen_id id v : Id_value id <= v_last_attempt v -> seen id v = v.
Proof. intros H. unfold seen. destruct v. cbn in *. by rewrite Z.max_l by lia. Qed.

Lemma select_decides i co s did aid kind f :
  let d := select_locked i co s did aid kind f in
  dec_outcome d = PromotionOutcome_authorized ->
  exists out, decides (view f) i s out /\ dec_outcome out = PromotionOutcome_authorized /\
    dec_selected out = dec_selected d.
Proof.
  cbv zeta. unfold select_locked, decides. cbn [v_sets v_policy v_obligations v_authority v_fences view].
  destruct (fb_sets f !! s) as [set|] eqn:Es; [|done].
  destruct (ds_has_policy (fb_state f)) eqn:Ep; cbn [negb]; [|done].
  destruct (ds_has_obligations (fb_state f)) eqn:Eo; cbn [negb]; [|done].
  destruct (Selector.evaluate _) as [out|st] eqn:Ee; [|done]. intros Hd. exists out.
  split; [|done]. exists set, (ds_policy (fb_state f)), (ds_obligations (fb_state f)), did, aid,
    (fo_provenance (fb_options f)). done.
Qed.

(** What the documents in force decide depends only on them. *)
Lemma decides_same v w i s d :
  v_sets w = v_sets v -> v_policy w = v_policy v -> v_obligations w = v_obligations v ->
  v_authority w = v_authority v -> v_fences w = v_fences v -> decides v i s d -> decides w i s d.
Proof. unfold decides. by intros -> -> -> -> ->. Qed.

(** The view once an attempt has been claimed. *)
Definition claimed (id : AttemptId) (record : AttemptRecord) (v w : View) : Prop :=
  exists m, makes_room (v_attempts v) m /\
    w = v <| v_attempts := <[id := record]> m |> <| v_last_attempt := Id_value id |>.

Lemma persist_new_view env record f :
  Id_value (at_id record) = ds_attempt_sequence (fb_state f) + 1 ->
  match persist_attempt env record true f with
  | (Ok _, f') => claimed (at_id record) record (view f) (view f')
  | (Err _, f') => view f' = view f \/ view f' = (view f) <| v_last_attempt ::= Z.succ |>
  end.
Proof.
  intros Hid. pose proof (persist_attempt_view env record true f) as H.
  assert (Hmax : Z.max (ds_attempt_sequence (fb_state f)) (Id_value (at_id record)) =
            Id_value (at_id record)) by lia.
  destruct (persist_attempt env record true f) as [[u|e] f'].
  - destruct H as (m & Hm & _ & ->). exists m. split; [done|]. unfold seen, view.
    cbn -[Z.max]. by rewrite Hmax.
  - destruct H as [->|[-> _]]; [by left|right]. unfold seen, view. cbn -[Z.max].
    by rewrite Hmax, Hid.
Qed.

(** Claiming an identity, then going on. *)
Lemma claim_bind (P : Label -> Prop) env l record f {A} (k : Op A) :
  keyed (view f) -> ids_left f -> Id_value (at_id record) = ds_attempt_sequence (fb_state f) + 1 ->
  P l -> P LSkip ->
  (forall m, makes_room (fb_attempts f) m -> trans l (view f)
     ((view f) <| v_attempts := <[at_id record := record]> m |>
        <| v_last_attempt := Id_value (at_id record) |>)) ->
  (forall f1, claimed (at_id record) record (view f) (view f1) -> keyed (view f1) -> vrun P k f1) ->
  vrun P (let! _ := persist_attempt env record true in k) f.
Proof.
  intros HI Hl Hid HP HPs Ht Hk. unfold vrun in *. rewrite bind_result.
  pose proof (persist_new_view env record f Hid) as H.
  destruct (persist_attempt env record true f) as [[u|e] f1]; cbn [snd].
  - destruct H as (m & Hm & Hv).
    assert (Hst : steps P (view f) (view f1)).
    { eapply steps_one; [exact HP|]. rewrite Hv. by apply Ht. }
    eapply steps_trans; [exact Hst|]. apply Hk; [by exists m|]. by eapply steps_keyed.
  - destruct H as [->| ->]; [apply steps_refl|]. eapply steps_one; [exact HPs|]. apply t_skip.
    unfold ids_left in Hl. cbn. lia.
Qed.

(** The second increment of the attempt counter. *)
Lemma bump_attempt_steps (P : Label -> Prop) f :
  P LSkip -> 0 <= ds_attempt_sequence (fb_state f) < UINT64_MAX ->
  view (bump_attempt f) = (view f) <| v_last_attempt ::= Z.succ |> /\
  steps P (view f) (view (bump_attempt f)).
Proof.
  intros HP Hr.
  assert (Hv : view (bump_attempt f) = (view f) <| v_last_attempt ::= Z.succ |>).
  { unfold bump_attempt, bump, view. cbn -[wrap_u64]. rewrite wrap_u64_id; [done|unfold is_u64; lia]. }
  split; [done|]. rewrite Hv. eapply steps_one; [exact HP|]. apply t_skip. cbn. lia.
Qed.

(** Filing a record over the one in the table, without storing it first. *)
Lemma persist_over_view env r r' f :
  fb_attempts f !! at_id r' = Some r -> Id_value (at_id r') <= ds_attempt_sequence (fb_state f) ->
  match persist_attempt env r' false f with
  | (Ok _, f') => view f' = (view f) <| v_attempts ::= <[at_id r' := r']> |>
  | (Err _, f') => view f' = view f
  end.
Proof.
  intros Hr Hid. pose proof (persist_attempt_view env r' false f) as H.
  destruct (persist_attempt env r' false f) as [[u|e] f'].
  - destruct H as (m & _ & Hm & ->). rewrite Hm by eauto. by rewrite seen_id.
  - destruct H as [H|[_ H]]; [done|congruence].
Qed.

Lemma begin_refused_run env i co s did record d f :
  keyed (view f) -> fb_attempts f !! at_id record = Some record ->
  at_state record = AttemptState_claimed ->
  Id_value (at_id record) <= ds_attempt_sequence (fb_state f) ->
  vrun (allowed (CBeginPromotion i co s)) (begin_refused env did record d) f.
Proof.
  intros HI Hr Hs Hid. unfold begin_refused. apply vrun_read. cbv zeta.
  set (r' := ended _ _ _ record).
  pose proof (persist_over_view env record r' f Hr Hid) as Hv. unfold vrun. rewrite bind_result.
  destruct (persist_attempt env r' false f) as [[u|e] f1]; cbn [snd]; [|rewrite Hv; apply steps_refl].
  eapply steps_trans; [|apply (vrun_keep (allowed (CBeginPromotion i co s))); solve_vkeep;
    try (destruct (is_indeterminate _); reflexivity)].
  rewrite Hv. eapply (steps_one _ (LEnd (at_id record) AttemptState_refused)); [done|].
  eapply (t_end (view f) (at_id record) _ record); [done|by rewrite Hs|apply ended_scope|done..].
Qed.

Lemma begin_authorized_run env i co s record d out f :
  keyed (view f) -> fb_attempts f !! at_id record = Some record ->
  at_state record = AttemptState_claimed -> Id_valid (at_id record) = true ->
  Id_value (at_id record) <= ds_attempt_sequence (fb_state f) ->
  fb_active_attempt f = Id_absent -> at_basis record = ds_authority (fb_state f) ->
  decides (view f) (at_incumbent record) (at_set record) out ->
  dec_outcome out = PromotionOutcome_authorized -> dec_selected out = at_selected record ->
  vrun (allowed (CBeginPromotion i co s)) (begin_authorized env record d) f.
Proof.
  intros HI Hr Hs Hval Hid Hact Hb Hd Ho Hsel. unfold begin_authorized. cbv zeta.
  set (r' := record <| at_state := _ |>).
  pose proof (persist_over_view env record r' f Hr Hid) as Hv. unfold vrun. rewrite bind_result.
  destruct (persist_attempt env r' false f) as [[u|e] f1]; cbn [snd]; [|rewrite Hv; apply steps_refl].
  unfold op_read. rewrite bind_result. cbn [op_modify].
  set (f2 := stat _ _).
  assert (Hv2 : view f2 = (view f) <| v_attempts ::= <[at_id record := r']> |>
                            <| v_active := at_id record |>).
  { change (view f2) with ((view f1) <| v_active := at_id record |>). by rewrite Hv. }
  eapply steps_trans; [|apply (vrun_keep (allowed (CBeginPromotion i co s))); solve_vkeep].
  rewrite Hv2.
  eapply (steps_one _ (LAuthorize (at_id record) (at_selected record))); [cbn; eauto|].
  by eapply t_authorize.
Qed.

(** Giving up a mark of ownership that nobody holds. *)
Lemma disown_steps (P : Label -> Prop) f :
  P LRelease -> owned f = false -> steps P (view f) (view (f <| fb_active_attempt := Id_absent |>)).
Proof.
  intros HP Ho. unfold owned in Ho. destruct (Id_valid (fb_active_attempt f)) eqn:Hv.
  - eapply steps_one; [exact HP|].
    change (view (f <| fb_active_attempt := Id_absent |>)) with ((view f) <| v_active := Id_absent |>).
    apply t_release. cbn. intros r Hr. rewrite Hr in Ho. cbn in Ho.
    unfold is_active_state in Ho. by apply negb_false_iff.
  - apply Id_valid_false in Hv.
    replace (view (f <| fb_active_attempt := Id_absent |>)) with (view f); [apply steps_refl|].
    unfold view. cbn. by rewrite Hv.
Qed.

Lemma begin_promotion_run env i co s f :
  keyed (view f) -> ids_left f ->
  vrun (allowed (CBeginPromotion i co s)) (begin_promotion env i co s) f.
Proof.
  intros HI Hleft. unfold begin_promotion. destruct (_ || _); [refuse_run|]. apply vrun_read.
  destruct (owned f) eqn:Hown; [refuse_run|].
  apply vrun_set; [done|by apply disown_steps|]. intros HI1.
  set (f1 := f <| fb_active_attempt := _ |>) in *. apply vrun_read. cbv zeta.
  destruct (_ || _); [refuse_run|].
  set (d := select_locked _ _ _ _ _ _ f1).
  apply vrun_set_keep; [reflexivity|].
  destruct (is_structural _); [refuse_run|]. apply vrun_read.
  set (record := new_attempt _ _ _ _ _ _).
  unfold ids_left in Hleft.
  apply (claim_bind _ env (LClaim (at_id record))); [done|done|done|cbn; eauto|cbn; eauto| |].
  { intros m Hm. by apply (t_claim (view f1)). }
  intros f2 (m & Hm & Hv2) HI2.
  assert (Hlast : ds_attempt_sequence (fb_state f2) = Id_value (at_id record))
    by exact (f_equal v_last_attempt Hv2).
  destruct (bump_attempt_steps (allowed (CBeginPromotion i co s)) f2) as [Hv3 Hst3];
    [cbn; eauto|rewrite Hlast; cbn; lia|].
  apply vrun_set; [done|exact Hst3|]. intros HI3.
  assert (Hat : fb_attempts (bump_attempt f2) !! at_id record = Some record).
  { change (v_attempts (view f2) !! at_id record = Some record). rewrite Hv2. apply lookup_insert_eq. }
  assert (Hle : Id_value (at_id record) <= ds_attempt_sequence (fb_state (bump_attempt f2))).
  { change (Id_value (at_id record) <= v_last_attempt (view (bump_attempt f2))).
    rewrite Hv3, Hv2. cbn. lia. }
  destruct (negb (bool_decide (dec_outcome d = _)) || _) eqn:Hrefuse.
  - by apply begin_refused_run.
  - apply orb_false_elim in Hrefuse as [Ho%negb_false_iff _]. apply bool_decide_eq_true in Ho.
    destruct (select_decides _ _ _ _ _ _ _ Ho) as (out & Hd & Hout & Hsel).
    apply (begin_authorized_run env i co s record d out _ HI3 Hat eq_refl);
      [|exact Hle| | | |exact Hout|exact Hsel].
    + unfold Id_valid. cbn. apply negb_true_iff, Z.eqb_neq. lia.
    + change (v_active (view f2) = Id_absent). by rewrite Hv2.
    + change (at_basis record = v_authority (view f2)). by rewrite Hv2.
    + eapply decides_same; [..|exact Hd]; rewrite Hv3, Hv2; reflexivity.
Qed.

(** ** Completion *)

Lemma commit_effect_run env id e r f :
  keyed (view f) -> fb_attempts f !! id = Some r -> is_terminal_state (at_state r) = false ->
  fb_active_attempt f = id -> Status_ok (EffectEvidence_validate e) = true ->
  eff_observed_under e = ds_authority (fb_state f) ->
  AuthorityVector_present (ds_authority (fb_state f)) -> eff_path e = at_selected r ->
  effect_superseded e f = false ->
  vrun (allowed (CRecordEffect id e)) (commit_effect env id r e) f.
Proof.
  intros HI Hr Ht Hact Hval Hun Hpres Hp Hsup. unfold commit_effect. apply vrun_read. cbv zeta.
  set (r' := ended _ _ _ r).
  assert (Hnew : forall e0, fb_evidence f !! eff_path e = Some e0 ->
            ev_observation_seq e0 < eff_observation_seq e).
  { intros e0 He0. unfold effect_superseded in Hsup. rewrite He0 in Hsup. by apply Z.leb_gt. }
  apply (refile_bind _ env (LCommit id e) id r); [done|done|apply ended_scope|done|done| |].
  { by apply (t_commit (view f) id e r). }
  intros f1 Hv1 HI1. apply vrun_read.
  apply vrun_keep_bind; [apply lineage_keep|done|]. intros _ f2 Hv2 HI2.
  apply vrun_set; [done| |intros _; apply vrun_keep, compact_keep].
  match goal with |- steps _ _ (view ?x) => change (view x) with
    ((view f2) <| v_evidence ::= <[eff_path e := effect_evidence e]> |> <| v_active := Id_absent |>) end.
  eapply steps_trans.
  - apply (observe_steps (allowed (CRecordEffect id e)) (effect_evidence e) f2); [right; eauto|].
    change (fb_evidence f2) with (v_evidence (view f2)). rewrite Hv2.
    destruct Hv1 as [-> | ->]; exact Hnew.
  - eapply (steps_one _ LRelease); [done|].
    apply (t_release ((view f2) <| v_evidence ::= <[eff_path e := effect_evidence e]> |>)).
    cbn [v_attempts v_active update_field]. rewrite Hv2, (refiled_active _ _ _ _ Hv1).
    change (v_active (view f)) with (fb_active_attempt f). rewrite Hact.
    rewrite (refiled_lookup _ _ _ _ Hv1). by intros r1 [= <-].
Qed.

Lemma record_effect_run env id e f :
  keyed (view f) -> vrun (allowed (CRecordEffect id e)) (record_effect env id e) f.
Proof.
  intros HI. unfold record_effect. apply vrun_read. unfold find_attempt.
  destruct (fb_attempts f !! id) as [r|] eqn:Hr; [|refuse_run].
  destruct (bool_decide _); [refuse_run|]. destruct (bool_decide _); [refuse_run|].
  destruct (_ || _); [refuse_run|]. destruct (is_terminal_state _) eqn:Ht; [refuse_run|].
  destruct (Id_eqb_spec (fb_active_attempt f) id) as [Hact|]; cbn [negb]; [|refuse_run].
  cbv zeta. destruct (Status_ok (EffectEvidence_validate e)) eqn:Hval; cbn [negb]; [|refuse_run].
  destruct (bool_decide_reflect (cmp_overall (classify (eff_observed_under e)
    (ds_authority (fb_state f))) = AuthorityClass_current)) as [Hcl|]; cbn [negb]; [|refuse_run].
  apply classify_current in Hcl as [Hun Hpres].
  destruct (Id_eqb_spec (eff_path e) (at_selected r)) as [Hp|]; cbn [negb]; [|refuse_run].
  destruct (effect_superseded e f) eqn:Hsup; [refuse_run|]. by apply commit_effect_run.
Qed.

Lemma abandon_run env id why f :
  keyed (view f) -> vrun (allowed (CAbandon id why)) (abandon_attempt env id why) f.
Proof.
  intros HI. unfold abandon_attempt. apply vrun_read. unfold find_attempt.
  destruct (fb_attempts f !! id) as [r|] eqn:Hr; [|refuse_run].
  destruct (is_terminal_state _) eqn:Ht; [refuse_run|]. cbv zeta.
  apply (refile_bind _ env (LEnd id AttemptState_abandoned) id r);
    [done|done|apply ended_scope|done|done|by apply (t_end (view f) id _ r)|].
  intros f1 Hv1 HI1. apply vrun_read.
  apply vrun_keep_bind; [apply lineage_keep|done|]. intros _ f2 Hv2 HI2.
  apply vrun_set; [done| |intros _; apply vrun_keep, compact_keep].
  eapply (release_steps _ id); [done| |].
  - change (fb_attempts f2) with (v_attempts (view f2)). rewrite Hv2.
    exact (refiled_lookup _ _ _ _ Hv1).
  - done.
Qed.

(** ** Reversal *)

Lemma validate_target_usable e f :
  Status_ok (validate_target e f).1 = true -> exists o, Usable (view f) e o.
Proof.
  unfold validate_target. cbv zeta.
  destruct (Status_ok (PathEvidence_validate e)) eqn:Hv; cbn [negb fst]; [|congruence].
  destruct (bool_decide_reflect (cmp_overall (classify (ev_observed_under e)
    (ds_authority (fb_state f))) = AuthorityClass_current)) as [Hcl|]; cbn [negb]; [|done].
  apply classify_current in Hcl.
  destruct (bool_decide_reflect (is_Some (fb_path_fences f !! ev_path e))) as [|Hf]; [done|].
  destruct (bool_decide_reflect (ev_freshness e = Freshness_fresh)); cbn [negb]; [|done].
  destruct (bool_decide_reflect (ev_eligibility e = Eligibility_eligible)); cbn [negb]; [|done].
  destruct (ds_has_obligations (fb_state f)) eqn:Ho; cbn [negb]; [|done].
  destruct (ob_require_reachable _ && _) eqn:H1; [done|].
  destruct (ob_require_capacity _ && _) eqn:H2; [done|].
  destruct (Z.eqb_spec (Z.land (ev_capabilities e) (ob_required_capabilities (ds_obligations (fb_state f))))
    (ob_required_capabilities (ds_obligations (fb_state f)))); cbn [negb]; [|done].
  destruct (Z.ltb_spec (ev_health_ppm e) (ob_min_health_ppm (ds_obligations (fb_state f)))); [done|].
  destruct (Z.ltb_spec (ob_max_cost_units (ds_obligations (fb_state f))) (ev_cost_units e)); [done|].
  intros _. exists (ds_obligations (fb_state f)). constructor; try done.
  - cbn. by rewrite Ho.
  - cbn. by apply eq_None_not_Some.
  - intros Hq. rewrite Hq in H1. cbn [andb] in H1. by apply negb_false_iff, bool_decide_eq_true in H1.
  - intros Hq. rewrite Hq in H2. cbn [andb] in H2. by apply negb_false_iff, bool_decide_eq_true in H2.
Qed.

Lemma rollback_run env id e f :
  keyed (view f) -> vrun (allowed (CRollback id e)) (rollback env id e) f.
Proof.
  intros HI. unfold rollback. apply vrun_read. unfold find_attempt.
  destruct (fb_attempts f !! id) as [r|] eqn:Hr; [|refuse_run].
  destruct (bool_decide _); [refuse_run|]. destruct (is_terminal_state _) eqn:Ht; [refuse_run|].
  destruct (negb (Id_eqb _ _)); [refuse_run|]. destruct (_ || _); [refuse_run|].
  destruct (validate_target e f) as [st why]. destruct (negb (Status_ok st)); [refuse_run|].
  apply vrun_set_keep; [reflexivity|]. destruct (_ && _); [refuse_run|]. cbv zeta.
  set (f0 := stat _ f). change (ds_last_sequence (fb_state f)) with (ds_last_sequence (fb_state f0)).
  apply (refile_bind _ env (LEnd id AttemptState_rolled_back) id r);
    [done|done|by repeat split|done|done|by apply (t_end (view f0) id _ r)|].
  intros f1 Hv1 HI1. apply vrun_read.
  apply vrun_keep_bind; [apply lineage_keep|done|]. intros _ f2 Hv2 HI2.
  apply vrun_set; [done| |intros _; apply vrun_keep, compact_keep].
  match goal with |- steps _ _ (view (stat _ ?x)) => change (view (stat _ x)) with (view x) end.
  eapply (release_steps _ id); [done| |].
  - change (fb_attempts f2) with (v_attempts (view f2)). rewrite Hv2.
    exact (refiled_lookup _ _ _ _ Hv1).
  - done.
Qed.

Lemma revert_run env id e f :
  keyed (view f) -> ids_left f -> vrun (allowed (CRevert id e)) (revert env id e) f.
Proof.
  intros HI Hleft. unfold revert. apply vrun_read.
  destruct (fb_attempts f !! id) as [c|] eqn:Hc; [|refuse_run].
  destruct (bool_decide_reflect (at_state c = AttemptState_committed)) as [Hcs|]; cbn [negb]; [|refuse_run].
  pose proof (validate_target_usable e f) as Hu.
  destruct (validate_target e f) as [st why]. cbn [fst] in Hu.
  destruct (Status_ok st); cbn [negb]; [|refuse_run]. destruct (Hu eq_refl) as [o Hus].
  destruct (_ && _); [refuse_run|].
  destruct (Id_valid (fb_active_attempt f)) eqn:Hact; [refuse_run|]. apply Id_valid_false in Hact.
  cbv zeta. destruct (_ || _); [refuse_run|].
  unfold commit_revert. apply vrun_set_keep; [reflexivity|]. apply vrun_read. cbv zeta.
  set (f0 := stat _ f). set (record := reverted_attempt _ _ _ _ _).
  unfold ids_left in Hleft.
  apply (claim_bind _ env (LRevert (at_id record) id e)); [done|exact Hleft|done|done|cbn; eauto| |].
  { intros m Hm. by apply (t_revert (view f0) (at_id record) id e o record c). }
  intros f1 (m & Hm & Hv1) HI1.
  assert (Hlast : ds_attempt_sequence (fb_state f1) = Id_value (at_id record))
    by exact (f_equal v_last_attempt Hv1).
  destruct (bump_attempt_steps (allowed (CRevert id e)) f1) as [_ Hst];
    [cbn; eauto|rewrite Hlast; cbn; lia|].
  apply vrun_set; [done|exact Hst|]. intros HI2. apply vrun_keep. solve_vkeep.
Qed.

(** ** Every command *)

Lemma vrun_forget (P : Label -> Prop) {A} (m : Op A) f : vrun P m f -> vrun P (forget m) f.
Proof.
  unfold vrun, forget. rewrite bind_result. by destruct (m f) as [[x|s] f1].
Qed.

(** Refinement: an operation only takes transitions its command permits. *)
Lemma execute_refines env c f :
  keyed (view f) -> ids_left f -> vrun (allowed c) (execute env c) f.
Proof.
  intros HI Hl. destruct c; cbn [execute].
  - by apply apply_policy_run.
  - by apply apply_obligations_run.
  - by apply apply_alternate_set_run.
  - by apply apply_evidence_run.
  - by apply set_authority_run.
  - by apply fence_path_run.
  - by apply fence_all_run.
  - apply vrun_forget, vrun_keep, evaluate_keep.
  - by apply vrun_forget, begin_promotion_run.
  - by apply record_effect_run.
  - by apply abandon_run.
  - by apply rollback_run.
  - by apply vrun_forget, revert_run.
Qed.

(** ** Restarting *)

Lemma incarnate_view entropy f :
  view (incarnate entropy f) =
  (view f) <| v_authority ::= fun a =>
    a <| av_epoch := Id_from_value (Id_value (av_epoch a) + 1) |>
      <| av_boot := Id_from_value (en_boot entropy) |> |>.
Proof. reflexivity. Qed.

Lemma sync_attempts_view f : view (sync_attempts f) = view f.
Proof. reflexivity. Qed.

(** Nobody owns anything once every attempt has ended. *)
Definition all_ended (v : View) : Prop :=
  forall id r, v_attempts v !! id = Some r -> is_terminal_state (at_state r) = true.

Lemma start_run env entropy f :
  keyed (view f) ->
  vrun allowed_restart (Fabric_start env entropy) f /\
  (Result_ok (Fabric_start env entropy f).1 = true ->
     let f' := (Fabric_start env entropy f).2 in
     all_ended (view f') /\ fb_active_attempt f' = Id_absent /\ fb_grants f' = ∅ /\
     v_authority (view f') = v_authority (view (incarnate entropy f))).
Proof.
  intros HI. unfold vrun, Fabric_start, op_read. cbv beta zeta.
  destruct (Id_value _ =? UINT64_MAX); [split; [apply steps_refl|done]|].
  rewrite bind_result. cbn [op_modify]. set (f1 := incarnate entropy f).
  assert (Hst1 : steps allowed_restart (view f) (view f1)).
  { eapply (steps_one _ (LRestart (Id_from_value (en_boot entropy)))); [done|].
    unfold f1. rewrite incarnate_view. apply t_restart. }
  assert (HI1 : keyed (view f1)) by exact HI.
  destruct (bool_decide _); [split; [exact Hst1|done]|]. rewrite bind_result.
  match goal with |- context [append_locked env ?t ?p f1] =>
    pose proof (append_keep env t p f1) as Hv2; destruct (append_locked env t p f1) as [[u|e] f2] end;
    cbn [snd] in *; [|rewrite Hv2; by split].
  rewrite bind_result.
  assert (HI2 : keyed (view f2)) by (by rewrite Hv2).
  destruct (end_all_run env allowed_restart AttemptState_interrupted Reason_restart_fenced eq_refl
    ltac:(done) (fun _ => eq_refl) (fun _ => I) (active_ids f2) f2 HI2 (active_ids_NoDup f2))
    as (Hrun & _).
  { intros id. apply active_ids_spec. }
  pose proof (end_active_released env allowed_restart AttemptState_interrupted Reason_restart_fenced
    eq_refl ltac:(done) (fun _ => eq_refl) (fun _ => I) f2 HI2) as Hend. cbv zeta in Hend.
  assert (Hau : v_authority (view (for_each (active_ids f2)
      (end_and_fence env AttemptState_interrupted Reason_restart_fenced) f2).2) = v_authority (view f2)).
  { apply (for_each_authority env AttemptState_interrupted Reason_restart_fenced). done. }
  unfold vrun in Hrun.
  destruct (for_each (active_ids f2) _ f2) as [[u'|e] f3]; cbn [fst snd Result_ok] in *.
  2:{ split; [|done]. eapply steps_trans; [exact Hst1|]. by rewrite Hv2 in Hrun. }
  rewrite bind_result. cbn [op_modify]. set (f4 := sync_attempts _).
  pose proof (compact_keep env f4) as Hv5.
  assert (Hg5 : fb_grants (compact_if_needed env f4).2 = ∅).
  { unfold compact_if_needed. repeat (case_match; [done|]).
    by destruct (Store_write_snapshot _ _ _) as [status store]. }
  assert (Hv4 : view f4 = (view f3) <| v_active := Id_absent |>) by reflexivity.
  split.
  - rewrite Hv5, Hv4. eapply steps_trans; [exact Hst1|]. rewrite Hv2 in Hrun.
    eapply steps_trans; [exact Hrun|]. eapply (steps_one _ LRelease); [done|]. apply t_release.
    intros r Hr. by apply (Hend eq_refl _ _ Hr).
  - intros _. split; [|split; [|split; [done|]]].
    + unfold all_ended. rewrite Hv5, Hv4. by apply Hend.
    + change (fb_active_attempt (compact_if_needed env f4).2) with (v_active (view (compact_if_needed env f4).2)).
      by rewrite Hv5, Hv4.
    + rewrite Hv5, Hv4. cbn [v_authority update_field]. by rewrite Hau, Hv2.
Qed.

(** *** The loaded object *)

Lemma emplace_lookup {K A} `{Countable K} (k : K) (x : A) (m : gmap K A) k' y :
  emplace k x m !! k' = Some y -> (k' = k /\ y = x) \/ m !! k' = Some y.
Proof.
  unfold emplace. destruct (m !! k) eqn:E; [by right|]. intros Hl.
  apply lookup_insert_Some in Hl as [[<- <-]|[_ Hl]]; [by left|by right].
Qed.

Lemma emplace_all_keyed l (m : gmap AttemptId AttemptRecord) :
  (forall id r, m !! id = Some r -> at_id r = id) ->
  forall id r, foldl (fun m attempt => emplace (at_id attempt) attempt m) m l !! id = Some r ->
    at_id r = id.
Proof.
  revert m. induction l as [|x l IH]; intros m Hm; [exact Hm|]. cbn [foldl]. apply IH.
  intros id r Hl. apply emplace_lookup in Hl as [[-> ->]|Hl]; [done|by apply Hm].
Qed.

Lemma loaded_keyed options store state : keyed (view (Fabric_loaded options store state)).
Proof. intros id r. cbn. apply emplace_all_keyed. intros ? ? Hl. by apply lookup_empty_Some in Hl. Qed.

(** ** What a completed operation implies *)

(** The conditions under which an effect completes attempt [id]. *)
Record Completes (f : Fabric) (id : AttemptId) (e : EffectEvidence) (r : AttemptRecord) : Prop := {
  co_attempt : fb_attempts f !! id = Some r;
  co_in_flight : is_terminal_state (at_state r) = false;
  co_owner : fb_active_attempt f = id;
  co_verified : Status_ok (EffectEvidence_validate e) = true;
  co_authority : eff_observed_under e = ds_authority (fb_state f);
  co_present : AuthorityVector_present (ds_authority (fb_state f));
  co_path : eff_path e = at_selected r;
  co_newer : effect_superseded e f = false }.

Ltac kept := left; reflexivity.

Lemma record_effect_cases env id e f :
  view (record_effect env id e f).2 = view f \/ exists r, Completes f id e r.
Proof.
  unfold record_effect, op_read, find_attempt.
  destruct (fb_attempts f !! id) as [r|] eqn:Hr; cbv zeta; [|kept].
  destruct (bool_decide _); [kept|]. destruct (bool_decide _); [kept|].
  destruct (_ || _); [kept|]. destruct (is_terminal_state _) eqn:Ht; [kept|].
  destruct (Id_eqb_spec (fb_active_attempt f) id) as [Hact|]; cbn [negb]; [|kept].
  destruct (Status_ok (EffectEvidence_validate e)) eqn:Hval; cbn [negb]; [|kept].
  destruct (bool_decide_reflect (cmp_overall (classify (eff_observed_under e)
    (ds_authority (fb_state f))) = AuthorityClass_current)) as [Hcl|]; cbn [negb]; [|kept].
  apply classify_current in Hcl as [Hun Hpres].
  destruct (Id_eqb_spec (eff_path e) (at_selected r)) as [Hp|]; cbn [negb]; [|kept].
  destruct (effect_superseded e f) eqn:Hsup; [kept|]. right. by exists r.
Qed.

(** The conditions under which a committed promotion is reverted. *)
Record Reverts (f : Fabric) (id : AttemptId) (e : PathEvidence) : Prop := {
  rv_committed : committed_at (view f) id;
  rv_usable : exists o, Usable (view f) e o;
  rv_unowned : fb_active_attempt f = Id_absent }.

Lemma revert_cases env id e f :
  view (revert env id e f).2 = view f \/ Reverts f id e.
Proof.
  unfold revert, op_read. destruct (fb_attempts f !! id) as [c|] eqn:Hc; cbv zeta; [|kept].
  destruct (bool_decide_reflect (at_state c = AttemptState_committed)) as [Hcs|]; cbn [negb]; [|kept].
  pose proof (validate_target_usable e f) as Hu.
  destruct (validate_target e f) as [st why]. cbn [fst] in Hu.
  destruct (Status_ok st); cbn [negb]; [|kept]. specialize (Hu eq_refl).
  destruct (_ && _); [kept|].
  destruct (Id_valid (fb_active_attempt f)) eqn:Hact; [kept|]. apply Id_valid_false in Hact.
  right. split; [by exists c|done|done].
Qed.

(** A structural or refusing decision never carries a selected authorization. *)
Lemma refusal_not_authorized d :
  negb (bool_decide (dec_outcome d = PromotionOutcome_authorized)) || negb (Id_valid (dec_selected d)) = true ->
  pa_authorized (refusal_of d) = false.
Proof. unfold pa_authorized. cbn. intros H. by destruct (bool_decide _), (Id_valid _). Qed.

Lemma structural_not_authorized d :
  is_structural (dec_outcome d) = true -> pa_authorized (refusal_of d) = false.
Proof. unfold pa_authorized. cbn. by destruct (dec_outcome d). Qed.

Lemma bind_Ok {A B} (m : Op A) (k : A -> Op B) f y f' :
  op_bind m k f = (Ok y, f') -> exists x f1, m f = (Ok x, f1) /\ k x f1 = (Ok y, f').
Proof. rewrite bind_result. destruct (m f) as [[x|s] f1]; [|done]. eauto. Qed.

Lemma set_Ok {B} g (k : Op B) f y f' : (set! g in k) f = (Ok y, f') -> k (g f) = (Ok y, f').
Proof. done. Qed.

Lemma begin_refused_result env did record d f a f' :
  begin_refused env did record d f = (Ok a, f') -> a = refusal_of d.
Proof.
  unfold begin_refused, op_read. cbv zeta. intros H. apply bind_Ok in H as (u1 & f1 & _ & H).
  apply bind_Ok in H as (u2 & f2 & _ & H). apply set_Ok in H.
  apply bind_Ok in H as (u3 & f3 & _ & H). by injection H as <- _.
Qed.

Lemma begin_authorized_result env record d f a f' r0 :
  fb_attempts f !! at_id record = Some r0 ->
  Id_value (at_id record) <= ds_attempt_sequence (fb_state f) ->
  begin_authorized env record d f = (Ok a, f') ->
  pa_decision a = d /\ gr_attempt (pa_grant a) = at_id record /\
  gr_path (pa_grant a) = dec_selected d /\ gr_basis (pa_grant a) = ds_authority (fb_state f) /\
  fb_active_attempt f' = at_id record /\
  fb_attempts f' !! at_id record = Some (record <| at_state := AttemptState_authorized |>).
Proof.
  intros Hr Hid. unfold begin_authorized. cbv zeta. set (r' := record <| at_state := _ |>).
  intros H. apply bind_Ok in H as (u1 & f1 & Hp & H). cbv beta in H.
  pose proof (persist_over_view env r0 r' f Hr Hid) as Hv. rewrite Hp in Hv.
  unfold op_read in H. cbv beta in H. apply set_Ok in H.
  apply bind_Ok in H as (u2 & f2 & Hc & H). injection H as <- <-.
  match type of Hc with compact_if_needed env ?x = _ =>
    pose proof (compact_keep env x) as Hk; rewrite Hc in Hk end.
  cbn [snd] in Hk. cbn [pa_decision pa_grant gr_attempt gr_path gr_basis].
  split; [done|]. split; [done|]. split; [done|].
  split; [change (v_authority (view f1) = v_authority (view f)); rewrite Hv; reflexivity|].
  split; [change (v_active (view f2) = at_id record); rewrite Hk; reflexivity|].
  change (v_attempts (view f2) !! at_id record = Some r'). rewrite Hk.
  change (v_attempts (view f1) !! at_id record = Some r'). rewrite Hv. cbn. apply lookup_insert_eq.
Qed.

(** An authorization comes from a decision on the documents in force, taken
    while nobody owned the transition. *)
Lemma begin_promotion_result env i co s f a f' :
  begin_promotion env i co s f = (Ok a, f') -> pa_authorized a = true -> ids_left f ->
  owned f = false /\ Id_valid (dec_selected (pa_decision a)) = true /\
  (exists out, decides (view f) i s out /\ dec_outcome out = PromotionOutcome_authorized /\
     dec_selected out = dec_selected (pa_decision a)) /\
  gr_path (pa_grant a) = dec_selected (pa_decision a) /\
  gr_basis (pa_grant a) = ds_authority (fb_state f) /\
  fb_active_attempt f' = gr_attempt (pa_grant a) /\
  exists r, fb_attempts f' !! gr_attempt (pa_grant a) = Some r /\
    at_state r = AttemptState_authorized /\ at_selected r = gr_path (pa_grant a) /\
    at_incumbent r = i /\ at_set r = s /\ at_basis r = ds_authority (fb_state f).
Proof.
  unfold begin_promotion. destruct (_ || _); [done|]. unfold op_read at 1.
  destruct (owned f) eqn:Hown.
  { intros H. apply set_Ok in H. by injection H as <- <-. }
  intros H Ha Hleft. unfold ids_left in Hleft. apply set_Ok in H.
  set (f1 := f <| fb_active_attempt := _ |>) in *. unfold op_read in H. cbv beta zeta in H.
  destruct (_ || _); [done|].
  set (d := select_locked _ _ _ _ _ _ f1) in *. apply set_Ok in H.
  destruct (is_structural (dec_outcome d)) eqn:Hstr.
  { apply set_Ok in H. injection H as <- <-. by rewrite structural_not_authorized in Ha. }
  set (record := new_attempt _ _ _ _ _ _) in *.
  apply bind_Ok in H as (u2 & f2 & Hp & H). cbv beta in H. apply set_Ok in H.
  pose proof (persist_new_view env record (bump_decision f1) eq_refl) as Hv2.
  rewrite Hp in Hv2. destruct Hv2 as (m & Hm & Hv2).
  assert (Hlast : ds_attempt_sequence (fb_state f2) = Id_value (at_id record))
    by exact (f_equal v_last_attempt Hv2).
  destruct (bump_attempt_steps (fun _ => True) f2) as [Hv3 _]; [done|rewrite Hlast; cbn; lia|].
  destruct (negb (bool_decide (dec_outcome d = _)) || _) eqn:Hrefuse.
  { apply begin_refused_result in H as ->. by rewrite refusal_not_authorized in Ha. }
  apply orb_false_elim in Hrefuse as [Ho%negb_false_iff Hsel%negb_false_iff].
  apply bool_decide_eq_true in Ho.
  destruct (select_decides _ _ _ _ _ _ _ Ho) as (out & Hd & Hout & Hs).
  apply (begin_authorized_result env record d _ a f' record) in H as (-> & Hga & Hgp & Hgb & Hac & Hat).
  - rewrite Hga, Hgp, Hgb.
    refine (conj eq_refl (conj Hsel (conj _ (conj eq_refl (conj _ (conj Hac _)))))).
    + exists out. exact (conj Hd (conj Hout Hs)).
    + change (v_authority (view (bump_attempt f2)) = v_authority (view f1)).
      rewrite Hv3, Hv2. reflexivity.
    + exists (record <| at_state := AttemptState_authorized |>). split; [exact Hat|].
      repeat split; reflexivity.
  - change (v_attempts (view (bump_attempt f2)) !! at_id record = Some record).
    rewrite Hv3, Hv2. cbn [v_attempts update_field]. apply lookup_insert_eq.
  - change (Id_value (at_id record) <= v_last_attempt (view (bump_attempt f2))).
    rewrite Hv3, Hv2. cbn. lia.
Qed.

(** ** What a fence leaves behind *)

Lemma fence_path_result env p r f f' :
  keyed (view f) -> fence_path env p r f = (Ok tt, f') ->
  is_Some (fb_path_fences f' !! p) /\
  (fb_path_fences f !! p = None -> forall id a, fb_attempts f' !! id = Some a ->
     is_active_state (at_state a) = true -> at_selected a <> p).
Proof.
  intros HI. unfold fence_path. destruct (negb (Id_valid p)); [done|]. unfold op_read at 1.
  destruct (bool_decide_reflect (is_Some (fb_path_fences f !! p))) as [Hs|Hn].
  { intros [= <-]. split; [done|]. intros Hnone. rewrite Hnone in Hs. by destruct Hs. }
  intros H. apply bind_Ok in H as (u1 & f1 & Hf1 & H). cbv beta in H. apply set_Ok in H.
  pose proof (record_fence_keep env Id_absent p r f) as Hv1. rewrite Hf1 in Hv1. cbn [snd] in Hv1.
  set (f2 := count_fence _) in *. unfold op_read in H. cbv beta in H.
  apply bind_Ok in H as (u3 & f3 & Hf3 & H). cbv beta in H.
  assert (HI2 : keyed (view f2)).
  { assert (HI1 : keyed (view f1)) by (by rewrite Hv1). exact HI1. }
  destruct (revoke_all_run (fun _ => True) env p (attempt_entries f2).*1 f2 (fun _ => I) (fun _ => I) I
    HI2 (attempt_keys_NoDup f2)) as (_ & Hfe & Hout & Hin).
  rewrite Hf3 in Hfe, Hout, Hin. cbn [fst snd Result_ok] in *.
  pose proof (compact_keep env f3) as Hk. rewrite H in Hk. cbn [snd] in Hk.
  change (fb_path_fences f') with (v_fences (view f')).
  change (fb_attempts f') with (v_attempts (view f')). rewrite Hk.
  cbn [v_fences v_attempts view]. split.
  - rewrite Hfe. unfold f2. cbn. rewrite lookup_insert_eq. by eexists.
  - intros _ id a Hl. destruct (decide (id ∈ (attempt_entries f2).*1)) as [Hid|Hid].
    + by apply (Hin eq_refl id a).
    + exfalso. apply Hid. rewrite Hout in Hl by done.
      apply list_elem_of_fmap. exists (id, a). split; [done|]. by apply attempt_entries_lookup.
Qed.
