(* ===== verification/DurableProps.v ===== *)
(** * Memory and journal agree

    After every acknowledged operation the files represent exactly what the
    coordinator holds in memory, as far as it may be restored. *)

From S2P Require Import Prelude.
From S2P Require Import Ids.
From S2P Require Import Limits.
From S2P Require Import Status.
From S2P Require Import Checked.
From S2P Require Import Authority.
From S2P Require Import Model.
From S2P Require Import Decision.
From S2P Require Import Records.
From S2P Require Import Selector.
From S2P Require Import GateProps.
From S2P Require Import SelectorProps.
From S2P Require Import Bytes.
From S2P Require Import Canonical.
From S2P Require Import Wire.
From S2P Require Import WireProps.
From S2P Require Import Store.
From S2P Require Import StoreProps.
From S2P Require Import StateProps.
From S2P Require Import SnapshotProps.
From S2P Require Import LoadProps.
From S2P Require Import TableProps.
From S2P Require Import Fabric.
From S2P Require Import Coordinator.
From S2P Require Import FabricProps.

(** ** The vectors of the durable state and the tables *)

Lemma put_durable_attempt_file m r d :
  filed m -> ds_attempts d = values m ->
  (m !! at_id r = None -> forall k, is_Some (m !! k) -> Id_value k < Id_value (at_id r)) ->
  forall m', file max_attempts r m = Some m' ->
  exists n, put_durable_attempt r d =
    (ok_status, d <| ds_attempts := values m' |> <| ds_attempts_dropped := n |>).
Proof.
  intros Hf Hd Hnew m'. unfold put_durable_attempt, file.
  change (fun candidate => Id_eqb (at_id candidate) (at_id r)) with (same_id (at_id r)).
  rewrite Hd. destruct (m !! at_id r) as [r0|] eqn:Hr.
  - intros [= <-]. rewrite (values_replace m _ r0 r Hf Hr). exists (ds_attempts_dropped d).
    by destruct d.
  - rewrite values_absent, size_values by done. specialize (Hnew eq_refl).
    assert (Hsub : forall m0, m0 ⊆ m -> values (<[at_id r := r]> m0) = values m0 ++ [r]).
    { intros m0 Hm0. apply values_append. intros k [x Hx]. apply Hnew. exists x.
      by eapply lookup_weaken. }
    destruct (max_attempts <=? Z.of_nat (size m)).
    + rewrite values_evict. destruct (List.find finished (entries m)) as [[old r0]|]; [|done].
      intros [= <-]. rewrite (Hsub _ (delete_subseteq _ _)). eexists. by destruct d.
    + intros [= <-]. rewrite (Hsub m) by done. exists (ds_attempts_dropped d).
      rewrite <- Hd. by destruct d.
Qed.

(** Retaining an attempt in memory files it. *)
Lemma retain_file r f g :
  retain_attempt r f = (Ok tt, g) ->
  exists a' n st, file (fo_max_retained_attempts (fb_options f)) r (fb_attempts f) = Some a' /\
    (is_u64 (ds_attempts_dropped (fb_state f)) -> is_u64 n) /\
    g = f <| fb_attempts := a' |> <| fb_state ::= fun s => s <| ds_attempts_dropped := n |> |>
          <| fb_stats := st |>.
Proof.
  unfold retain_attempt, file, store_attempt. destruct (fb_attempts f !! at_id r) as [r0|].
  { intros [= <-]. eexists _, (ds_attempts_dropped (fb_state f)), (fb_stats f). split; [done|].
    split; [done|]. by destruct f as [? ? ? [] ? ? ? ? ? ? ? ?]. }
  destruct (_ <=? _).
  - change (attempt_entries f) with (entries (fb_attempts f)).
    change (fun entry : AttemptId * AttemptRecord => is_terminal_state (at_state entry.2)) with finished.
    destruct (List.find finished (entries (fb_attempts f))) as [[old r0]|]; [|done].
    intros [= <-]. eexists _, (bump (ds_attempts_dropped (fb_state f))), _. split; [done|].
    split; [intros _; apply wrap_u64_range|]. by destruct f as [? ? ? [] ? ? ? ? ? ? ? ?].
  - intros [= <-]. eexists _, (ds_attempts_dropped (fb_state f)), (fb_stats f). split; [done|].
    split; [done|]. by destruct f as [? ? ? [] ? ? ? ? ? ? ? ?].
Qed.

Definition sets_table (l : list AlternateSet) : gmap AlternateSetId AlternateSet :=
  foldl (fun m set => emplace (set_id set) set m) ∅ l.
Definition fences_table (l : list FenceRecord) : gmap PathId Reason :=
  foldl (fun m fence => if Id_valid (fr_path fence) then emplace (fr_path fence) (fr_reason fence) m
                        else m) ∅ l.

(** What a restart may restore is the same in memory and in the durable state. *)
Record same_image (s d : DurableState) : Prop := {
  im_authority : ds_authority d = ds_authority s;
  im_has_policy : ds_has_policy d = ds_has_policy s;
  im_policy : ds_policy d = ds_policy s;
  im_has_obligations : ds_has_obligations d = ds_has_obligations s;
  im_obligations : ds_obligations d = ds_obligations s;
  im_sets : ds_sets d = ds_sets s;
  im_fences : ds_fences d = ds_fences s;
  im_lineage : ds_lineage d = ds_lineage s;
  im_last : ds_last_sequence d = ds_last_sequence s;
  im_restarts : ds_restart_count d = ds_restart_count s }.

Record Image (st : Store) (s : DurableState) (sets : gmap AlternateSetId AlternateSet)
    (memory : gmap AttemptId AttemptRecord) (fences : gmap PathId Reason) (limit : Z)
    (who : FabricIdentity) (d : DurableState) : Prop := {
  ig_files : Represents st d;
  ig_wf : tables_wf d;
  ig_basis : basis_consistent d;
  ig_same : same_image s d;
  ig_counters : counters_wf s;
  ig_sets : sets = sets_table (ds_sets d);
  ig_fences : fences = fences_table (ds_fences d);
  ig_attempts : exists m, ds_attempts d = values m /\ covers limit memory m /\
    forall id, is_Some (m !! id) -> Id_value id <= ds_attempt_sequence s;
  ig_limit : 0 < limit <= max_attempts;
  ig_who : Id_wf (fi_epoch who) /\ Id_wf (fi_boot who) }.

(** The files hold [d], and [d] is what memory holds. *)
Definition Tracks (f : Fabric) (d : DurableState) : Prop :=
  Image (fb_store f) (fb_state f) (fb_sets f) (fb_attempts f) (fb_path_fences f)
    (fo_max_retained_attempts (fb_options f)) (fb_identity f) d.

(** ** Appending *)

(** A successful append had a sequence number left. *)
Lemma Store_append_sequence io t p s :
  Status_ok (Store_append io t p s).1 = true -> s_last_sequence s <> UINT64_MAX.
Proof.
  unfold Store_append. destruct (s_closed s); [done|].
  destruct (s_inspection_only s); [done|]. do 2 (destruct (_ <? _); [done|]).
  by destruct (Z.eqb_spec (s_last_sequence s) UINT64_MAX).
Qed.

Lemma append_done env t p f g d d1 :
  append_locked env t p f = (Ok tt, g) -> Represents (fb_store f) d -> tables_wf d ->
  apply_record d t p = (ok_status, d1) ->
  let next := d1 <| ds_last_sequence := ds_last_sequence d + 1 |> in
  exists st stats, Represents st next /\ tables_wf next /\
    g = f <| fb_store := st |>
          <| fb_state ::= fun s => s <| ds_last_sequence := ds_last_sequence d + 1 |> |>
          <| fb_stats := stats |>.
Proof.
  intros H Hr Hwf Ha next. unfold append_locked in H.
  pose proof (Store_append_spec (env_append env (fb_store f)) t p (fb_store f) d ok_status d1 Hr Ha
    eq_refl) as Hs. cbv zeta in Hs.
  pose proof (Store_append_sequence (env_append env (fb_store f)) t p (fb_store f)) as Hseq.
  destruct (Store_append _ t p (fb_store f)) as [st s']. destruct Hs as [Hs _]. cbn [fst] in Hseq.
  destruct (Status_ok st) eqn:Hok; cbn [negb] in H; [|done]. injection H as <-.
  specialize (Hseq eq_refl). rewrite (rep_last _ _ Hr) in Hseq.
  destruct Hs as [st tail Hf|st Hf|Hrep]; [congruence|congruence|].
  pose proof (rep_last _ _ Hrep) as Hl. cbn in Hl. rewrite Hl.
  eexists s', _. split; [exact Hrep|]. split; [|reflexivity].
  pose proof (apply_record_wf d t p Hwf) as Hw. rewrite Ha in Hw.
  apply tables_wf_last; [exact Hw|]. pose proof (tw_last _ Hwf). unfold_ints. lia.
Qed.

(** ** Journaling one record *)

(** What replaying each encoded record does. *)

Lemma replays {A} (get : Read (Result A)) enc wf `{!Decodes get enc wf} (v : A) :
  wf v -> whole_payload get (enc v) = Ok v.
Proof. intros Hv. by apply (whole_payload_spec get enc wf). Qed.

Lemma replays_attempt r d (is_begin : bool) :
  attempt_wf r ->
  apply_record d (if is_begin then RecordType_attempt_begin else RecordType_attempt_state)
    (encode_attempt_record r) = put_durable_attempt r d.
Proof.
  intros Hr. rewrite encode_attempt_record_spec.
  destruct is_begin; cbn [apply_record]; by rewrite (replays get_attempt enc_attempt attempt_wf r Hr).
Qed.

Lemma replays_fence x d :
  fence_wf x -> apply_record d RecordType_fence_recorded (encode_fence_record x) = put_durable_fence x d.
Proof.
  intros Hx. rewrite encode_fence_record_spec. cbn [apply_record].
  by rewrite (replays get_fence enc_fence fence_wf x Hx).
Qed.

Lemma replays_lineage x d :
  lineage_wf x ->
  apply_record d RecordType_lineage_entry (encode_lineage_record x) = (ok_status, put_durable_lineage x d).
Proof.
  intros Hx. rewrite encode_lineage_record_spec. cbn [apply_record].
  by rewrite (replays get_lineage enc_lineage lineage_wf x Hx).
Qed.

Lemma replays_set x d :
  wire_set_wf x ->
  apply_record d RecordType_alternate_set_put (encode_set_record x) = put_durable_set x d.
Proof.
  intros Hx. rewrite encode_set_record_spec by done. cbn [apply_record].
  by rewrite (replays get_set enc_set wire_set_wf x Hx).
Qed.

Lemma replays_policy x d :
  policy_wf x ->
  apply_record d RecordType_policy_set (encode_policy_record x) =
  (ok_status, d <| ds_policy := x |> <| ds_has_policy := true |>
                <| ds_authority ::= fun v => v <| av_policy := pol_generation x |> |>).
Proof.
  intros Hx. rewrite encode_policy_record_spec. cbn [apply_record].
  by rewrite (replays get_policy enc_policy policy_wf x Hx).
Qed.

Lemma replays_obligations x d :
  obligations_wf x ->
  apply_record d RecordType_obligations_set (encode_obligations_record x) =
  (ok_status, d <| ds_obligations := x |> <| ds_has_obligations := true |>
                <| ds_authority ::= fun v => v <| av_obligations := ob_generation x |> |>).
Proof.
  intros Hx. rewrite encode_obligations_record_spec. cbn [apply_record].
  by rewrite (replays get_obligations enc_obligations obligations_wf x Hx).
Qed.

(** The record of the epoch carries the whole authority and the counters. *)
Lemma replays_epoch a n n1 n2 n3 d :
  epoch_wf (a, n, n1, n2, n3) ->
  apply_record d RecordType_epoch_advance (encode_epoch_record a n n1 n2 n3) =
  (ok_status, with_epoch (a, n, n1, n2, n3) d).
Proof.
  intros Hv. rewrite encode_epoch_record_spec. cbn [apply_record].
  by rewrite apply_epoch_eq, (replays get_epoch_checked enc_epoch epoch_wf _ Hv).
Qed.

Lemma persist_attempt_tracks env r is_begin a f g d :
  Tracks (f <| fb_attempts := a |>) d -> attempt_wf r ->
  file (fo_max_retained_attempts (fb_options f)) r (fb_attempts f)
    = file (fo_max_retained_attempts (fb_options f)) r a ->
  (a !! at_id r = None -> ds_attempt_sequence (fb_state f) < Id_value (at_id r)) ->
  persist_attempt env r is_begin f = (Ok tt, g) ->
  exists d', Tracks g d' /\ fb_attempts g !! at_id r = Some r /\
    fb_identity g = fb_identity f /\ fb_options g = fb_options f.
Proof.
  intros [Hrep Hwf Hb Hsame Hcnt Hsets Hfen (m & Hdm & Hcov & Hseq) Hlim Hwho] Hr Hfile Hnew.
  cbn [fb_store fb_state fb_sets fb_attempts fb_path_fences fb_options fb_identity update_field] in *.
  unfold persist_attempt. cbv zeta. destruct (bool_decide _); [done|]. intros H.
  apply bind_Ok in H as ([] & f1 & Happ & H). cbv beta in H. apply set_Ok in H.
  pose proof (cv_filed _ _ _ Hcov) as Hfiled.
  assert (Hold : a !! at_id r = None -> m !! at_id r = None).
  { intros Ha. destruct (m !! at_id r) eqn:Hm; [|done].
    specialize (Hseq (at_id r) ltac:(eauto)). specialize (Hnew Ha). lia. }
  apply retain_file in H as (a' & n & st2 & Hf & Hn & ->).
  assert (Hfile1 : file (fo_max_retained_attempts (fb_options f)) r a = Some a').
  { rewrite <- Hfile. rewrite <- Hf. clear -Happ. unfold append_locked in Happ.
    destruct (Store_append _ _ _ _) as [st s']. destruct (negb (Status_ok st)); [done|].
    by injection Happ as <-. }
  destruct (covers_file _ max_attempts a m r a' Hcov Hlim) as (m' & Hm' & Hcov' & Hsize); [|done..|].
  { rewrite <- size_values, <- Hdm. apply (tw_attempts _ Hwf). }
  destruct (put_durable_attempt_file m r d Hfiled Hdm) with (m' := m') as [k Hput]; [|done|].
  { intros Hm k Hk. specialize (Hseq k Hk).
    assert (Ha : a !! at_id r = None).
    { destruct (a !! at_id r) eqn:Ha; [|done]. by rewrite (covers_lookup _ _ _ _ _ Hcov Ha) in Hm. }
    specialize (Hnew Ha). lia. }
  pose proof (replays_attempt r d is_begin Hr) as Happly. rewrite Hput in Happly.
  destruct (append_done _ _ _ _ _ _ _ Happ Hrep Hwf Happly) as (st & stats & Hrep' & Hwf' & ->).
  eexists. split; [|split; [exact (file_lookup _ _ _ _ Hf)|done]].
  constructor; cbn [fb_store fb_state fb_sets fb_attempts fb_path_fences fb_options fb_identity
    ds_attempt_sequence ds_fence_sequence ds_decision_sequence ds_attempts update_field].
  - exact Hrep'.
  - exact Hwf'.
  - exact Hb.
  - by destruct Hsame.
  - destruct Hcnt as (H1&H2&H3&H4&H5). unfold counters_wf. cbn. split; [|by auto].
    apply is_u64_max; [done|]. apply Hr.
  - exact Hsets.
  - exact Hfen.
  - exists m'. split; [done|]. split; [done|]. intros id Hid.
    apply (file_keys _ _ _ _ _ Hm') in Hid as [->|Hid]; [lia|]. specialize (Hseq id Hid). lia.
  - done.
  - done.
Qed.

(** *** Facts about a tracked coordinator *)

Lemma Tracks_attempt f d id r :
  Tracks f d -> fb_attempts f !! id = Some r -> attempt_wf r /\ at_id r = id.
Proof.
  intros [_ Hwf _ _ _ _ _ (m & Hdm & Hcov & _) _ _] Hr.
  pose proof (covers_filed _ _ _ Hcov id r Hr) as <-. split; [|done].
  pose proof (covers_lookup _ _ _ _ _ Hcov Hr) as Hm.
  apply (elem_of_values m r (cv_filed _ _ _ Hcov)) in Hm. rewrite <- Hdm in Hm.
  destruct (tw_attempts _ Hwf) as [_ Hall]. rewrite List.Forall_forall in Hall.
  by apply Hall, list_elem_of_In.
Qed.

Lemma Tracks_last f d : Tracks f d -> is_u64 (ds_last_sequence (fb_state f)).
Proof. intros HT. rewrite <- (im_last _ _ (ig_same _ _ _ _ _ _ _ _ HT)). apply HT. Qed.

Lemma Tracks_authority f d : Tracks f d -> authority_wf (ds_authority (fb_state f)).
Proof. intros HT. rewrite <- (im_authority _ _ (ig_same _ _ _ _ _ _ _ _ HT)). apply HT. Qed.

Lemma ended_wf s why n r : attempt_wf r -> is_u64 n -> attempt_wf (ended s why n r).
Proof. unfold attempt_wf. cbn. tauto. Qed.

Lemma refile_tracks env id r0 r is_begin f g d :
  Tracks f d -> fb_attempts f !! id = Some r0 -> at_id r = id -> attempt_wf r ->
  persist_attempt env r is_begin (store_attempt id r f) = (Ok tt, g) ->
  exists d', Tracks g d' /\ fb_attempts g !! id = Some r /\
    fb_identity g = fb_identity f /\ fb_options g = fb_options f.
Proof.
  intros HT Hr0 <- Hr H. eapply (persist_attempt_tracks env r is_begin (fb_attempts f)) in H; eauto.
  - by apply (file_again _ _ _ r0).
  - congruence.
Qed.

(** *** Lineage *)

(** The bounded lineage after an entry. *)
Definition push_lineage (x : LineageEntry) (l : list LineageEntry) : list LineageEntry :=
  (if max_lineage <=? size_of l then tail l else l) ++ [x].

Lemma put_durable_lineage_eq x d :
  exists b, put_durable_lineage x d =
    d <| ds_lineage := push_lineage x (ds_lineage d) |> <| ds_lineage_truncated := b |>.
Proof.
  unfold put_durable_lineage, push_lineage. destruct d as [a1 a2 a3 a4 a5 a6 a7 a8 l a10 b a12 a13 a14 a15 a16].
  cbn [ds_lineage]. destruct (max_lineage <=? size_of l); by eexists.
Qed.

Lemma persist_lineage_tracks env x f g d :
  Tracks f d -> lineage_wf x -> persist_lineage env x f = (Ok tt, g) ->
  exists d', Tracks g d' /\ fb_attempts g = fb_attempts f /\
    fb_identity g = fb_identity f /\ fb_options g = fb_options f.
Proof.
  intros [Hrep Hwf Hb Hsame Hcnt Hsets Hfen Hatt Hlim Hwho] Hx.
  unfold persist_lineage. cbv zeta. destruct (bool_decide _); [done|]. intros H.
  apply bind_Ok in H as ([] & f1 & Happ & H). cbv beta in H. injection H as <-.
  destruct (append_done _ _ _ _ _ _ _ Happ Hrep Hwf (replays_lineage x d Hx))
    as (st & stats & Hrep' & Hwf' & ->).
  set (s := (fb_state f) <| ds_last_sequence := ds_last_sequence d + 1 |>
     <| ds_decision_sequence ::= fun n => Z.max n (Id_value (le_decision x)) |>).
  destruct (put_durable_lineage_eq x s) as [b Hs]. destruct (put_durable_lineage_eq x d) as [b' Hd].
  rewrite Hd in Hrep', Hwf'. clear Hd.
  eexists. split; [|split; [reflexivity|split; reflexivity]].
  lazymatch goal with |- Tracks ?g ?d1 =>
    change (Image st (put_durable_lineage x s) (fb_sets f) (fb_attempts f) (fb_path_fences f)
      (fo_max_retained_attempts (fb_options f)) (fb_identity f) d1) end.
  rewrite Hs. clear Hs.
  assert (Hmax : is_u64 (Z.max (ds_decision_sequence (fb_state f)) (Id_value (le_decision x)))).
  { apply is_u64_max; [apply Hcnt|apply Hx]. }
  destruct Hcnt as (Hc1 & Hc2 & _ & Hc4 & Hc5).
  constructor; [exact Hrep'|exact Hwf'|exact Hb| | |exact Hsets|exact Hfen|exact Hatt|done|done].
  - destruct Hsame. constructor; try assumption; [|reflexivity].
    cbn [ds_lineage update_field]. by f_equal.
  - exact (conj Hc1 (conj Hc2 (conj Hmax (conj Hc4 Hc5)))).
Qed.

(** *** Fences *)

(** The fences in memory after a fence of [path]. *)
Definition fenced_with (path : PathId) (why : Reason) (m : gmap PathId Reason) : gmap PathId Reason :=
  if Id_valid path then emplace path why m else m.

Lemma fences_table_snoc l x :
  fences_table (l ++ [x]) = fenced_with (fr_path x) (fr_reason x) (fences_table l).
Proof. unfold fences_table, fenced_with. by rewrite foldl_app. Qed.

Lemma record_fence_tracks env att path why f g d :
  Tracks f d -> Id_wf att -> Id_wf path -> record_fence env att path why f = (Ok tt, g) ->
  exists d', Tracks (g <| fb_path_fences := fenced_with path why (fb_path_fences f) |>) d' /\
    fb_attempts g = fb_attempts f /\ fb_path_fences g = fb_path_fences f /\
    fb_identity g = fb_identity f /\ fb_options g = fb_options f.
Proof.
  intros HT Ha Hp. pose proof (Tracks_authority _ _ HT) as Hau.
  destruct HT as [Hrep Hwf Hb Hsame Hcnt Hsets Hfen Hatt Hlim Hwho].
  unfold record_fence, op_read. destruct (Z.eqb_spec (ds_fence_sequence (fb_state f)) UINT64_MAX); [done|].
  set (x := mkFenceRecord _ _ _ _ _ _ _ _).
  assert (Hx : fence_wf x).
  { pose proof (proj1 (proj2 Hcnt)) as Hs. unfold fence_wf, x. cbn.
    split; [unfold Id_wf; cbn; unfold_ints; lia|].
    refine (conj (proj1 Hwho) (conj (proj2 Hwho) (conj Ha (conj Hp (conj I (conj Hau _)))))).
    apply wrap_u64_range. }
  unfold persist_fence, op_read. destruct (max_fences <=? size_of (ds_fences (fb_state f))) eqn:Hfull; [done|].
  cbv zeta. destruct (bool_decide _); [done|]. intros H.
  apply bind_Ok in H as ([] & f1 & Happ & H). cbv beta in H. injection H as <-.
  pose proof (replays_fence x d Hx) as Hre. unfold put_durable_fence in Hre.
  rewrite (im_fences _ _ Hsame), Hfull in Hre.
  destruct (append_done _ _ _ _ _ _ _ Happ Hrep Hwf Hre) as (st & stats & Hrep' & Hwf' & ->).
  exists (d <| ds_fences ::= fun l => l ++ [x] |> <| ds_last_sequence := ds_last_sequence d + 1 |>).
  split; [|split; [reflexivity|split; [reflexivity|split; reflexivity]]].
  constructor; [exact Hrep'|exact Hwf'|exact Hb| | |exact Hsets| |exact Hatt|exact Hlim|exact Hwho].
  - destruct Hsame as [? ? ? ? ? ? Hf ? ? ?]. constructor; try assumption; cbn; [by rewrite Hf|done].
  - destruct Hcnt as (Hc1 & Hc2 & Hc3 & Hc4 & Hc5).
    refine (conj Hc1 (conj _ (conj Hc3 (conj Hc4 Hc5)))). cbn [ds_fence_sequence fb_state update_field].
    apply is_u64_max; [exact Hc2|apply Hx].
  - cbn [ds_fences fb_path_fences update_field]. by rewrite fences_table_snoc, <- Hfen.
Qed.

(** *** Compaction *)

Lemma covers_size limit a m : covers limit a m -> (size a <= size m)%nat.
Proof. intros Hc. apply map_subseteq_size, (cv_sub _ _ _ Hc). Qed.

(** The state a snapshot is taken of is well formed, and is the image of memory. *)
Lemma snapshot_state_image f d :
  Tracks f d -> let s := snapshot_state f in
  tables_wf s /\ basis_consistent s /\
  same_image (fb_state f) s /\ ds_attempts s = values (fb_attempts f).
Proof.
  intros HT. pose proof (Tracks_last _ _ HT) as Hlast.
  pose proof (fun id r => Tracks_attempt f d id r HT) as Hatt.
  destruct HT as [_ Hwf Hb Hsame Hcnt _ _ (m & Hdm & Hcov & _) Hlim _]. cbv zeta.
  assert (Hval : forall r, r ∈ values (fb_attempts f) -> attempt_wf r).
  { intros r Hr. apply (elem_of_values _ _ (covers_filed _ _ _ Hcov)) in Hr. by apply (Hatt (at_id r)). }
  split; [|split; [|by split; [constructor|]]].
  - destruct Hwf as [H1 H2 H3 H4 H5 H6 H7 _ H9 _ _ H12]. destruct Hsame as [E1 E2 E3 E4 E5 E6 E7 E8 E9 E10].
    rewrite E1 in H1. rewrite E2, E3 in H2. rewrite E4, E5 in H3. rewrite E6 in H4, H5.
    rewrite E7 in H6. rewrite E8 in H9. rewrite E10 in H12.
    constructor; try assumption.
    + split; [|by apply List.Forall_forall; intros r Hr; apply Hval, list_elem_of_In].
      change (size_of (values (fb_attempts f)) <= max_attempts). rewrite size_values.
      apply covers_size in Hcov. destruct H7 as [H7 _]. rewrite Hdm, size_values in H7. lia.
    + change (NoDup (at_id <$> values (fb_attempts f))). unfold values, entries.
      replace (at_id <$> _) with (ordered_entries Id_value (fb_attempts f)).*1;
        [apply ordered_entries_NoDup_fst|].
      rewrite <- list_fmap_compose. apply list_fmap_ext. intros i [id r] Hi. cbn.
      apply list_elem_of_lookup_2, elem_of_ordered_entries in Hi. symmetry. by apply (Hatt id).
  - destruct Hb as [Hb1 Hb2]. destruct Hsame as [E1 E2 E3 E4 E5 _ _ _ _ _].
    rewrite E1, E2, E3 in Hb1. rewrite E1, E4, E5 in Hb2. by split.
Qed.

(** ** Runs of operations

    [trun m f]: if [m] succeeds on [f], the files hold what memory holds
    afterwards. *)

Definition Tracked (f : Fabric) : Prop := exists d, Tracks f d.

Definition trun {A} (m : Op A) (f : Fabric) : Prop :=
  forall x g, m f = (Ok x, g) -> Tracked g.

Lemma trun_fail {A} c r s f : trun (@fail_with A c r s) f.
Proof. by intros x g H. Qed.
Lemma trun_op_fail {A} s f : trun (@op_fail A s) f.
Proof. by intros x g H. Qed.
Lemma trun_return {A} (x : A) f : Tracked f -> trun (op_return x) f.
Proof. intros HT y g H. injection H as _ <-. exact HT. Qed.
Lemma trun_modify h f : Tracked (h f) -> trun (op_modify h) f.
Proof. intros HT y g H. injection H as _ <-. exact HT. Qed.
Lemma trun_read {A} (k : Fabric -> Op A) f : trun (k f) f -> trun (op_read k) f.
Proof. done. Qed.
Lemma trun_set {A} h (k : Op A) f : trun k (h f) -> trun (set! h in k) f.
Proof. done. Qed.
Lemma trun_bind {A B} (m : Op A) (k : A -> Op B) f :
  trun m f -> (forall x f1, Tracked f1 -> trun (k x) f1) -> trun (op_bind m k) f.
Proof.
  intros Hm Hk y g H. apply bind_Ok in H as (x & f1 & H1 & H2). specialize (Hm x f1 H1).
  by apply (Hk x f1 Hm y g).
Qed.
Lemma trun_for_each {A} (l : list A) (body : A -> Op unit) f :
  Tracked f -> (forall x f1, Tracked f1 -> trun (body x) f1) -> trun (for_each l body) f.
Proof.
  intros HT Hb. revert f HT. induction l as [|x l IH]; intros f HT; [by apply trun_return|].
  cbn [for_each]. apply trun_bind; [by apply Hb|]. intros _ f1 HT1. by apply IH.
Qed.

(** *** Compaction *)

Lemma trun_compact env f : Tracked f -> trun (compact_if_needed env) f.
Proof.
  intros [d HT] [] g. unfold compact_if_needed.
  destruct (negb _); [intros [= <-]; by exists d|]. destruct (_ <? _); [intros [= <-]; by exists d|].
  destruct (snapshot_state_image f d HT) as (Hs & Hb & Hsame & Hat).
  pose proof (Tracks_last _ _ HT) as Hlast.
  destruct HT as [Hrep Hwf Hb0 Hsame0 Hcnt Hsets Hfen (m & Hdm & Hcov & Hseq) Hlim Hwho].
  pose proof (Store_write_snapshot_moves (env_snapshot env (fb_store f)) (fb_store f) d
    (snapshot_state f) Hrep (eq_sym (im_last _ _ Hsame0)) Hs Hb) as Hw.
  destruct (Store_write_snapshot _ _ _) as [st s'] in *. destruct Hw as [_ Hw].
  unfold op_status. destruct (Status_ok st); [|done]. destruct (Hw eq_refl) as [Hrep' _].
  intros [= <-]. exists (snapshot_state f).
  constructor; [exact Hrep'|exact Hs|exact Hb|exact Hsame|exact Hcnt| | | |exact Hlim|exact Hwho].
  - cbn [fb_sets update_field]. rewrite Hsets. by rewrite (im_sets _ _ Hsame0).
  - cbn [fb_path_fences update_field]. rewrite Hfen. by rewrite (im_fences _ _ Hsame0).
  - exists (fb_attempts f). split; [exact Hat|]. split; [apply covers_refl; by eapply covers_filed|].
    intros id [r Hr]. apply Hseq. exists r. by eapply covers_lookup.
Qed.

(** *** Journaling within an operation *)

Lemma Tracks_who f d : Tracks f d -> Id_wf (fi_epoch (fb_identity f)) /\ Id_wf (fi_boot (fb_identity f)).
Proof. intros HT. apply HT. Qed.
Lemma Tracks_counters f d : Tracks f d -> counters_wf (fb_state f).
Proof. intros HT. apply HT. Qed.

Lemma trun_lineage {A} env x (k : Op A) f :
  Tracked f -> lineage_wf x ->
  (forall f1, Tracked f1 -> fb_attempts f1 = fb_attempts f -> trun k f1) ->
  trun (let! _ := persist_lineage env x in k) f.
Proof.
  intros [d HT] Hx Hk y g H. apply bind_Ok in H as ([] & f1 & H1 & H2).
  apply (persist_lineage_tracks env x f f1 d HT Hx) in H1 as (d1 & HT1 & Ha & _).
  apply (Hk f1) in H2; [exact H2|by exists d1|exact Ha].
Qed.

(** Altering a known attempt and journaling it. *)
Lemma trun_refile {A} env id r0 r is_begin (k : Op A) f :
  Tracked f -> fb_attempts f !! id = Some r0 -> at_id r = id -> attempt_wf r ->
  (forall f1, Tracked f1 -> fb_attempts f1 !! id = Some r -> trun k f1) ->
  trun (set! store_attempt id r in let! _ := persist_attempt env r is_begin in k) f.
Proof.
  intros [d HT] H0 Hid Hr Hk y g H. apply set_Ok, bind_Ok in H as ([] & f1 & H1 & H2).
  apply (refile_tracks env id r0 r is_begin f f1 d HT H0 Hid Hr) in H1 as (d1 & HT1 & Ha & _).
  apply (Hk f1) in H2; [exact H2|by exists d1|exact Ha].
Qed.

(** Journaling the next state of a known attempt. *)
Lemma trun_persist_known {A} env r0 r is_begin (k : Op A) f :
  Tracked f -> fb_attempts f !! at_id r = Some r0 -> attempt_wf r ->
  (forall f1, Tracked f1 -> fb_attempts f1 !! at_id r = Some r -> trun k f1) ->
  trun (let! _ := persist_attempt env r is_begin in k) f.
Proof.
  intros [d HT] H0 Hr Hk y g H. apply bind_Ok in H as ([] & f1 & H1 & H2).
  apply (persist_attempt_tracks env r is_begin (fb_attempts f) f f1 d) in H1 as (d1 & HT1 & Ha & _);
    [|by destruct f|done|done|congruence].
  apply (Hk f1) in H2; [exact H2|by exists d1|exact Ha].
Qed.

(** Journaling the next attempt. *)
Lemma trun_persist_new {A} env r (k : Op A) f :
  Tracked f -> attempt_wf r -> Id_value (at_id r) = ds_attempt_sequence (fb_state f) + 1 ->
  (forall f1, Tracked f1 -> fb_attempts f1 !! at_id r = Some r ->
     ds_attempt_sequence (fb_state f1) = Id_value (at_id r) -> trun k f1) ->
  trun (let! _ := persist_attempt env r true in k) f.
Proof.
  intros [d HT] Hr Hid Hk y g H. apply bind_Ok in H as ([] & f1 & H1 & H2).
  pose proof (persist_new_view env r f Hid) as Hv. rewrite H1 in Hv. destruct Hv as (m & _ & Hv).
  apply (f_equal v_last_attempt) in Hv.
  apply (persist_attempt_tracks env r true (fb_attempts f) f f1 d) in H1 as (d1 & HT1 & Ha & _);
    [|by destruct f|done|done|intros _; lia].
  apply (Hk f1) in H2; [exact H2|by exists d1|exact Ha|exact Hv].
Qed.

(** The counters of identities handed out are not part of what the files hold. *)
Lemma bump_decision_tracked f : Tracked f -> Tracked (bump_decision f).
Proof.
  intros [d [Hrep Hwf Hb Hsame (H1 & H2 & H3 & H4) Hsets Hfen Hatt Hlim Hwho]]. exists d.
  constructor; try assumption; [by destruct Hsame|].
  refine (conj H1 (conj H2 (conj _ H4))). apply wrap_u64_range.
Qed.

Lemma bump_attempt_tracked f :
  Tracked f -> ds_attempt_sequence (fb_state f) < UINT64_MAX -> Tracked (bump_attempt f).
Proof.
  intros [d [Hrep Hwf Hb Hsame (H1 & H2) Hsets Hfen (m & Hdm & Hcov & Hseq) Hlim Hwho]] Hmax. exists d.
  constructor; try assumption; [by destruct Hsame|..].
  - refine (conj _ H2). apply wrap_u64_range.
  - exists m. split; [exact Hdm|]. split; [exact Hcov|]. intros id Hid. specialize (Hseq id Hid).
    change (Id_value id <= bump (ds_attempt_sequence (fb_state f))). unfold bump.
    unfold is_u64 in H1. rewrite wrap_u64_id; [lia|unfold is_u64; unfold_ints; lia].
Qed.

(** A fence of an attempt leaves the fenced paths alone. *)
Lemma trun_fence_attempt {A} env att why (k : Op A) f :
  Tracked f -> Id_wf att -> (forall f1, Tracked f1 -> trun k f1) ->
  trun (let! _ := record_fence env att Id_absent why in k) f.
Proof.
  intros [d HT] Ha Hk y g H. apply bind_Ok in H as ([] & f1 & H1 & H2).
  apply (record_fence_tracks env att Id_absent why f f1 d HT Ha) in H1 as (d1 & HT1 & _ & Hp & _);
    [|unfold Id_wf; cbn; unfold_ints; lia].
  apply (Hk f1) in H2; [exact H2|]. exists d1.
  change (fenced_with Id_absent why (fb_path_fences f)) with (fb_path_fences f) in HT1.
  rewrite <- Hp in HT1. by destruct f1.
Qed.

Lemma trun_fence_path {A} env path why (k : Op A) f :
  Tracked f -> Id_wf path -> Id_valid path = true -> fb_path_fences f !! path = None ->
  (forall f1, Tracked (f1 <| fb_path_fences ::= <[path := why]> |>) -> trun k f1) ->
  trun (let! _ := record_fence env Id_absent path why in k) f.
Proof.
  intros [d HT] Hp Hv Hn Hk y g H. apply bind_Ok in H as ([] & f1 & H1 & H2).
  apply (record_fence_tracks env Id_absent path why f f1 d HT) in H1 as (d1 & HT1 & _ & Hpf & _);
    [|unfold Id_wf; cbn; unfold_ints; lia|done].
  apply (Hk f1) in H2; [exact H2|]. exists d1. unfold fenced_with, emplace in HT1. rewrite Hv, Hn in HT1.
  change (f1 <| fb_path_fences ::= <[path := why]> |>) with
    (f1 <| fb_path_fences := <[path := why]> (fb_path_fences f1) |>). by rewrite Hpf.
Qed.

(** *** Ending attempts *)

Lemma Tracked_known f id r :
  Tracked f -> fb_attempts f !! id = Some r ->
  attempt_wf r /\ at_id r = id /\ is_u64 (ds_last_sequence (fb_state f)).
Proof.
  intros [d HT] Hr. destruct (Tracks_attempt f d id r HT Hr). split; [done|]. split; [done|].
  by eapply Tracks_last.
Qed.

Lemma trun_end_and_fence env s why id f : Tracked f -> trun (end_and_fence env s why id) f.
Proof.
  intros HT. unfold end_and_fence. apply trun_read. unfold find_attempt.
  destruct (fb_attempts f !! id) as [r|] eqn:Hr; [|by apply trun_return].
  destruct (Tracked_known f id r HT Hr) as (Hwf & <- & Hseq). cbv zeta.
  eapply trun_refile; [done|exact Hr|done|by apply ended_wf|]. intros f1 HT1 _.
  apply trun_fence_attempt; [done|apply Hwf|]. intros f2 HT2. apply trun_modify. exact HT2.
Qed.

Lemma trun_fence_attempts env why s f : Tracked f -> trun (fence_attempts env why s) f.
Proof.
  intros HT. unfold fence_attempts. apply trun_read. cbv zeta. apply trun_bind.
  - apply trun_for_each; [done|]. intros id f1. apply trun_end_and_fence.
  - intros _ f1 HT1. destruct (bool_decide _); [by apply trun_return|]. apply trun_modify. exact HT1.
Qed.

Lemma trun_fence_then_compact env why s f :
  Tracked f -> trun (let! _ := fence_attempts env why s in compact_if_needed env) f.
Proof.
  intros HT. apply trun_bind; [by apply trun_fence_attempts|]. intros _ f1. apply trun_compact.
Qed.

(** ** The table of alternate sets *)

(** The first set of an identity is the one in force. *)
Lemma sets_fold_lookup l m id :
  foldl (fun m set => emplace (set_id set) set m) m l !! id =
  match m !! id with Some s => Some s | None => List.find (fun s => Id_eqb (set_id s) id) l end.
Proof.
  revert m. induction l as [|s l IH]; intros m; cbn [foldl List.find]; [by destruct (m !! id)|].
  rewrite IH. unfold emplace. destruct (Id_eqb_spec (set_id s) id) as [<-|Hne].
  - destruct (m !! set_id s) eqn:E; [by rewrite E|]. by rewrite lookup_insert_eq.
  - destruct (m !! set_id s) eqn:E; [done|]. by rewrite lookup_insert_ne.
Qed.

Lemma sets_table_lookup l id : sets_table l !! id = List.find (fun s => Id_eqb (set_id s) id) l.
Proof. unfold sets_table. by rewrite sets_fold_lookup, lookup_empty. Qed.

Lemma sets_table_put set l :
  sets_table (match replace_first (fun c => Id_eqb (set_id c) (set_id set)) set l with
              | None => l ++ [set] | Some l' => l' end) = <[set_id set := set]> (sets_table l).
Proof.
  apply map_eq. intros id. rewrite sets_table_lookup.
  destruct (decide (set_id set = id)) as [<-|Hne];
    [rewrite lookup_insert_eq|rewrite lookup_insert_ne, sets_table_lookup by done].
  - induction l as [|s l IH]; cbn; [by rewrite Id_eqb_refl|].
    destruct (Id_eqb_spec (set_id s) (set_id set)) as [He|He]; cbn; [by rewrite Id_eqb_refl|].
    destruct (replace_first _ set l); cbn in *; by rewrite (proj2 (Id_eqb_neq _ _) He).
  - induction l as [|s l IH]; cbn; [by rewrite (proj2 (Id_eqb_neq _ _) Hne)|].
    destruct (Id_eqb_spec (set_id s) (set_id set)) as [He|He]; cbn.
    + by rewrite He, (proj2 (Id_eqb_neq _ _) Hne).
    + destruct (replace_first _ set l); cbn in *; by rewrite IH.
Qed.

Lemma sets_table_size l : NoDup (set_id <$> l) -> size (sets_table l) = length l.
Proof.
  induction l as [|s l IH] using rev_ind; [done|]. rewrite fmap_app, length_app.
  intros Hn. apply list.NoDup_app in Hn as (Hl & Hs & _).
  pose proof (sets_table_put s l) as Hput.
  assert (Hno : set_id s ∉ set_id <$> l).
  { intros Hin. apply (Hs _ Hin). by left. }
  rewrite (proj2 (replace_first_None set_id s l)) in Hput by exact Hno.
  rewrite Hput, map_size_insert_None, IH; [cbn; lia|exact Hl|].
  rewrite sets_table_lookup. destruct (List.find _ l) as [s0|] eqn:E; [|done].
  apply List.find_some in E as [Hin He]. apply Id_eqb_eq in He. exfalso.
  apply Hno. rewrite <- He. by apply list_elem_of_fmap_2, list_elem_of_In.
Qed.
