(* ===== verification/FabricTheorems.v ===== *)
(** * Theorems of the promotion coordinator

    The coordinator refines its abstract specification; one owner, commitment
    only by verified effect, durable outcomes, monotone generations, what an
    authorization and a restart guarantee, and the behaviours of the source that
    contradict its intent. *)

From S2P Require Import Prelude.
From S2P Require Import Ids.
From S2P Require Import Limits.
From S2P Require Import Status.
From S2P Require Import Checked.
From S2P Require Import Authority.
From S2P Require Import Model.
From S2P Require Import Decision.
From S2P Require Import Records.
From S2P Require Import Selector.
From S2P Require Import GateProps.
From S2P Require Import SelectorProps.
From S2P Require Import SelectorTheorems.
From S2P Require Import Bytes.
From S2P Require Import Canonical.
From S2P Require Import Wire.
From S2P Require Import WireProps.
From S2P Require Import Store.
From S2P Require Import StoreProps.
From S2P Require Import StateProps.
From S2P Require Import SnapshotProps.
From S2P Require Import LoadProps.
From S2P Require Import Fabric.
From S2P Require Import Coordinator.
From S2P Require Import FabricProps.

(** ** A sample run *)

(** The authority in force after the sample setup. *)
Definition live_vector : AuthorityVector := sample_vector <| av_epoch := Id_from_value 1 |>.

Definition live_evidence (path health seq : Z) : PathEvidence :=
  (sample_evidence path health) <| ev_observed_under := live_vector |>
    <| ev_observation_seq := seq |>.

Definition live_candidate (path health : Z) : AlternateCandidate :=
  mkAlternateCandidate (Id_from_value path) 0 false (live_evidence path health 1) live_vector.

Definition live_set : AlternateSet :=
  mkAlternateSet (Id_from_value 1) (Id_from_value 1) SetCompleteness_complete
    [live_candidate 11 500; live_candidate 13 700].

Definition live_effect (path seq : Z) : EffectEvidence :=
  EffectEvidence_default <| eff_id := Id_from_value 21 |> <| eff_path := Id_from_value path |>
    <| eff_observation_seq := seq |> <| eff_observed_under := live_vector |> <| eff_effect_verified := true |>.

Definition blank_fabric : Fabric :=
  Fabric_loaded (FabricOptions_default "state")
    (mkStore None None false false false false 0 0 RecoveryReport_default) DurableState_default.

(** A coordinator opened over the given files. *)
Definition opened (env : Env) (boot : Z) (journal snapshot : option (list byte)) : Result Fabric :=
  Fabric_open env (FabricOptions_default "state") healthy_open healthy_load
    (mkEntropy boot 7 8 9) journal snapshot.

Definition from_result (r : Result Fabric) : Fabric :=
  match r with Ok f => f | Err _ => blank_fabric end.

(** The results and the final object of a sequence of commands. *)
Fixpoint run (env : Env) (cs : list Command) (f : Fabric) : list (Result unit) * Fabric :=
  match cs with
  | [] => ([], f)
  | c :: cs' =>
      let (r, f1) := execute env c f in
      let (rs, f2) := run env cs' f1 in (r :: rs, f2)
  end.

Definition setup : list Command :=
  [CApplyPolicy sample_policy; CApplyObligations sample_obligations; CSetAuthority live_vector;
   CApplyAlternateSet live_set].

Definition begin_sample : Command :=
  CBeginPromotion (Id_from_value 100) IncumbentCondition_failed (Id_from_value 1).

(** Opened on an empty directory and set up. *)
Definition ready_fabric : Fabric := (run healthy_env setup (from_result (opened healthy_env 6 None None))).2.
(** With an attempt in flight. *)
Definition granted_fabric : Fabric := (run healthy_env [begin_sample] ready_fabric).2.

(** ** Reachable coordinators *)

(** Any sequence of commands with arguments of their types, each under its own
    platform behaviour, while attempt identities are left. *)
Definition evolves : Fabric -> Fabric -> Prop :=
  rtc (fun f f' => exists env c, ids_left f /\ command_wf c /\ f' = (execute env c f).2).

(** Opened over whatever files, then driven by commands. *)
Definition reachable (f : Fabric) : Prop :=
  exists env options open_io load_io entropy journal snapshot f0,
    Fabric_open env options open_io load_io entropy journal snapshot = Ok f0 /\ evolves f0 f.

Lemma evolves_steps f f' : evolves f f' -> keyed (view f) -> steps (fun _ => True) (view f) (view f').
Proof.
  intros H. induction H as [|f f1 f2 (env & c & Hleft & _ & ->) _ IH]; intros Hk; [apply steps_refl|].
  pose proof (execute_refines env c f Hk Hleft) as Hs.
  eapply steps_trans; [|apply IH; by eapply steps_keyed].
  clear -Hs. unfold vrun in Hs. induction Hs as [|a b d (l & _ & Ht) _ IHs]; [apply steps_refl|].
  eapply rtc_l; [|exact IHs]. by exists l.
Qed.

(** What a successful open leaves. *)
Lemma Fabric_open_inv env options open_io load_io entropy journal snapshot f :
  Fabric_open env options open_io load_io entropy journal snapshot = Ok f ->
  exists store0 store state,
    Store_open open_io false true journal snapshot = Ok store0 /\
    Store_load load_io store0 = (Ok state, store) /\
    Fabric_start env entropy (Fabric_loaded options store state) = (Ok tt, f).
Proof.
  unfold Fabric_open. destruct (_ || _); [done|].
  destruct (Store_open _ _ _ _ _) as [s0|]; [|done].
  destruct (Store_load load_io s0) as [[state|st] s] eqn:Hl; [|done].
  destruct (Fabric_start env entropy _) as [[[]|st] f1] eqn:Hs; [|done].
  intros [= ->]. exists s0, s, state.
  split; [reflexivity|]. split; [exact Hl|]. exact Hs.
Qed.

(** Restarting leaves the documents in force alone. *)
Lemma restart_policy v v' : steps allowed_restart v v' -> v_policy v' = v_policy v.
Proof.
  intros Hs. induction Hs as [|v v1 v' (l & Hl & Ht) _ IH]; [done|]. rewrite IH.
  by destruct Ht.
Qed.

Lemma open_inv env options open_io load_io entropy journal snapshot f :
  Fabric_open env options open_io load_io entropy journal snapshot = Ok f -> Inv (view f).
Proof.
  intros H. apply Fabric_open_inv in H as (s0 & store & state & _ & Hl & Hs).
  apply Store_load_wf in Hl.
  destruct (start_run env entropy _ (loaded_keyed options store state)) as [Hrun Hdone].
  unfold vrun in Hrun. rewrite Hs in Hrun, Hdone. cbn [fst snd Result_ok] in Hrun, Hdone.
  destruct (Hdone eq_refl) as (Hend & Hact & _ & _). constructor.
  - eapply steps_keyed; [exact Hrun|]. apply loaded_keyed.
  - intros id r Hr Hg. apply Hend in Hr. apply grant_not_terminal in Hg. congruence.
  - intros p Hp. rewrite (restart_policy _ _ Hrun) in Hp. cbn in Hp.
    destruct Hl as [_ Hpol _ _ _ _ _ _ _ _ _ _]. destruct (ds_has_policy state); [|done].
    injection Hp as <-. by apply Hpol.
Qed.

Lemma evolves_inv f f' : evolves f f' -> Inv (view f) -> Inv (view f').
Proof.
  intros He HI. eapply steps_inv; [|exact HI]. apply evolves_steps; [done|]. by apply inv_keys.
Qed.

Lemma reachable_inv f : reachable f -> Inv (view f).
Proof.
  intros (env & o & oi & li & en & j & s & f0 & Ho & He). eapply evolves_inv; [exact He|].
  by eapply open_inv.
Qed.

(** The policy in force was installed by a command or loaded. *)
Lemma execute_policy env c f :
  keyed (view f) -> ids_left f ->
  v_policy (view (execute env c f).2) = v_policy (view f) \/
  exists p, c = CApplyPolicy p /\ v_policy (view (execute env c f).2) = Some p.
Proof.
  intros Hk Hleft. pose proof (execute_refines env c f Hk Hleft) as Hs. unfold vrun in Hs.
  revert Hs. generalize (view (execute env c f).2). generalize (view f). clear.
  intros v v' Hs. induction Hs as [|v v1 v' (l & Hl & Ht) _ IH]; [by left|].
  destruct IH as [IH|IH]; [|by right]. rewrite IH. destruct Ht; try (by left).
  right. by exists p.
Qed.

Definition policy_typed (f : Fabric) : Prop :=
  forall p, v_policy (view f) = Some p -> is_u32 (pol_search_limit p).

Lemma evolves_policy_typed f f' :
  evolves f f' -> keyed (view f) -> policy_typed f -> policy_typed f'.
Proof.
  intros H. induction H as [|f f1 f2 (env & c & Hleft & Hwf & ->) _ IH]; [done|].
  intros Hk Hp. apply IH.
  - eapply steps_keyed; [by apply execute_refines|done].
  - intros p Hpp. destruct (execute_policy env c f Hk Hleft) as [He|(p' & -> & He)];
      rewrite He in Hpp; [by apply Hp|].
    injection Hpp as ->. apply Hwf.
Qed.

Lemma reachable_policy_typed f : reachable f -> policy_typed f.
Proof.
  intros (env & o & oi & li & en & j & s & f0 & Ho & He). pose proof (open_inv _ _ _ _ _ _ _ _ Ho) as HI.
  eapply evolves_policy_typed; [exact He|by apply inv_keys|].
  apply Fabric_open_inv in Ho as (s0 & store & state & _ & Hl & Hs). apply Store_load_wf in Hl.
  destruct (start_run env en _ (loaded_keyed o store state)) as [Hrun _].
  unfold vrun in Hrun. rewrite Hs in Hrun. cbn [snd] in Hrun.
  intros p Hp. rewrite (restart_policy _ _ Hrun) in Hp. cbn in Hp.
  apply tw_policy in Hl. destruct (ds_has_policy state); [|done]. injection Hp as <-. apply Hl.
Qed.

(** ** Refinement *)

(** C1: The coordinator implements its abstract specification.  Whatever the
    platform does to its files, every command, successful, refused or broken off
    by a storage failure, moves the authority-bearing state only along
    transitions its kind of command is permitted. *)
Theorem coordinator_refines env c f :
  keyed (view f) -> ids_left f ->
  steps (allowed c) (view f) (view (execute env c f).2).
Proof. apply execute_refines. Qed.

(** ** One owner *)

(** C3: At most one promotion attempt may complete a transition.  In every
    coordinator reachable from any files by any commands under any storage
    failures, an attempt that can still commit is the one that owns the
    transition, so no two can. *)
Theorem single_owner f id1 id2 r1 r2 :
  reachable f ->
  fb_attempts f !! id1 = Some r1 -> is_grant_state (at_state r1) = true ->
  fb_attempts f !! id2 = Some r2 -> is_grant_state (at_state r2) = true ->
  id1 = fb_active_attempt f /\ id2 = id1 /\ at_id r1 = id1 /\ Id_valid id1 = true.
Proof.
  intros [Hk Ho _]%reachable_inv H1 G1 H2 G2.
  destruct (Ho id1 r1 H1 G1) as [-> Hv]. destruct (Ho id2 r2 H2 G2) as [-> _].
  split; [done|]. split; [done|]. split; [by apply Hk|done].
Qed.

(** ** Commitment *)

(** C4: A promotion becomes committed in one of two ways: a verified effect
    bound to the current authority is recorded for the attempt that owns the
    transition, on the path the attempt selected and newer than any observation
    of it; or a committed promotion is reverted to a path proven usable while
    nobody owns the transition. *)
Theorem commits_need_evidence env c f id :
  reachable f -> ids_left f ->
  ~ committed_at (view f) id -> committed_at (view (execute env c f).2) id ->
  (exists e r, c = CRecordEffect id e /\ Completes f id e r) \/
  (exists committed e, c = CRevert committed e /\ Reverts f committed e).
Proof.
  intros Hf Hleft Hn Hc. apply reachable_inv, inv_keys in Hf.
  pose proof (execute_refines env c f Hf Hleft) as Hs.
  destruct (steps_commits _ _ _ id Hs Hn Hc) as (a & b & l & _ & _ & Hl & _ & [[e ->]|(k & e & ->)]);
    cbn [allowed] in Hl; subst c.
  - left. exists e. destruct (record_effect_cases env id e f) as [Hv|[r Hr]]; [|by exists r].
    exfalso. apply Hn. cbn [execute] in Hc. by rewrite Hv in Hc.
  - right. exists k, e. split; [done|]. destruct (revert_cases env k e f) as [Hv|Hr]; [|done].
    exfalso. apply Hn. cbn [execute] in Hc. unfold forget in Hc. rewrite bind_result in Hc.
    unfold op_return in Hc. destruct (revert env k e f) as [[d|st] f1]; cbn [snd] in Hv, Hc; by rewrite Hv in Hc.
Qed.

(** ** What an authorization means *)

(** C6: A grant is admitted.  When the coordinator authorizes a promotion nobody
    owned the transition; policy, obligations and the requested set are
    installed; the granted path is that of a candidate of the set that meets
    every obligation and the policy under the authority in force, and is not
    fenced; the grant is bound to that authority; and the authorized attempt
    now owns the transition. *)
Theorem grant_is_admitted env i co s f a f' :
  reachable f -> ids_left f ->
  begin_promotion env i co s f = (Ok a, f') -> pa_authorized a = true ->
  owned f = false /\
  (exists set policy obligations c,
     fb_sets f !! s = Some set /\ v_policy (view f) = Some policy /\
     v_obligations (view f) = Some obligations /\ c ∈ set_candidates set /\
     cand_path c = gr_path (pa_grant a) /\ fb_path_fences f !! cand_path c = None /\
     Promotable policy obligations (fenced_path_ids f) i (ds_authority (fb_state f)) c) /\
  gr_basis (pa_grant a) = ds_authority (fb_state f) /\
  fb_active_attempt f' = gr_attempt (pa_grant a) /\
  exists r, fb_attempts f' !! gr_attempt (pa_grant a) = Some r /\
    at_state r = AttemptState_authorized /\ at_selected r = gr_path (pa_grant a) /\
    at_incumbent r = i /\ at_basis r = ds_authority (fb_state f).
Proof.
  intros Hf Hleft Hb Ha. apply reachable_policy_typed in Hf.
  destruct (begin_promotion_result _ _ _ _ _ _ _ Hb Ha Hleft)
    as (Hown & _ & (out & Hd & Ho & Hsel) & Hgp & Hgb & Hac & r & Hr & Hrs & Hrp & Hri & _ & Hrb).
  split; [exact Hown|]. split; [|eauto 10].
  destruct Hd as (set & policy & obl & did & aid & prov & Hset & Hpol & Hobl & He).
  apply selects_promotable in He as (set' & policy' & obl' & c & Ha' & Hc & Hp & _ & Hpr & _);
    [|intros p [= <-]; by apply Hf|exact Ho].
  destruct Ha' as [[= <-] [= <-] [= <-] _ _ _ _ _ _ _ _].
  exists set, policy, obl, c. split; [exact Hset|]. do 3 (split; [done|]).
  split; [congruence|]. split; [|exact Hpr].
  destruct (fb_path_fences f !! cand_path c) as [w|] eqn:Hw; [|done].
  exfalso. apply (pr_not_fenced _ _ _ _ _ _ Hpr).
  apply list_elem_of_fmap. exists (cand_path c, w). split; [done|].
  by apply elem_of_ordered_entries.
Qed.

(** ** Histories *)

(** C21: History is settled.  In a coordinator whose attempt counter covers its
    table, as it does where no restart has replayed a journal with attempts, the
    counter keeps covering it; and once an attempt has ended, no sequence of commands
    alters its record or brings it back: it stays exactly as it is until the bounded
    table forgets it, and an identity once handed out is never handed out again. *)
Theorem history_settled f f' :
  evolves f f' -> keyed (view f) -> fresh (view f) -> fresh (view f') /\ settled (view f) (view f').
Proof. intros He Hk. apply (steps_settled (fun _ => True)). by apply evolves_steps. Qed.

(** C22: Nothing moves backwards.  Along any run the coordinator's epoch,
    topology and path-authority generations never decrease; a policy, an
    obligation document or an alternate set is only replaced by one of a higher
    generation; an observation only by a newer one; and a fence is never lifted
    or given another reason. *)
Theorem run_forward f f' : reachable f -> evolves f f' -> forward (view f) (view f').
Proof.
  intros Hf He. apply (steps_forward (fun _ => True)), evolves_steps; [done|].
  by apply inv_keys, reachable_inv.
Qed.

(** ** Restart *)

(** What a restart makes of an attempt of the previous incarnation. *)
Definition interrupted_from (v v' : View) : Prop :=
  forall id, v_attempts v' !! id = v_attempts v !! id \/
    exists r r', v_attempts v !! id = Some r /\ is_terminal_state (at_state r) = false /\
      v_attempts v' !! id = Some r' /\ same_scope r r' /\ at_state r' = AttemptState_interrupted.

Lemma restart_attempts v v' :
  steps allowed_restart v v' -> v_fences v' = v_fences v /\ interrupted_from v v'.
Proof.
  intros Hs. induction Hs as [|v v1 v' (l & Hl & Ht) _ [IHf IH]].
  { split; [done|]. intros id. by left. }
  assert (Hsame : v_attempts v1 = v_attempts v /\ v_fences v1 = v_fences v \/
    exists id r r', v_attempts v !! id = Some r /\ is_terminal_state (at_state r) = false /\
      same_scope r r' /\ at_state r' = AttemptState_interrupted /\
      v1 = v <| v_attempts ::= <[id := r']> |>).
  { destruct Ht; cbn in Hl; try done; try (by left). right. subst s. eauto 10. }
  destruct Hsame as [[Ha Hf]|(id & r & r' & Hr & Hnt & Hsc & Hst & ->)].
  { rewrite IHf, Hf. split; [done|]. intros id. specialize (IH id). by rewrite Ha in IH. }
  split; [by rewrite IHf|]. intros id'. specialize (IH id'). cbn [v_attempts update_field] in IH.
  destruct (decide (id = id')) as [<-|Hne].
  - rewrite lookup_insert_eq in IH. right. exists r, r'.
    destruct IH as [->|(r1 & r2 & [= <-] & Hbad & _)]; [done|]. by rewrite Hst in Hbad.
  - by rewrite lookup_insert_ne in IH by done.
Qed.

(** C16: Nothing survives a restart in flight.  A coordinator that opens
    successfully over any files has incremented the epoch it found there and
    taken the new boot identity; nobody owns the transition and there is no
    grant; every attempt of the previous incarnation that had not ended is now
    interrupted with its scope intact, every other attempt and every fence is as
    it was; and authority observed under the previous epoch is no longer
    current. *)
Theorem restart_interrupts env options open_io load_io entropy journal snapshot f :
  Fabric_open env options open_io load_io entropy journal snapshot = Ok f ->
  exists store0 store state,
    Store_open open_io false true journal snapshot = Ok store0 /\
    Store_load load_io store0 = (Ok state, store) /\
    let before := Fabric_loaded options store state in
    av_epoch (Fabric_authority f) = Id_from_value (Id_value (av_epoch (ds_authority state)) + 1) /\
    av_boot (Fabric_authority f) = Id_from_value (en_boot entropy) /\
    fb_active_attempt f = Id_absent /\ fb_grants f = ∅ /\ Fabric_active_attempts f = [] /\
    fb_path_fences f = fb_path_fences before /\ interrupted_from (view before) (view f) /\
    forall v, Id_value (av_epoch v) <= Id_value (av_epoch (ds_authority state)) ->
      cmp_overall (classify v (Fabric_authority f)) <> AuthorityClass_current.
Proof.
  intros H. apply Fabric_open_inv in H as (s0 & store & state & Ho & Hl & Hs).
  exists s0, store, state. split; [exact Ho|]. split; [exact Hl|]. cbv zeta.
  destruct (start_run env entropy _ (loaded_keyed options store state)) as [Hrun Hdone].
  unfold vrun in Hrun. rewrite Hs in Hrun, Hdone. cbn [fst snd Result_ok] in Hrun, Hdone.
  destruct (Hdone eq_refl) as (Hend & Hact & Hgr & Hau). apply restart_attempts in Hrun as [Hf Hi].
  assert (Hep : av_epoch (Fabric_authority f)
                = Id_from_value (Id_value (av_epoch (ds_authority state)) + 1))
    by exact (f_equal av_epoch Hau).
  split; [exact Hep|]. split; [exact (f_equal av_boot Hau)|]. do 2 (split; [done|]). split.
  - unfold Fabric_active_attempts. rewrite List_filter_none; [done|].
    intros [id r] Hin. apply attempt_entries_lookup, Hend in Hin. cbn. by destruct (at_state r).
  - split; [exact Hf|]. split; [exact Hi|]. intros v Hv Hc.
    apply classify_current in Hc as [-> _]. rewrite Hep in Hv. cbn in Hv. lia.
Qed.

(** ** Fencing *)

(** C30: Fencing a path revokes it.  When [fence_path] reports success the path
    is fenced, and if it was not fenced before, no attempt in flight selects it
    any more. *)
Theorem fence_path_revokes env p r f f' :
  reachable f -> fence_path env p r f = (Ok tt, f') ->
  is_Some (fb_path_fences f' !! p) /\
  (fb_path_fences f !! p = None -> forall id a, fb_attempts f' !! id = Some a ->
     is_active_state (at_state a) = true -> at_selected a <> p).
Proof. intros Hf. apply fence_path_result. by apply inv_keys, reachable_inv. Qed.

(** ** Late completions *)

(** The answer to a completion of an attempt that has ended or lost the
    transition, by the state the attempt is in. *)
Definition late_completion (s : AttemptState) : Code * Reason :=
  match s with
  | AttemptState_committed => (Code_refused, Reason_attempt_already_committed)
  | AttemptState_fenced => (Code_fenced, Reason_attempt_fenced)
  | AttemptState_refused | AttemptState_abandoned | AttemptState_rolled_back =>
      (Code_refused, Reason_attempt_terminal)
  | _ => (Code_superseded, Reason_attempt_superseded)
  end.

(** Refused with a code and a reason, nothing but the statistics changed. *)
Definition only_refused (why : Code * Reason) (f : Fabric) (result : Result unit * Fabric) : Prop :=
  exists st stats, result = (Err st, f <| fb_stats := stats |>) /\
    (status_code st, status_reason st) = why.

Lemma only_refused_fail c w d f : only_refused (c, w) f (fail_with c w d f).
Proof.
  exists (mkStatus c w d), (fb_stats f). split; [|done]. unfold fail_with, op_fail. f_equal.
  by destruct f.
Qed.

Lemma only_refused_stale c w d f : only_refused (c, w) f ((set! reject_stale in fail_with c w d) f).
Proof. by eexists (mkStatus c w d), _. Qed.

(** C29: A late completion changes nothing.  The effect of an attempt that has
    ended, or that does not own the transition, is refused with the code its
    state determines whatever the effect says, and neither the journal nor any
    other part of the coordinator changes, a statistics counter apart. *)
Theorem late_completion_refused env id e f r :
  fb_attempts f !! id = Some r ->
  is_terminal_state (at_state r) = true \/ fb_active_attempt f <> id ->
  only_refused (late_completion (at_state r)) f (record_effect env id e f).
Proof.
  intros Hr Hlate. unfold record_effect, op_read, find_attempt. rewrite Hr.
  assert (Hown : is_terminal_state (at_state r) = false -> Id_eqb (fb_active_attempt f) id = false).
  { intros Ht. destruct Hlate as [Hl|Hl]; [congruence|]. by apply Id_eqb_neq. }
  destruct (at_state r); cbn [is_terminal_state] in Hown |- *;
    try (rewrite (Hown eq_refl)); first [apply only_refused_fail|apply only_refused_stale].
Qed.

(** ** The theorems at the sample run *)

Definition sample_attempt : AttemptId := Id_from_value 1.
Definition complete_sample : Command := CRecordEffect sample_attempt (live_effect 13 9).
(** With the attempt committed. *)
Definition committed_fabric : Fabric := (run healthy_env [complete_sample] granted_fabric).2.

Definition ids_leftb (f : Fabric) : bool :=
  (0 <=? ds_attempt_sequence (fb_state f)) && (ds_attempt_sequence (fb_state f) <? UINT64_MAX - 1).

Lemma ids_leftb_spec f : ids_leftb f = true -> ids_left f.
Proof. unfold ids_leftb, ids_left. intros [?%Z.leb_le ?%Z.ltb_lt]%andb_true_iff. lia. Qed.

(** Attempt identities are left at each command of the run. *)
Fixpoint run_ids_left (env : Env) (cs : list Command) (f : Fabric) : bool :=
  match cs with
  | [] => true
  | c :: cs' => ids_leftb f && run_ids_left env cs' (execute env c f).2
  end.

Lemma run_evolves env cs f :
  run_ids_left env cs f = true -> Forall command_wf cs -> evolves f (run env cs f).2.
Proof.
  revert f. induction cs as [|c cs IH]; intros f Hl Hwf; [apply rtc_refl|].
  apply andb_true_iff in Hl as [Hc Hl]. apply List.Forall_cons_iff in Hwf as [Hcw Hwf].
  specialize (IH _ Hl Hwf). cbn [run]. destruct (execute env c f) as [r f1] eqn:He.
  cbn [snd] in IH. destruct (run env cs f1) as [rs f2]. cbn [snd] in *.
  eapply rtc_l; [|exact IH]. exists env, c. split; [by apply ids_leftb_spec|].
  split; [done|]. by rewrite He.
Qed.

Lemma setup_wf : Forall command_wf (setup ++ [begin_sample; complete_sample]).
Proof.
  unfold setup. cbn [app]. repeat (apply List.Forall_cons; [|]); try apply List.Forall_nil; cbn [command_wf].
  - repeat split; vm_compute; congruence.
  - repeat split; vm_compute; congruence.
  - repeat split; vm_compute; congruence.
  - split; [vm_compute; split; congruence|]. split; [vm_compute; split; congruence|].
    repeat apply List.Forall_cons; try apply List.Forall_nil; repeat split; vm_compute; congruence.
  - repeat split; vm_compute; congruence.
  - repeat split; vm_compute; congruence.
Qed.

Lemma opened_run_reachable env boot journal snapshot cs :
  Result_ok (opened env boot journal snapshot) = true ->
  run_ids_left env cs (from_result (opened env boot journal snapshot)) = true ->
  Forall command_wf cs ->
  reachable (run env cs (from_result (opened env boot journal snapshot))).2.
Proof.
  intros Ho Hl Hwf. remember (opened env boot journal snapshot) as o eqn:He.
  destruct o as [f|st]; [|discriminate]. cbn [from_result] in *.
  exists env, (FabricOptions_default "state"), healthy_open, healthy_load,
    (mkEntropy boot 7 8 9), journal, snapshot, f.
  split; [symmetry; exact He|]. by apply run_evolves.
Qed.

Lemma ready_reachable : reachable ready_fabric.
Proof.
  apply opened_run_reachable; [vm_compute; reflexivity..|].
  pose proof setup_wf as H. apply Forall_app in H as [H _]. exact H.
Qed.

Lemma begun : evolves ready_fabric granted_fabric.
Proof.
  apply run_evolves; [vm_compute; reflexivity|].
  pose proof setup_wf as H. apply Forall_app in H as [_ H]. apply List.Forall_cons_iff in H as [H _].
  apply List.Forall_cons; [exact H|apply List.Forall_nil].
Qed.

Lemma granted_reachable : reachable granted_fabric.
Proof.
  destruct ready_reachable as (e & o & oi & li & en & j & s & f0 & Ho & He).
  exists e, o, oi, li, en, j, s, f0. split; [exact Ho|].
  unfold evolves in *. transitivity ready_fabric; [exact He|exact begun].
Qed.

Lemma ready_ids_left : ids_left ready_fabric.
Proof. apply ids_leftb_spec. vm_compute. reflexivity. Qed.
Lemma granted_ids_left : ids_left granted_fabric.
Proof. apply ids_leftb_spec. vm_compute. reflexivity. Qed.

Lemma coordinator_refines_witness :
  steps (allowed complete_sample) (view granted_fabric)
    (view (execute healthy_env complete_sample granted_fabric).2).
Proof.
  apply (coordinator_refines healthy_env complete_sample granted_fabric).
  - apply inv_keys, reachable_inv, granted_reachable.
  - apply granted_ids_left.
Defined.

(** The attempt the sample run has in flight. *)
Definition sample_record : AttemptRecord :=
  default AttemptRecord_default (fb_attempts granted_fabric !! sample_attempt).

Lemma single_owner_witness : sample_attempt = fb_active_attempt granted_fabric.
Proof.
  apply (single_owner granted_fabric sample_attempt sample_attempt sample_record sample_record
    granted_reachable); vm_compute; reflexivity.
Defined.

(** Deciding the state of a recorded attempt by evaluation. *)
Lemma committed_bool f id :
  bool_decide (committed_at (view f) id) = true -> committed_at (view f) id.
Proof. apply bool_decide_eq_true. Qed.
Lemma uncommitted_bool f id :
  bool_decide (committed_at (view f) id) = false -> ~ committed_at (view f) id.
Proof. apply bool_decide_eq_false. Qed.

Lemma commits_need_evidence_witness :
  (exists e r, complete_sample = CRecordEffect sample_attempt e /\
     Completes granted_fabric sample_attempt e r) \/
  (exists committed e, complete_sample = CRevert committed e /\
     Reverts granted_fabric committed e).
Proof.
  apply (commits_need_evidence healthy_env complete_sample granted_fabric sample_attempt
    granted_reachable granted_ids_left).
  - apply uncommitted_bool. vm_compute. reflexivity.
  - apply committed_bool. vm_compute. reflexivity.
Defined.

Definition sample_begun : Result PromotionAuthorization * Fabric :=
  begin_promotion healthy_env (Id_from_value 100) IncumbentCondition_failed (Id_from_value 1)
    ready_fabric.
Definition sample_authorization : PromotionAuthorization :=
  match sample_begun.1 with
  | Ok a => a
  | Err _ => refusal_of PromotionDecision_default
  end.

Lemma grant_is_admitted_witness : owned ready_fabric = false.
Proof.
  apply (grant_is_admitted healthy_env (Id_from_value 100) IncumbentCondition_failed
    (Id_from_value 1) ready_fabric sample_authorization sample_begun.2
    ready_reachable ready_ids_left); vm_compute; reflexivity.
Defined.

Lemma fresh_empty f : fb_attempts f = ∅ -> fresh (view f).
Proof.
  intros Hn id [r Hr]. change (fb_attempts f !! id = Some r) in Hr. by rewrite Hn in Hr.
Qed.
Lemma ready_fresh : fresh (view ready_fabric).
Proof. apply fresh_empty. vm_compute. reflexivity. Qed.
Lemma ready_keyed : keyed (view ready_fabric).
Proof. apply inv_keys, reachable_inv, ready_reachable. Qed.

Lemma history_settled_witness : settled (view ready_fabric) (view granted_fabric).
Proof. exact (proj2 (history_settled ready_fabric granted_fabric begun ready_keyed ready_fresh)). Defined.

Lemma run_forward_witness : forward (view ready_fabric) (view granted_fabric).
Proof. apply (run_forward ready_fabric granted_fabric ready_reachable begun). Defined.

(** The coordinator of the sample run stops and another opens over its files. *)
Definition reopened (boot : Z) (f : Fabric) : Result Fabric :=
  opened healthy_env boot (s_journal_file (fb_store f)) (s_snapshot_file (fb_store f)).

Lemma restart_interrupts_witness :
  exists state, av_epoch (Fabric_authority (from_result (reopened 66 granted_fabric)))
    = Id_from_value (Id_value (av_epoch (ds_authority state)) + 1).
Proof.
  destruct (restart_interrupts healthy_env (FabricOptions_default "state") healthy_open healthy_load
    (mkEntropy 66 7 8 9) (s_journal_file (fb_store granted_fabric))
    (s_snapshot_file (fb_store granted_fabric)) (from_result (reopened 66 granted_fabric)))
    as (s0 & s & state & _ & _ & He & _).
  - vm_compute. reflexivity.
  - exists state. exact He.
Defined.

Lemma fence_path_revokes_witness :
  is_Some (fb_path_fences (fence_path healthy_env (Id_from_value 13) Reason_path_fenced
             granted_fabric).2 !! (Id_from_value 13 : PathId)).
Proof.
  apply (fence_path_revokes healthy_env (Id_from_value 13) Reason_path_fenced granted_fabric
    (fence_path healthy_env (Id_from_value 13) Reason_path_fenced granted_fabric).2
    granted_reachable).
  vm_compute. reflexivity.
Defined.

Definition committed_record : AttemptRecord :=
  default AttemptRecord_default (fb_attempts committed_fabric !! sample_attempt).

Lemma late_completion_refused_witness :
  only_refused (late_completion (at_state committed_record)) committed_fabric
    (record_effect healthy_env sample_attempt (live_effect 13 10) committed_fabric).
Proof.
  apply (late_completion_refused healthy_env sample_attempt (live_effect 13 10) committed_fabric
    committed_record).
  - vm_compute. reflexivity.
  - left. vm_compute. reflexivity.
Defined.
