(* ===== verification/DurableTheorems.v ===== *)
(** * Acknowledged means durable

    Every operation the coordinator acknowledges leaves files that hold what
    memory holds, so that loading them, after a crash at any later point and even
    in the middle of the next append, gives the same coordinator back. *)

From S2P Require Import Prelude.
From S2P Require Import Ids.
From S2P Require Import Limits.
From S2P Require Import Status.
From S2P Require Import Checked.
From S2P Require Import Authority.
From S2P Require Import Model.
From S2P Require Import Decision.
From S2P Require Import Records.
From S2P Require Import Selector.
From S2P Require Import GateProps.
From S2P Require Import SelectorProps.
From S2P Require Import SelectorTheorems.
From S2P Require Import Bytes.
From S2P Require Import Canonical.
From S2P Require Import Wire.
From S2P Require Import WireProps.
From S2P Require Import Store.
From S2P Require Import StoreProps.
From S2P Require Import StateProps.
From S2P Require Import SnapshotProps.
From S2P Require Import LoadProps.
From S2P Require Import TableProps.
From S2P Require Import StoreTheorems.
From S2P Require Import Fabric.
From S2P Require Import Coordinator.
From S2P Require Import FabricProps.
From S2P Require Import DurableProps.
From S2P Require Import FabricTheorems.

(** The goals left by a refusal or an answer that changes nothing. *)
Ltac quiet :=
  lazymatch goal with
  | |- trun (fail_with _ _ _) _ => apply trun_fail
  | |- trun (op_fail _) _ => apply trun_op_fail
  | |- trun (op_return _) _ => apply trun_return; assumption
  | |- trun (op_bind (op_modify _) _) _ => apply trun_set; quiet
  | |- trun (op_modify _) _ => apply trun_modify; assumption
  | |- trun (if ?b then _ else _) _ => destruct b; quiet
  end.

Lemma Id_wf_absent {T} : Id_wf (@Id_absent T).
Proof. unfold Id_wf. cbn. unfold_ints. lia. Qed.
Lemma Id_wf_value {T} n : is_u64 n -> Id_wf (@Id_from_value T n).
Proof. done. Qed.

(** ** Well-formed records *)

Lemma lineage_of_wf dec att outcome inc sel set why f :
  Tracked f -> Id_wf dec -> Id_wf att -> Id_wf inc -> Id_wf sel -> Id_wf set ->
  lineage_wf (lineage_of dec att outcome inc sel set why f).
Proof.
  intros [d HT] H1 H2 H3 H4 H5. destruct (Tracks_who f d HT) as [He Hb].
  pose proof (Tracks_authority f d HT). pose proof (Tracks_last f d HT).
  unfold lineage_wf. cbn. tauto.
Qed.

Lemma decision_id_wf f : Tracked f -> Id_wf (@Id_from_value DecisionTag (ds_decision_sequence (fb_state f))).
Proof. intros [d HT]. apply (Tracks_counters f d HT). Qed.

(** ** Installing documents *)

(** Journaling a document changes neither the attempts, the sets nor the fences. *)
Lemma Tracked_document f d g d' :
  Tracks f d -> Represents (fb_store g) d' -> tables_wf d' -> basis_consistent d' ->
  same_image (fb_state g) d' -> counters_wf (fb_state g) ->
  ds_sets d' = ds_sets d -> ds_fences d' = ds_fences d -> ds_attempts d' = ds_attempts d ->
  ds_attempt_sequence (fb_state g) = ds_attempt_sequence (fb_state f) ->
  fb_sets g = fb_sets f -> fb_path_fences g = fb_path_fences f -> fb_attempts g = fb_attempts f ->
  fb_options g = fb_options f -> Id_wf (fi_epoch (fb_identity g)) /\ Id_wf (fi_boot (fb_identity g)) ->
  Tracked g.
Proof.
  intros [_ _ _ _ _ Hsets Hfen Hatt Hlim _] H1 H2 H3 H4 H5 E1 E2 E3 E4 E5 E6 E7 E8 Hwho.
  exists d'. constructor; rewrite ?E1, ?E2, ?E3, ?E4, ?E5, ?E6, ?E7, ?E8; done.
Qed.

Lemma trun_apply_policy env p f : Tracked f -> policy_fits p -> trun (apply_policy env p) f.
Proof.
  intros HT Hp. unfold apply_policy.
  destruct (Status_ok (FailoverPolicy_validate p)) eqn:Hok; cbn [negb]; [|quiet].
  apply trun_read. cbv zeta. destruct (_ && Id_ltb _ _); [quiet|]. destruct (_ && Id_eqb _ _); [quiet|].
  destruct (bool_decide _); [quiet|]. destruct HT as [d HT].
  assert (Hw : policy_wf p) by (unfold policy_wf; unfold policy_fits in Hp; tauto).
  intros y g H. apply bind_Ok in H as ([] & f1 & H1 & H).
  destruct (append_done _ _ _ _ _ _ _ H1 (ig_files _ _ _ _ _ _ _ _ HT) (ig_wf _ _ _ _ _ _ _ _ HT)
    (replays_policy p d Hw)) as (st & stats & Hrep & Hwf & ->).
  revert y g H. apply trun_set, trun_fence_then_compact.
  eapply (Tracked_document f d _ _ HT); [exact Hrep|exact Hwf| | |exact (Tracks_counters f d HT)
    |reflexivity..|exact (Tracks_who f d HT)].
  - destruct (ig_basis _ _ _ _ _ _ _ _ HT) as [_ Hb]. split; [reflexivity|]. exact Hb.
  - destruct (ig_same _ _ _ _ _ _ _ _ HT) as [E1 E2 E3 E4 E5 E6 E7 E8 E9 E10].
    constructor; try assumption; try reflexivity. cbn [ds_authority fb_state update_field]. rewrite E1. reflexivity.
Qed.

Lemma trun_apply_obligations env o f :
  Tracked f -> obligations_fit o -> trun (apply_obligations env o) f.
Proof.
  intros HT Ho. unfold apply_obligations.
  destruct (Status_ok (ServiceObligations_validate o)) eqn:Hok; cbn [negb]; [|quiet].
  apply trun_read. cbv zeta. destruct (_ && Id_ltb _ _); [quiet|]. destruct (_ && Id_eqb _ _); [quiet|].
  destruct (bool_decide _); [quiet|]. destruct HT as [d HT].
  assert (Hw : obligations_wf o) by (unfold obligations_wf; unfold obligations_fit in Ho; tauto).
  intros y g H. apply bind_Ok in H as ([] & f1 & H1 & H).
  destruct (append_done _ _ _ _ _ _ _ H1 (ig_files _ _ _ _ _ _ _ _ HT) (ig_wf _ _ _ _ _ _ _ _ HT)
    (replays_obligations o d Hw)) as (st & stats & Hrep & Hwf & ->).
  revert y g H. apply trun_set, trun_fence_then_compact.
  eapply (Tracked_document f d _ _ HT); [exact Hrep|exact Hwf| | |exact (Tracks_counters f d HT)
    |reflexivity..|exact (Tracks_who f d HT)].
  - destruct (ig_basis _ _ _ _ _ _ _ _ HT) as [Hb _]. split; [exact Hb|reflexivity].
  - destruct (ig_same _ _ _ _ _ _ _ _ HT) as [E1 E2 E3 E4 E5 E6 E7 E8 E9 E10].
    constructor; try assumption; try reflexivity. cbn [ds_authority fb_state update_field]. rewrite E1. reflexivity.
Qed.

Lemma trun_set_authority env a f : Tracked f -> authority_wf a -> trun (set_authority env a) f.
Proof.
  intros [d HT] Ha. unfold set_authority. apply trun_read. cbv zeta.
  destruct (_ || _); [quiet|]. destruct (Id_valid (av_epoch a) && _); [quiet|].
  destruct (Id_valid (av_boot a) && _); [quiet|]. destruct (_ && _); [apply trun_return; by exists d|].
  pose proof (Tracks_authority f d HT) as Hauth. pose proof (Tracks_counters f d HT) as Hcnt.
  pose proof (tw_restarts _ (ig_wf _ _ _ _ _ _ _ _ HT)) as Hres.
  rewrite (im_restarts _ _ (ig_same _ _ _ _ _ _ _ _ HT)) in Hres.
  apply trun_set, trun_read. cbv zeta. destruct (bool_decide _); [quiet|].
  set (f0 := f <| fb_state ::= _ |>).
  assert (Hw : epoch_wf (ds_authority (fb_state f0), ds_restart_count (fb_state f0),
    ds_attempt_sequence (fb_state f0), ds_fence_sequence (fb_state f0), ds_decision_sequence (fb_state f0))).
  { split; [|split; [exact Hres|]].
    - destruct Ha as (A1 & A2 & _). destruct Hauth as (_ & _ & A3). exact (conj A1 (conj A2 A3)).
    - destruct Hcnt as (C1 & C2 & C3 & _). exact (conj C1 (conj C2 C3)). }
  intros y g H. apply bind_Ok in H as ([] & f1 & H1 & H).
  destruct (append_done _ _ _ _ _ _ _ H1 (ig_files _ _ _ _ _ _ _ _ HT) (ig_wf _ _ _ _ _ _ _ _ HT)
    (replays_epoch _ _ _ _ _ d Hw)) as (st & stats & Hrep & Hwf & ->).
  revert y g H. apply trun_fence_then_compact.
  eapply (Tracked_document f d _ _ HT); [exact Hrep|exact Hwf| | |exact Hcnt
    |reflexivity..|exact (Tracks_who f d HT)].
  - pose proof (ig_basis _ _ _ _ _ _ _ _ HT) as Hb. unfold basis_consistent in *.
    rewrite (im_authority _ _ (ig_same _ _ _ _ _ _ _ _ HT)) in Hb. exact Hb.
  - destruct (ig_same _ _ _ _ _ _ _ _ HT) as [E1 E2 E3 E4 E5 E6 E7 E8 E9 E10].
    constructor; try assumption; reflexivity.
Qed.

Lemma wire_set_of_fits s : set_fits s -> Status_ok (AlternateSet_validate s) = true -> wire_set_wf s.
Proof.
  intros (H1 & H2 & H3) Hok. pose proof Hok as Hv. apply AlternateSet_validate_ok in Hv.
  destruct Hv as [_ _ Hsize Hcs _]. split; [exact H1|]. split; [exact H2|]. split; [|exact Hok].
  split; [exact Hsize|]. apply List.Forall_forall. intros c Hc.
  rewrite List.Forall_forall in H3, Hcs. specialize (H3 c Hc). specialize (Hcs c Hc).
  unfold candidate_fits in H3. unfold candidate_wf. tauto.
Qed.

Lemma trun_apply_alternate_set env s f :
  Tracked f -> set_fits s -> trun (apply_alternate_set env s) f.
Proof.
  intros HT Hs. unfold apply_alternate_set.
  destruct (Status_ok (AlternateSet_validate s)) eqn:Hok; cbn [negb]; [|quiet].
  apply trun_read. cbv zeta. destruct HT as [d HT].
  assert (Hw : wire_set_wf s) by (by apply wire_set_of_fits).
  pose proof (ig_sets _ _ _ _ _ _ _ _ HT) as Hsets. pose proof (ig_wf _ _ _ _ _ _ _ _ HT) as Hwf0.
  pose proof (im_sets _ _ (ig_same _ _ _ _ _ _ _ _ HT)) as Hds.
  match goal with |- context [match _ with Some _ => _ | None => if _ then _ else ?put end] =>
    assert (Hput : (fb_sets f !! set_id s = None -> Z.of_nat (size (fb_sets f)) < max_alternate_sets) ->
      trun put f) end.
  { intros Hroom. destruct (bool_decide _); [quiet|].
    set (l' := match replace_first (fun c => Id_eqb (set_id c) (set_id s)) s (ds_sets d) with
               | None => ds_sets d ++ [s] | Some l => l end).
    assert (Happly : apply_record d RecordType_alternate_set_put (encode_set_record s) =
      (ok_status, d <| ds_sets := l' |>)).
    { rewrite (replays_set s d Hw). unfold put_durable_set, l'.
      destruct (replace_first _ s (ds_sets d)) eqn:Hr; [done|].
      apply (replace_first_None set_id) in Hr.
      destruct (Z.leb_spec max_alternate_sets (size_of (ds_sets d))) as [Hfull|]; [|done]. exfalso.
      rewrite Hsets, sets_table_size in Hroom by apply Hwf0. unfold size_of in Hfull.
      assert (Hn : sets_table (ds_sets d) !! set_id s = None); [|specialize (Hroom Hn); lia].
      rewrite sets_table_lookup. destruct (List.find _ (ds_sets d)) as [s0|] eqn:E; [|done].
      apply List.find_some in E as [Hin He]. apply Id_eqb_eq in He. exfalso. apply Hr. rewrite <- He.
      by apply list_elem_of_fmap_2, list_elem_of_In. }
    intros y g H. apply bind_Ok in H as ([] & f1 & H1 & H).
    destruct (append_done _ _ _ _ _ _ _ H1 (ig_files _ _ _ _ _ _ _ _ HT) Hwf0 Happly)
      as (st & stats & Hrep & Hwf & ->).
    revert y g H. apply trun_set, trun_compact. eexists.
    destruct HT as [_ _ Hb Hsame Hcnt _ Hfen Hatt Hlim Hwho].
    constructor; [exact Hrep|exact Hwf|exact Hb| |exact Hcnt| |exact Hfen|exact Hatt|exact Hlim|exact Hwho].
    - destruct Hsame as [E1 E2 E3 E4 E5 E6 E7 E8 E9 E10].
      constructor; try assumption; [|reflexivity]. cbn [ds_sets update_field fb_state store_set].
      unfold l'. rewrite E6. reflexivity.
    - change (<[set_id s := s]> (fb_sets f) = sets_table l'). unfold l'. rewrite sets_table_put, Hsets.
      reflexivity. }
  destruct (fb_sets f !! set_id s) as [s0|] eqn:Es.
  - destruct (Id_ltb _ _); [quiet|]. destruct (Id_eqb _ _).
    + destruct (_ && _); [apply trun_return; by exists d|quiet].
    + by apply Hput.
  - destruct (Z.leb_spec max_alternate_sets (Z.of_nat (size (fb_sets f)))); [quiet|]. by apply Hput.
Qed.

(** ** Fencing *)

Lemma trun_revoke_path env path id f : Tracked f -> trun (revoke_path env path id) f.
Proof.
  intros HT. unfold revoke_path. apply trun_read. unfold find_attempt.
  destruct (fb_attempts f !! id) as [r|] eqn:Hr; [|quiet]. destruct (_ && _); [|quiet]. cbv zeta.
  destruct (Tracked_known f id r HT Hr) as (Hwf & <- & Hseq).
  eapply trun_refile; [done|exact Hr|done|by apply ended_wf|]. intros f1 HT1 _.
  apply trun_modify. exact HT1.
Qed.

Lemma trun_fence_path_op env path why f : Tracked f -> Id_wf path -> trun (fence_path env path why) f.
Proof.
  intros HT Hp. unfold fence_path. destruct (Id_valid path) eqn:Hv; cbn [negb]; [|quiet].
  apply trun_read. destruct (bool_decide_reflect (is_Some (fb_path_fences f !! path))) as [|Hn]; [quiet|].
  apply eq_None_not_Some in Hn. apply trun_fence_path; [done..|]. intros f1 HT1.
  apply trun_set, trun_read. apply trun_bind.
  - apply trun_for_each; [exact HT1|]. intros id f2. apply trun_revoke_path.
  - intros _ f2. apply trun_compact.
Qed.

(** ** Completion and reversal *)

Lemma Tracked_basis f id r :
  Tracked f -> fb_attempts f !! id = Some r ->
  Id_wf id /\ Id_wf (at_incumbent r) /\ Id_wf (at_selected r) /\ Id_wf (at_set r).
Proof.
  intros HT Hr. destruct (Tracked_known f id r HT Hr) as (Hwf & <- & _).
  unfold attempt_wf in Hwf. tauto.
Qed.

(** Journaling the end of an attempt and the decision it leads to. *)
Lemma trun_conclude {A} env id r0 r outcome sel why (k : Op A) f :
  Tracked f -> fb_attempts f !! id = Some r0 -> at_id r = id -> attempt_wf r -> Id_wf sel ->
  (forall f1, Tracked f1 -> trun k f1) ->
  trun (set! store_attempt id r in let! _ := persist_attempt env r false in
        with! f in
        let! _ := persist_lineage env (lineage_of (Id_from_value (ds_decision_sequence (fb_state f)))
                    id outcome (at_incumbent r) sel (at_set r) why f) in k) f.
Proof.
  intros HT H0 <- Hwf Hsel Hk. eapply trun_refile; [done|exact H0|done|done|]. intros f1 HT1 _.
  apply trun_read, trun_lineage; [done| |by auto].
  unfold attempt_wf in Hwf. apply lineage_of_wf; try tauto. by apply decision_id_wf.
Qed.

Lemma trun_record_effect env id e f : Tracked f -> trun (record_effect env id e) f.
Proof.
  intros HT. unfold record_effect. apply trun_read. unfold find_attempt.
  destruct (fb_attempts f !! id) as [r|] eqn:Hr; [|quiet].
  destruct (bool_decide _); [quiet|]. destruct (bool_decide _); [quiet|]. destruct (_ || _); [quiet|].
  destruct (is_terminal_state _); [quiet|]. destruct (negb (Id_eqb _ _)); [quiet|]. cbv zeta.
  destruct (negb (Status_ok _)); [quiet|]. destruct (negb (bool_decide _)); [quiet|].
  destruct (negb _); [quiet|]. destruct (effect_superseded e f); [quiet|].
  unfold commit_effect. apply trun_read. cbv zeta.
  destruct (Tracked_known f id r HT Hr) as (Hwf & Hid & Hseq).
  eapply trun_conclude; [done|exact Hr|exact Hid|by apply ended_wf|apply Hwf|].
  intros f1 HT1. apply trun_set, trun_compact. exact HT1.
Qed.

Lemma trun_abandon env id why f : Tracked f -> trun (abandon_attempt env id why) f.
Proof.
  intros HT. unfold abandon_attempt. apply trun_read. unfold find_attempt.
  destruct (fb_attempts f !! id) as [r|] eqn:Hr; [|quiet].
  destruct (is_terminal_state _); [quiet|]. cbv zeta.
  destruct (Tracked_known f id r HT Hr) as (Hwf & Hid & Hseq).
  eapply trun_conclude; [done|exact Hr|exact Hid|by apply ended_wf|apply Id_wf_absent|].
  intros f1 HT1. apply trun_set, trun_compact. exact HT1.
Qed.

Lemma wrap_u32_range z : is_u32 (wrap_u32 z).
Proof. unfold_ints. pose proof (Z.mod_pos_bound z (2 ^ 32)). lia. Qed.

Lemma revalidated_wf r : attempt_wf r -> attempt_wf (r <| at_revalidations ::= fun n => wrap_u32 (n + 1) |>).
Proof.
  unfold attempt_wf. cbn. pose proof (wrap_u32_range (at_revalidations r + 1)). tauto.
Qed.

Lemma trun_rollback env id e f : Tracked f -> trun (rollback env id e) f.
Proof.
  intros HT. unfold rollback. apply trun_read. unfold find_attempt.
  destruct (fb_attempts f !! id) as [r|] eqn:Hr; [|quiet].
  destruct (bool_decide _); [quiet|]. destruct (is_terminal_state _); [quiet|].
  destruct (negb (Id_eqb _ _)); [quiet|]. destruct (_ || _); [quiet|].
  destruct (validate_target e f) as [st why]. destruct (negb (Status_ok st)); [quiet|].
  apply trun_set. destruct (_ && _); [quiet|]. cbv zeta.
  destruct (Tracked_known f id r HT Hr) as (Hwf & Hid & Hseq).
  eapply trun_conclude; [exact HT|exact Hr|exact Hid| |apply Hwf|].
  - apply ended_wf; [by apply revalidated_wf|exact Hseq].
  - intros f1 HT1. apply trun_set, trun_compact. exact HT1.
Qed.

Lemma trun_revert env id e f : Tracked f -> ids_left f -> evidence_wf e -> trun (revert env id e) f.
Proof.
  intros HT Hleft He. unfold revert. apply trun_read.
  destruct (fb_attempts f !! id) as [c|] eqn:Hc; [|quiet]. destruct (negb _); [quiet|].
  destruct (validate_target e f) as [st why]. destruct (negb (Status_ok st)); [quiet|].
  destruct (_ && _); [quiet|]. destruct (Id_valid _); [quiet|]. cbv zeta. destruct (_ || _) eqn:Hmax; [quiet|].
  apply orb_false_elim in Hmax as [_ Hmax%Z.eqb_neq].
  destruct (Tracked_known f id c HT Hc) as (Hwf & Hid & Hseq). pose proof HT as [d HTd].
  destruct (Tracks_who f d HTd) as [Hep Hbo]. pose proof (Tracks_authority f d HTd) as Hau.
  unfold ids_left in Hleft.
  unfold commit_revert. apply trun_set, trun_read. cbv zeta.
  set (r := reverted_attempt _ _ _ _ _).
  assert (Hr : attempt_wf r).
  { unfold attempt_wf in *. unfold r, reverted_attempt. cbn.
    pose proof (wrap_u64_range (ds_last_sequence (fb_state f) + 1)).
    pose proof (wrap_u32_range (at_revalidations c + 1)).
    assert (@Id_wf AttemptTag (Id_from_value (ds_attempt_sequence (fb_state f) + 1)))
      by (unfold Id_wf; cbn; unfold_ints; lia).
    unfold evidence_wf in He. tauto. }
  apply trun_persist_new; [exact HT|exact Hr|reflexivity|]. intros f1 HT1 _ Hs1.
  apply trun_set, trun_set, trun_read.
  assert (HT2 : Tracked (bump_decision (bump_attempt f1))).
  { apply bump_decision_tracked, bump_attempt_tracked; [exact HT1|]. rewrite Hs1. unfold r. cbn. lia. }
  apply trun_lineage; [exact HT2| |].
  - destruct (Tracks_counters f d HTd) as (_ & _ & Hd & _).
    apply lineage_of_wf; [exact HT2| |apply Hr..].
    unfold Id_wf. cbn. unfold_ints. lia.
  - intros f2 HT3 _. apply trun_set, trun_bind; [by apply trun_compact|]. intros _ f3 HT4.
    by apply trun_return.
Qed.

(** ** Promotion *)

Lemma Tracked_set f id s : Tracked f -> fb_sets f !! id = Some s -> wire_set_wf s.
Proof.
  intros [d HT] Hs. rewrite (ig_sets _ _ _ _ _ _ _ _ HT), sets_table_lookup in Hs.
  apply List.find_some in Hs as [Hin _].
  destruct (tw_sets _ (ig_wf _ _ _ _ _ _ _ _ HT)) as [_ Hall]. rewrite List.Forall_forall in Hall.
  by apply Hall.
Qed.

(** What a decision under the documents in force can name. *)
Lemma select_locked_wf i co s did aid kind f :
  Tracked f ->
  let x := select_locked i co s did aid kind f in
  Id_wf (dec_selected x) /\ Id_wf (dec_set_generation x).
Proof.
  intros HT. unfold select_locked. cbv zeta.
  destruct (fb_sets f !! s) as [set|] eqn:Es; [|split; apply Id_wf_absent].
  destruct (ds_has_policy (fb_state f)) eqn:Ep; cbn [negb]; [|split; apply Id_wf_absent].
  destruct (ds_has_obligations (fb_state f)); cbn [negb]; [|split; apply Id_wf_absent].
  destruct (Selector.evaluate _) as [out|st] eqn:Ee; [|split; apply Id_wf_absent].
  destruct (Tracked_set f s set HT Es) as (_ & Hg & [_ Hcs] & _). rewrite List.Forall_forall in Hcs.
  apply evaluate_names in Ee as [Hsel Hgen]; cbn [si_set si_policy] in *.
  - split.
    + destruct Hsel as [H|(set' & c & [= <-] & Hc & H)].
      * change (Id_wf (dec_selected out)). rewrite H. apply Id_wf_absent.
      * change (Id_wf (dec_selected out)). rewrite H. apply list_elem_of_In, Hcs in Hc. apply Hc.
    + destruct Hgen as [H|(set' & [= <-] & H)]; change (Id_wf (dec_set_generation out)); rewrite H;
        [apply Id_wf_absent|exact Hg].
  - intros p [= <-]. destruct HT as [d HT].
    pose proof (tw_policy _ (ig_wf _ _ _ _ _ _ _ _ HT)) as Hp.
    rewrite (im_has_policy _ _ (ig_same _ _ _ _ _ _ _ _ HT)), Ep,
      (im_policy _ _ (ig_same _ _ _ _ _ _ _ _ HT)) in Hp.
    unfold policy_wf in Hp. tauto.
Qed.

Lemma trun_begin_refused env did r x f :
  Tracked f -> fb_attempts f !! at_id r = Some r -> Id_wf did -> trun (begin_refused env did r x) f.
Proof.
  intros HT Hr Hd. unfold begin_refused. apply trun_read. cbv zeta.
  destruct (Tracked_known f _ r HT Hr) as (Hwf & _ & Hseq).
  eapply trun_persist_known; [exact HT|exact Hr|by apply ended_wf|]. intros f1 HT1 _.
  apply trun_read, trun_lineage; [exact HT1| |].
  - unfold attempt_wf in Hwf. apply lineage_of_wf; cbn; try tauto. apply Id_wf_absent.
  - intros f2 HT2 _. apply trun_set, trun_bind; [apply trun_compact; exact HT2|]. intros _ f3 HT3.
    by apply trun_return.
Qed.

Lemma trun_begin_authorized env r x f :
  Tracked f -> fb_attempts f !! at_id r = Some r -> trun (begin_authorized env r x) f.
Proof.
  intros HT Hr. unfold begin_authorized. cbv zeta.
  destruct (Tracked_known f _ r HT Hr) as (Hwf & _ & Hseq).
  eapply trun_persist_known; [exact HT|exact Hr|exact Hwf|]. intros f1 HT1 _.
  apply trun_read, trun_set, trun_bind; [apply trun_compact; exact HT1|]. intros _ f3 HT3.
  by apply trun_return.
Qed.

Lemma trun_begin_promotion env i co s f :
  Tracked f -> ids_left f -> Id_wf i -> Id_wf s -> trun (begin_promotion env i co s) f.
Proof.
  intros HT Hleft Hi Hs. unfold begin_promotion. destruct (_ || _); [quiet|]. apply trun_read.
  destruct (owned f); [apply trun_set, trun_return; exact HT|].
  apply trun_set, trun_read. cbv zeta. set (f0 := f <| fb_active_attempt := _ |>).
  assert (HT0 : Tracked f0) by exact HT.
  destruct (_ || _) eqn:Hmax; [quiet|]. apply orb_false_elim in Hmax as [_ Hmax%Z.eqb_neq].
  set (x := select_locked _ _ _ _ _ _ f0).
  destruct (select_locked_wf i co s (Id_from_value (ds_decision_sequence (fb_state f0) + 1))
    (Id_from_value (ds_attempt_sequence (fb_state f0) + 1)) AuthorityKind_grant f0 HT0) as [Hsel Hgen].
  fold x in Hsel, Hgen. clearbody x. apply trun_set.
  assert (HT1 : Tracked (bump_decision f0)) by (by apply bump_decision_tracked).
  destruct (is_structural _); [apply trun_set, trun_return; exact HT1|]. apply trun_read.
  set (r := new_attempt _ _ _ _ _ _). unfold ids_left in Hleft.
  pose proof HT0 as [d HTd]. destruct (Tracks_who f0 d HTd) as [Hep Hbo].
  pose proof (Tracks_authority f0 d HTd) as Hau. pose proof (Tracks_counters f0 d HTd) as (_ & _ & Hd & _).
  apply trun_persist_new; [exact HT1| |reflexivity|].
  - unfold attempt_wf, r, new_attempt. cbn.
    pose proof (wrap_u64_range (ds_last_sequence (fb_state f0) + 1)).
    assert (@Id_wf AttemptTag (Id_from_value (ds_attempt_sequence (fb_state f0) + 1)))
      by (unfold Id_wf, f0; cbn; unfold_ints; lia).
    assert (is_u64 0 /\ is_u32 0) by (unfold_ints; lia).
    refine (conj _ (conj Hep (conj Hbo (conj Hi (conj Hsel (conj Hs (conj Hgen (conj Hau _)))))))); tauto.
  - intros f1 HT2 Hr1 Hseq. apply trun_set.
    assert (HT3 : Tracked (bump_attempt f1)).
    { apply bump_attempt_tracked; [exact HT2|]. rewrite Hseq. unfold r, f0. cbn. lia. }
    destruct (_ || _).
    + apply trun_begin_refused; [exact HT3|exact Hr1|].
      unfold Id_wf. cbn. change (ds_decision_sequence (fb_state f0)) with (ds_decision_sequence (fb_state f)) in *.
      unfold_ints. lia.
    + apply trun_begin_authorized; [exact HT3|exact Hr1].
Qed.

Lemma trun_apply_evidence e f : Tracked f -> trun (apply_evidence e) f.
Proof.
  intros HT. unfold apply_evidence. destruct (negb _); [quiet|]. apply trun_read.
  destruct (fb_evidence f !! ev_path e); destruct (_ <=? _); first [quiet|apply trun_modify; exact HT].
Qed.

(** ** Every command *)

Lemma trun_forget {A} (m : Op A) f : trun m f -> trun (forget m) f.
Proof. intros Hm. apply trun_bind; [exact Hm|]. intros x f1 HT. by apply trun_return. Qed.

Lemma trun_execute env c f : Tracked f -> ids_left f -> command_wf c -> trun (execute env c) f.
Proof.
  intros HT Hl Hc. destruct c; cbn [execute command_wf] in *.
  - by apply trun_apply_policy.
  - by apply trun_apply_obligations.
  - by apply trun_apply_alternate_set.
  - by apply trun_apply_evidence.
  - by apply trun_set_authority.
  - by apply trun_fence_path_op.
  - unfold fence_all. apply trun_fence_attempts. exact HT.
  - apply trun_forget. unfold Fabric_evaluate. apply trun_read. destruct (_ =? _); [quiet|]. cbv zeta.
    apply trun_set, trun_return. by apply bump_decision_tracked.
  - destruct Hc. by apply trun_forget, trun_begin_promotion.
  - by apply trun_record_effect.
  - by apply trun_abandon.
  - by apply trun_rollback.
  - destruct Hc. by apply trun_forget, trun_revert.
Qed.

(** ** Opening an empty directory *)

Lemma trun_start env entropy f :
  Tracked f -> is_u64 (en_boot entropy) -> trun (Fabric_start env entropy) f.
Proof.
  intros [d HT] Hboot. unfold Fabric_start. apply trun_read.
  destruct (Z.eqb_spec (Id_value (av_epoch (ds_authority (fb_state f)))) UINT64_MAX) as [|Hne]; [quiet|].
  pose proof (Tracks_authority f d HT) as Hauth. pose proof (Tracks_counters f d HT) as Hcnt.
  apply trun_set, trun_read. cbv zeta. destruct (bool_decide _); [quiet|].
  set (f0 := incarnate entropy f).
  assert (Hep : @Id_wf EpochTag (Id_from_value (Id_value (av_epoch (ds_authority (fb_state f))) + 1))).
  { destruct Hauth as (_ & _ & _ & _ & He & _). unfold Id_wf in *. cbn. unfold_ints. lia. }
  assert (Hw : epoch_wf (ds_authority (fb_state f0), ds_restart_count (fb_state f0),
    ds_attempt_sequence (fb_state f0), ds_fence_sequence (fb_state f0), ds_decision_sequence (fb_state f0))).
  { split; [|split; [apply wrap_u64_range|]].
    - destruct Hauth as (A1 & A2 & A3 & A4 & _). exact (conj A1 (conj A2 (conj A3 (conj A4 (conj Hep Hboot))))).
    - destruct Hcnt as (C1 & C2 & C3 & _). exact (conj C1 (conj C2 C3)). }
  intros y g H. apply bind_Ok in H as ([] & f1 & H1 & H).
  destruct (append_done _ _ _ _ _ _ _ H1 (ig_files _ _ _ _ _ _ _ _ HT) (ig_wf _ _ _ _ _ _ _ _ HT)
    (replays_epoch _ _ _ _ _ d Hw)) as (st & stats & Hrep & Hwf & ->).
  revert y g H. apply trun_read, trun_bind.
  - apply trun_for_each; [|intros id f1; apply trun_end_and_fence].
    eapply (Tracked_document f d _ _ HT); [exact Hrep|exact Hwf| | |exact Hcnt
      |reflexivity..|exact (conj Hep Hboot)].
    + pose proof (ig_basis _ _ _ _ _ _ _ _ HT) as Hb. unfold basis_consistent in *.
      rewrite (im_authority _ _ (ig_same _ _ _ _ _ _ _ _ HT)) in Hb. exact Hb.
    + destruct (ig_same _ _ _ _ _ _ _ _ HT) as [E1 E2 E3 E4 E5 E6 E7 E8 E9 E10].
      constructor; try assumption; reflexivity.
  - intros _ f1 [d1 HT1]. apply trun_set, trun_compact. exists d1.
    destruct HT1 as [H1' H2 H3 H4 H5 H6 H7 H8 H9 H10].
    constructor; try assumption. by destruct H4.
Qed.

Lemma blank_tracked options store :
  Represents store DurableState_default -> 0 < fo_max_retained_attempts options <= max_attempts ->
  Tracked (Fabric_loaded options store DurableState_default).
Proof.
  intros Hrep Hlim. exists DurableState_default.
  constructor; [exact Hrep|exact tables_wf_default|by split|by constructor|apply tables_wf_default| | | |exact Hlim|].
  - reflexivity.
  - reflexivity.
  - exists ∅. split; [reflexivity|]. split; [apply covers_refl; intros id r Hr; by apply lookup_empty_Some in Hr|].
    intros id [r Hr]. by apply lookup_empty_Some in Hr.
  - split; apply Id_wf_absent.
Qed.

Lemma opened_tracked env options entropy journal f :
  default [] journal = [] -> is_u64 (en_boot entropy) -> is_u64 (fo_max_retained_attempts options) ->
  Fabric_open env options healthy_open healthy_load entropy journal None = Ok f -> Tracked f.
Proof.
  intros Hj Hboot Hopt H. unfold Fabric_open in H.
  destruct (_ || _) eqn:Hr in H; [done|]. apply orb_false_elim in Hr as [Hr1%Z.eqb_neq Hr2%Z.ltb_ge].
  destruct (load_disk true [] [] journal None DurableState_default) as (s0 & s & Ho & Hl & Hrep & _);
    [exact Hj|exact empty_disk|by left|].
  rewrite Ho, Hl in H. destruct (Fabric_start _ _ _) as [[[]|st] f1] eqn:Hs; [|done].
  injection H as <-. eapply trun_start; [|exact Hboot|exact Hs]. apply blank_tracked; [exact Hrep|].
  unfold is_u64 in Hopt. lia.
Qed.

(** ** Loading the files *)

(** The attempts loaded are the ones filed. *)
Lemma attempts_fold_lookup l m id :
  foldl (fun m r => emplace (at_id r) r m) m l !! id =
  match m !! id with Some r => Some r | None => List.find (same_id id) l end.
Proof.
  revert m. induction l as [|r l IH]; intros m; cbn [foldl List.find]; [by destruct (m !! id)|].
  rewrite IH. unfold emplace, same_id at 2. destruct (Id_eqb_spec (at_id r) id) as [<-|Hne].
  - destruct (m !! at_id r) eqn:E; [by rewrite E|]. by rewrite lookup_insert_eq.
  - destruct (m !! at_id r) eqn:E; [done|]. by rewrite lookup_insert_ne.
Qed.

Lemma loaded_attempts m :
  filed m -> foldl (fun m r => emplace (at_id r) r m) ∅ (values m) = m.
Proof.
  intros Hf. apply map_eq. intros id. rewrite attempts_fold_lookup, lookup_empty.
  destruct (List.find (same_id id) (values m)) as [r|] eqn:E.
  - apply List.find_some in E as [Hin He]. apply Id_eqb_eq in He. subst id.
    apply list_elem_of_In, (elem_of_values m r Hf) in Hin. done.
  - destruct (m !! id) as [r|] eqn:Hr; [|done]. exfalso.
    pose proof (Hf id r Hr) as <-. apply (elem_of_values m r Hf), list_elem_of_In in Hr.
    apply (List.find_none _ _ E) in Hr. unfold same_id in Hr. by rewrite Id_eqb_refl in Hr.
Qed.

(** What loading the files gives back of a coordinator: the documents in force,
    the authority, the fences and the lineage are the same; every attempt in
    memory is there unchanged, and what else is there has ended. *)
Record recovers (f g : Fabric) : Prop := {
  rc_authority : ds_authority (fb_state g) = ds_authority (fb_state f);
  rc_policy : v_policy (view g) = v_policy (view f);
  rc_obligations : v_obligations (view g) = v_obligations (view f);
  rc_sets : fb_sets g = fb_sets f;
  rc_fences : fb_path_fences g = fb_path_fences f;
  rc_fence_records : ds_fences (fb_state g) = ds_fences (fb_state f);
  rc_lineage : ds_lineage (fb_state g) = ds_lineage (fb_state f);
  rc_attempts : fb_attempts f ⊆ fb_attempts g;
  rc_others : forall id r, fb_attempts g !! id = Some r -> fb_attempts f !! id = None ->
    is_terminal_state (at_state r) = true }.

Lemma Tracks_recovers f d options store :
  Tracks f d -> recovers f (Fabric_loaded options store d).
Proof.
  intros [_ _ _ Hsame _ Hsets Hfen (m & Hdm & Hcov & _) _ _].
  pose proof (loaded_attempts m (cv_filed _ _ _ Hcov)) as Hm. rewrite <- Hdm in Hm.
  destruct Hsame as [E1 E2 E3 E4 E5 E6 E7 E8 E9 E10].
  constructor; [exact E1| | |by symmetry|by symmetry|exact E7|exact E8| |].
  - cbn. by rewrite E2, E3.
  - cbn. by rewrite E4, E5.
  - cbn [fb_attempts Fabric_loaded]. rewrite Hm. apply Hcov.
  - cbn [fb_attempts Fabric_loaded]. rewrite Hm. apply Hcov.
Qed.

(** ** The refinement *)

(** A refused command that touched nothing the files stand for. *)
Definition untouched (f g : Fabric) : Prop :=
  fb_store g = fb_store f /\ fb_identity g = fb_identity f /\ fb_options g = fb_options f /\
  fb_state g = fb_state f /\ fb_sets g = fb_sets f /\ fb_attempts g = fb_attempts f /\
  fb_path_fences g = fb_path_fences f.

(** Any sequence of commands, each acknowledged or refused without effect, under
    any platform behaviour that lets it be acknowledged. *)
Definition acknowledged : Fabric -> Fabric -> Prop :=
  rtc (fun f f' => exists env c, ids_left f /\ command_wf c /\ f' = (execute env c f).2 /\
    (Result_ok (execute env c f).1 = true \/ untouched f f')).

Lemma untouched_tracked f g : Tracked f -> untouched f g -> Tracked g.
Proof. intros [d HT] (E1 & E2 & E3 & E4 & E5 & E6 & E7). exists d. unfold Tracks. by rewrite E1, E2, E3, E4, E5, E6, E7. Qed.

Lemma acknowledged_tracked f g : acknowledged f g -> Tracked f -> Tracked g.
Proof.
  intros H. induction H as [|f f1 f2 (env & c & Hl & Hc & -> & Hok) _ IH]; [done|].
  intros HT. apply IH. destruct Hok as [Hok|Hu]; [|by eapply untouched_tracked].
  pose proof (trun_execute env c f HT Hl Hc) as Hrun. unfold trun in Hrun.
  destruct (execute env c f) as [[x|st] f1]; [|done]. by apply (Hrun x).
Qed.

(** The bytes of the journal; an absent journal is an empty one. *)
Definition journal_of_store (s : Store) : list byte := default [] (s_journal_file s).

(** C2: What is acknowledged survives a crash.  Open a coordinator on an empty
    directory and let it answer any commands, each either acknowledged or refused
    without effect.  Whenever it dies afterwards, even in the middle of writing
    its next record, its files open and load, and what they give back is the
    coordinator that died: the same authority, policy, obligations, sets, fences
    and lineage, every attempt it held unchanged, and beyond those only attempts
    that had ended and were forgotten. *)
Theorem acknowledged_is_durable env options entropy journal f0 f :
  default [] journal = [] -> is_u64 (en_boot entropy) -> is_u64 (fo_max_retained_attempts options) ->
  Fabric_open env options healthy_open healthy_load entropy journal None = Ok f0 ->
  acknowledged f0 f ->
  exists d, forall tail, tail = [] \/ torn_write d tail ->
    exists s0 s,
      Store_open healthy_open false true (Some (journal_of_store (fb_store f) ++ tail))
        (s_snapshot_file (fb_store f)) = Ok s0 /\
      Store_load healthy_load s0 = (Ok d, s) /\
      recovers f (Fabric_loaded options s d).
Proof.
  intros Hj Hboot Hopt Ho Hack.
  destruct (acknowledged_tracked f0 f Hack) as [d HT]; [by eapply opened_tracked|].
  exists d. intros tail Htail.
  destruct (rep_disk _ _ (ig_files _ _ _ _ _ _ _ _ HT)) as (base & first & old & new & HH).
  destruct (load_disk true (journal_of_store (fb_store f)) tail
    (Some (journal_of_store (fb_store f) ++ tail)) (s_snapshot_file (fb_store f)) d)
    as (s0 & s & Hopen & Hload & _); [done| |exact Htail|].
  - exists base, first, old, new. destruct HH. by constructor.
  - exists s0, s. split; [exact Hopen|]. split; [exact Hload|]. by apply Tracks_recovers.
Qed.

Lemma run_acknowledged env cs f :
  run_ids_left env cs f = true -> forallb Result_ok (run env cs f).1 = true ->
  Forall command_wf cs -> acknowledged f (run env cs f).2.
Proof.
  revert f. induction cs as [|c cs IH]; intros f Hl Hok Hwf; [apply rtc_refl|].
  apply andb_true_iff in Hl as [Hc Hl]. apply List.Forall_cons_iff in Hwf as [Hcw Hwf].
  specialize (IH (execute env c f).2 Hl). cbn [run] in *.
  destruct (execute env c f) as [r f1] eqn:He. cbn [snd] in IH.
  destruct (run env cs f1) as [rs f2]. cbn [fst snd forallb] in *. apply andb_true_iff in Hok as [Hr Hok].
  eapply rtc_l; [|exact (IH Hok Hwf)]. exists env, c. split; [by apply ids_leftb_spec|].
  split; [done|]. rewrite He. by split; [|left].
Qed.

(** A promotion carried through from an empty directory. *)
Definition carried_through : Fabric :=
  (run healthy_env (setup ++ [begin_sample; complete_sample]) (from_result (opened healthy_env 6 None None))).2.

Lemma opened_from_result env boot journal snapshot :
  Result_ok (opened env boot journal snapshot) = true ->
  Fabric_open env (FabricOptions_default "state") healthy_open healthy_load
    (mkEntropy boot 7 8 9) journal snapshot = Ok (from_result (opened env boot journal snapshot)).
Proof. unfold opened. by destruct (Fabric_open _ _ _ _ _ _ _). Qed.

Lemma acknowledged_is_durable_witness :
  exists d, forall tail, tail = [] \/ torn_write d tail ->
    exists s0 s,
      Store_open healthy_open false true (Some (journal_of_store (fb_store carried_through) ++ tail))
        (s_snapshot_file (fb_store carried_through)) = Ok s0 /\
      Store_load healthy_load s0 = (Ok d, s) /\
      recovers carried_through (Fabric_loaded (FabricOptions_default "state") s d).
Proof.
  apply (acknowledged_is_durable healthy_env (FabricOptions_default "state") (mkEntropy 6 7 8 9) None
    (from_result (opened healthy_env 6 None None)) carried_through).
  - reflexivity.
  - vm_compute. split; congruence.
  - vm_compute. split; congruence.
  - apply opened_from_result. vm_compute. reflexivity.
  - apply run_acknowledged; [vm_compute; reflexivity..|exact setup_wf].
Defined.
