(* ===== verification/FabricFindings.v ===== *)
(** * Where the coordinator departs from its intent

    Concrete runs of the model, evaluated by the kernel, in which the code does
    something its own comments and documents rule out. *)

From S2P Require Import Prelude.
From S2P Require Import Ids.
From S2P Require Import Limits.
From S2P Require Import Status.
From S2P Require Import Checked.
From S2P Require Import Authority.
From S2P Require Import Model.
From S2P Require Import Decision.
From S2P Require Import Records.
From S2P Require Import Selector.
From S2P Require Import SelectorTheorems.
From S2P Require Import Bytes.
From S2P Require Import Canonical.
From S2P Require Import Wire.
From S2P Require Import Store.
From S2P Require Import Fabric.
From S2P Require Import Coordinator.
From S2P Require Import FabricProps.
From S2P Require Import FabricTheorems.

(** State and selected path of an attempt on record. *)
Definition on_record (id : AttemptId) (f : Fabric) : option (AttemptState * PathId) :=
  (fun r => (at_state r, at_selected r)) <$> fb_attempts f !! id.

(** A platform on which no journal write succeeds. *)
Definition broken_env : Env :=
  mkEnv (fun _ => mkAppendIo true 0 true) (fun _ => healthy_snapshot).

(** ** Identities after a restart *)

Definition second_vector : AuthorityVector :=
  live_vector <| av_epoch := Id_from_value 2 |> <| av_boot := Id_from_value 66 |>.

(** A set for the second incarnation that offers path 11. *)
Definition second_set : AlternateSet :=
  live_set <| set_generation := Id_from_value 2 |>
    <| set_candidates := [mkAlternateCandidate (Id_from_value 11) 0 false
         ((live_evidence 11 500 1) <| ev_observed_under := second_vector |>) second_vector] |>.

Definition second_run : list (Result unit) * Fabric :=
  run healthy_env
    [CApplyAlternateSet second_set;
     CBeginPromotion (Id_from_value 13) IncumbentCondition_failed (Id_from_value 1)]
    (from_result (reopened 66 committed_fabric)).

(** Replaying a journal does not restore the attempt counter, so a restarted
    coordinator hands out identities that are in use.  In the sample run attempt
    1 is committed on path 13; after a restart over its healthy files the next
    promotion is given identity 1 again, every command succeeds, and the
    committed record is gone: attempt 1 is now in flight on path 11. *)
Theorem restart_reuses_attempt_identity :
  on_record sample_attempt committed_fabric = Some (AttemptState_committed, Id_from_value 13) /\
  second_run.1 = [Ok tt; Ok tt] /\
  on_record sample_attempt second_run.2 = Some (AttemptState_authorized, Id_from_value 11).
Proof. split; [|split]; vm_compute; reflexivity. Qed.

(** ** Changes that are not journaled *)

Definition moved_vector : AuthorityVector := live_vector <| av_topology := Id_from_value 9 |>.

(** The topology generation moves while the journal cannot be written, and the
    caller retries on a repaired journal. *)
Definition failed_change : Result unit * Fabric :=
  execute broken_env (CSetAuthority moved_vector) granted_fabric.
Definition retried_change : Result unit * Fabric :=
  execute healthy_env (CSetAuthority moved_vector) failed_change.2.

(** A change of authority can be acknowledged without being recorded or
    enforced.  When the append of [set_authority] fails, the new generations
    stay in memory; the retry finds nothing to do and reports success: nothing
    was journaled and the attempt granted under the old topology still owns the
    transition, unfenced. *)
Theorem retried_authority_change_is_lost :
  Result_ok failed_change.1 = false /\ retried_change.1 = Ok tt /\
  Fabric_authority retried_change.2 = moved_vector /\
  s_journal_file (fb_store retried_change.2) = s_journal_file (fb_store granted_fabric) /\
  fb_active_attempt retried_change.2 = sample_attempt /\
  on_record sample_attempt retried_change.2 = Some (AttemptState_authorized, Id_from_value 13).
Proof. repeat (apply conj; [vm_compute; reflexivity|]). vm_compute. reflexivity. Qed.

Definition failed_commit : Result unit * Fabric :=
  execute broken_env complete_sample granted_fabric.

(** A completion that was never recorded is visible as committed.  When the
    append of [record_effect] fails the caller is told so, but the object
    already answers that the attempt is committed; a restart finds it
    interrupted. *)
Theorem unrecorded_commit_is_visible :
  Result_ok failed_commit.1 = false /\
  on_record sample_attempt failed_commit.2 = Some (AttemptState_committed, Id_from_value 13) /\
  on_record sample_attempt (from_result (reopened 66 failed_commit.2))
    = Some (AttemptState_interrupted, Id_from_value 13).
Proof. repeat (apply conj; [vm_compute; reflexivity|]). vm_compute. reflexivity. Qed.

(** ** Checks that are missing *)

(** A set of the installed generation with other evidence. *)
Definition altered_set : AlternateSet :=
  live_set <| set_candidates := [live_candidate 11 500; live_candidate 13 400] |>.
Definition resubmission : Result unit * Fabric :=
  execute healthy_env (CApplyAlternateSet altered_set) ready_fabric.

(** Evidence is not compared: the altered set is accepted and ignored. *)
Lemma altered_set_is_ignored :
  altered_set <> live_set /\ resubmission.1 = Ok tt /\
  fb_sets resubmission.2 !! set_id live_set = Some live_set.
Proof. split; [discriminate|split; vm_compute; reflexivity]. Qed.

Definition stray_revert : Result unit * Fabric :=
  execute healthy_env (CRevert sample_attempt (live_evidence 777 100 50)) committed_fabric.

(** The displaced path is 100, but any usable path is taken for it. *)
Lemma revert_target_is_unchecked :
  stray_revert.1 = Ok tt /\
  on_record (Id_from_value 3) stray_revert.2 = Some (AttemptState_committed, Id_from_value 777).
Proof. split; vm_compute; reflexivity. Qed.
