(* ===== verification/Platform.v ===== *)
(** * The platform layer ([src/platform.hpp], [src/platform.cpp])

    The wrappers around the operating system that hold logic of their own, on
    POSIX: which calls they make with which descriptors, given what each call
    returns, and the random identity of an incarnation.  What the system calls
    themselves do is an input. *)

From S2P Require Import Prelude.
From S2P Require Import Ids.
From S2P Require Import Fabric.

(** ** System calls

    The calls that concern a descriptor, with what they returned where that
    matters afterwards. *)
Inductive SysCall :=
  | Sys_open (result : Z)
  | Sys_flock (fd : Z) (unlock : bool)
  | Sys_fsync (fd : Z)
  | Sys_socket (result : Z)
  | Sys_setsockopt (fd : Z)
  | Sys_bind (fd : Z) (port : Z)
  | Sys_listen (fd : Z) (backlog : Z)
  | Sys_getsockname (fd : Z)
  | Sys_accept (listener : Z) (result : Z)
  | Sys_connect (fd : Z) (port : Z)
  | Sys_send (fd : Z) (offset : nat) (request : Z)
  | Sys_recv (fd : Z) (request : Z)
  | Sys_shutdown (fd : Z)
  | Sys_close (fd : Z).

(** The descriptors a sequence of calls leaves open. *)
Definition holds (fds : list Z) (c : SysCall) : list Z :=
  match c with
  | Sys_open fd | Sys_socket fd | Sys_accept _ fd => if fd <? 0 then fds else fds ++ [fd]
  | Sys_close fd => List.remove Z.eq_dec fd fds
  | _ => fds
  end.
Definition held (calls : list SysCall) : list Z := foldl holds [] calls.

(** ** Streams *)

(** [flushed] and [synced] are what [fflush] and [fsync] return. *)
Definition sync_stream (stream : bool) (flushed synced : Z) : bool :=
  if negb stream then false
  else if negb (flushed =? 0) then false
  else synced =? 0.

Definition truncate_stream (stream : bool) (flushed truncated : Z) : bool :=
  if negb stream then false
  else if negb (flushed =? 0) then false
  else truncated =? 0.

Definition atomic_replace (renamed : Z) : bool := renamed =? 0.

Definition sync_directory (fd synced : Z) : bool * list SysCall :=
  if fd <? 0 then (false, [Sys_open fd])
  else (synced =? 0, [Sys_open fd; Sys_fsync fd; Sys_close fd]).

(** ** The writer lock

    The handle is the descriptor as a pointer; zero is the null pointer. *)
Definition acquire_lock (fd locked : Z) : Z * list SysCall :=
  if fd <? 0 then (0, [Sys_open fd])
  else if negb (locked =? 0) then (0, [Sys_open fd; Sys_flock fd false; Sys_close fd])
  else (fd, [Sys_open fd; Sys_flock fd false]).

Definition release_lock (handle : Z) : list SysCall :=
  if handle =? 0 then [] else [Sys_flock handle true; Sys_close handle].

(** ** Randomness *)

(** The two draws of the device, the clock and the process combined, before the
    mixing. *)
Definition random_seed (draw1 draw2 micros pid : Z) : Z :=
  let value := Z.lxor (wrap_u64 (Z.shiftl draw1 32)) draw2 in
  let value := Z.lxor value micros in
  Z.lxor value (wrap_u64 (Z.shiftl pid 17)).

Definition mix_multiplier : Z := 11400714819323198485.

Definition mix (value : Z) : Z :=
  let value := wrap_u64 (value * mix_multiplier) in
  Z.lxor value (Z.shiftr value 29).

Definition random_u64 (draw1 draw2 micros pid : Z) : Z :=
  let value := mix (random_seed draw1 draw2 micros pid) in
  if value =? 0 then 11936128518282651045 else value.

(** What one opening of the coordinator draws: [new_boot], [new_incarnation] and
    the identity of the process. *)
Record Draws := mkDraws {
  dw_boot1 : Z; dw_boot2 : Z; dw_boot_micros : Z;
  dw_incarnation1 : Z; dw_incarnation2 : Z; dw_incarnation_micros : Z;
  dw_process_id : Z; dw_unix_micros : Z }.

Definition platform_entropy (d : Draws) : Entropy :=
  mkEntropy (random_u64 (dw_boot1 d) (dw_boot2 d) (dw_boot_micros d) (dw_process_id d))
    (random_u64 (dw_incarnation1 d) (dw_incarnation2 d) (dw_incarnation_micros d) (dw_process_id d))
    (dw_process_id d) (dw_unix_micros d).

(** ** Descriptors *)

Lemma held_single fd : 0 <= fd -> held [Sys_open fd] = [fd].
Proof. intros H. unfold held. cbn. by destruct (Z.ltb_spec fd 0); [lia|]. Qed.

Lemma held_closed fd : 0 <= fd -> List.remove Z.eq_dec fd [fd] = [].
Proof. intros _. cbn. by destruct (Z.eq_dec fd fd). Qed.

(** Acquiring the writer lock leaves exactly the lock's
    descriptor open when it succeeds and none when it fails, and releasing it
    closes it, provided the system does not hand out descriptor zero. *)
Lemma lock_owns_descriptor fd locked :
  fd <> 0 ->
  let '(handle, calls) := acquire_lock fd locked in
  (handle = 0 <-> fd < 0 \/ locked <> 0) /\
  held calls = (if handle =? 0 then [] else [handle]) /\
  held (calls ++ release_lock handle) = [].
Proof.
  intros H0. unfold acquire_lock. destruct (Z.ltb_spec fd 0) as [Hfd|Hfd].
  - split; [tauto|]. unfold held. cbn. by destruct (Z.ltb_spec fd 0); [|lia].
  - pose proof (held_closed fd Hfd) as Hc. destruct (Z.eqb_spec locked 0) as [->|Hl]; cbn [negb].
    + unfold release_lock. destruct (Z.eqb_spec fd 0) as [|_]; [done|]. split; [lia|].
      unfold held. cbn [app foldl holds]. destruct (Z.ltb_spec fd 0); [lia|]. cbn [app]. by rewrite Hc.
    + split; [tauto|]. unfold held, release_lock. cbn [app foldl holds Z.eqb].
      destruct (Z.ltb_spec fd 0); [lia|]. cbn [app]. by rewrite Hc.
Qed.

(** Descriptor zero, which a process started without a standard input can be
    given, is taken for a failure and stays open and locked. *)
Lemma lock_of_descriptor_zero : acquire_lock 0 0 = (0, [Sys_open 0; Sys_flock 0 false]) /\
  held (acquire_lock 0 0).2 = [0] /\ release_lock (acquire_lock 0 0).1 = [].
Proof. by split. Qed.

Lemma sync_directory_closes fd synced : held (sync_directory fd synced).2 = [].
Proof.
  unfold sync_directory. destruct (Z.ltb_spec fd 0) as [Hfd|Hfd]; unfold held; cbn [foldl holds snd].
  - by destruct (Z.ltb_spec fd 0); [|lia].
  - destruct (Z.ltb_spec fd 0); [lia|]. cbn [app]. by apply held_closed.
Qed.

(** ** Mixing *)

Lemma lxor_range n a b : 0 <= n -> 0 <= a < 2 ^ n -> 0 <= b < 2 ^ n -> 0 <= Z.lxor a b < 2 ^ n.
Proof.
  intros Hn Ha Hb. assert (H0 : 0 <= Z.lxor a b) by (apply Z.lxor_nonneg; lia).
  split; [done|]. destruct (Z.eq_dec (Z.lxor a b) 0) as [->|Hne]; [lia|].
  apply Z.log2_lt_pow2; [lia|]. eapply Z.le_lt_trans; [apply Z.log2_lxor; lia|].
  assert (Hl : forall x, 0 <= x < 2 ^ n -> Z.log2 x < n \/ n = 0).
  { intros x Hx. destruct (Z.eq_dec x 0) as [->|]; [cbn; lia|]. left. apply Z.log2_lt_pow2; lia. }
  destruct (Hl a Ha), (Hl b Hb); try lia; subst n; assert (a = 0) by lia; assert (b = 0) by lia; by subst.
Qed.

Lemma shiftr_range n a k : 0 <= k -> 0 <= a < 2 ^ n -> 0 <= Z.shiftr a k < 2 ^ n.
Proof.
  intros Hk Ha. rewrite Z.shiftr_div_pow2 by done.
  assert (0 < 2 ^ k) by (by apply Z.pow_pos_nonneg). split; [apply Z.div_pos; lia|].
  eapply Z.le_lt_trans; [|apply Ha]. apply Z.div_le_upper_bound; nia.
Qed.

Lemma u64_pow z : is_u64 z <-> 0 <= z < 2 ^ 64.
Proof. unfold_ints. lia. Qed.

Lemma seed_range draw1 draw2 micros pid :
  is_u32 draw2 -> is_u64 micros -> is_u64 (random_seed draw1 draw2 micros pid).
Proof.
  intros H2 H3%u64_pow. apply u64_pow. unfold random_seed. cbv zeta.
  assert (H2' : 0 <= draw2 < 2 ^ 64) by (unfold_ints; lia).
  repeat apply lxor_range; try lia; by apply u64_pow, wrap_u64_range.
Qed.

Lemma mix_range value : is_u64 (mix value).
Proof.
  apply u64_pow. unfold mix. cbv zeta. pose proof (wrap_u64_range (value * mix_multiplier)) as H%u64_pow.
  apply lxor_range; [lia|done|]. by apply shiftr_range.
Qed.

(** The multiplier is odd, so multiplying by it can be undone. *)
Definition mix_inverse : Z := 17428512612931826493.

Lemma multiply_injective a b :
  is_u64 a -> is_u64 b -> wrap_u64 (a * mix_multiplier) = wrap_u64 (b * mix_multiplier) -> a = b.
Proof.
  intros Ha Hb H. rewrite <- (wrap_u64_id a Ha), <- (wrap_u64_id b Hb). unfold wrap_u64 in *.
  assert (Hu : forall x, x mod 2 ^ 64 = ((x * mix_multiplier) mod 2 ^ 64 * mix_inverse) mod 2 ^ 64).
  { intros x. rewrite Z.mul_mod_idemp_l by done. rewrite <- Z.mul_assoc.
    rewrite <- Z.mul_mod_idemp_r by done. replace ((mix_multiplier * mix_inverse) mod 2 ^ 64) with 1 by (by vm_compute).
    by rewrite Z.mul_1_r. }
  rewrite (Hu a), (Hu b). by rewrite H.
Qed.

(** A value xored with itself shifted right determines the value: bit by bit from
    the top. *)
Lemma xorshift_injective a b k :
  0 < k -> is_u64 a -> is_u64 b -> Z.lxor a (Z.shiftr a k) = Z.lxor b (Z.shiftr b k) -> a = b.
Proof.
  intros Hk Ha%u64_pow Hb%u64_pow H.
  assert (Hbits : forall m, 0 <= m -> forall n, 64 - m <= n -> Z.testbit a n = Z.testbit b n).
  { intros m Hm. pattern m. apply natlike_ind; [| |done]; clear m Hm.
    - intros n Hn. rewrite !Z.bits_above_log2; try lia.
      + destruct (Z.eq_dec b 0) as [->|]; [cbn; lia|]. apply Z.log2_lt_pow2; [lia|].
        eapply Z.lt_le_trans; [apply Hb|]. apply Z.pow_le_mono_r; lia.
      + destruct (Z.eq_dec a 0) as [->|]; [cbn; lia|]. apply Z.log2_lt_pow2; [lia|].
        eapply Z.lt_le_trans; [apply Ha|]. apply Z.pow_le_mono_r; lia.
    - intros m Hm IH n Hn. destruct (Z.le_gt_cases 0 n) as [H0|H0].
      2:{ by rewrite !Z.testbit_neg_r. }
      assert (Hx : Z.testbit (Z.lxor a (Z.shiftr a k)) n = Z.testbit (Z.lxor b (Z.shiftr b k)) n) by by rewrite H.
      rewrite !Z.lxor_spec, !Z.shiftr_spec in Hx by done. rewrite (IH (n + k)) in Hx by lia.
      by destruct (Z.testbit a n), (Z.testbit b n), (Z.testbit b (n + k)). }
  apply Z.bits_inj'. intros n Hn. apply (Hbits 64); lia.
Qed.

Lemma mix_injective a b : is_u64 a -> is_u64 b -> mix a = mix b -> a = b.
Proof.
  intros Ha Hb H. apply multiply_injective; [done|done|].
  eapply (xorshift_injective _ _ 29); [lia|apply wrap_u64_range..|exact H].
Qed.

Lemma mix_zero value : is_u64 value -> mix value = 0 -> value = 0.
Proof. intros Hv H. apply mix_injective; [done|by vm_compute|]. by rewrite H. Qed.
