(* ===== verification/Net.v ===== *)
(** * Sockets ([src/net.hpp], [src/net.cpp])

    The socket functions on POSIX: the calls they make, given what each returns,
    and the loop that sends a whole buffer.  Socket options are best effort: what
    they return is ignored. *)

From stdpp Require Import pretty.
From S2P Require Import Prelude.
From S2P Require Import Status.
From S2P Require Import Bytes.
From S2P Require Import Platform.

Definition invalid_handle : Z := -1.
Definition kInvalid : Z := -1.

(** The socket library needs no start on POSIX. *)
Definition initialize : bool := true.

Definition last_error_text (errno : Z) : string := ("socket error " ++ pretty errno)%string.

Definition socket_failure (errno : Z) : Status :=
  mkStatus Code_io_failure Reason_io_failure (last_error_text errno).
Definition library_unavailable : Status :=
  mkStatus Code_unsupported Reason_io_failure "socket library unavailable".

(** [closed] is what [close] returns. *)
Definition close_handle (handle closed : Z) : Status * list SysCall :=
  if handle =? invalid_handle then (ok_status, [])
  else if negb (closed =? 0) then
    (mkStatus Code_io_failure Reason_io_failure "close failed", [Sys_close handle])
  else (ok_status, [Sys_close handle]).

Definition shutdown_handle (handle : Z) : Status * list SysCall :=
  if handle =? invalid_handle then (ok_status, []) else (ok_status, [Sys_shutdown handle]).

(** ** Connecting *)

(** What the calls of [listen_loopback] return; [ln_port] is the port of the
    bound address, in host order. *)
Record ListenIo := mkListenIo {
  ln_socket : Z; ln_bind : Z; ln_listen : Z; ln_getsockname : Z; ln_port : Z; ln_close : Z; ln_errno : Z }.

(** The result, the port stored through the reference, and the calls. *)
Definition listen_loopback (port : Z) (io : ListenIo) : Result Z * option Z * list SysCall :=
  if negb initialize then (Err library_unavailable, None, [])
  else
    let listener := ln_socket io in
    let opened := [Sys_socket listener] in
    if listener =? kInvalid then (Err (socket_failure (ln_errno io)), None, opened)
    else
      let fail calls : Result Z * option Z * list SysCall :=
        (Err (socket_failure (ln_errno io)), None, calls ++ (close_handle listener (ln_close io)).2) in
      let calls := opened ++ [Sys_setsockopt listener; Sys_bind listener port] in
      if negb (ln_bind io =? 0) then fail calls
      else
        let calls := calls ++ [Sys_listen listener 32] in
        if negb (ln_listen io =? 0) then fail calls
        else
          let calls := calls ++ [Sys_getsockname listener] in
          if negb (ln_getsockname io =? 0) then fail calls
          else (Ok listener, Some (ln_port io), calls).

Definition accept_one (listener accepted errno : Z) : Result Z * list SysCall :=
  if accepted =? kInvalid then (Err (socket_failure errno), [Sys_accept listener accepted])
  else (Ok accepted, [Sys_accept listener accepted; Sys_setsockopt accepted]).

(** [cn_pton] is what [inet_pton] makes of the host. *)
Record ConnectIo := mkConnectIo {
  cn_socket : Z; cn_pton : Z; cn_connect : Z; cn_close : Z; cn_errno : Z }.

Definition connect_loopback (port : Z) (io : ConnectIo) : Result Z * list SysCall :=
  if negb initialize then (Err library_unavailable, [])
  else
    let client := cn_socket io in
    let opened := [Sys_socket client] in
    if client =? kInvalid then (Err (socket_failure (cn_errno io)), opened)
    else if negb (cn_pton io =? 1) then
      (Err (mkStatus Code_invalid Reason_domain_invalid "bind address must be a literal IPv4 address"),
       opened ++ (close_handle client (cn_close io)).2)
    else
      let calls := opened ++ [Sys_connect client port] in
      if negb (cn_connect io =? 0) then
        (Err (socket_failure (cn_errno io)), calls ++ (close_handle client (cn_close io)).2)
      else (Ok client, calls ++ [Sys_setsockopt client]).

(** ** Sending and receiving *)

(** The largest request of one call. *)
Definition kMaxRequest : Z := 2 ^ 20.

Definition EPIPE : Z := 32.

(** What [send] with no flags makes of a request: a count of bytes taken, an error,
    or a connection that can no longer be written to, because it was shut down or
    the peer has closed it.  The last raises [SIGPIPE] and, where the process
    survives that, fails with [EPIPE]. *)
Inductive SendAnswer :=
  | Send_took (n : Z)
  | Send_failed (errno : Z)
  | Send_broken.

(** Whether the process has [SIGPIPE] ignored or blocked.  The program never
    changes the disposition, so it is what the process was started with; by
    default the signal ends it. *)
Inductive Sigpipe := Sigpipe_default | Sigpipe_ignored.
#[export] Instance Sigpipe_eq_dec : EqDecision Sigpipe.
Proof. solve_decision. Defined.

(** How a send comes back to its caller: with a status, or not at all. *)
Inductive Sending :=
  | Sending_returned (s : Status)
  | Sending_killed.

Definition Sending_ok (s : Sending) : bool :=
  match s with Sending_returned s => Status_ok s | Sending_killed => false end.

Lemma sending_ok_inv s : Sending_ok s = true -> exists st, s = Sending_returned st /\ Status_ok st = true.
Proof. destruct s as [st|]; [by exists st|done]. Qed.

(** The loop of [send_all]: [kernel] is what a [send] at an offset does with a
    request; each offset is tried once, since a turn either ends the loop or
    advances.  Its outcome, the bytes sent, and the calls; every turn that does
    not end it advances by at least one byte, so the size of the buffer and one
    more is fuel enough.  [errno] is what the variable holds from earlier calls: a
    send that takes nothing does not set it. *)
Fixpoint send_loop (fuel : nat) (sigpipe : Sigpipe) (fd : Z) (kernel : nat -> Z -> SendAnswer)
    (errno : Z) (size sent : nat) : option Sending * nat * list SysCall :=
  match fuel with
  | O => (None, sent, [])
  | S fuel =>
      if (size <=? sent)%nat then (Some (Sending_returned ok_status), sent, [])
      else
        let chunk := Z.of_nat (size - sent) in
        let request := if kMaxRequest <? chunk then kMaxRequest else chunk in
        let calls := [Sys_send fd sent request] in
        match kernel sent request with
        | Send_broken =>
            (Some (match sigpipe with
                   | Sigpipe_default => Sending_killed
                   | Sigpipe_ignored => Sending_returned (socket_failure EPIPE)
                   end), sent, calls)
        | Send_failed failure => (Some (Sending_returned (socket_failure failure)), sent, calls)
        | Send_took written =>
            if written <=? 0 then (Some (Sending_returned (socket_failure errno)), sent, calls)
            else
              let '(result, sent', calls') :=
                send_loop fuel sigpipe fd kernel errno size (sent + Z.to_nat written) in
              (result, sent', calls ++ calls')
        end
  end.

Definition send_all (sigpipe : Sigpipe) (fd : Z) (kernel : nat -> Z -> SendAnswer) (errno : Z)
    (data : list byte) : option Sending * nat * list SysCall :=
  send_loop (S (length data)) sigpipe fd kernel errno (length data) 0.

(** The bytes an answer took. *)
Definition taken (a : SendAnswer) : nat := match a with Send_took n => Z.to_nat n | _ => 0 end.

(** What the calls put on the wire: at each offset, as many bytes of the buffer
    as the kernel took. *)
Fixpoint wired (kernel : nat -> Z -> SendAnswer) (data : list byte) (calls : list SysCall) : list byte :=
  match calls with
  | Sys_send _ offset request :: calls =>
      take (taken (kernel offset request)) (drop offset data) ++ wired kernel data calls
  | _ :: calls => wired kernel data calls
  | [] => []
  end.

(** [kernel] gives the bytes received for a request, none for a failure. *)
Definition recv_some (fd : Z) (kernel : Z -> option (list byte)) (errno : Z) (buffer : Z)
    : Result (list byte) * list SysCall :=
  if buffer =? 0 then (Ok [], [])
  else
    let request := if kMaxRequest <? buffer then kMaxRequest else buffer in
    match kernel request with
    | None => (Err (socket_failure errno), [Sys_recv fd request])
    | Some got => (Ok got, [Sys_recv fd request])
    end.

(** ** Descriptors *)

Lemma remove_self fd : List.remove Z.eq_dec fd [fd] = [].
Proof. cbn. by destruct (Z.eq_dec fd fd). Qed.

(** A descriptor that a failure path closes is gone. *)
Ltac descriptors fd :=
  unfold held; cbn [app foldl holds fst snd];
  destruct (Z.ltb_spec fd 0); [lia|]; cbn [app]; rewrite ?remove_self; reflexivity.

(** A listener comes with its port, a failure with a status that is one. *)
Lemma listen_result port io :
  match listen_loopback port io with
  | (Ok listener, bound, _) => bound = Some (ln_port io) /\ listener = ln_socket io
  | (Err status, bound, _) => bound = None /\ Status_ok status = false
  end.
Proof.
  unfold listen_loopback. cbn [initialize negb]. cbv zeta. destruct (_ =? kInvalid); [done|].
  do 3 (destruct (negb _); [done|]). done.
Qed.

Lemma listen_holds port io :
  ln_socket io = kInvalid \/ 0 <= ln_socket io ->
  let '(result, bound, calls) := listen_loopback port io in
  held calls = match result with Ok h => [h] | Err _ => [] end /\
  (is_Some bound <-> Result_ok result = true).
Proof.
  intros Hfd. unfold listen_loopback. cbn [initialize negb]. cbv zeta.
  destruct (Z.eqb_spec (ln_socket io) kInvalid) as [->|Hne]; [split; [done|]; split; [by intros []|done]|].
  assert (H0 : 0 <= ln_socket io) by tauto. unfold close_handle, invalid_handle.
  unfold kInvalid in Hne. destruct (Z.eqb_spec (ln_socket io) (-1)) as [|_]; [done|].
  destruct (negb (ln_close io =? 0)).
  all: destruct (negb (ln_bind io =? 0)); [split; [descriptors (ln_socket io)|split; [by intros []|done]]|].
  all: destruct (negb (ln_listen io =? 0)); [split; [descriptors (ln_socket io)|split; [by intros []|done]]|].
  all: destruct (negb (ln_getsockname io =? 0)); [split; [descriptors (ln_socket io)|split; [by intros []|done]]|].
  all: (split; [descriptors (ln_socket io)|split; [done|by eexists]]).
Qed.

Lemma connect_holds port io :
  cn_socket io = kInvalid \/ 0 <= cn_socket io ->
  held (connect_loopback port io).2 =
    match (connect_loopback port io).1 with Ok h => [h] | Err _ => [] end.
Proof.
  intros Hfd. unfold connect_loopback. cbn [initialize negb]. cbv zeta.
  destruct (Z.eqb_spec (cn_socket io) kInvalid) as [->|Hne]; [done|].
  assert (H0 : 0 <= cn_socket io) by tauto. unfold close_handle, invalid_handle.
  unfold kInvalid in Hne. destruct (Z.eqb_spec (cn_socket io) (-1)) as [|_]; [done|].
  destruct (negb (cn_close io =? 0)).
  all: destruct (negb (cn_pton io =? 1)); [descriptors (cn_socket io)|].
  all: destruct (negb (cn_connect io =? 0)); descriptors (cn_socket io).
Qed.

Lemma accept_holds listener accepted errno :
  accepted = kInvalid \/ 0 <= accepted ->
  held (accept_one listener accepted errno).2 =
    match (accept_one listener accepted errno).1 with Ok h => [h] | Err _ => [] end.
Proof.
  intros Hfd. unfold accept_one. destruct (Z.eqb_spec accepted kInvalid) as [->|Hne]; [done|].
  assert (H0 : 0 <= accepted) by tauto. descriptors accepted.
Qed.

(** ** The loop sends the buffer *)

(** A kernel takes no more than it is asked. *)
Definition modest (kernel : nat -> Z -> SendAnswer) : Prop :=
  forall offset request n, kernel offset request = Send_took n -> n <= request.

Lemma request_bounds chunk :
  0 < chunk -> 0 < (if kMaxRequest <? chunk then kMaxRequest else chunk) <= Z.min kMaxRequest chunk.
Proof. intros H. destruct (Z.ltb_spec kMaxRequest chunk); unfold kMaxRequest in *; lia. Qed.

(** The calls of a loop that starts at [sent] cover the bytes from there on, in
    order and without a gap, each within the bound. *)
Definition within (fd : Z) (size : nat) (c : SysCall) : Prop :=
  match c with
  | Sys_send fd' offset request => fd' = fd /\ 0 < request <= kMaxRequest /\ Z.of_nat offset + request <= Z.of_nat size
  | _ => False
  end.

(** What is to be shown of the calls of a send that has gone from [sent] to
    [sent']: they put these bytes on the wire, the whole buffer exactly on
    success, with a call for every byte at most; and it does not return exactly
    when the last of them met a broken connection that kills. *)
Record sends (sigpipe : Sigpipe) (fd : Z) (kernel : nat -> Z -> SendAnswer) (data : list byte)
    (sent sent' : nat) (sending : Sending) (calls : list SysCall) : Prop := {
  sd_bounds : (sent <= sent' <= length data)%nat;
  sd_wired : wired kernel data calls = take (sent' - sent) (drop sent data);
  sd_within : Forall (within fd (length data)) calls;
  sd_ok : Sending_ok sending = true <-> sent' = length data;
  sd_calls : (length calls <= length data - sent)%nat;
  sd_killed : sending = Sending_killed <-> sigpipe = Sigpipe_default /\
    exists request, last calls = Some (Sys_send fd sent' request) /\ kernel sent' request = Send_broken }.

(** A call that ends the loop. *)
Lemma sends_stop sigpipe fd kernel data sent request sending :
  within fd (length data) (Sys_send fd sent request) -> taken (kernel sent request) = 0%nat ->
  Sending_ok sending = false ->
  (sending = Sending_killed <-> sigpipe = Sigpipe_default /\ kernel sent request = Send_broken) ->
  sends sigpipe fd kernel data sent sent sending [Sys_send fd sent request].
Proof.
  intros Hw Ht Hok Hkill. pose proof Hw as (_ & Hr & Hb). constructor.
  - lia.
  - cbn [wired]. by rewrite Ht, Nat.sub_diag.
  - by constructor.
  - rewrite Hok. split; [done|lia].
  - cbn. lia.
  - rewrite Hkill. split; intros [Hs H]; (split; [exact Hs|]); [by exists request|].
    by destruct H as (r & [= <-] & H).
Qed.

(** A call that takes bytes, before the rest. *)
Lemma sends_cons sigpipe fd kernel data sent request n sent' sending calls :
  within fd (length data) (Sys_send fd sent request) -> kernel sent request = Send_took n -> 0 < n <= request ->
  sends sigpipe fd kernel data (sent + Z.to_nat n) sent' sending calls ->
  sends sigpipe fd kernel data sent sent' sending (Sys_send fd sent request :: calls).
Proof.
  intros Hw Hk Hn [Hb Hwire Hc Hok Hl Hkill]. pose proof Hw as (_ & Hr & Hb0). constructor.
  - lia.
  - cbn [wired]. rewrite Hk, Hwire, <- drop_drop. cbn [taken]. set (m := Z.to_nat n) in *.
    replace (sent' - sent)%nat with (m + (sent' - (sent + m)))%nat by lia. apply take_take_drop.
  - by constructor.
  - exact Hok.
  - cbn [length]. lia.
  - rewrite Hkill. destruct calls as [|c calls]; [|done]. cbn [last].
    split; intros [Hs (r & Hlast & H)]; [done|]. injection Hlast as <- <-. rewrite Hk in H. discriminate H.
Qed.

Lemma send_loop_exact fuel sigpipe fd kernel errno data sent :
  modest kernel -> (sent <= length data)%nat -> (length data - sent < fuel)%nat ->
  exists sending sent' calls,
    send_loop fuel sigpipe fd kernel errno (length data) sent = (Some sending, sent', calls) /\
    sends sigpipe fd kernel data sent sent' sending calls.
Proof.
  intros Hk. revert sent. induction fuel as [|fuel IH]; intros sent Hs Hf; [lia|]. cbn [send_loop].
  destruct (Nat.leb_spec (length data) sent) as [Hle|Hlt].
  { assert (sent = length data) by lia. subst. eexists _, _, _. split; [reflexivity|].
    constructor; rewrite ?Nat.sub_diag; [lia|done|constructor|done|done|].
    split; [done|]. by intros (_ & r & H & _). }
  cbv zeta. pose proof (request_bounds (Z.of_nat (length data - sent)) ltac:(lia)) as Hr.
  set (request := if _ <? _ then _ else _) in *. clearbody request.
  assert (Hw : within fd (length data) (Sys_send fd sent request)) by (unfold within; lia).
  destruct (kernel sent request) as [n|e|] eqn:Hkern.
  - destruct (Z.leb_spec n 0) as [Hz|Hz].
    + eexists _, _, _. split; [reflexivity|]. apply sends_stop; [exact Hw| |done|].
      * rewrite Hkern. cbn. lia.
      * rewrite Hkern. split; [done|by intros [_ ?]].
    + pose proof (Hk _ _ _ Hkern) as Hn.
      destruct (IH (sent + Z.to_nat n)%nat ltac:(lia) ltac:(lia)) as (sending & sent' & calls & -> & H).
      eexists _, _, _. split; [reflexivity|]. by apply (sends_cons _ _ _ _ _ _ n).
  - eexists _, _, _. split; [reflexivity|]. apply sends_stop; [exact Hw|by rewrite Hkern|done|].
    rewrite Hkern. split; [done|by intros [_ ?]].
  - eexists _, _, _. split; [reflexivity|]. apply sends_stop; [exact Hw|by rewrite Hkern|by destruct sigpipe|].
    rewrite Hkern. by destruct sigpipe; (split; [|intros []]).
Qed.

(** C38: A send is the whole buffer or a prefix of it.  Whatever the kernel takes
    of each request, as long as it is never more than was asked, sending a buffer
    ends, after at most one call per byte; what reached the wire is a prefix of
    the buffer in order, without gap or repetition, and the function succeeds
    exactly when it is all of it; no request exceeds the bound or reaches beyond
    the buffer; and the process is killed exactly when the last call found the
    connection broken and [SIGPIPE] has its default disposition.  Receiving makes
    no call for an empty buffer, otherwise one, within the bound and the buffer,
    and hands on what it delivered.  Each of listening, accepting and connecting
    leaves exactly the descriptor it returns open, and none when it fails. *)
Theorem sockets_exact sigpipe fd kernel errno data :
  modest kernel ->
  (exists sending sent calls, send_all sigpipe fd kernel errno data = (Some sending, sent, calls) /\
     wired kernel data calls = take sent data /\
     (Sending_ok sending = true <-> wired kernel data calls = data) /\
     Forall (within fd (length data)) calls /\ (length calls <= length data)%nat /\
     (sending = Sending_killed <-> sigpipe = Sigpipe_default /\
        exists request, last calls = Some (Sys_send fd sent request) /\ kernel sent request = Send_broken)) /\
  (forall receive buffer, 0 <= buffer ->
     let '(received, calls) := recv_some fd receive errno buffer in
     (buffer = 0 -> received = Ok [] /\ calls = []) /\
     (0 < buffer -> exists request, calls = [Sys_recv fd request] /\
        0 < request <= Z.min buffer kMaxRequest /\
        received = match receive request with Some got => Ok got | None => Err (socket_failure errno) end)) /\
  (forall port io, ln_socket io = kInvalid \/ 0 <= ln_socket io ->
     held (listen_loopback port io).2 =
       match (listen_loopback port io).1.1 with Ok h => [h] | Err _ => [] end) /\
  (forall port io, cn_socket io = kInvalid \/ 0 <= cn_socket io ->
     held (connect_loopback port io).2 =
       match (connect_loopback port io).1 with Ok h => [h] | Err _ => [] end) /\
  (forall listener accepted failure, accepted = kInvalid \/ 0 <= accepted ->
     held (accept_one listener accepted failure).2 =
       match (accept_one listener accepted failure).1 with Ok h => [h] | Err _ => [] end).
Proof.
  intros Hk. split; [|split; [|split; [|split]]].
  - destruct (send_loop_exact (S (length data)) sigpipe fd kernel errno data 0 Hk ltac:(lia) ltac:(lia))
      as (sending & sent & calls & He & [Hb Hw Hc Hok Hl Hkill]).
    rewrite drop_0, Nat.sub_0_r in *. exists sending, sent, calls. split; [exact He|]. split; [exact Hw|].
    split; [|by split; [|split; [lia|]]]. rewrite Hok, Hw. split; [intros ->; by rewrite firstn_all|].
    intros E%(f_equal length). rewrite length_take in E. lia.
  - intros receive buffer H0. unfold recv_some. destruct (Z.eqb_spec buffer 0) as [->|Hne]; [split; [done|lia]|].
    pose proof (request_bounds buffer ltac:(lia)) as Hr. cbv zeta. set (request := if _ <? _ then _ else _) in *.
    destruct (receive request) as [got|] eqn:Hgot; (split; [lia|]); intros _; exists request; rewrite Hgot;
      (split; [done|]); (split; [lia|done]).
  - intros port io H. pose proof (listen_holds port io H) as Hl.
    destruct (listen_loopback port io) as [[result bound] calls]. apply Hl.
  - intros port io. apply connect_holds.
  - intros listener accepted failure. apply accept_holds.
Qed.

(** A kernel that takes three bytes at a time, until the peer has closed. *)
Definition slow_kernel (offset : nat) (request : Z) : SendAnswer :=
  if (offset <? 6)%nat then Send_took (Z.min request 3) else Send_broken.

Definition sample_data : list byte := String.list_byte_of_string "failover".
Definition sample_sent := send_all Sigpipe_default 5 slow_kernel 0 sample_data.

Lemma sockets_exact_witness :
  sample_sent.1.1 = Some Sending_killed /\
  exists sending sent calls, sample_sent = (Some sending, sent, calls) /\
    wired slow_kernel sample_data calls = take sent sample_data /\
    (Sending_ok sending = true <-> wired slow_kernel sample_data calls = sample_data) /\
    Forall (within 5 (length sample_data)) calls /\ (length calls <= length sample_data)%nat /\
    (sending = Sending_killed <-> Sigpipe_default = Sigpipe_default /\
       exists request, last calls = Some (Sys_send 5 sent request) /\ slow_kernel sent request = Send_broken).
Proof.
  split; [reflexivity|]. apply (sockets_exact Sigpipe_default 5 slow_kernel 0 sample_data).
  intros o r n. unfold slow_kernel. destruct (o <? 6)%nat; [intros [= <-]; apply Z.le_min_l|done].
Defined.
