(* ===== verification/Args.v ===== *)
(** * Command lines ([apps/args.hpp])

    The helpers the tools read their arguments with.  An argument vector is a
    list whose head is the program name; no entry before [argc] is null. *)

From Stdlib Require Import Ascii.
From stdpp Require Import strings pretty.
From S2P Require Import Prelude.

(** ** Looking arguments up *)

(** The loop of [arg_value]: every position that has a successor is compared. *)
Fixpoint find_value (args : list string) (key : string) : option string :=
  match args with
  | a :: (b :: _) as rest => if String.eqb key a then Some b else find_value rest key
  | _ => None
  end.
Definition arg_value (argv : list string) (key : string) : option string := find_value (tail argv) key.

Definition flag_present (argv : list string) (key : string) : bool := existsb (String.eqb key) (tail argv).

Definition arg_or (argv : list string) (key fallback : string) : string := default fallback (arg_value argv key).

(** Two leading dashes. *)
Definition is_option (view : string) : bool :=
  match view with String "-"%char (String "-"%char _) => true | _ => false end.

(** The loop of [command]: an option is skipped together with what follows it. *)
Fixpoint find_command (args : list string) : option string :=
  match args with
  | [] => None
  | a :: rest =>
      if is_option a then match rest with [] => None | _ :: rest => find_command rest end else Some a
  end.
Definition command (argv : list string) : option string := find_command (tail argv).

(** ** Numbers: [std::strtoull] in base ten *)

Definition is_space (c : ascii) : bool :=
  let n := Z.of_N (N_of_ascii c) in (n =? 32) || ((9 <=? n) && (n <=? 13)).
Definition digit_of (c : ascii) : option Z :=
  let n := Z.of_N (N_of_ascii c) in if (48 <=? n) && (n <=? 57) then Some (n - 48) else None.

Fixpoint skip_spaces (s : string) : string :=
  match s with
  | String c s' => if is_space c then skip_spaces s' else s
  | EmptyString => s
  end.

Fixpoint read_digits (s : string) (n : Z) : Z :=
  match s with
  | String c s' => match digit_of c with Some d => read_digits s' (10 * n + d) | None => n end
  | EmptyString => n
  end.

Definition strtoull (s : string) : Z :=
  let magnitude (s : string) (negative : bool) :=
    let n := read_digits s 0 in
    if UINT64_MAX <? n then UINT64_MAX else if negative then wrap_u64 (- n) else n in
  match skip_spaces s with
  | String "-"%char s' => magnitude s' true
  | String "+"%char s' => magnitude s' false
  | s' => magnitude s' false
  end.

Definition arg_u64 (argv : list string) (key : string) (fallback : Z) : Z :=
  match arg_value argv key with
  | None => fallback
  | Some value => strtoull value
  end.

(** ** Decimal numbers are read back *)

(** [%llu] and its like. *)
Definition decimal (n : Z) : string := pretty n.

Lemma digit_of_char d : (d < 10)%N -> digit_of (pretty_N_char d) = Some (Z.of_N d).
Proof.
  intros Hd. assert (H : In d [0; 1; 2; 3; 4; 5; 6; 7; 8; 9]%N) by (cbn; lia).
  cbn in H. by repeat destruct H as [<-|H].
Qed.

Lemma read_digits_go x s : read_digits (pretty_N_go x s) 0 = read_digits s (Z.of_N x).
Proof.
  revert s. induction (N.lt_wf_0 x) as [x _ IH]; intros s.
  destruct (decide (x = 0%N)) as [->|Hx]; [done|].
  rewrite pretty_N_go_step by lia. rewrite IH by (by apply N.div_lt; lia). cbn [read_digits].
  rewrite digit_of_char by (by apply N.mod_lt). f_equal.
  pose proof (N.div_mod x 10 ltac:(done)). lia.
Qed.

Lemma read_decimal n : 0 <= n -> read_digits (decimal n) 0 = n.
Proof.
  intros Hn. unfold decimal, pretty, pretty_Z. destruct n as [|p|p]; [done| |lia].
  unfold pretty, pretty_positive, pretty, pretty_N. rewrite decide_False by done. by rewrite read_digits_go.
Qed.

(** A decimal number starts with a digit. *)
Lemma decimal_head n : 0 <= n -> exists c s d, decimal n = String c s /\ digit_of c = Some d.
Proof.
  intros Hn. unfold decimal, pretty, pretty_Z. destruct n as [|p|p]; [by exists "0"%char, "", 0| |lia].
  unfold pretty, pretty_positive, pretty, pretty_N. rewrite decide_False by done.
  assert (Hgo : forall x s, (0 < x)%N -> exists c s' d, pretty_N_go x s = String c s' /\ digit_of c = Some d).
  { clear. intros x. induction (N.lt_wf_0 x) as [x _ IH]; intros s Hx. rewrite pretty_N_go_step by done.
    destruct (decide (x / 10 = 0)%N) as [->|Hne]; [|apply IH; [apply N.div_lt; lia|by apply N.neq_0_lt_0]].
    do 3 eexists. split; [apply pretty_N_go_0|]. apply digit_of_char, N.mod_lt. done. }
  by apply Hgo.
Qed.

Lemma digit_plain c d : digit_of c = Some d -> is_space c = false /\ c <> "-"%char /\ c <> "+"%char.
Proof.
  unfold digit_of, is_space. cbv zeta. destruct (_ && _) eqn:E; [|done]. intros _.
  apply andb_prop in E as [H1%Z.leb_le H2%Z.leb_le]. split; [|split; intros ->; vm_compute in H1; congruence].
  apply orb_false_intro; [by apply Z.eqb_neq; lia|]. apply andb_false_iff. right. apply Z.leb_gt. lia.
Qed.

Lemma strtoull_decimal n : is_u64 n -> strtoull (decimal n) = n.
Proof.
  intros [H0 Hn]. pose proof (read_decimal n H0) as Hr. destruct (decimal_head n H0) as (c & s & d & E & Hd).
  apply digit_plain in Hd as (Hs & Hm & Hp). unfold strtoull. rewrite E in *. cbn [skip_spaces]. rewrite Hs.
  destruct (Z.ltb_spec UINT64_MAX n); [lia|].
  assert (Hz : (UINT64_MAX <? n) = false) by (by apply Z.ltb_ge).
  destruct c as [[] [] [] [] [] [] [] []]; try (cbv zeta; rewrite Hr, Hz; reflexivity);
    exfalso; congruence.
Qed.

Lemma find_value_first pre key v post :
  key ∉ pre -> find_value (pre ++ key :: v :: post) key = Some v.
Proof.
  induction pre as [|a pre IH]; intros Hk; cbn [app find_value]; [by rewrite String.eqb_refl|].
  apply not_elem_of_cons in Hk as [Hne Hk]. specialize (IH Hk).
  destruct (String.eqb_spec key a) as [->|_]; [done|].
  destruct pre; exact IH.
Qed.

Lemma find_value_absent args key : key ∉ args -> find_value args key = None.
Proof.
  induction args as [|a args IH]; intros Hk; [done|]. apply not_elem_of_cons in Hk as [Hne Hk].
  cbn [find_value]. destruct args as [|b args]; [done|]. destruct (String.eqb_spec key a); [done|by apply IH].
Qed.

(** Options and their values before the command. *)
Inductive options_only : list string -> Prop :=
  | oo_nil : options_only []
  | oo_cons key value rest : is_option key = true -> options_only rest -> options_only (key :: value :: rest).

Lemma find_command_after pre cmd post :
  options_only pre -> is_option cmd = false -> find_command (pre ++ cmd :: post) = Some cmd.
Proof. intros Hpre Hc. induction Hpre as [|key value rest Hk _ IH]; cbn; [by rewrite Hc|by rewrite Hk]. Qed.

(** Whatever is given, a number within its type is read. *)
Lemma read_digits_nonneg s n : 0 <= n -> 0 <= read_digits s n.
Proof.
  revert n. induction s as [|c s IH]; intros n Hn; [done|]. cbn [read_digits]. unfold digit_of. cbv zeta.
  destruct (Z.leb_spec 48 (Z.of_N (N_of_ascii c))); cbn [andb]; [|done].
  destruct (_ <=? _); [apply IH; lia|done].
Qed.

Lemma strtoull_range s : is_u64 (strtoull s).
Proof.
  unfold strtoull. cbv zeta.
  assert (H : forall t m, is_u64 m -> is_u64 (if UINT64_MAX <? read_digits t 0 then UINT64_MAX else m)).
  { intros t m Hm. destruct (_ <? _); [unfold_ints; lia|exact Hm]. }
  assert (Hp : forall t, is_u64 (if UINT64_MAX <? read_digits t 0 then UINT64_MAX else read_digits t 0)).
  { intros t. pose proof (read_digits_nonneg t 0 ltac:(lia)).
    destruct (Z.ltb_spec UINT64_MAX (read_digits t 0)); unfold is_u64; [unfold_ints; lia|lia]. }
  repeat first [apply Hp|apply H, wrap_u64_range|case_match].
Qed.

Lemma arg_u64_range argv key fallback : is_u64 fallback -> is_u64 (arg_u64 argv key fallback).
Proof. intros H. unfold arg_u64. destruct (arg_value argv key); [apply strtoull_range|done]. Qed.

(** Arguments are read back.  A number in the range of its type that is given
    in decimal behind a key is the number read, whatever comes before, as long as
    the key does not, and after it; a key that is not given yields the fallback;
    and the command is the first word behind any options with their values. *)
Theorem arguments_read_back program pre key n post fallback :
  is_u64 n -> key ∉ pre ->
  arg_u64 (program :: pre ++ key :: decimal n :: post) key fallback = n /\
  (key ∉ post -> arg_u64 (program :: pre ++ post) key fallback = fallback) /\
  flag_present (program :: pre ++ key :: post) key = true /\
  (forall cmd, options_only pre -> is_option cmd = false -> command (program :: pre ++ cmd :: post) = Some cmd).
Proof.
  intros Hn Hk. split; [|split; [|split]].
  - unfold arg_u64, arg_value. cbn [tail]. rewrite find_value_first by done. by apply strtoull_decimal.
  - intros Hp. unfold arg_u64, arg_value. cbn [tail]. rewrite find_value_absent; [done|].
    intros [?|?]%elem_of_app; by auto.
  - unfold flag_present. cbn [tail]. apply existsb_exists. exists key. rewrite String.eqb_refl. split; [|done].
    apply in_or_app. right. by left.
  - intros cmd Hpre Hc. by apply find_command_after.
Qed.

Lemma arguments_read_back_witness :
  arg_u64 ["pffctl"; "--port"; "7421"; "promote"; "--set"; "18446744073709551615"]%string "--set" 0 = UINT64_MAX /\
  command ["pffctl"; "--port"; "7421"; "promote"; "--set"; "7"]%string = Some "promote"%string.
Proof.
  split.
  - refine (proj1 (arguments_read_back "pffctl" ["--port"; "7421"; "promote"]%string "--set" UINT64_MAX [] 0 _ _)).
    + vm_compute. split; congruence.
    + apply (bool_decide_unpack _). by vm_compute.
  - refine (proj2 (proj2 (proj2 (arguments_read_back "pffctl" ["--port"; "7421"]%string "--set" 7
      ["--set"; "7"]%string 0 _ _))) "promote"%string _ eq_refl).
    + vm_compute. split; congruence.
    + apply (bool_decide_unpack _). by vm_compute.
    + by repeat constructor.
Defined.
