(* ===== verification/Tools.v ===== *)
(** * What the command-line programs share

    The outcome of a process and the rendering of the values it prints.  A
    process is modelled by its exit status and by the lines it writes to its
    standard output and standard error, without their newlines. *)

From S2P Require Import Prelude.
From S2P Require Import Ids.
From S2P Require Import Status.
From S2P Require Import Args.

Record Exit := mkExit { ex_code : Z; ex_out : list string; ex_err : list string }.

(** The arguments of one [printf], in order. *)
Definition line (parts : list string) : string := String.concat "" parts.

(** [%d] of a condition. *)
Definition flag (b : bool) : string := if b then "1" else "0".

Definition show_id {T} (i : Id T) : string := id_hex (Id_value i).
Definition show_number {T} (i : Id T) : string := decimal (Id_value i).

(** [c_str]: printing stops at the first zero character. *)
Fixpoint c_str (s : string) : string :=
  match s with
  | EmptyString => EmptyString
  | String c s' => if Ascii.eqb c Ascii.zero then EmptyString else String c (c_str s')
  end.

Definition describe (s : Status) : string := c_str (Status_describe s).

(** A failure reported on the standard error. *)
Definition failed (code : Z) (out : list string) (prefix : string) (s : Status) : Exit :=
  mkExit code out [line [prefix; ": "; describe s]].
