(* ===== verification/Protocol.v ===== *)
(** * The framed protocol ([include/pff/protocol.hpp], [src/protocol.cpp])

    Message types, the frame codec with its streaming decoder, and the codecs of
    the message payloads.  Names and details are byte strings; the reservation a
    writer is given has no effect on its bytes and is left out. *)

From S2P Require Import Prelude.
From S2P Require Import Ids.
From S2P Require Import Limits.
From S2P Require Import Status.
From S2P Require Import Checked.
From S2P Require Import Authority.
From S2P Require Import Model.
From S2P Require Import Decision.
From S2P Require Import Records.
From S2P Require Import Bytes.
From S2P Require Import Canonical.
From S2P Require Import Wire.
From S2P Require Import Store.

(** ** Message types *)

Inductive MsgType :=
  | MsgType_hello | MsgType_hello_ack | MsgType_error_rsp | MsgType_ok_rsp | MsgType_status_req
  | MsgType_status_rsp | MsgType_set_policy_req | MsgType_set_obligations_req | MsgType_put_set_req
  | MsgType_put_evidence_req | MsgType_set_authority_req | MsgType_evaluate_req
  | MsgType_evaluate_rsp | MsgType_promote_req | MsgType_promote_rsp | MsgType_effect_req
  | MsgType_abandon_req | MsgType_rollback_req | MsgType_revert_req | MsgType_fence_req
  | MsgType_attempt_req | MsgType_attempt_rsp | MsgType_lineage_req | MsgType_lineage_rsp
  | MsgType_shutdown_req | MsgType_shutdown_rsp.

#[export] Instance MsgType_eq_dec : EqDecision MsgType.
Proof. solve_decision. Defined.

(** The enumerators are numbered from 1. *)
Definition MsgType_value (t : MsgType) : Z :=
  match t with
  | MsgType_hello => 1 | MsgType_hello_ack => 2 | MsgType_error_rsp => 3 | MsgType_ok_rsp => 4
  | MsgType_status_req => 5 | MsgType_status_rsp => 6 | MsgType_set_policy_req => 7
  | MsgType_set_obligations_req => 8 | MsgType_put_set_req => 9 | MsgType_put_evidence_req => 10
  | MsgType_set_authority_req => 11 | MsgType_evaluate_req => 12 | MsgType_evaluate_rsp => 13
  | MsgType_promote_req => 14 | MsgType_promote_rsp => 15 | MsgType_effect_req => 16
  | MsgType_abandon_req => 17 | MsgType_rollback_req => 18 | MsgType_revert_req => 19
  | MsgType_fence_req => 20 | MsgType_attempt_req => 21 | MsgType_attempt_rsp => 22
  | MsgType_lineage_req => 23 | MsgType_lineage_rsp => 24 | MsgType_shutdown_req => 25
  | MsgType_shutdown_rsp => 26
  end.

Definition MsgType_all : list MsgType :=
  [MsgType_hello; MsgType_hello_ack; MsgType_error_rsp; MsgType_ok_rsp; MsgType_status_req;
   MsgType_status_rsp; MsgType_set_policy_req; MsgType_set_obligations_req; MsgType_put_set_req;
   MsgType_put_evidence_req; MsgType_set_authority_req; MsgType_evaluate_req;
   MsgType_evaluate_rsp; MsgType_promote_req; MsgType_promote_rsp; MsgType_effect_req;
   MsgType_abandon_req; MsgType_rollback_req; MsgType_revert_req; MsgType_fence_req;
   MsgType_attempt_req; MsgType_attempt_rsp; MsgType_lineage_req; MsgType_lineage_rsp;
   MsgType_shutdown_req; MsgType_shutdown_rsp].

(** [static_cast<MsgType>(raw)], performed after [is_known_msg_type]. *)
Definition MsgType_cast (raw : Z) : option MsgType := MsgType_all !! Z.to_nat (raw - 1).

Definition MsgType_to_string (t : MsgType) : string :=
  match t with
  | MsgType_hello => "hello" | MsgType_hello_ack => "hello_ack" | MsgType_error_rsp => "error"
  | MsgType_ok_rsp => "ok" | MsgType_status_req => "status_req" | MsgType_status_rsp => "status_rsp"
  | MsgType_set_policy_req => "set_policy_req"
  | MsgType_set_obligations_req => "set_obligations_req" | MsgType_put_set_req => "put_set_req"
  | MsgType_put_evidence_req => "put_evidence_req" | MsgType_set_authority_req => "set_authority_req"
  | MsgType_evaluate_req => "evaluate_req" | MsgType_evaluate_rsp => "evaluate_rsp"
  | MsgType_promote_req => "promote_req" | MsgType_promote_rsp => "promote_rsp"
  | MsgType_effect_req => "effect_req" | MsgType_abandon_req => "abandon_req"
  | MsgType_rollback_req => "rollback_req" | MsgType_revert_req => "revert_req"
  | MsgType_fence_req => "fence_req" | MsgType_attempt_req => "attempt_req"
  | MsgType_attempt_rsp => "attempt_rsp" | MsgType_lineage_req => "lineage_req"
  | MsgType_lineage_rsp => "lineage_rsp" | MsgType_shutdown_req => "shutdown_req"
  | MsgType_shutdown_rsp => "shutdown_rsp"
  end.

Definition is_known_msg_type (raw : Z) : bool :=
  (MsgType_value MsgType_hello <=? raw) && (raw <=? MsgType_value MsgType_shutdown_rsp).

Definition is_request_type (t : MsgType) : bool :=
  match t with
  | MsgType_hello | MsgType_status_req | MsgType_set_policy_req | MsgType_set_obligations_req
  | MsgType_put_set_req | MsgType_put_evidence_req | MsgType_set_authority_req
  | MsgType_evaluate_req | MsgType_promote_req | MsgType_effect_req | MsgType_abandon_req
  | MsgType_rollback_req | MsgType_revert_req | MsgType_fence_req | MsgType_attempt_req
  | MsgType_lineage_req | MsgType_shutdown_req => true
  | _ => false
  end.

Definition is_response_type (t : MsgType) : bool := negb (is_request_type t).

(** ** Frames *)

Definition frame_magic : Z := 826689104.
Definition max_frame_flags : Z := 0.

Record Frame := mkFrame {
  fm_version : Z;
  fm_type : MsgType;
  fm_flags : Z;
  fm_sequence : Z;
  fm_payload : list byte }.

Definition encode_frame (type : MsgType) (sequence flags : Z) (payload : list byte) : list byte :=
  if (max_frame_payload <? size_of payload) || (max_frame_flags <? flags) then []
  else
    let writer := ByteWriter_new max_frame_bytes in
    let writer := w_u32 frame_magic writer in
    let writer := w_u16 protocol_version writer in
    let writer := w_u16 (MsgType_value type) writer in
    let writer := w_u32 flags writer in
    let writer := w_u64 sequence writer in
    let writer := w_u32 (wrap_u32 (size_of payload)) writer in
    if negb (w_ok writer) then []
    else
      let writer := w_u32 (crc32c (w_buffer writer)) writer in
      let writer := w_bytes payload writer in
      if negb (w_ok writer) then []
      else
        let writer := w_u32 (crc32c payload) writer in
        finish writer.

(** *** The streaming decoder *)

Record FrameDecoder := mkFrameDecoder {
  fd_buffer : list byte;
  fd_consumed : nat;
  fd_max_payload : Z;
  fd_status : Status }.

#[export] Instance FrameDecoder_eta : Eta FrameDecoder :=
  fun d => mkFrameDecoder (fd_buffer d) (fd_consumed d) (fd_max_payload d) (fd_status d).

Definition FrameDecoder_new (max_payload : Z) : FrameDecoder :=
  mkFrameDecoder [] 0 (Z.min max_payload max_frame_payload) ok_status.

Definition FrameDecoder_failed (d : FrameDecoder) : bool := negb (Status_ok (fd_status d)).

Definition FrameDecoder_available (d : FrameDecoder) : nat :=
  (length (fd_buffer d) - fd_consumed d)%nat.

Definition FrameDecoder_fail (code : Code) (reason : Reason) (detail : string) (d : FrameDecoder)
    : Status * FrameDecoder :=
  let d := if Status_ok (fd_status d) then d <| fd_status := mkStatus code reason detail |> else d in
  (fd_status d, d).

Definition FrameDecoder_compact (d : FrameDecoder) : FrameDecoder :=
  if (fd_consumed d =? 0)%nat then d
  else if (length (fd_buffer d) <=? fd_consumed d)%nat then
    d <| fd_buffer := [] |> <| fd_consumed := 0%nat |>
  else d <| fd_buffer := drop (fd_consumed d) (fd_buffer d) |> <| fd_consumed := 0%nat |>.

Definition FrameDecoder_feed (data : list byte) (d : FrameDecoder) : Status * FrameDecoder :=
  if negb (Status_ok (fd_status d)) then (fd_status d, d)
  else if bool_decide (data = []) then (ok_status, d)
  else if max_frame_bytes - Z.min (Z.of_nat (FrameDecoder_available d)) max_frame_bytes
          <? size_of data then
    FrameDecoder_fail Code_exhausted Reason_frame_oversize "frame buffer bound exceeded" d
  else
    let d := FrameDecoder_compact d in
    (ok_status, d <| fd_buffer ::= fun b => b ++ data |>).

Definition read_u16_at (bytes : list byte) (offset : nat) : Z :=
  le_value (take 2 (drop offset bytes)).

(** The bytes of a frame with a payload of [payload_length] bytes. *)
Definition frame_total (payload_length : Z) : Z :=
  frame_header_bytes + payload_length + frame_trailer_bytes.

Definition FrameDecoder_has_frame (d : FrameDecoder) : bool :=
  if negb (Status_ok (fd_status d)) then false
  else
    let available_bytes := Z.of_nat (FrameDecoder_available d) in
    if available_bytes <? frame_header_bytes then false
    else
      let window := drop (fd_consumed d) (fd_buffer d) in
      let header := take (Z.to_nat frame_header_bytes) window in
      if negb (read_u32_at header 0 =? frame_magic)
         || negb (read_u16_at header 4 =? protocol_version)
         || negb (is_known_msg_type (read_u16_at header 6))
         || (max_frame_flags <? read_u32_at header 8) then false
      else
        let payload_length := read_u32_at header 20 in
        if fd_max_payload d <? payload_length then false
        else if negb (crc32c (take (Z.to_nat (frame_header_bytes - frame_trailer_bytes)) header)
                      =? read_u32_at header 24) then false
        else frame_total payload_length <=? available_bytes.

(** [static_cast<MsgType>] of a value that [is_known_msg_type] accepted. *)
Definition MsgType_of (raw : Z) : MsgType := default MsgType_error_rsp (MsgType_cast raw).

(** The seven fields of a frame header, read without a check in between. *)
Record FrameHeader := mkFrameHeader {
  fh_magic : Z;
  fh_version : Z;
  fh_type : Z;
  fh_flags : Z;
  fh_sequence : Z;
  fh_payload_length : Z;
  fh_header_crc : Z }.

Definition read_frame_header : Read FrameHeader :=
  let* magic := r_u32 in
  let* version := r_u16 in
  let* type := r_u16 in
  let* flags := r_u32 in
  let* sequence := r_u64 in
  let* payload_length := r_u32 in
  let* header_crc := r_u32 in
  fun r => (mkFrameHeader magic version type flags sequence payload_length header_crc, r).

Definition FrameDecoder_pop (d : FrameDecoder) : Result Frame * FrameDecoder :=
  let fail code reason detail : Result Frame * FrameDecoder :=
    let (s, d') := FrameDecoder_fail code reason detail d in (Err s, d') in
  let incomplete detail : Result Frame * FrameDecoder :=
    (Err (mkStatus Code_unknown Reason_frame_truncated detail), d) in
  if negb (Status_ok (fd_status d)) then (Err (fd_status d), d)
  else
    let available_bytes := Z.of_nat (FrameDecoder_available d) in
    if available_bytes <? frame_header_bytes then incomplete "frame header incomplete"%string
    else
      let window := drop (fd_consumed d) (fd_buffer d) in
      let header := take (Z.to_nat frame_header_bytes) window in
      let (h, reader) := read_frame_header (ByteReader_new header) in
      if negb (r_ok reader) || negb (r_at_end reader) then
        fail Code_invalid Reason_length_invalid "frame header truncated"%string
      else if negb (fh_magic h =? frame_magic) then
        fail Code_invalid Reason_frame_magic "frame magic mismatch"%string
      else if negb (fh_version h =? protocol_version) then
        fail Code_version_unsupported Reason_protocol_version_mismatch
          "protocol version mismatch"%string
      else if negb (is_known_msg_type (fh_type h)) then
        fail Code_invalid Reason_enum_invalid "frame type out of range"%string
      else if max_frame_flags <? fh_flags h then
        fail Code_invalid Reason_domain_invalid "frame flags must be zero"%string
      else if fd_max_payload d <? fh_payload_length h then
        fail Code_invalid Reason_frame_oversize "declared payload exceeds bound"%string
      else if negb (crc32c (take (Z.to_nat (frame_header_bytes - frame_trailer_bytes)) header)
                    =? fh_header_crc h) then
        fail Code_corrupt Reason_corrupt_header "frame header integrity failure"%string
      else
        let total := frame_total (fh_payload_length h) in
        if available_bytes <? total then incomplete "frame payload incomplete"%string
        else
          let payload := take (Z.to_nat (fh_payload_length h))
                           (drop (Z.to_nat frame_header_bytes) window) in
          let stored_crc :=
            read_u32_at window (Z.to_nat frame_header_bytes + Z.to_nat (fh_payload_length h)) in
          if negb (stored_crc =? crc32c payload) then
            fail Code_corrupt Reason_integrity_failure "frame payload integrity failure"%string
          else
            let consumed := (fd_consumed d + Z.to_nat total)%nat in
            (Ok (mkFrame (fh_version h) (MsgType_of (fh_type h)) (fh_flags h) (fh_sequence h) payload),
             if (consumed =? length (fd_buffer d))%nat
             then d <| fd_buffer := [] |> <| fd_consumed := 0%nat |>
             else d <| fd_consumed := consumed |>).

(** ** Message payloads *)

Record HelloRequest := mkHelloRequest {
  hq_protocol : Z;
  hq_client : list byte;
  hq_nonce : Z }.

Record HelloResponse := mkHelloResponse {
  ha_protocol : Z;
  ha_session : SessionId;
  ha_epoch : Epoch;
  ha_boot : BootId;
  ha_incarnation : IncarnationId;
  ha_authority : AuthorityVector;
  ha_max_requests_per_session : Z }.

Record SessionHeader := mkSessionHeader {
  sh_session : SessionId;
  sh_epoch : Epoch;
  sh_boot : BootId;
  sh_request_sequence : Z }.

#[export] Instance SessionHeader_eta : Eta SessionHeader :=
  fun h => mkSessionHeader (sh_session h) (sh_epoch h) (sh_boot h) (sh_request_sequence h).

Record ErrorResponse := mkErrorResponse {
  er_code : Code;
  er_reason : Reason;
  er_detail : list byte }.

Record StatusResponse := mkStatusResponse {
  sr_incarnation : IncarnationId;
  sr_epoch : Epoch;
  sr_boot : BootId;
  sr_authority : AuthorityVector;
  sr_stats : FabricStats;
  sr_recovery : RecoveryReport;
  sr_active_sessions : Z;
  sr_requests_handled : Z;
  sr_policy_installed : bool;
  sr_obligations_installed : bool;
  sr_alternate_sets : Z;
  sr_active_attempts : Z;
  sr_evidence_entries : Z;
  sr_fencing_events : Z }.

Record PromoteResponse := mkPromoteResponse {
  ps_decision : PromotionDecision;
  ps_grant : GrantId;
  ps_attempt : AttemptId }.

Record AttemptResponse := mkAttemptResponse {
  ar_found : bool;
  ar_record : AttemptRecord }.

Record LineageResponse := mkLineageResponse {
  lr_truncated : bool;
  lr_entries : list LineageEntry }.

(** *** Helpers *)

Definition kMaxReason : Z := max_reason_value.
Definition kMaxCode : Z := max_code_value.

(** [finish_reader] followed by the return of the value. *)
Definition finish_reader : Read Status :=
  fun r => if negb (r_ok r) then (r_status r, r) else require_end r.

Definition r_finished {A} (value : A) : Read (Result A) :=
  let* end_status := finish_reader in
  fun r => (if negb (Status_ok end_status) then Err end_status else Ok value, r).

(** A decoder of a whole payload. *)
Definition decode_whole {A} (get : Read (Result A)) (bytes : list byte) : Result A :=
  (get (ByteReader_new bytes)).1.

Definition read_reason : Read (Result Reason) :=
  let* raw := r_u16 in
  when_ok
    (if kMaxReason <? raw then
       r_refuse (mkStatus Code_invalid Reason_enum_invalid "reason out of range")
     else r_return (enum_cast raw)).

Definition put_fabric_stats (s : FabricStats) (w : ByteWriter) : ByteWriter :=
  let w := w_u64 (fs_promotions_authorized s) w in
  let w := w_u64 (fs_promotions_committed s) w in
  let w := w_u64 (fs_promotions_refused s) w in
  let w := w_u64 (fs_promotions_indeterminate s) w in
  let w := w_u64 (fs_fences_recorded s) w in
  let w := w_u64 (fs_stale_completions_rejected s) w in
  let w := w_u64 (fs_rollbacks s) w in
  let w := w_u64 (fs_reversions s) w in
  let w := w_u64 (fs_revalidations s) w in
  let w := w_u64 (fs_journal_records s) w in
  let w := w_u64 (fs_snapshots_written s) w in
  let w := w_u64 (fs_restarts s) w in
  let w := w_u64 (fs_evidence_accepted s) w in
  let w := w_u64 (fs_evidence_rejected s) w in
  w_u64 (fs_attempts_dropped s) w.

Definition get_fabric_stats : Read (Result FabricStats) :=
  let* promotions_authorized := r_u64 in
  let* promotions_committed := r_u64 in
  let* promotions_refused := r_u64 in
  let* promotions_indeterminate := r_u64 in
  let* fences_recorded := r_u64 in
  let* stale_completions_rejected := r_u64 in
  let* rollbacks := r_u64 in
  let* reversions := r_u64 in
  let* revalidations := r_u64 in
  let* journal_records := r_u64 in
  let* snapshots_written := r_u64 in
  let* restarts := r_u64 in
  let* evidence_accepted := r_u64 in
  let* evidence_rejected := r_u64 in
  let* attempts_dropped := r_u64 in
  when_ok (r_return (mkFabricStats promotions_authorized promotions_committed promotions_refused
    promotions_indeterminate fences_recorded stale_completions_rejected rollbacks reversions
    revalidations journal_records snapshots_written restarts evidence_accepted evidence_rejected
    attempts_dropped)).

Definition put_recovery (v : RecoveryReport) (w : ByteWriter) : ByteWriter :=
  let w := w_boolean (rr_snapshot_loaded v) w in
  let w := w_u64 (rr_snapshot_sequence v) w in
  let w := w_u64 (rr_records_replayed v) w in
  let w := w_u64 (rr_records_skipped v) w in
  let w := w_boolean (rr_torn_tail_present v) w in
  let w := w_boolean (rr_torn_tail_recovered v) w in
  let w := w_u64 (rr_truncated_bytes v) w in
  let w := w_boolean (rr_inspection_only v) w in
  let w := w_boolean (rr_journal_absent v) w in
  w_u64 (rr_journal_bytes v) w.

Definition get_recovery : Read (Result RecoveryReport) :=
  let* snapshot_loaded := r_boolean in
  let* snapshot_sequence := r_u64 in
  let* records_replayed := r_u64 in
  let* records_skipped := r_u64 in
  let* torn_tail_present := r_boolean in
  let* torn_tail_recovered := r_boolean in
  let* truncated_bytes := r_u64 in
  let* inspection_only := r_boolean in
  let* journal_absent := r_boolean in
  let* journal_bytes := r_u64 in
  when_ok (r_return (mkRecoveryReport snapshot_loaded snapshot_sequence records_replayed
    records_skipped torn_tail_present torn_tail_recovered truncated_bytes inspection_only
    journal_absent journal_bytes)).

(** *** Session and answers *)

Definition encode_hello_request (value : HelloRequest) : list byte :=
  let writer := ByteWriter_new max_record_payload in
  let writer := w_u16 (hq_protocol value) writer in
  let writer := w_string (hq_client value) max_name_bytes writer in
  let writer := w_u64 (hq_nonce value) writer in
  finish writer.

Definition decode_hello_request : list byte -> Result HelloRequest :=
  decode_whole
    (let* protocol := r_u16 in
     let+ client := r_string max_name_bytes in
     let* nonce := r_u64 in
     r_finished (mkHelloRequest protocol client nonce)).

Definition encode_hello_response (value : HelloResponse) : list byte :=
  let writer := ByteWriter_new max_record_payload in
  let writer := w_u16 (ha_protocol value) writer in
  let writer := put_id (ha_session value) writer in
  let writer := put_id (ha_epoch value) writer in
  let writer := put_id (ha_boot value) writer in
  let writer := put_id (ha_incarnation value) writer in
  let writer := put_authority (ha_authority value) writer in
  let writer := w_u64 (ha_max_requests_per_session value) writer in
  finish writer.

Definition decode_hello_response : list byte -> Result HelloResponse :=
  decode_whole
    (let* protocol := r_u16 in
     let* session := get_id SessionTag in
     let* epoch := get_id EpochTag in
     let* boot := get_id BootTag in
     let* incarnation := get_id IncarnationTag in
     let+ authority := get_authority in
     let* max_requests_per_session := r_u64 in
     r_finished (mkHelloResponse protocol session epoch boot incarnation authority
       max_requests_per_session)).

Definition encode_error_response (value : ErrorResponse) : list byte :=
  let writer := ByteWriter_new max_record_payload in
  let writer := w_u8 (enum_value (er_code value)) writer in
  let writer := w_u16 (enum_value (er_reason value)) writer in
  let detail := if max_reason_bytes <? size_of (er_detail value)
                then take (Z.to_nat max_reason_bytes) (er_detail value) else er_detail value in
  let writer := w_string detail max_reason_bytes writer in
  finish writer.

Definition decode_error_response : list byte -> Result ErrorResponse :=
  decode_whole
    (let* code := r_u8 in
     when_ok
       (if kMaxCode <? code then
          r_refuse (mkStatus Code_invalid Reason_enum_invalid "error code out of range")
        else
          let+ reason := read_reason in
          let+ detail := r_string max_reason_bytes in
          r_finished (mkErrorResponse (enum_cast code) reason detail))).

Definition encode_status_response (value : StatusResponse) : list byte :=
  let writer := ByteWriter_new max_record_payload in
  let writer := put_id (sr_incarnation value) writer in
  let writer := put_id (sr_epoch value) writer in
  let writer := put_id (sr_boot value) writer in
  let writer := put_authority (sr_authority value) writer in
  let writer := put_fabric_stats (sr_stats value) writer in
  let writer := put_recovery (sr_recovery value) writer in
  let writer := w_u64 (sr_active_sessions value) writer in
  let writer := w_u64 (sr_requests_handled value) writer in
  let writer := w_boolean (sr_policy_installed value) writer in
  let writer := w_boolean (sr_obligations_installed value) writer in
  let writer := w_u64 (sr_alternate_sets value) writer in
  let writer := w_u64 (sr_active_attempts value) writer in
  let writer := w_u64 (sr_evidence_entries value) writer in
  let writer := w_u64 (sr_fencing_events value) writer in
  finish writer.

Definition decode_status_response : list byte -> Result StatusResponse :=
  decode_whole
    (let* incarnation := get_id IncarnationTag in
     let* epoch := get_id EpochTag in
     let* boot := get_id BootTag in
     let+ authority := get_authority in
     let+ stats := get_fabric_stats in
     let+ recovery := get_recovery in
     let* active_sessions := r_u64 in
     let* requests_handled := r_u64 in
     let* policy_installed := r_boolean in
     let* obligations_installed := r_boolean in
     let* alternate_sets := r_u64 in
     let* active_attempts := r_u64 in
     let* evidence_entries := r_u64 in
     let* fencing_events := r_u64 in
     r_finished (mkStatusResponse incarnation epoch boot authority stats recovery active_sessions
       requests_handled policy_installed obligations_installed alternate_sets active_attempts
       evidence_entries fencing_events)).

Definition encode_promote_response (value : PromoteResponse) : list byte :=
  let writer := ByteWriter_new max_record_payload in
  let writer := put_decision (ps_decision value) writer in
  let writer := put_id (ps_grant value) writer in
  let writer := put_id (ps_attempt value) writer in
  finish writer.

Definition decode_promote_response : list byte -> Result PromoteResponse :=
  decode_whole
    (let+ decision := get_decision in
     let* grant := get_id GrantTag in
     let* attempt := get_id AttemptTag in
     r_finished (mkPromoteResponse decision grant attempt)).

Definition encode_attempt_response (value : AttemptResponse) : list byte :=
  let writer := ByteWriter_new max_record_payload in
  let writer := w_boolean (ar_found value) writer in
  let writer := put_attempt (ar_record value) writer in
  finish writer.

Definition decode_attempt_response : list byte -> Result AttemptResponse :=
  decode_whole
    (let* found := r_boolean in
     let+ record := get_attempt in
     r_finished (mkAttemptResponse found record)).

Definition encode_lineage_response (value : LineageResponse) : list byte :=
  let writer := ByteWriter_new max_record_payload in
  let writer := w_boolean (lr_truncated value) writer in
  let writer := w_u32 (wrap_u32 (size_of (lr_entries value))) writer in
  let writer := put_many put_lineage (lr_entries value) writer in
  finish writer.

Definition decode_lineage_response : list byte -> Result LineageResponse :=
  decode_whole
    (let* truncated := r_boolean in
     let+ count := get_count max_lineage in
     let+ entries := r_many (Z.to_nat count) get_lineage [] in
     r_finished (mkLineageResponse truncated entries)).

(** *** Requests: the session header, then an operation body *)

Definition encode_session_request (header : SessionHeader) (body : list byte) : list byte :=
  let writer := ByteWriter_new max_record_payload in
  let writer := put_id (sh_session header) writer in
  let writer := put_id (sh_epoch header) writer in
  let writer := put_id (sh_boot header) writer in
  let writer := w_u64 (sh_request_sequence header) writer in
  let writer := w_bytes body writer in
  finish writer.

Definition decode_session_header : Read (Result SessionHeader) :=
  let* session := get_id SessionTag in
  let* epoch := get_id EpochTag in
  let* boot := get_id BootTag in
  let* request_sequence := r_u64 in
  when_ok (r_return (mkSessionHeader session epoch boot request_sequence)).

Definition encode_request_body (value : PromotionRequest) : list byte :=
  finish (put_request value (ByteWriter_new max_record_payload)).

Definition decode_request_body : Read (Result PromotionRequest) := get_request.

Definition encode_effect_body (attempt : AttemptId) (effect : EffectEvidence) : list byte :=
  let writer := ByteWriter_new max_record_payload in
  let writer := put_id attempt writer in
  let writer := put_effect effect writer in
  finish writer.

Definition decode_effect_body : Read (Result (AttemptId * EffectEvidence)) :=
  let* attempt := get_id AttemptTag in
  let+ effect := get_effect in
  when_ok (r_return (attempt, effect)).

Definition encode_abandon_body (attempt : AttemptId) (reason : Reason) : list byte :=
  let writer := ByteWriter_new max_record_payload in
  let writer := put_id attempt writer in
  let writer := w_u16 (enum_value reason) writer in
  finish writer.

Definition decode_abandon_body : Read (Result (AttemptId * Reason)) :=
  let* attempt := get_id AttemptTag in
  let+ reason := read_reason in
  r_return (attempt, reason).

Definition encode_rollback_body (attempt : AttemptId) (evidence : PathEvidence) : list byte :=
  let writer := ByteWriter_new max_record_payload in
  let writer := put_id attempt writer in
  let writer := put_evidence evidence writer in
  finish writer.

Definition decode_rollback_body : Read (Result (AttemptId * PathEvidence)) :=
  let* attempt := get_id AttemptTag in
  let+ evidence := get_evidence in
  when_ok (r_return (attempt, evidence)).

Definition encode_fence_body (path : PathId) (reason : Reason) : list byte :=
  let writer := ByteWriter_new max_record_payload in
  let writer := put_id path writer in
  let writer := w_u16 (enum_value reason) writer in
  finish writer.

Definition decode_fence_body : Read (Result (PathId * Reason)) :=
  let* path := get_id PathTag in
  let+ reason := read_reason in
  r_return (path, reason).

Definition encode_attempt_body (attempt : AttemptId) : list byte :=
  let writer := ByteWriter_new max_record_payload in
  let writer := put_id attempt writer in
  finish writer.

Definition decode_attempt_body : Read (Result AttemptId) :=
  let* attempt := get_id AttemptTag in
  when_ok (r_return attempt).

Definition encode_lineage_body (limit : Z) : list byte :=
  let writer := ByteWriter_new max_record_payload in
  let writer := w_u32 limit writer in
  finish writer.

Definition decode_lineage_body : Read (Result Z) :=
  let* limit := r_u32 in
  when_ok
    (if (limit =? 0) || (max_lineage <? limit) then
       r_refuse (mkStatus Code_invalid Reason_domain_invalid "lineage limit out of range")
     else r_return limit).
