(* ===== verification/ProtocolProps.v ===== *)
(** * Properties of the framed protocol

    The layout of every message payload and of a frame, each codec as the
    inverse of its layout, and the streaming decoder as a parser of the bytes
    it has been fed. *)

From S2P Require Import Prelude.
From S2P Require Import Ids.
From S2P Require Import Limits.
From S2P Require Import Status.
From S2P Require Import Checked.
From S2P Require Import Authority.
From S2P Require Import Model.
From S2P Require Import Decision.
From S2P Require Import Records.
From S2P Require Import Bytes.
From S2P Require Import Canonical.
From S2P Require Import Wire.
From S2P Require Import WireProps.
From S2P Require Import WireTheorems.
From S2P Require Import Store.
From S2P Require Import StoreProps.
From S2P Require Import StateProps.
From S2P Require Import SnapshotProps.
From S2P Require Import Protocol.

(** ** Strings *)

Definition enc_string (s : list byte) : list byte := le_bytes 2 (size_of s) ++ s.

Lemma size_enc_string s : size_of (enc_string s) = 2 + size_of s.
Proof. unfold enc_string. rewrite size_of_app, size_le_bytes. lia. Qed.

Lemma w_string_fits s bound buffer max :
  size_of s <= bound -> size_of s <= 65535 -> size_of buffer + size_of (enc_string s) <= max ->
  w_string s bound (mkByteWriter buffer max ok_status) =
  mkByteWriter (buffer ++ enc_string s) max ok_status.
Proof.
  rewrite size_enc_string. intros Hb Hu Hm. pose proof (size_of_nonneg s). unfold w_string.
  change (w_ok (mkByteWriter buffer max ok_status)) with true. cbn [negb w_max_size w_buffer].
  destruct (Z.ltb_spec bound (size_of s)); [lia|].
  destruct (Z.ltb_spec 65535 (size_of s)); [lia|].
  destruct (Z.ltb_spec (max - size_of buffer) (size_of s)); [lia|]. cbn [orb].
  assert (Hw : wrap_u16 (size_of s) = size_of s) by (unfold_ints; apply Z.mod_small; lia).
  rewrite Hw, (emits_fits_at _ _ _ _ (emits_uint 2 (size_of s))) by (rewrite size_le_bytes; lia).
  match goal with |- context [w_ok ?w] => change (w_ok w) with true end. cbn [negb].
  rewrite (emits_fits_at _ _ _ _ (emits_bytes s))
    by (rewrite size_of_app, size_le_bytes; lia).
  unfold enc_string. by rewrite <- app_assoc.
Qed.

#[export] Instance strict_string bound : Strict (r_string bound).
Proof. intros r Hr. unfold r_string. by rewrite Hr. Qed.

Lemma r_bytes_At n r s :
  At r s -> r_bytes n r =
  if (length s <? n)%nat then (Err (mkStatus Code_invalid Reason_length_invalid "short read: bytes"),
    r <| r_status := mkStatus Code_invalid Reason_length_invalid "short read: bytes" |>)
  else (Ok (take n s), r <| r_offset ::= Nat.add n |>).
Proof.
  intros HA. unfold r_bytes, r_fail. rewrite (at_ok _ _ HA), (At_remaining _ _ HA). cbn [negb].
  destruct (length s <? n)%nat; [done|]. by rewrite <- (at_rest _ _ HA).
Qed.

#[export] Instance decodes_string bound : 0 <= bound <= 65535 ->
  Decodes (r_string bound) enc_string (fun s => size_of s <= bound).
Proof.
  intros Hb. constructor.
  - intros r v s HA Hv. unfold enc_string in HA. rewrite <- app_assoc in HA.
    unfold r_string. rewrite (at_ok _ _ HA). cbn [negb]. pose proof (size_of_nonneg v).
    destruct (raw_read (p := r_u16) r (size_of v) (v ++ s) HA) as (r1 & Hr & HA1);
      [unfold_ints; lia|].
    unfold read_bind. rewrite Hr, (at_ok _ _ HA1). cbn [negb].
    destruct (Z.ltb_spec bound (size_of v)); [lia|].
    replace (Z.to_nat (size_of v)) with (length v) by (unfold size_of; lia).
    rewrite (r_bytes_At _ _ _ HA1), length_app.
    destruct (Nat.ltb_spec (length v + length s) (length v)); [lia|].
    eexists. split; [by rewrite take_app_length|].
    pose proof (At_advance _ _ (length v) HA1) as HA2. rewrite drop_app_length in HA2.
    apply HA2. rewrite length_app. lia.
  - intros r s v r' HA. unfold r_string. rewrite (at_ok _ _ HA). cbn [negb]. unfold read_bind.
    destruct (r_u16 r) as [n r1] eqn:E.
    destruct (raw_inv (p := r_u16) _ _ _ _ HA E) as [Hf|(Hn & s1 & -> & HA1)].
    { by rewrite Hf. }
    rewrite (at_ok _ _ HA1). cbn [negb]. destruct (Z.ltb_spec bound n).
    { unfold r_fail. rewrite (at_ok _ _ HA1). done. }
    rewrite (r_bytes_At _ _ _ HA1). destruct (Nat.ltb_spec (length s1) (Z.to_nat n)); [done|].
    intros [= <- <-]. unfold_ints.
    assert (Hs : size_of (take (Z.to_nat n) s1) = n) by (unfold size_of; rewrite length_take; lia).
    split; [lia|]. exists (drop (Z.to_nat n) s1). split.
    + unfold enc_string. by rewrite Hs, <- app_assoc, take_drop.
    + apply (At_advance _ _ _ HA1). lia.
Qed.

(** ** Whole payloads *)

#[export] Instance strict_finished {A} (v : A) : Strict (r_finished v).
Proof.
  intros r Hr. unfold r_finished, read_bind, finish_reader. rewrite Hr. cbn [negb].
  unfold r_ok in Hr. by rewrite Hr.
Qed.

Lemma finished_inv {A} (v v' : A) r s r' :
  At r s -> r_finished v r = (Ok v', r') -> s = [] /\ v' = v.
Proof.
  intros HA. unfold r_finished, read_bind, finish_reader. rewrite (at_ok _ _ HA). cbn [negb].
  pose proof (require_end_At _ _ HA) as He. destruct (require_end r) as [st r1]. cbn [fst] in He.
  destruct (Status_ok st); cbn [negb]; [|done]. intros [= <- <-]. split; [by apply He|done].
Qed.

Lemma finished_returns {A} (v : A) r : At r [] -> Returns (r_finished v) r v [].
Proof.
  intros HA. exists r. split; [|done]. unfold r_finished, read_bind, finish_reader, require_end.
  rewrite (at_ok _ _ HA). cbn [negb]. by rewrite (proj2 (At_at_end _ _ HA) eq_refl).
Qed.

Lemma whole_decodes {A} (get : Read (Result A)) enc (wf : A -> Prop) bytes v :
  (forall r v, At r (enc v ++ []) -> wf v -> Returns get r v []) ->
  (forall r s v r', At r s -> get r = (Ok v, r') -> wf v /\ s = enc v) ->
  decode_whole get bytes = Ok v <-> wf v /\ bytes = enc v.
Proof.
  intros Hr Hi. unfold decode_whole. split.
  - destruct (get (ByteReader_new bytes)) as [res r'] eqn:E. cbn [fst]. intros ->.
    by apply (Hi _ bytes v r' (At_new bytes)).
  - intros [Hv ->]. destruct (Hr (ByteReader_new (enc v)) v) as (r' & -> & _); [|done|done].
    rewrite app_nil_r. apply At_new.
Qed.

(** A payload codec: the encoder produces the layout of a well-formed value, the
    decoder accepts exactly those layouts. *)
Class Message {A} (encode : A -> list byte) (decode : list byte -> Result A)
    (enc : A -> list byte) (wf : A -> Prop) : Prop := {
  msg_encodes : forall v, wf v -> encode v = enc v;
  msg_size : forall v, wf v -> size_of (enc v) <= max_record_payload;
  msg_decodes : forall bytes v, decode bytes = Ok v <-> wf v /\ bytes = enc v }.

(** What a codec is for: it round-trips, and accepts nothing else. *)
Definition exact {A} (encode : A -> list byte) (decode : list byte -> Result A) (wf : A -> Prop)
    : Prop :=
  (forall v, wf v -> decode (encode v) = Ok v) /\
  (forall bytes v, decode bytes = Ok v -> wf v /\ encode v = bytes).

Lemma message_exact {A} (encode : A -> list byte) decode enc wf `{!Message encode decode enc wf} :
  exact encode decode wf.
Proof.
  split.
  - intros v Hv. apply msg_decodes. split; [done|]. by apply msg_encodes.
  - intros bytes v Hd. apply msg_decodes in Hd as [Hv ->]. split; [done|]. by apply msg_encodes.
Qed.

(** The reader of a payload on a layout, and its inversion. *)
Ltac message_step :=
  lazymatch goal with
  | HA : At ?r _ |- Returns (r_finished ?x) ?r ?v _ =>
      replace x with v by (destruct v; reflexivity); apply finished_returns; exact HA
  | _ => read_step
  end.
Ltac run_message enc wf :=
  let r := fresh "r" in let v := fresh "v" in let HA := fresh "HA" in let Hwf := fresh "Hwf" in
  intros r v HA Hwf; unfold enc in HA; unfold wf in Hwf; destruct_and? Hwf;
  rewrite <- ?app_assoc in HA; repeat message_step.

Ltac invert_message enc wf :=
  let r := fresh "r" in let v := fresh "v" in let s := fresh "s" in
  let HA := fresh "HA" in let r' := fresh "r" in let H := fresh "H" in
  intros r s v r' HA H; repeat inv_step;
  match goal with H : r_finished _ ?r = (Ok _, _), HA : At ?r _ |- _ =>
    apply (finished_inv _ _ _ _ _ HA) in H as [-> ->] end;
  split;
  [ unfold wf; repeat (split; [first [assumption | exact I]|]); first [assumption | exact I]
  | unfold enc; cbn; rewrite ?app_nil_r; reflexivity ].

(** ** Answers *)

Lemma emit_finish f bs : Emits f bs -> size_of bs <= max_record_payload ->
  finish (f (ByteWriter_new max_record_payload)) = bs.
Proof. intros Hf Hs. apply finish_emits; [exact Hf|by vm_compute|exact Hs]. Qed.

Definition enc_hello_request (v : HelloRequest) : list byte :=
  le_bytes 2 (hq_protocol v) ++ enc_string (hq_client v) ++ le_bytes 8 (hq_nonce v).
Definition hello_request_wf (v : HelloRequest) : Prop :=
  is_u16 (hq_protocol v) /\ size_of (hq_client v) <= max_name_bytes /\ is_u64 (hq_nonce v).

#[export] Instance message_hello_request :
  Message encode_hello_request decode_hello_request enc_hello_request hello_request_wf.
Proof.
  assert (Hsize : forall v, size_of (enc_hello_request v) = 12 + size_of (hq_client v)).
  { intros v. unfold enc_hello_request. rewrite !size_of_app, size_enc_string, !size_le_bytes. lia. }
  constructor.
  - intros v (H1 & H2 & H3). unfold max_name_bytes in H2. unfold encode_hello_request. cbv zeta.
    unfold_limits. change (ByteWriter_new _) with (mkByteWriter [] 1048576 ok_status).
    rewrite (emits_fits_at _ _ _ _ (emits_u16 _)) by (rewrite size_le_bytes, size_of_nil; lia).
    rewrite w_string_fits by (rewrite ?size_of_app, ?size_enc_string, ?size_le_bytes, ?size_of_nil; lia).
    rewrite (emits_fits_at _ _ _ _ (emits_u64 _))
      by (rewrite ?size_of_app, ?size_enc_string, ?size_le_bytes, ?size_of_nil; lia).
    unfold finish. match goal with |- context [w_ok ?w] => change (w_ok w) with true end.
    cbn [negb w_buffer app]. unfold enc_hello_request. by rewrite <- !app_assoc.
  - intros v (_ & H2 & _). rewrite Hsize. unfold_limits. lia.
  - intros bytes v. unfold decode_hello_request.
    pose proof (decodes_string max_name_bytes ltac:(by vm_compute)).
    apply whole_decodes.
    + run_message enc_hello_request hello_request_wf.
    + invert_message enc_hello_request hello_request_wf.
Qed.

(** An encoder made of field writers, on a value whose layout is within bounds. *)
Ltac encode_message encode enc :=
  unfold encode; cbv zeta; pattern (ByteWriter_new max_record_payload);
  lazymatch goal with |- (fun w => finish (@?g w) = _) _ => simple refine (emit_finish g _ _ _) end;
  [unfold enc, enc_seq; solve_emits|].

Definition enc_hello_response (v : HelloResponse) : list byte :=
  le_bytes 2 (ha_protocol v) ++ enc_id (ha_session v) ++ enc_id (ha_epoch v) ++
  enc_id (ha_boot v) ++ enc_id (ha_incarnation v) ++ enc_authority (ha_authority v) ++
  le_bytes 8 (ha_max_requests_per_session v).
Definition hello_response_wf (v : HelloResponse) : Prop :=
  is_u16 (ha_protocol v) /\ Id_wf (ha_session v) /\ Id_wf (ha_epoch v) /\ Id_wf (ha_boot v) /\
  Id_wf (ha_incarnation v) /\ authority_wf (ha_authority v) /\
  is_u64 (ha_max_requests_per_session v).

#[export] Instance message_hello_response :
  Message encode_hello_response decode_hello_response enc_hello_response hello_response_wf.
Proof.
  assert (Hsize : forall v, size_of (enc_hello_response v) = 90) by reflexivity.
  constructor.
  - intros v _. encode_message encode_hello_response enc_hello_response. by rewrite Hsize; vm_compute.
  - intros v _. by rewrite Hsize; vm_compute.
  - intros bytes v. unfold decode_hello_response. apply whole_decodes.
    + run_message enc_hello_response hello_response_wf.
    + invert_message enc_hello_response hello_response_wf.
Qed.

Definition enc_fabric_stats (s : FabricStats) : list byte :=
  le_bytes 8 (fs_promotions_authorized s) ++ le_bytes 8 (fs_promotions_committed s) ++
  le_bytes 8 (fs_promotions_refused s) ++ le_bytes 8 (fs_promotions_indeterminate s) ++
  le_bytes 8 (fs_fences_recorded s) ++ le_bytes 8 (fs_stale_completions_rejected s) ++
  le_bytes 8 (fs_rollbacks s) ++ le_bytes 8 (fs_reversions s) ++ le_bytes 8 (fs_revalidations s) ++
  le_bytes 8 (fs_journal_records s) ++ le_bytes 8 (fs_snapshots_written s) ++
  le_bytes 8 (fs_restarts s) ++ le_bytes 8 (fs_evidence_accepted s) ++
  le_bytes 8 (fs_evidence_rejected s) ++ le_bytes 8 (fs_attempts_dropped s).
Definition fabric_stats_wf (s : FabricStats) : Prop :=
  is_u64 (fs_promotions_authorized s) /\ is_u64 (fs_promotions_committed s) /\
  is_u64 (fs_promotions_refused s) /\ is_u64 (fs_promotions_indeterminate s) /\
  is_u64 (fs_fences_recorded s) /\ is_u64 (fs_stale_completions_rejected s) /\
  is_u64 (fs_rollbacks s) /\ is_u64 (fs_reversions s) /\ is_u64 (fs_revalidations s) /\
  is_u64 (fs_journal_records s) /\ is_u64 (fs_snapshots_written s) /\ is_u64 (fs_restarts s) /\
  is_u64 (fs_evidence_accepted s) /\ is_u64 (fs_evidence_rejected s) /\
  is_u64 (fs_attempts_dropped s).

Lemma emits_fabric_stats s : Emits (put_fabric_stats s) (enc_fabric_stats s).
Proof. unfold put_fabric_stats, enc_fabric_stats. solve_emits. Qed.
#[export] Hint Resolve emits_fabric_stats : emits.
#[export] Instance strict_fabric_stats : Strict get_fabric_stats.
Proof. unfold get_fabric_stats. apply _. Qed.
#[export] Instance decodes_fabric_stats : Decodes get_fabric_stats enc_fabric_stats fabric_stats_wf.
Proof.
  unfold get_fabric_stats. constructor.
  - run_decoder enc_fabric_stats fabric_stats_wf.
  - invert_decoder enc_fabric_stats fabric_stats_wf.
Qed.

Definition enc_recovery (v : RecoveryReport) : list byte :=
  enc_bool (rr_snapshot_loaded v) ++ le_bytes 8 (rr_snapshot_sequence v) ++
  le_bytes 8 (rr_records_replayed v) ++ le_bytes 8 (rr_records_skipped v) ++
  enc_bool (rr_torn_tail_present v) ++ enc_bool (rr_torn_tail_recovered v) ++
  le_bytes 8 (rr_truncated_bytes v) ++ enc_bool (rr_inspection_only v) ++
  enc_bool (rr_journal_absent v) ++ le_bytes 8 (rr_journal_bytes v).
Definition recovery_wf (v : RecoveryReport) : Prop :=
  True /\ is_u64 (rr_snapshot_sequence v) /\ is_u64 (rr_records_replayed v) /\
  is_u64 (rr_records_skipped v) /\ True /\ True /\ is_u64 (rr_truncated_bytes v) /\ True /\ True /\
  is_u64 (rr_journal_bytes v).

Lemma emits_recovery v : Emits (put_recovery v) (enc_recovery v).
Proof. unfold put_recovery, enc_recovery. solve_emits. Qed.
#[export] Hint Resolve emits_recovery : emits.
#[export] Instance strict_recovery : Strict get_recovery.
Proof. unfold get_recovery. apply _. Qed.
#[export] Instance decodes_recovery : Decodes get_recovery enc_recovery recovery_wf.
Proof.
  unfold get_recovery. constructor.
  - run_decoder enc_recovery recovery_wf.
  - invert_decoder enc_recovery recovery_wf.
Qed.

#[global] Typeclasses Opaque get_fabric_stats get_recovery r_string.

Definition enc_status_response (v : StatusResponse) : list byte :=
  enc_id (sr_incarnation v) ++ enc_id (sr_epoch v) ++ enc_id (sr_boot v) ++
  enc_authority (sr_authority v) ++ enc_fabric_stats (sr_stats v) ++ enc_recovery (sr_recovery v) ++
  le_bytes 8 (sr_active_sessions v) ++ le_bytes 8 (sr_requests_handled v) ++
  enc_bool (sr_policy_installed v) ++ enc_bool (sr_obligations_installed v) ++
  le_bytes 8 (sr_alternate_sets v) ++ le_bytes 8 (sr_active_attempts v) ++
  le_bytes 8 (sr_evidence_entries v) ++ le_bytes 8 (sr_fencing_events v).
Definition status_response_wf (v : StatusResponse) : Prop :=
  Id_wf (sr_incarnation v) /\ Id_wf (sr_epoch v) /\ Id_wf (sr_boot v) /\
  authority_wf (sr_authority v) /\ fabric_stats_wf (sr_stats v) /\ recovery_wf (sr_recovery v) /\
  is_u64 (sr_active_sessions v) /\ is_u64 (sr_requests_handled v) /\ True /\ True /\
  is_u64 (sr_alternate_sets v) /\ is_u64 (sr_active_attempts v) /\
  is_u64 (sr_evidence_entries v) /\ is_u64 (sr_fencing_events v).

#[export] Instance message_status_response :
  Message encode_status_response decode_status_response enc_status_response status_response_wf.
Proof.
  assert (Hsize : forall v, size_of (enc_status_response v) = 287) by reflexivity.
  constructor.
  - intros v _. encode_message encode_status_response enc_status_response. by rewrite Hsize; vm_compute.
  - intros v _. by rewrite Hsize; vm_compute.
  - intros bytes v. unfold decode_status_response. apply whole_decodes.
    + run_message enc_status_response status_response_wf.
    + invert_message enc_status_response status_response_wf.
Qed.

Definition enc_promote_response (v : PromoteResponse) : list byte :=
  enc_decision (ps_decision v) ++ enc_id (ps_grant v) ++ enc_id (ps_attempt v).
Definition promote_response_wf (v : PromoteResponse) : Prop :=
  decision_wf (ps_decision v) /\ Id_wf (ps_grant v) /\ Id_wf (ps_attempt v).

Lemma enc_decision_bound d : decision_wf d -> size_of (enc_decision d) <= 232211.
Proof.
  intros (_ & _ & _ & _ & _ & _ & _ & _ & _ & [H1 _] & [H2 _] & [H3 _] & _).
  rewrite enc_decision_length. unfold_limits. lia.
Qed.

#[export] Instance message_promote_response :
  Message encode_promote_response decode_promote_response enc_promote_response promote_response_wf.
Proof.
  assert (Hsize : forall v, promote_response_wf v -> size_of (enc_promote_response v) <= max_record_payload).
  { intros v (Hd & _). unfold enc_promote_response, enc_id.
    rewrite !size_of_app, !size_le_bytes. apply enc_decision_bound in Hd. unfold_limits. lia. }
  constructor.
  - intros v Hv. encode_message encode_promote_response enc_promote_response. by apply Hsize.
  - exact Hsize.
  - intros bytes v. unfold decode_promote_response. apply whole_decodes.
    + run_message enc_promote_response promote_response_wf.
    + invert_message enc_promote_response promote_response_wf.
Qed.

Definition enc_attempt_response (v : AttemptResponse) : list byte :=
  enc_bool (ar_found v) ++ enc_attempt (ar_record v).
Definition attempt_response_wf (v : AttemptResponse) : Prop := True /\ attempt_wf (ar_record v).

#[export] Instance message_attempt_response :
  Message encode_attempt_response decode_attempt_response enc_attempt_response attempt_response_wf.
Proof.
  assert (Hsize : forall v, size_of (enc_attempt_response v) = 128) by reflexivity.
  constructor.
  - intros v _. encode_message encode_attempt_response enc_attempt_response. by rewrite Hsize; vm_compute.
  - intros v _. by rewrite Hsize; vm_compute.
  - intros bytes v. unfold decode_attempt_response. apply whole_decodes.
    + run_message enc_attempt_response attempt_response_wf.
    + invert_message enc_attempt_response attempt_response_wf.
Qed.

Definition enc_lineage_response (v : LineageResponse) : list byte :=
  enc_bool (lr_truncated v) ++ enc_seq enc_lineage (lr_entries v).
Definition lineage_response_wf (v : LineageResponse) : Prop :=
  seq_wf lineage_wf max_lineage (lr_entries v).

Lemma enc_lineage_length x : length (enc_lineage x) = 115%nat.
Proof. reflexivity. Qed.

Lemma wrap_u32_size {A} (l : list A) n : size_of l <= n -> n <= UINT32_MAX -> wrap_u32 (size_of l) = size_of l.
Proof. intros H1 H2. pose proof (size_of_nonneg l). unfold_ints. apply Z.mod_small. lia. Qed.

#[export] Instance message_lineage_response :
  Message encode_lineage_response decode_lineage_response enc_lineage_response lineage_response_wf.
Proof.
  assert (Hsize : forall v, lineage_response_wf v -> size_of (enc_lineage_response v) <= max_record_payload).
  { intros v [Hl _]. unfold enc_lineage_response, enc_seq. rewrite !size_of_app, !size_le_bytes.
    unfold size_of at 2. rewrite (bind_length enc_lineage 115) by apply enc_lineage_length.
    unfold size_of in *. cbn -[Z.of_nat]. unfold_limits. lia. }
  constructor.
  - intros v Hv. unfold encode_lineage_response.
    rewrite (wrap_u32_size _ max_lineage) by (by apply Hv || by vm_compute).
    encode_message encode_lineage_response enc_lineage_response. by apply Hsize.
  - exact Hsize.
  - intros bytes v. unfold decode_lineage_response. apply whole_decodes.
    + intros r v0 HA Hwf. unfold enc_lineage_response in HA. rewrite <- app_assoc in HA.
      read_step. eapply (seq_returns get_lineage enc_lineage lineage_wf max_lineage);
        [by vm_compute|exact HA|exact Hwf|]. clear HA. intros r2 HA. message_step.
    + intros r s v0 r' HA H. inv_step.
      destruct (seq_inv get_lineage enc_lineage lineage_wf max_lineage ltac:(by vm_compute)
        _ _ _ _ _ HA H) as (l & s' & r1 & Hl & -> & HA1 & H1). clear H. rename H1 into H.
      apply (finished_inv _ _ _ _ _ HA1) in H as [-> ->]. split; [exact Hl|].
      unfold enc_lineage_response. cbn. by rewrite app_nil_r.
Qed.

(** *** Errors *)

Definition enc_error_response (v : ErrorResponse) : list byte :=
  enc_enum (er_code v) ++ enc_reason (er_reason v) ++ enc_string (er_detail v).
Definition error_response_wf (v : ErrorResponse) : Prop := size_of (er_detail v) <= max_reason_bytes.

(** The error as it travels: the detail is cut to its bound. *)
Definition truncated_error (v : ErrorResponse) : ErrorResponse :=
  mkErrorResponse (er_code v) (er_reason v) (take (Z.to_nat max_reason_bytes) (er_detail v)).

#[export] Instance strict_read_reason : Strict read_reason.
Proof. unfold read_reason. apply _. Qed.
#[export] Instance decodes_read_reason : Decodes read_reason enc_reason (fun _ => True).
Proof. exact (decodes_reason "reason out of range"). Qed.
#[global] Typeclasses Opaque read_reason.

Lemma encode_error_response_spec v : encode_error_response v = enc_error_response (truncated_error v).
Proof.
  unfold encode_error_response. cbv zeta.
  assert (Hd : (if max_reason_bytes <? size_of (er_detail v)
                then take (Z.to_nat max_reason_bytes) (er_detail v) else er_detail v) =
               take (Z.to_nat max_reason_bytes) (er_detail v)).
  { destruct (Z.ltb_spec max_reason_bytes (size_of (er_detail v))); [done|].
    rewrite take_ge; [done|]. unfold size_of in *. lia. }
  rewrite Hd. set (d := take _ _).
  assert (Hs : size_of d <= 128).
  { unfold d, size_of. rewrite length_take. unfold_limits. lia. }
  unfold_limits. change (ByteWriter_new _) with (mkByteWriter [] 1048576 ok_status).
  unfold w_u8, w_u16.
  rewrite (emits_fits_at _ _ _ _ (emits_uint 1 _)) by (rewrite size_le_bytes, size_of_nil; lia).
  rewrite (emits_fits_at _ _ _ _ (emits_uint 2 _))
    by (rewrite ?size_of_app, ?size_le_bytes, ?size_of_nil; lia).
  rewrite w_string_fits by (rewrite ?size_of_app, ?size_enc_string, ?size_le_bytes, ?size_of_nil; lia).
  unfold finish. match goal with |- context [w_ok ?w] => change (w_ok w) with true end.
  cbn [negb w_buffer app]. unfold enc_error_response, truncated_error. cbn [er_code er_reason er_detail].
  unfold enc_enum, enc_reason. by rewrite <- app_assoc.
Qed.

Lemma truncated_id v : error_response_wf v -> truncated_error v = v.
Proof.
  intros Hv. destruct v as [c r d]. unfold truncated_error, error_response_wf in *. cbn in *.
  rewrite take_ge; [done|]. unfold size_of in Hv. lia.
Qed.

Lemma truncated_wf v : error_response_wf (truncated_error v).
Proof. unfold error_response_wf, truncated_error, size_of. cbn [er_detail]. rewrite length_take. unfold_limits. lia. Qed.

#[export] Instance message_error_response :
  Message encode_error_response decode_error_response enc_error_response error_response_wf.
Proof.
  constructor.
  - intros v Hv. by rewrite encode_error_response_spec, truncated_id.
  - intros v Hv. unfold enc_error_response, enc_enum, enc_reason, error_response_wf in *.
    rewrite !size_of_app, size_enc_string, !size_le_bytes. unfold_limits. lia.
  - intros bytes v. unfold decode_error_response.
    pose proof (decodes_string max_reason_bytes ltac:(by vm_compute)) as Hstring. apply whole_decodes.
    + intros r v0 HA Hwf. unfold enc_error_response in HA. unfold error_response_wf in Hwf.
      rewrite <- !app_assoc in HA.
      eapply (bind_returns r_u8 _ (le_bytes 1) is_u8 r); [exact HA|by apply enum_u8; vm_compute|].
      clear HA. intros r1 HA. read_step. unfold kMaxCode. change max_code_value with (enum_max Code).
      apply refuse_returns; [apply Z.ltb_ge; pose proof (enum_value_range (er_code v0)); lia|].
      rewrite enum_cast_value. repeat message_step.
    + intros r s v0 r' HA H. inv_step. inv_step.
      apply refuse_inv in H as [Hb H]. apply Z.ltb_ge in Hb.
      change kMaxCode with (enum_max Code) in Hb. repeat inv_step.
      apply (finished_inv _ _ _ _ _ HA) in H as [-> ->]. split; [done|].
      unfold enc_error_response, enc_enum. cbn [er_code er_reason er_detail]. rewrite app_nil_r.
      rewrite enum_value_cast; [done|]. unfold_ints. lia.
Qed.

(** ** Requests *)

Definition enc_session_header (h : SessionHeader) : list byte :=
  enc_id (sh_session h) ++ enc_id (sh_epoch h) ++ enc_id (sh_boot h) ++
  le_bytes 8 (sh_request_sequence h).
Definition session_header_wf (h : SessionHeader) : Prop :=
  Id_wf (sh_session h) /\ Id_wf (sh_epoch h) /\ Id_wf (sh_boot h) /\ is_u64 (sh_request_sequence h).

#[export] Instance strict_session_header : Strict decode_session_header.
Proof. unfold decode_session_header. apply _. Qed.
#[export] Instance decodes_session_header :
  Decodes decode_session_header enc_session_header session_header_wf.
Proof.
  unfold decode_session_header. constructor.
  - run_decoder enc_session_header session_header_wf.
  - invert_decoder enc_session_header session_header_wf.
Qed.

Lemma size_enc_session_header h : size_of (enc_session_header h) = 32.
Proof. reflexivity. Qed.

Lemma encode_session_request_spec h body :
  size_of body <= max_record_payload - 32 ->
  encode_session_request h body = enc_session_header h ++ body.
Proof.
  intros Hb. unfold encode_session_request. cbv zeta. pattern (ByteWriter_new max_record_payload).
  lazymatch goal with |- (fun w => finish (@?g w) = _) _ => simple refine (emit_finish g _ _ _) end.
  - pose proof (emits_bytes body) as He. unfold enc_session_header. solve_emits.
  - rewrite size_of_app, size_enc_session_header. lia.
Qed.

(** The body of a request: encoder, reader and layout; the header leaves it 32
    bytes less than a payload. *)
Class Body {A} (encode : A -> list byte) (decode : Read (Result A)) (enc : A -> list byte)
    (wf : A -> Prop) : Prop := {
  body_encodes : forall v, wf v -> encode v = enc v;
  body_size : forall v, wf v -> size_of (enc v) <= max_record_payload - 32;
  body_decodes : Decodes decode enc wf }.

(** What the server reads of a request is what the client put in it, and every
    request it accepts is one a client can send. *)
Definition exact_request {A} (encode : A -> list byte) (decode : Read (Result A)) (wf : A -> Prop)
    : Prop :=
  (forall h v, session_header_wf h -> wf v -> exists r1 r2,
     decode_session_header (ByteReader_new (encode_session_request h (encode v))) = (Ok h, r1) /\
     decode r1 = (Ok v, r2) /\ r_at_end r2 = true) /\
  (forall bytes h v r1 r2,
     decode_session_header (ByteReader_new bytes) = (Ok h, r1) -> decode r1 = (Ok v, r2) ->
     r_at_end r2 = true ->
     session_header_wf h /\ wf v /\ encode_session_request h (encode v) = bytes).

Lemma body_exact {A} (encode : A -> list byte) decode enc wf `{!Body encode decode enc wf} :
  exact_request encode decode wf.
Proof.
  destruct (body_decodes (encode := encode)) as [Hr Hi]. split.
  - intros h v Hh Hv. pose proof (body_size (encode := encode) v Hv) as Hs.
    rewrite (body_encodes v Hv), encode_session_request_spec by done.
    destruct (dec_read _ h (enc v) (At_new _) Hh) as (r1 & He & HA).
    rewrite <- (app_nil_r (enc v)) in HA.
    destruct (Hr r1 v [] HA Hv) as (r2 & Hd & HA2). exists r1, r2. split; [exact He|].
    split; [exact Hd|]. by apply (At_at_end _ _ HA2).
  - intros bytes h v r1 r2 He Hd Hend.
    destruct (dec_inv _ _ _ _ (At_new bytes) He) as (Hh & s1 & -> & HA1).
    destruct (Hi _ _ _ _ HA1 Hd) as (Hv & s2 & -> & HA2).
    apply (At_at_end _ _ HA2) in Hend as ->. split; [exact Hh|]. split; [exact Hv|].
    rewrite (body_encodes v Hv), app_nil_r. apply encode_session_request_spec.
    by apply (body_size (encode := encode)).
Qed.

(** The documents that travel as they are. *)
Definition document {A} `{Wire A} (v : A) : list byte :=
  finish (wire_put v (ByteWriter_new max_record_payload)).

Lemma document_body {A} `{Wire A} :
  (forall v, wire_wf v -> size_of (wire_enc v) <= max_record_payload - 32) ->
  Body document wire_get wire_enc wire_wf.
Proof.
  intros Hs. constructor; [|exact Hs|apply wire_decodes].
  intros v Hv. apply Hs in Hv. apply finish_put; [by vm_compute|lia].
Qed.

#[export] Instance body_policy : Body document get_policy enc_policy policy_wf.
Proof. refine (document_body (A := FailoverPolicy) _). intros v _. change (size_of (wire_enc v)) with 62. by vm_compute. Qed.
#[export] Instance body_obligations : Body document get_obligations enc_obligations obligations_wf.
Proof. refine (document_body (A := ServiceObligations) _). intros v _. change (size_of (wire_enc v)) with 31. by vm_compute. Qed.
#[export] Instance body_set : Body document get_set enc_set wire_set_wf.
Proof.
  refine (document_body (A := AlternateSet) _). intros v Hv. change (wire_enc v) with (enc_set v).
  apply size_set_bound in Hv. unfold_limits. lia.
Qed.
#[export] Instance body_evidence : Body document get_evidence enc_evidence evidence_wf.
Proof. refine (document_body (A := PathEvidence) _). intros v _. change (size_of (wire_enc v)) with 97. by vm_compute. Qed.
#[export] Instance body_authority : Body document get_authority enc_authority authority_wf.
Proof. refine (document_body (A := AuthorityVector) _). intros v _. change (size_of (wire_enc v)) with 48. by vm_compute. Qed.
#[export] Instance body_request : Body encode_request_body decode_request_body enc_request request_wf.
Proof.
  change encode_request_body with (document (A := PromotionRequest)).
  change decode_request_body with get_request.
  refine (document_body (A := PromotionRequest) _). intros v _. change (size_of (wire_enc v)) with 81. by vm_compute.
Qed.

Definition enc_pair {A B} (ea : A -> list byte) (eb : B -> list byte) (p : A * B) : list byte :=
  ea p.1 ++ eb p.2.
Definition pair_wf {A B} (wa : A -> Prop) (wb : B -> Prop) (p : A * B) : Prop := wa p.1 /\ wb p.2.
Definition any_reason (r : Reason) : Prop := True.

(** A body of two fields. *)
Ltac solve_pair encode decode n :=
  constructor;
  [ intros v _; unfold encode; cbv zeta; pattern (ByteWriter_new max_record_payload);
    lazymatch goal with |- (fun w => finish (@?g w) = _) _ => simple refine (emit_finish g _ _ _) end;
    [ unfold enc_pair; solve_emits
    | lazymatch goal with |- ?x <= _ => change x with n end; vm_compute; congruence ]
  | intros v _; lazymatch goal with |- ?x <= _ => change x with n end; vm_compute; congruence
  | unfold decode; constructor;
    [ run_decoder enc_pair pair_wf
    | let r := fresh "r" in let s := fresh "s" in let v := fresh "v" in let r' := fresh "r" in
      let HA := fresh "HA" in let H := fresh "H" in intros r s v r' HA H; repeat inv_step; split; [split; assumption|];
      eexists; split; [unfold enc_pair; cbn [fst snd]; rewrite <- ?app_assoc; reflexivity|eassumption] ] ].

#[export] Instance body_effect :
  Body (fun p => encode_effect_body p.1 p.2) decode_effect_body (enc_pair enc_id enc_effect)
    (pair_wf Id_wf effect_wf).
Proof. solve_pair encode_effect_body decode_effect_body 82. Qed.

#[export] Instance body_abandon :
  Body (fun p => encode_abandon_body p.1 p.2) decode_abandon_body (enc_pair enc_id enc_reason)
    (pair_wf Id_wf any_reason).
Proof. solve_pair encode_abandon_body decode_abandon_body 10. Qed.

#[export] Instance body_rollback :
  Body (fun p => encode_rollback_body p.1 p.2) decode_rollback_body (enc_pair enc_id enc_evidence)
    (pair_wf Id_wf evidence_wf).
Proof. solve_pair encode_rollback_body decode_rollback_body 105. Qed.

#[export] Instance body_fence :
  Body (fun p => encode_fence_body p.1 p.2) decode_fence_body (enc_pair enc_id enc_reason)
    (pair_wf Id_wf any_reason).
Proof. solve_pair encode_fence_body decode_fence_body 10. Qed.

#[export] Instance body_attempt :
  Body encode_attempt_body decode_attempt_body enc_id Id_wf.
Proof.
  constructor.
  - intros v _. encode_message encode_attempt_body (@enc_id). by vm_compute.
  - intros v _. by vm_compute.
  - unfold decode_attempt_body. constructor.
    + intros r v s HA Hv. read_start. repeat read_step.
    + intros r s v r' HA H. repeat inv_step. split; [assumption|]. by eexists.
Qed.

Definition limit_wf (n : Z) : Prop := 0 < n <= max_lineage.

#[export] Instance body_lineage :
  Body encode_lineage_body decode_lineage_body (le_bytes 4) limit_wf.
Proof.
  constructor.
  - intros v _. unfold encode_lineage_body. cbv zeta.
    apply (emit_finish (w_u32 v)); [apply emits_u32|by vm_compute].
  - intros v _. by vm_compute.
  - unfold decode_lineage_body, limit_wf. constructor.
    + intros r v s HA Hv. read_start.
      eapply (bind_returns r_u32 _ _ is_u32 r v); [exact HA|unfold_ints; unfold_limits; lia|].
      clear HA. intros r1 HA. read_step. apply refuse_returns.
      * destruct (Z.eqb_spec v 0); [lia|]. cbn [orb]. apply Z.ltb_ge. lia.
      * by apply return_returns.
    + intros r s v r' HA H. inv_step. inv_step. apply refuse_inv in H as [Hb H]. inv_step.
      apply orb_false_elim in Hb as [H1%Z.eqb_neq H2%Z.ltb_ge]. unfold_ints. split; [lia|]. by eexists.
Qed.

(** A request without a body. *)
Lemma empty_request_exact h :
  session_header_wf h -> exists r1,
    decode_session_header (ByteReader_new (encode_session_request h [])) = (Ok h, r1) /\
    r_at_end r1 = true.
Proof.
  intros Hh. rewrite encode_session_request_spec by (by vm_compute).
  destruct (dec_read _ h [] (At_new (enc_session_header h ++ [])) Hh) as (r1 & He & HA).
  exists r1. split; [exact He|]. by apply (At_at_end _ _ HA).
Qed.

(** ** Frames *)

Lemma MsgType_cast_value t : MsgType_cast (MsgType_value t) = Some t.
Proof. by destruct t. Qed.
Lemma MsgType_known t : is_known_msg_type (MsgType_value t) = true.
Proof. by destruct t. Qed.
Lemma MsgType_known_cast raw :
  is_known_msg_type raw = true -> exists t, MsgType_cast raw = Some t /\ MsgType_value t = raw.
Proof.
  unfold is_known_msg_type. cbn [MsgType_value]. intros H.
  assert (Hk : exists k, (k < 26)%nat /\ raw = 1 + Z.of_nat k).
  { exists (Z.to_nat (raw - 1)). zify_bools. lia. }
  destruct Hk as (k & Hk & ->). clear H.
  do 26 (destruct k as [|k]; [eexists; by split|]). lia.
Qed.

(** The header of a frame, and the whole frame. *)
Definition enc_frame_head (type : MsgType) (sequence : Z) (payload : list byte) : list byte :=
  le_bytes 4 frame_magic ++ le_bytes 2 protocol_version ++ le_bytes 2 (MsgType_value type) ++
  le_bytes 4 0 ++ le_bytes 8 sequence ++ le_bytes 4 (size_of payload).
Definition enc_frame (type : MsgType) (sequence : Z) (payload : list byte) : list byte :=
  enc_frame_head type sequence payload ++
  le_bytes 4 (crc32c (enc_frame_head type sequence payload)) ++ payload ++
  le_bytes 4 (crc32c payload).

Lemma enc_frame_head_length type sequence payload :
  length (enc_frame_head type sequence payload) = 24%nat.
Proof. reflexivity. Qed.

Lemma enc_frame_size type sequence payload :
  size_of (enc_frame type sequence payload) = 32 + size_of payload.
Proof.
  unfold enc_frame. rewrite !size_of_app, !size_le_bytes. unfold size_of at 1.
  rewrite enc_frame_head_length. lia.
Qed.

Lemma encode_frame_spec type sequence payload :
  size_of payload <= max_frame_payload ->
  encode_frame type sequence 0 payload = enc_frame type sequence payload.
Proof.
  intros Hp. unfold encode_frame. destruct (Z.ltb_spec max_frame_payload (size_of payload)); [lia|].
  cbn [orb]. change (max_frame_flags <? 0) with false. cbv zeta.
  pose proof (size_of_nonneg payload).
  change (ByteWriter_new _) with (mkByteWriter [] 1048608 ok_status).
  assert (Hw : wrap_u32 (size_of payload) = size_of payload)
    by (unfold_ints; unfold_limits; apply Z.mod_small; lia).
  rewrite Hw. set (pre := enc_frame_head type sequence payload).
  assert (Hpre : Emits (fun w => w_u32 (size_of payload) (w_u64 sequence (w_u32 0
            (w_u16 (MsgType_value type) (w_u16 protocol_version (w_u32 frame_magic w)))))) pre).
  { unfold pre, enc_frame_head. solve_emits. }
  assert (Hlen : size_of pre = 24) by reflexivity. unfold_limits.
  pose proof (emits_fits_at _ _ [] 1048608 Hpre) as H1. cbv beta in H1.
  rewrite H1 by (rewrite size_of_nil; lia). clear H1. cbn [app].
  change (w_ok (mkByteWriter pre 1048608 ok_status)) with true. cbn [negb w_buffer].
  rewrite (emits_fits_at _ _ _ _ (emits_uint 4 (crc32c pre))) by (rewrite size_le_bytes; lia).
  rewrite (emits_fits_at _ _ _ _ (emits_bytes payload))
    by (rewrite ?size_of_app, ?size_le_bytes; lia).
  match goal with |- context [w_ok ?w] => change (w_ok w) with true end. cbn [negb].
  rewrite (emits_fits_at _ _ _ _ (emits_uint 4 (crc32c payload)))
    by (rewrite ?size_of_app, ?size_le_bytes; lia).
  unfold finish. match goal with |- context [w_ok ?w] => change (w_ok w) with true end.
  cbn [negb w_buffer]. unfold enc_frame. fold pre. by rewrite <- !app_assoc.
Qed.

(** ** The streaming decoder *)

(** The bytes fed and not yet popped. *)
Definition window (d : FrameDecoder) : list byte := drop (fd_consumed d) (fd_buffer d).

Record decoder_wf (d : FrameDecoder) : Prop := {
  fdw_consumed : (fd_consumed d <= length (fd_buffer d))%nat;
  fdw_bounded : size_of (window d) <= max_frame_bytes;
  fdw_max : fd_max_payload d <= max_frame_payload }.

Definition healthy (d : FrameDecoder) : Prop := Status_ok (fd_status d) = true.

Lemma available_window d : FrameDecoder_available d = length (window d).
Proof. unfold FrameDecoder_available, window. by rewrite length_drop. Qed.

(** The header fields, each at its offset. *)
Definition header_fields (hb : list byte) : FrameHeader :=
  mkFrameHeader (read_u32_at hb 0) (read_u16_at hb 4) (read_u16_at hb 6) (read_u32_at hb 8)
    (le_value (take 8 (drop 12 hb))) (read_u32_at hb 20) (read_u32_at hb 24).

Lemma r_uint_step width detail r s :
  At r s -> (width <= length s)%nat ->
  exists r', r_uint width detail r = (le_value (take width s), r') /\ At r' (drop width s).
Proof.
  intros HA Hl. rewrite (r_uint_At _ _ _ _ HA). destruct (Nat.ltb_spec (length s) width); [lia|].
  eexists. split; [done|]. by apply At_advance.
Qed.

Lemma read_frame_header_fields hb :
  length hb = 28%nat ->
  exists r, read_frame_header (ByteReader_new hb) = (header_fields hb, r) /\ At r [].
Proof.
  intros Hl. pose proof (At_new hb) as HA. unfold read_frame_header, read_bind.
  unfold r_u16, r_u32, r_u64.
  do 7 (match goal with
  | HA : At ?r ?s |- context [r_uint ?w ?d ?r] =>
      let r1 := fresh "r" in let Hr := fresh "Hr" in let HA1 := fresh "HA" in
      destruct (r_uint_step w d r s HA) as (r1 & Hr & HA1); [rewrite ?length_drop; lia|];
      rewrite Hr; clear Hr HA
  end).
  rewrite !drop_drop in *. eexists. split; [reflexivity|].
  match goal with HA : At _ (drop ?n hb) |- _ => rewrite (drop_ge hb n) in HA by (rewrite Hl; cbn; lia) end.
  assumption.
Qed.

(** A whole header, with its checksum. *)
Definition enc_frame_header (type : MsgType) (sequence : Z) (payload : list byte) : list byte :=
  enc_frame_head type sequence payload ++ le_bytes 4 (crc32c (enc_frame_head type sequence payload)).

Lemma enc_frame_header_length type sequence payload :
  length (enc_frame_header type sequence payload) = 28%nat.
Proof. reflexivity. Qed.

Lemma enc_frame_parts type sequence payload :
  enc_frame type sequence payload =
  enc_frame_header type sequence payload ++ payload ++ le_bytes 4 (crc32c payload).
Proof. unfold enc_frame, enc_frame_header. by rewrite <- app_assoc. Qed.

Lemma MsgType_value_range t : 1 <= MsgType_value t <= 26.
Proof. by destruct t. Qed.

Lemma MsgType_of_value t : MsgType_of (MsgType_value t) = t.
Proof. unfold MsgType_of. by rewrite MsgType_cast_value. Qed.

Lemma header_fields_enc type sequence payload :
  is_u64 sequence -> size_of payload <= max_frame_payload ->
  header_fields (enc_frame_header type sequence payload) =
  mkFrameHeader frame_magic protocol_version (MsgType_value type) 0 sequence (size_of payload)
    (crc32c (enc_frame_head type sequence payload)).
Proof.
  intros Hs Hp. set (c := crc32c _). pose proof (crc32c_range (enc_frame_head type sequence payload)) as Hc.
  fold c in Hc. unfold header_fields, read_u32_at, read_u16_at.
  change (take 4 (drop 0 (enc_frame_header type sequence payload))) with (le_bytes 4 frame_magic).
  change (take 2 (drop 4 (enc_frame_header type sequence payload))) with (le_bytes 2 protocol_version).
  change (take 2 (drop 6 (enc_frame_header type sequence payload))) with (le_bytes 2 (MsgType_value type)).
  change (take 4 (drop 8 (enc_frame_header type sequence payload))) with (le_bytes 4 0).
  change (take 8 (drop 12 (enc_frame_header type sequence payload))) with (le_bytes 8 sequence).
  change (take 4 (drop 20 (enc_frame_header type sequence payload))) with (le_bytes 4 (size_of payload)).
  change (take 4 (drop 24 (enc_frame_header type sequence payload))) with (le_bytes 4 c).
  pose proof (MsgType_value_range type). pose proof (size_of_nonneg payload).
  rewrite (le_value_bytes 2 (MsgType_value type)) by (cbn; lia).
  rewrite (le_value_bytes 4 (size_of payload)) by (cbn; unfold_limits; lia).
  rewrite (le_value_bytes 4 c) by (cbn; unfold_ints; lia).
  rewrite (le_value_bytes 8 sequence) by (cbn; unfold_ints; lia).
  reflexivity.
Qed.

(** What popping does once a valid header is at the front. *)
Definition pop_after_header (type : MsgType) (sequence n : Z) (d : FrameDecoder)
    : Result Frame * FrameDecoder :=
  if Z.of_nat (FrameDecoder_available d) <? frame_total n then
    (Err (mkStatus Code_unknown Reason_frame_truncated "frame payload incomplete"), d)
  else
    let payload := take (Z.to_nat n) (drop 28 (window d)) in
    if negb (read_u32_at (window d) (28 + Z.to_nat n) =? crc32c payload) then
      let (s, d') := FrameDecoder_fail Code_corrupt Reason_integrity_failure
                       "frame payload integrity failure" d in (Err s, d')
    else
      let consumed := (fd_consumed d + Z.to_nat (frame_total n))%nat in
      (Ok (mkFrame protocol_version type 0 sequence payload),
       if (consumed =? length (fd_buffer d))%nat
       then d <| fd_buffer := [] |> <| fd_consumed := 0%nat |>
       else d <| fd_consumed := consumed |>).

Lemma pop_header d type sequence payload tail :
  healthy d -> is_u64 sequence -> size_of payload <= fd_max_payload d ->
  fd_max_payload d <= max_frame_payload ->
  window d = enc_frame_header type sequence payload ++ tail ->
  FrameDecoder_pop d = pop_after_header type sequence (size_of payload) d.
Proof.
  intros Hh Hs Hp Hm Hw. unfold FrameDecoder_pop. rewrite Hh. cbn [negb]. cbv zeta.
  assert (Hav : (28 <= FrameDecoder_available d)%nat).
  { rewrite available_window, Hw, length_app, enc_frame_header_length. lia. }
  unfold frame_header_bytes. destruct (Z.ltb_spec (Z.of_nat (FrameDecoder_available d)) 28); [lia|].
  fold (window d). change (Z.to_nat 28) with 28%nat.
  assert (Ht : take 28 (window d) = enc_frame_header type sequence payload).
  { rewrite Hw. apply take_app_length'. symmetry. apply enc_frame_header_length. }
  rewrite Ht.
  destruct (read_frame_header_fields (enc_frame_header type sequence payload)) as (r & -> & HA);
    [apply enc_frame_header_length|].
  rewrite header_fields_enc by (done || lia).
  rewrite (at_ok _ _ HA), (proj2 (At_at_end _ _ HA) eq_refl). cbn [negb orb].
  cbn [fh_magic fh_version fh_type fh_flags fh_sequence fh_payload_length fh_header_crc].
  change (frame_magic =? frame_magic) with true. change (protocol_version =? protocol_version) with true.
  rewrite MsgType_known. cbn [negb]. change (max_frame_flags <? 0) with false. cbn match.
  destruct (Z.ltb_spec (fd_max_payload d) (size_of payload)); [lia|]. cbn match.
  change (take (Z.to_nat (28 - frame_trailer_bytes)) (enc_frame_header type sequence payload))
    with (enc_frame_head type sequence payload).
  rewrite (Z.eqb_refl (crc32c _)), MsgType_of_value. cbn [negb]. reflexivity.
Qed.

Lemma frame_total_size n : frame_total n = 32 + n.
Proof. unfold frame_total. unfold_limits. lia. Qed.

(** The decoder after popping [n] bytes. *)
Definition popped (n : nat) (d : FrameDecoder) : FrameDecoder :=
  if (fd_consumed d + n =? length (fd_buffer d))%nat
  then d <| fd_buffer := [] |> <| fd_consumed := 0%nat |>
  else d <| fd_consumed := (fd_consumed d + n)%nat |>.

Lemma popped_window n d :
  (n <= length (window d))%nat -> decoder_wf d ->
  window (popped n d) = drop n (window d) /\ decoder_wf (popped n d) /\
  fd_status (popped n d) = fd_status d /\ fd_max_payload (popped n d) = fd_max_payload d.
Proof.
  intros Hn [Hc Hb Hm]. unfold window in Hn. rewrite length_drop in Hn. unfold popped.
  destruct (Nat.eqb_spec (fd_consumed d + n) (length (fd_buffer d))) as [He|He].
  - assert (Hw : drop n (window d) = []).
    { unfold window. rewrite drop_drop. apply drop_ge. lia. }
    split; [by rewrite Hw|]. split; [|done]. by constructor; cbn.
  - assert (Hw : window (d <| fd_consumed := (fd_consumed d + n)%nat |>) = drop n (window d)).
    { unfold window. cbn. by rewrite drop_drop. }
    split; [exact Hw|]. split; [|done]. constructor; [cbn; lia| |done].
    rewrite Hw. unfold size_of in *. rewrite length_drop. lia.
Qed.

Lemma pop_frame d type sequence payload rest :
  healthy d -> decoder_wf d -> is_u64 sequence -> size_of payload <= fd_max_payload d ->
  window d = enc_frame type sequence payload ++ rest ->
  let d' := popped (length (enc_frame type sequence payload)) d in
  FrameDecoder_pop d = (Ok (mkFrame protocol_version type 0 sequence payload), d') /\
  window d' = rest /\ healthy d' /\ decoder_wf d' /\ fd_max_payload d' = fd_max_payload d.
Proof.
  intros Hh Hwf Hs Hp Hw. cbv zeta.
  pose proof (enc_frame_size type sequence payload) as Hsz.
  assert (Hlen : Z.to_nat (frame_total (size_of payload)) = length (enc_frame type sequence payload)).
  { rewrite frame_total_size, <- Hsz. unfold size_of. lia. }
  assert (Hn : (length (enc_frame type sequence payload) <= length (window d))%nat)
    by (rewrite Hw, length_app; lia).
  destruct (popped_window _ d Hn Hwf) as (Hw' & Hwf' & Hst & Hmax).
  split; [|split; [by rewrite Hw', Hw, drop_app_length|split; [unfold healthy; by rewrite Hst|done]]].
  rewrite enc_frame_parts, <- !app_assoc in Hw.
  rewrite (pop_header d type sequence payload _ Hh Hs Hp (fdw_max _ Hwf) Hw).
  unfold pop_after_header. rewrite available_window.
  destruct (Z.ltb_spec (Z.of_nat (length (window d))) (frame_total (size_of payload))).
  { exfalso. rewrite frame_total_size in *. unfold size_of in *. lia. }
  cbv zeta. replace (Z.to_nat (size_of payload)) with (length payload) by (unfold size_of; lia).
  rewrite Hw, Hlen.
  assert (Hd : drop 28 (enc_frame_header type sequence payload ++ payload ++ le_bytes 4 (crc32c payload) ++ rest)
               = payload ++ le_bytes 4 (crc32c payload) ++ rest) by reflexivity.
  assert (Hc : read_u32_at (enc_frame_header type sequence payload ++ payload ++ le_bytes 4 (crc32c payload) ++ rest)
                 (28 + length payload) = crc32c payload).
  { unfold read_u32_at. rewrite <- drop_drop, Hd, drop_app_length.
    rewrite take_app_length' by (by rewrite le_bytes_length).
    pose proof (crc32c_range payload). apply le_value_bytes. unfold_ints. cbn. lia. }
  rewrite Hc, Hd, take_app_length, Z.eqb_refl. reflexivity.
Qed.

(** A frame that has not arrived whole leaves the decoder waiting. *)
Lemma pop_partial d type sequence payload rest :
  healthy d -> decoder_wf d -> is_u64 sequence -> size_of payload <= fd_max_payload d ->
  window d ++ rest = enc_frame type sequence payload -> rest <> [] ->
  exists detail, FrameDecoder_pop d = (Err (mkStatus Code_unknown Reason_frame_truncated detail), d).
Proof.
  intros Hh Hwf Hs Hp Hw Hr. pose proof (enc_frame_size type sequence payload) as Hsz.
  assert (Hlt : size_of (window d) < 32 + size_of payload).
  { rewrite <- Hsz, <- Hw, size_of_app. destruct rest; [done|]. unfold size_of. cbn [length]. lia. }
  destruct (Z.ltb_spec (size_of (window d)) 28) as [H28|H28].
  - unfold FrameDecoder_pop. rewrite Hh. cbn [negb]. cbv zeta. rewrite available_window.
    unfold frame_header_bytes. unfold size_of in H28.
    destruct (Z.ltb_spec (Z.of_nat (length (window d))) 28); [by eexists|lia].
  - assert (Hw2 : window d = enc_frame_header type sequence payload ++ drop 28 (window d)).
    { rewrite <- (take_drop 28 (window d)) at 1. f_equal.
      transitivity (take 28 (window d ++ rest)).
      - rewrite take_app_le; [done|]. unfold size_of in H28. lia.
      - rewrite Hw, enc_frame_parts. apply take_app_length'. symmetry. apply enc_frame_header_length. }
    rewrite (pop_header d type sequence payload _ Hh Hs Hp (fdw_max _ Hwf) Hw2).
    unfold pop_after_header. rewrite available_window, frame_total_size.
    destruct (Z.ltb_spec (Z.of_nat (length (window d))) (32 + size_of payload)); [by eexists|].
    unfold size_of in *. lia.
Qed.

(** A payload that does not carry the checksum it was framed with. *)
Lemma pop_damaged d type sequence payload payload' rest :
  healthy d -> decoder_wf d -> is_u64 sequence -> size_of payload <= fd_max_payload d ->
  length payload' = length payload -> crc32c payload <> crc32c payload' ->
  window d = enc_frame_header type sequence payload ++ payload' ++ le_bytes 4 (crc32c payload) ++ rest ->
  FrameDecoder_pop d =
    let s := mkStatus Code_corrupt Reason_integrity_failure "frame payload integrity failure" in
    (Err s, d <| fd_status := s |>).
Proof.
  intros Hh Hwf Hs Hp Hl Hc Hw.
  rewrite (pop_header d type sequence payload _ Hh Hs Hp (fdw_max _ Hwf) Hw).
  unfold pop_after_header. rewrite available_window, frame_total_size.
  destruct (Z.ltb_spec (Z.of_nat (length (window d))) (32 + size_of payload)) as [H32|_].
  { exfalso. rewrite Hw, !length_app, enc_frame_header_length, le_bytes_length in H32.
    unfold size_of in *. lia. }
  cbv zeta. replace (Z.to_nat (size_of payload)) with (length payload) by (unfold size_of; lia).
  rewrite Hw.
  assert (Hd : drop 28 (enc_frame_header type sequence payload ++ payload' ++ le_bytes 4 (crc32c payload) ++ rest)
               = payload' ++ le_bytes 4 (crc32c payload) ++ rest) by reflexivity.
  assert (Hv : read_u32_at (enc_frame_header type sequence payload ++ payload' ++ le_bytes 4 (crc32c payload) ++ rest)
                 (28 + length payload) = crc32c payload).
  { unfold read_u32_at. rewrite <- drop_drop, Hd, <- Hl, drop_app_length.
    rewrite take_app_length' by (by rewrite le_bytes_length).
    pose proof (crc32c_range payload). apply le_value_bytes. unfold_ints. cbn. lia. }
  rewrite Hv, Hd, <- Hl, take_app_length. destruct (Z.eqb_spec (crc32c payload) (crc32c payload')); [done|].
  cbn [negb]. unfold FrameDecoder_fail. rewrite Hh. reflexivity.
Qed.

Lemma header_fields_bytes hb :
  length hb = 28%nat ->
  let h := header_fields hb in
  hb = le_bytes 4 (fh_magic h) ++ le_bytes 2 (fh_version h) ++ le_bytes 2 (fh_type h) ++
       le_bytes 4 (fh_flags h) ++ le_bytes 8 (fh_sequence h) ++ le_bytes 4 (fh_payload_length h) ++
       le_bytes 4 (fh_header_crc h) /\
  0 <= fh_flags h /\ is_u64 (fh_sequence h) /\ 0 <= fh_payload_length h.
Proof.
  intros Hl. cbv zeta. unfold header_fields, read_u32_at, read_u16_at.
  cbn [fh_magic fh_version fh_type fh_flags fh_sequence fh_payload_length fh_header_crc].
  do 28 (destruct hb as [|? hb]; [discriminate Hl|]). destruct hb; [|discriminate Hl]. clear Hl.
  cbn [take drop]. split.
  - repeat match goal with |- context [le_bytes ?n (le_value ?bs)] =>
      replace (le_bytes n (le_value bs)) with bs by (symmetry; exact (le_bytes_value bs)) end.
    reflexivity.
  - repeat match goal with |- context [le_value ?bs] =>
      let H := fresh in pose proof (le_value_range bs) as H; cbn [length] in H;
      generalize dependent (le_value bs); intros end.
    unfold_ints. change (256 ^ Z.of_nat 8) with 18446744073709551616 in *. lia.
Qed.

(** The decoder yields a frame only from the bytes of that frame. *)
Lemma pop_inv d f d' :
  decoder_wf d -> FrameDecoder_pop d = (Ok f, d') ->
  window d = enc_frame (fm_type f) (fm_sequence f) (fm_payload f) ++ window d' /\
  fm_version f = protocol_version /\ fm_flags f = 0 /\ is_u64 (fm_sequence f) /\
  size_of (fm_payload f) <= fd_max_payload d /\ healthy d /\
  d' = popped (length (enc_frame (fm_type f) (fm_sequence f) (fm_payload f))) d.
Proof.
  intros Hwf He. pose proof He as Hpop. unfold FrameDecoder_pop in He.
  destruct (Status_ok (fd_status d)) eqn:Hh; cbn [negb] in He; [|done]. cbv zeta in He.
  unfold frame_header_bytes in He.
  destruct (Z.ltb_spec (Z.of_nat (FrameDecoder_available d)) 28) as [|Hav]; [done|].
  rewrite available_window in Hav. fold (window d) in He. change (Z.to_nat 28) with 28%nat in He.
  assert (Hl : length (take 28 (window d)) = 28%nat) by (rewrite length_take; lia).
  destruct (read_frame_header_fields _ Hl) as (r & Hr & HA). rewrite Hr in He.
  pose proof (header_fields_bytes _ Hl) as Hb. cbv zeta in Hb.
  set (hd := header_fields (take 28 (window d))) in *.
  rewrite (at_ok _ _ HA), (proj2 (At_at_end _ _ HA) eq_refl) in He. cbn [negb orb] in He.
  unfold FrameDecoder_fail in He. rewrite Hh in He.
  destruct (Z.eqb_spec (fh_magic hd) frame_magic) as [Hmagic|]; cbn [negb] in He; [|done].
  destruct (Z.eqb_spec (fh_version hd) protocol_version) as [Hver|]; cbn [negb] in He; [|done].
  destruct (is_known_msg_type (fh_type hd)) eqn:Hk; cbn [negb] in He; [|done].
  destruct (Z.ltb_spec max_frame_flags (fh_flags hd)) as [|Hfl]; [done|].
  destruct (Z.ltb_spec (fd_max_payload d) (fh_payload_length hd)) as [|Hmax]; [done|].
  change (Z.to_nat (28 - frame_trailer_bytes)) with 24%nat in He.
  destruct (Z.eqb_spec (crc32c (take 24 (take 28 (window d)))) (fh_header_crc hd)) as [Hcrc|];
    cbn [negb] in He; [|done].
  rewrite available_window in He.
  destruct (Z.ltb_spec (Z.of_nat (length (window d))) (frame_total (fh_payload_length hd))) as [|Htot];
    [done|]. rewrite frame_total_size in Htot.
  match type of He with (if negb (?a =? ?b) then _ else _) = _ =>
    destruct (Z.eqb_spec a b) as [Hpc|]; cbn [negb] in He; [|done] end.
  destruct (MsgType_known_cast _ Hk) as (t & Ht & Htv). unfold MsgType_of in He. rewrite Ht in He.
  set (p := take (Z.to_nat (fh_payload_length hd)) (drop 28 (window d))) in *.
  destruct Hb as (Hbytes & H0 & Hseq & Hlen).
  assert (Hflags : fh_flags hd = 0) by (unfold max_frame_flags in Hfl; lia).
  assert (Hpl : size_of p = fh_payload_length hd).
  { unfold p, size_of. rewrite length_take, length_drop. lia. }
  assert (Hhead : take 24 (take 28 (window d)) = enc_frame_head t (fh_sequence hd) p).
  { rewrite Hbytes, Hmagic, Hver, Hflags, <- Htv, <- Hpl. reflexivity. }
  assert (Hfront : take 28 (window d) = enc_frame_header t (fh_sequence hd) p).
  { unfold enc_frame_header. rewrite <- Hhead, Hcrc, Hbytes. reflexivity. }
  assert (Hw : window d = enc_frame t (fh_sequence hd) p ++
                          drop (length (enc_frame t (fh_sequence hd) p)) (window d)).
  { assert (Hn : length (enc_frame t (fh_sequence hd) p) = (28 + (length p + 4))%nat).
    { rewrite enc_frame_parts, !length_app, enc_frame_header_length, le_bytes_length. lia. }
    rewrite Hn, <- !drop_drop, enc_frame_parts, <- !app_assoc, <- Hfront.
    rewrite <- (take_drop 28 (window d)) at 1. f_equal.
    rewrite <- (take_drop (length p) (drop 28 (window d))) at 1. f_equal.
    { unfold p at 1 2. rewrite length_take, length_drop. f_equal. lia. }
    rewrite <- (take_drop 4 (drop (length p) (drop 28 (window d)))) at 1. f_equal.
    rewrite <- Hpc. unfold read_u32_at.
    replace (Z.to_nat (fh_payload_length hd)) with (length p) by (unfold size_of in Hpl; lia).
    rewrite <- drop_drop.
    match goal with |- ?x = le_bytes 4 (le_value ?x) =>
      assert (Hx : length x = 4%nat) by
        (rewrite length_take, !length_drop; unfold size_of in Hpl; lia);
      transitivity (le_bytes (length x) (le_value x));
      [symmetry; apply le_bytes_value|by rewrite Hx] end. }
  assert (Hp : size_of p <= fd_max_payload d) by lia.
  pose proof (pop_frame d t (fh_sequence hd) p _ Hh Hwf Hseq Hp Hw) as Hf. cbv zeta in Hf.
  destruct Hf as (Hf & Hw' & _). rewrite Hf in Hpop. injection Hpop as <- <-. cbn [fm_type fm_sequence fm_payload fm_version fm_flags].
  rewrite Hw' at 1. split; [exact Hw|]. repeat (split; [done|]). done.
Qed.

(** *** Feeding *)

Lemma compact_window d :
  decoder_wf d -> window (FrameDecoder_compact d) = window d /\ decoder_wf (FrameDecoder_compact d) /\
  fd_consumed (FrameDecoder_compact d) = 0%nat /\
  fd_status (FrameDecoder_compact d) = fd_status d /\
  fd_max_payload (FrameDecoder_compact d) = fd_max_payload d.
Proof.
  intros [Hc Hb Hm]. unfold FrameDecoder_compact.
  destruct (Nat.eqb_spec (fd_consumed d) 0) as [He|He]; [done|].
  destruct (Nat.leb_spec (length (fd_buffer d)) (fd_consumed d)) as [Hl|Hl].
  - assert (Hw : window d = []) by (apply drop_ge; lia). rewrite Hw.
    split; [done|]. split; [|done]. by constructor.
  - split; [done|]. split; [|done]. constructor; [cbn; lia|exact Hb|exact Hm].
Qed.

Lemma feed_fits data d :
  healthy d -> decoder_wf d -> size_of (window d) + size_of data <= max_frame_bytes ->
  exists d', FrameDecoder_feed data d = (ok_status, d') /\ window d' = window d ++ data /\
    healthy d' /\ decoder_wf d' /\ fd_max_payload d' = fd_max_payload d.
Proof.
  intros Hh Hwf Hs. unfold FrameDecoder_feed. rewrite Hh. cbn [negb].
  destruct (bool_decide_reflect (data = [])) as [->|Hne].
  { exists d. by rewrite app_nil_r. }
  rewrite available_window. pose proof (fdw_bounded _ Hwf) as Hb. unfold size_of in Hb, Hs at 1.
  rewrite Z.min_l by done.
  destruct (Z.ltb_spec (max_frame_bytes - Z.of_nat (length (window d))) (size_of data)); [lia|].
  destruct (compact_window d Hwf) as (Hw & [Hc' Hb' Hm'] & H0 & Hst & Hmax).
  destruct (FrameDecoder_compact d) as [buffer consumed m st]. cbn in H0, Hst, Hmax, Hm'. subst.
  change (buffer = window d) in Hw.
  eexists. split; [reflexivity|]. cbn. split; [by rewrite <- Hw|]. split; [exact Hh|]. split; [|done].
  constructor; cbn; [lia| |exact Hm'].
  change (size_of (buffer ++ data) <= max_frame_bytes). rewrite Hw, size_of_app.
  unfold size_of at 1. lia.
Qed.

Lemma feed_overflows data d :
  healthy d -> decoder_wf d -> max_frame_bytes < size_of (window d) + size_of data ->
  let s := mkStatus Code_exhausted Reason_frame_oversize "frame buffer bound exceeded" in
  FrameDecoder_feed data d = (s, d <| fd_status := s |>).
Proof.
  intros Hh Hwf Hs. cbv zeta. unfold FrameDecoder_feed. rewrite Hh. cbn [negb].
  pose proof (fdw_bounded _ Hwf) as Hb.
  destruct (bool_decide_reflect (data = [])) as [->|Hne]; [rewrite size_of_nil in Hs; lia|].
  rewrite available_window. unfold size_of in Hb, Hs at 1. rewrite Z.min_l by done.
  destruct (Z.ltb_spec (max_frame_bytes - Z.of_nat (length (window d))) (size_of data)); [|lia].
  unfold FrameDecoder_fail. by rewrite Hh.
Qed.

(** A decoder that has failed stays as it is and repeats its failure. *)
Lemma feed_failed data d :
  ~ healthy d -> FrameDecoder_feed data d = (fd_status d, d).
Proof. unfold healthy, FrameDecoder_feed. by destruct (Status_ok (fd_status d)). Qed.
Lemma pop_failed d : ~ healthy d -> FrameDecoder_pop d = (Err (fd_status d), d).
Proof. unfold healthy, FrameDecoder_pop. by destruct (Status_ok (fd_status d)). Qed.

(** A pop that yields nothing leaves the bytes where they are. *)
Lemma pop_none d s d' :
  FrameDecoder_pop d = (Err s, d') -> d' = d \/ (healthy d /\ d' = d <| fd_status := s |> /\ ~ healthy d').
Proof.
  unfold FrameDecoder_pop, FrameDecoder_fail, healthy. destruct (Status_ok (fd_status d)) eqn:Hs; cbn [negb].
  2:{ intros [= _ <-]. by left. }
  destruct (_ <? _); [intros [= _ <-]; by left|]. cbv zeta.
  destruct (read_frame_header _) as [h r]. rewrite ?Hs. cbv beta iota.
  repeat lazymatch goal with
  | |- (if ?b then _ else _) = _ -> _ => destruct b
  | |- (Err _, _) = (Err _, _) -> _ => intros [= <- <-]
  end;
  first [discriminate | by left | right; split; [reflexivity|]; split; [reflexivity|]; discriminate].
Qed.

Lemma new_wf m : decoder_wf (FrameDecoder_new m) /\ healthy (FrameDecoder_new m) /\
  window (FrameDecoder_new m) = [].
Proof. split; [|done]. constructor; cbn; [done| |lia]. by vm_compute. Qed.

(** *** A receiver *)

(** Popping until nothing more comes. *)
Fixpoint drain (fuel : nat) (d : FrameDecoder) : list Frame * FrameDecoder :=
  match fuel with
  | O => ([], d)
  | S fuel =>
    match FrameDecoder_pop d with
    | (Ok f, d') => let (fs, d'') := drain fuel d' in (f :: fs, d'')
    | (Err _, d') => ([], d')
    end
  end.

(** Feeding what arrived and popping what became whole; a frame takes at least
    32 bytes, so the bytes buffered are fuel enough. *)
Definition receive (chunk : list byte) (d : FrameDecoder) : list Frame * FrameDecoder :=
  let (s, d) := FrameDecoder_feed chunk d in
  if Status_ok s then drain (S (FrameDecoder_available d)) d else ([], d).

Fixpoint receive_all (chunks : list (list byte)) (d : FrameDecoder) : list Frame * FrameDecoder :=
  match chunks with
  | [] => ([], d)
  | chunk :: chunks =>
    let (fs, d) := receive chunk d in
    let (fs', d) := receive_all chunks d in (fs ++ fs', d)
  end.

(** A frame as it is sent. *)
Definition sent (t : MsgType) (sequence : Z) (payload : list byte) : Frame :=
  mkFrame protocol_version t 0 sequence payload.
Definition frame_bytes (f : Frame) : list byte := enc_frame (fm_type f) (fm_sequence f) (fm_payload f).
Definition stream (fs : list Frame) : list byte := fs ≫= frame_bytes.
Record frame_wf (max : Z) (f : Frame) : Prop := {
  fmw_version : fm_version f = protocol_version;
  fmw_flags : fm_flags f = 0;
  fmw_sequence : is_u64 (fm_sequence f);
  fmw_payload : size_of (fm_payload f) <= max }.

#[global] Arguments frame_bytes : simpl never.

Lemma frame_eta max f : frame_wf max f -> f = sent (fm_type f) (fm_sequence f) (fm_payload f).
Proof. intros [Hv Hf _ _]. destruct f as [v t fl s p]. cbn in *. by subst. Qed.

Lemma frame_bytes_size f : size_of (frame_bytes f) = 32 + size_of (fm_payload f).
Proof. apply enc_frame_size. Qed.

Lemma frame_bytes_long f : (32 <= length (frame_bytes f))%nat.
Proof.
  pose proof (frame_bytes_size f) as H. pose proof (size_of_nonneg (fm_payload f)).
  unfold size_of in *. lia.
Qed.

Lemma stream_app a b : stream (a ++ b) = stream a ++ stream b.
Proof. apply bind_app. Qed.

(** Whatever bytes arrive, the frames popped are the front of what arrived. *)
Lemma drain_sound fuel d fs d' :
  decoder_wf d -> drain fuel d = (fs, d') ->
  window d = stream fs ++ window d' /\ Forall (frame_wf (fd_max_payload d)) fs /\
  decoder_wf d' /\ fd_max_payload d' = fd_max_payload d /\ (healthy d' -> healthy d).
Proof.
  revert d fs d'. induction fuel as [|fuel IH]; intros d fs d' Hwf; cbn [drain].
  { intros [= <- <-]. done. }
  destruct (FrameDecoder_pop d) as [[f|s] d1] eqn:Hp.
  - destruct (drain fuel d1) as [fs1 d2] eqn:Hd. intros [= <- <-].
    destruct (pop_inv d f d1 Hwf Hp) as (Hw & Hv & Hf & Hq & Hm & Hh & ->).
    assert (Hlen : (length (frame_bytes f) <= length (window d))%nat).
    { rewrite Hw, length_app. unfold frame_bytes. lia. }
    destruct (popped_window _ d Hlen Hwf) as (_ & Hwf1 & _ & Hmax).
    destruct (IH _ _ _ Hwf1 Hd) as (Hw1 & Hall & Hwf2 & Hmax2 & _). rewrite Hmax in *.
    split; [|split; [constructor; [by constructor|done]|done]].
    rewrite Hw at 1. fold (frame_bytes f) in Hw1 |- *. rewrite Hw1. unfold stream. cbn. by rewrite app_assoc.
  - intros [= <- <-]. destruct (pop_none _ _ _ Hp) as [->|(Hh & -> & Hn)]; [done|].
    split; [done|]. split; [constructor|]. split; [|split; [done|intros H; by apply Hn in H]].
    destruct Hwf. by constructor.
Qed.

(** Of a stream of frames that has arrived in part, the whole frames are popped. *)
Lemma drain_complete fuel frames d more :
  healthy d -> decoder_wf d -> Forall (frame_wf (fd_max_payload d)) frames ->
  window d ++ more = stream frames -> (length (window d) < fuel)%nat ->
  exists fs rest d', drain fuel d = (fs, d') /\ frames = fs ++ rest /\
    window d' ++ more = stream rest /\ healthy d' /\
    match rest with [] => window d' = [] | f :: _ => size_of (window d') < size_of (frame_bytes f) end.
Proof.
  revert frames d. induction fuel as [|fuel IH]; intros frames d Hh Hwf Hall Hw Hf; [lia|].
  destruct frames as [|f frames].
  { unfold stream in Hw. cbn in Hw. apply app_nil in Hw as [Hw ->].
    exists [], [], d. cbn [drain]. unfold FrameDecoder_pop. rewrite Hh. cbn [negb].
    cbv zeta. by rewrite available_window, Hw. }
  inversion Hall as [|? ? Hfw Hall']; subst. pose proof Hfw as [_ _ Hq Hp].
  change (stream (f :: frames)) with (frame_bytes f ++ stream frames) in Hw.
  destruct (Nat.le_gt_cases (length (frame_bytes f)) (length (window d))) as [Hl|Hl].
  - assert (Hw1 : window d = frame_bytes f ++ drop (length (frame_bytes f)) (window d)).
    { rewrite <- (take_drop (length (frame_bytes f)) (window d)) at 1. f_equal.
      transitivity (take (length (frame_bytes f)) (window d ++ more));
        [by rewrite take_app_le|rewrite Hw; by apply take_app_length']. }
    pose proof (pop_frame d _ _ _ _ Hh Hwf Hq Hp Hw1) as Hpop. cbv zeta in Hpop.
    fold (frame_bytes f) in Hpop. destruct Hpop as (Hpop & Hwin & Hh1 & Hwf1 & Hmax).
    set (d1 := popped (length (frame_bytes f)) d) in *.
    destruct (IH frames d1) as (fs & rest & d' & Hd & -> & Hrest); [done|done|by rewrite Hmax| | |].
    { rewrite Hwin. apply (app_inv_head (frame_bytes f)). rewrite <- Hw, app_assoc, <- Hw1. done. }
    { rewrite Hwin, length_drop. pose proof (frame_bytes_long f). lia. }
    exists (f :: fs), rest, d'. cbn [drain]. rewrite Hpop, Hd. split; [|by split].
    f_equal. f_equal. symmetry. exact (frame_eta _ _ Hfw).
  - assert (Hw1 : window d ++ drop (length (window d)) (frame_bytes f) = frame_bytes f).
    { rewrite <- (take_drop (length (window d)) (frame_bytes f)) at 2. f_equal.
      transitivity (take (length (window d)) (frame_bytes f ++ stream frames));
        [rewrite <- Hw; by rewrite take_app_length|apply take_app_le, Nat.lt_le_incl, Hl]. }
    destruct (pop_partial d _ _ _ _ Hh Hwf Hq Hp Hw1) as (detail & Hpop).
    { intros He. apply (f_equal length) in He. rewrite length_drop in He. cbn [length] in He. lia. }
    exists [], (f :: frames), d. cbn [drain]. rewrite Hpop. split; [done|]. split; [done|].
    split; [exact Hw|]. split; [done|]. unfold size_of. lia.
Qed.

Lemma receive_sound chunk d fs d' :
  decoder_wf d -> receive chunk d = (fs, d') ->
  exists tail, window d ++ chunk = stream fs ++ tail /\ (healthy d' -> tail = window d') /\
    Forall (frame_wf (fd_max_payload d)) fs /\ decoder_wf d' /\
    fd_max_payload d' = fd_max_payload d /\ (healthy d' -> healthy d).
Proof.
  intros Hwf. unfold receive.
  destruct (decide (healthy d)) as [Hh|Hh].
  2:{ rewrite (feed_failed _ _ Hh). unfold healthy in Hh. destruct (Status_ok (fd_status d)) eqn:E; [done|].
      intros [= <- <-]. eexists. split; [reflexivity|]. split; [|split; [constructor|done]].
      unfold healthy. by rewrite E. }
  destruct (Z.le_gt_cases (size_of (window d) + size_of chunk) max_frame_bytes) as [Hs|Hs].
  - destruct (feed_fits _ _ Hh Hwf Hs) as (d1 & -> & Hw & Hh1 & Hwf1 & Hmax). cbn [Status_ok].
    change (Status_ok ok_status) with true. cbv iota. intros Hd.
    destruct (drain_sound _ _ _ _ Hwf1 Hd) as (Hw2 & Hall & Hwf2 & Hmax2 & _).
    exists (window d'). rewrite <- Hw, Hw2, <- Hmax. by repeat (split; [done|]).
  - rewrite (feed_overflows _ _ Hh Hwf Hs). intros [= <- <-]. eexists. split; [reflexivity|].
    split; [done|]. split; [constructor|]. destruct Hwf. by split.
Qed.

Lemma receive_complete chunk frames d more :
  healthy d -> decoder_wf d -> Forall (frame_wf (fd_max_payload d)) frames ->
  size_of (window d) + size_of chunk <= max_frame_bytes ->
  window d ++ chunk ++ more = stream frames ->
  exists fs rest d', receive chunk d = (fs, d') /\ frames = fs ++ rest /\
    window d' ++ more = stream rest /\ healthy d' /\ decoder_wf d' /\
    fd_max_payload d' = fd_max_payload d /\
    match rest with [] => window d' = [] | f :: _ => size_of (window d') < size_of (frame_bytes f) end.
Proof.
  intros Hh Hwf Hall Hs Hw. unfold receive.
  destruct (feed_fits _ _ Hh Hwf Hs) as (d1 & -> & Hw1 & Hh1 & Hwf1 & Hmax).
  change (Status_ok ok_status) with true. cbv iota.
  destruct (drain_complete (S (FrameDecoder_available d1)) frames d1 more) as
    (fs & rest & d' & Hd & Hf & Hr & Hh' & Hm); [done|done|by rewrite Hmax| | |].
  { by rewrite Hw1, <- app_assoc. }
  { rewrite available_window. lia. }
  destruct (drain_sound _ _ _ _ Hwf1 Hd) as (_ & _ & Hwf2 & Hmax2 & _).
  exists fs, rest, d'. rewrite Hmax in Hmax2. by repeat (split; [done|]).
Qed.

Lemma receive_failed chunk d : ~ healthy d -> receive chunk d = ([], d).
Proof.
  intros Hh. unfold receive. rewrite (feed_failed _ _ Hh). unfold healthy in Hh.
  by destruct (Status_ok (fd_status d)).
Qed.

Lemma receive_all_failed chunks d : ~ healthy d -> receive_all chunks d = ([], d).
Proof.
  intros Hh. induction chunks as [|chunk chunks IH]; [done|]. cbn [receive_all].
  by rewrite (receive_failed _ _ Hh), IH.
Qed.

Lemma receive_all_sound chunks d fs d' :
  decoder_wf d -> receive_all chunks d = (fs, d') ->
  exists tail, window d ++ concat chunks = stream fs ++ tail /\ (healthy d' -> tail = window d') /\
    Forall (frame_wf (fd_max_payload d)) fs /\ decoder_wf d' /\
    fd_max_payload d' = fd_max_payload d /\ (healthy d' -> healthy d).
Proof.
  revert d fs d'. induction chunks as [|chunk chunks IH]; intros d fs d' Hwf; cbn [receive_all].
  { intros [= <- <-]. exists (window d). cbn. by rewrite app_nil_r. }
  destruct (receive chunk d) as [fs1 d1] eqn:H1. destruct (receive_all chunks d1) as [fs2 d2] eqn:H2.
  intros [= <- <-].
  destruct (receive_sound _ _ _ _ Hwf H1) as (t1 & Hw1 & Ht1 & Ha1 & Hwf1 & Hm1 & Hh1).
  destruct (decide (healthy d1)) as [Hh|Hh].
  - destruct (IH _ _ _ Hwf1 H2) as (t2 & Hw2 & Ht2 & Ha2 & Hwf2 & Hm2 & Hh2).
    exists t2. rewrite Hm1 in *. split; [|split; [done|split; [by apply Forall_app|]]].
    + cbn [concat]. rewrite app_assoc, Hw1, Ht1 by done. by rewrite <- app_assoc, Hw2, stream_app, <- app_assoc.
    + split; [done|]. split; [done|]. intros H. by apply Hh1.
  - rewrite (receive_all_failed _ _ Hh) in H2. injection H2 as <- <-. rewrite app_nil_r.
    exists (t1 ++ concat chunks). cbn [concat]. rewrite app_assoc, Hw1, <- app_assoc.
    by repeat (split; [done|]).
Qed.

(** The next of [frames] has not arrived whole. *)
Definition drained (frames : list Frame) (d : FrameDecoder) : Prop :=
  match frames with
  | [] => window d = []
  | f :: _ => size_of (window d) < size_of (frame_bytes f)
  end.

(** The buffer suffices: for the whole of what arrives, or for each chunk beside
    a frame that is still incomplete. *)
Definition fits (frames : list Frame) (chunks : list (list byte)) (d : FrameDecoder) : Prop :=
  size_of (window d ++ concat chunks) <= max_frame_bytes \/
  (forall f c, f ∈ frames -> c ∈ chunks -> size_of (frame_bytes f) - 1 + size_of c <= max_frame_bytes).

Lemma fits_first frames chunk chunks d :
  drained frames d -> fits frames (chunk :: chunks) d -> window d ++ concat (chunk :: chunks) = stream frames ->
  size_of (window d) + size_of chunk <= max_frame_bytes.
Proof.
  intros Hd [Hf|Hf] Hw; cbn [concat] in *.
  - rewrite !size_of_app in Hf. pose proof (size_of_nonneg (concat chunks)). lia.
  - destruct frames as [|f frames]; cbn [drained] in Hd.
    + rewrite Hd in *. cbn in Hw. apply app_nil in Hw as [-> _]. by vm_compute.
    + specialize (Hf f chunk ltac:(left) ltac:(left)). lia.
Qed.

Lemma receive_all_complete chunks frames d :
  healthy d -> decoder_wf d -> Forall (frame_wf (fd_max_payload d)) frames ->
  drained frames d -> fits frames chunks d -> window d ++ concat chunks = stream frames ->
  exists d', receive_all chunks d = (frames, d') /\ healthy d' /\ decoder_wf d' /\ window d' = [] /\
    fd_max_payload d' = fd_max_payload d.
Proof.
  revert frames d. induction chunks as [|chunk chunks IH]; intros frames d Hh Hwf Hall Hdr Hfit Hw.
  - cbn [receive_all concat] in *. rewrite app_nil_r in Hw. exists d.
    destruct frames as [|f frames]; [done|]. exfalso. cbn [drained] in Hdr. rewrite Hw in Hdr.
    change (stream (f :: frames)) with (frame_bytes f ++ stream frames) in Hdr.
    rewrite size_of_app in Hdr. pose proof (size_of_nonneg (stream frames)). lia.
  - pose proof (fits_first _ _ _ _ Hdr Hfit Hw) as Hs. cbn [receive_all].
    destruct (receive_complete chunk frames d (concat chunks) Hh Hwf Hall Hs Hw)
      as (fs & rest & d1 & -> & -> & Hw1 & Hh1 & Hwf1 & Hm1 & Hdr1).
    destruct (IH rest d1) as (d2 & -> & Hh2 & Hwf2 & Hw2 & Hm2); [done|done| |exact Hdr1| |exact Hw1|].
    + rewrite Hm1. by apply Forall_app in Hall as [_ ?].
    + destruct Hfit as [Hfit|Hfit]; [left|right].
      * rewrite Hw1. rewrite Hw, stream_app, size_of_app in Hfit.
        pose proof (size_of_nonneg (stream fs)). lia.
      * intros f c Hf Hc. apply Hfit; [apply elem_of_app; by right|by right].
    + exists d2. rewrite Hm2. by repeat (split; [done|]).
Qed.
