(* ===== verification/ProtocolTheorems.v ===== *)
(** * The framed protocol: theorems

    The frames a receiver obtains are the frames that were sent, however the
    connection cuts the stream; what it obtains from arbitrary bytes is always a
    prefix of them; and every message codec accepts exactly what its encoder
    produces. *)

From S2P Require Import Prelude.
From S2P Require Import Ids.
From S2P Require Import Limits.
From S2P Require Import Status.
From S2P Require Import Authority.
From S2P Require Import Model.
From S2P Require Import Decision.
From S2P Require Import Records.
From S2P Require Import Bytes.
From S2P Require Import Canonical.
From S2P Require Import Wire.
From S2P Require Import WireProps.
From S2P Require Import WireTheorems.
From S2P Require Import Store.
From S2P Require Import StoreProps.
From S2P Require Import StateProps.
From S2P Require Import SnapshotProps.
From S2P Require Import Protocol.
From S2P Require Import ProtocolProps.

(** ** Streams *)

(** The frame as [encode_frame] sends it. *)
Definition wire_frame (f : Frame) : list byte :=
  encode_frame (fm_type f) (fm_sequence f) (fm_flags f) (fm_payload f).

Lemma wire_frames max fs :
  Forall (frame_wf max) fs -> max <= max_frame_payload -> fs ≫= wire_frame = stream fs.
Proof.
  intros Hall Hmax. unfold stream. induction Hall as [|f fs Hf _ IH]; [done|].
  change (wire_frame f ++ (fs ≫= wire_frame) = frame_bytes f ++ (fs ≫= frame_bytes)).
  rewrite IH. f_equal. destruct Hf as [_ H0 _ Hp]. unfold wire_frame. rewrite H0.
  apply encode_frame_spec. lia.
Qed.

(** C15: The decoder reassembles a stream.  However the bytes of a sequence of
    encoded frames are cut into chunks, a receiver that feeds the chunks and pops
    what is whole obtains exactly those frames in order, with nothing left over
    and no failure, as long as the buffer suffices: when everything fits one
    maximal frame, or when no chunk overfills the buffer beside a frame that has
    not arrived whole. *)
Theorem stream_reassembled max frames chunks :
  max <= max_frame_payload -> Forall (frame_wf max) frames ->
  concat chunks = (frames ≫= wire_frame) ->
  fits frames chunks (FrameDecoder_new max) ->
  exists d, receive_all chunks (FrameDecoder_new max) = (frames, d) /\
    FrameDecoder_failed d = false /\ FrameDecoder_available d = 0%nat.
Proof.
  intros Hmax Hall Hc Hfit. destruct (new_wf max) as (Hwf & Hh & Hw).
  assert (Hm : fd_max_payload (FrameDecoder_new max) = max) by (apply Z.min_l; exact Hmax).
  destruct (receive_all_complete chunks frames (FrameDecoder_new max)) as (d & Hr & Hh' & _ & Hw' & _);
    [done|done|by rewrite Hm| |done| |].
  - destruct frames as [|f frames]; [done|]. cbn [drained]. rewrite Hw, frame_bytes_size, size_of_nil.
    pose proof (size_of_nonneg (fm_payload f)). lia.
  - rewrite Hw, Hc. by apply (wire_frames max).
  - exists d. split; [exact Hr|]. unfold FrameDecoder_failed. rewrite Hh', available_window, Hw'. done.
Qed.

Definition two_frames : list Frame :=
  [sent MsgType_status_req 1 [x01; x02; x03]; sent MsgType_ok_rsp 2 []].
Definition two_chunks : list (list byte) :=
  let bytes := two_frames ≫= wire_frame in [take 5 bytes; take 33 (drop 5 bytes); drop 38 bytes].

Lemma stream_reassembled_witness :
  exists d, receive_all two_chunks (FrameDecoder_new 16) = (two_frames, d) /\
    FrameDecoder_failed d = false /\ FrameDecoder_available d = 0%nat.
Proof.
  apply (stream_reassembled 16 two_frames two_chunks).
  - by vm_compute.
  - repeat constructor; by vm_compute.
  - by vm_compute.
  - left. by vm_compute.
Defined.

(** C26: The decoder invents nothing.  From whatever bytes in whatever chunks, the
    frames a receiver obtains are, encoded again, a prefix of the bytes that
    arrived, each with the protocol's version, no flags and a payload within the
    bound; it never buffers more than one maximal frame; until it fails, what it
    has not popped is what is left of the bytes; and once it has failed it yields
    nothing ever again. *)
Theorem frames_are_authentic max chunks frames d :
  receive_all chunks (FrameDecoder_new max) = (frames, d) ->
  (exists tail, concat chunks = (frames ≫= wire_frame) ++ tail /\
     (FrameDecoder_failed d = false -> length tail = FrameDecoder_available d)) /\
  Forall (frame_wf (Z.min max max_frame_payload)) frames /\
  Z.of_nat (FrameDecoder_available d) <= max_frame_bytes /\
  (FrameDecoder_failed d = true -> forall more, receive_all more d = ([], d)).
Proof.
  intros Hr. destruct (new_wf max) as (Hwf & _ & Hw).
  destruct (receive_all_sound _ _ _ _ Hwf Hr) as (tail & Ht & Hleft & Hall & Hwf' & _).
  rewrite Hw in Ht. unfold FrameDecoder_failed. rewrite available_window. split; [|split; [|split]].
  - exists tail. rewrite (wire_frames _ _ Hall) by (apply Z.le_min_r). split; [exact Ht|].
    intros Hh%negb_false_iff. by rewrite (Hleft Hh).
  - exact Hall.
  - apply (fdw_bounded _ Hwf').
  - intros Hf more. apply receive_all_failed. unfold healthy. by destruct (Status_ok (fd_status d)).
Qed.

Lemma frames_are_authentic_witness :
  let r := receive_all [[x50; x46]; [x46; x31; x01]] (FrameDecoder_new 16) in
  (exists tail, concat [[x50; x46]; [x46; x31; x01]] = (r.1 ≫= wire_frame) ++ tail /\
     (FrameDecoder_failed r.2 = false -> length tail = FrameDecoder_available r.2)) /\
  Forall (frame_wf (Z.min 16 max_frame_payload)) r.1 /\
  Z.of_nat (FrameDecoder_available r.2) <= max_frame_bytes /\
  (FrameDecoder_failed r.2 = true -> forall more, receive_all more r.2 = ([], r.2)).
Proof. cbv zeta. apply frames_are_authentic. reflexivity. Defined.

(** ** Messages *)

(** C25: Every message codec is exact.  Each of the seven answers and handshake
    messages and each of the twelve kinds of request round-trips: what is decoded
    is what was encoded, for every well-formed value.  And no decoder accepts
    anything else: a payload that is accepted is well-formed and is the encoding
    of its value, so it has one reading and one form. *)
Theorem messages_exact :
  exact encode_hello_request decode_hello_request hello_request_wf /\
  exact encode_hello_response decode_hello_response hello_response_wf /\
  exact encode_error_response decode_error_response error_response_wf /\
  exact encode_status_response decode_status_response status_response_wf /\
  exact encode_promote_response decode_promote_response promote_response_wf /\
  exact encode_attempt_response decode_attempt_response attempt_response_wf /\
  exact encode_lineage_response decode_lineage_response lineage_response_wf /\
  exact_request document get_policy policy_wf /\
  exact_request document get_obligations obligations_wf /\
  exact_request document get_set wire_set_wf /\
  exact_request document get_evidence evidence_wf /\
  exact_request document get_authority authority_wf /\
  exact_request encode_request_body decode_request_body request_wf /\
  exact_request (fun p => encode_effect_body p.1 p.2) decode_effect_body (pair_wf Id_wf effect_wf) /\
  exact_request (fun p => encode_abandon_body p.1 p.2) decode_abandon_body (pair_wf Id_wf any_reason) /\
  exact_request (fun p => encode_rollback_body p.1 p.2) decode_rollback_body
    (pair_wf Id_wf evidence_wf) /\
  exact_request (fun p => encode_fence_body p.1 p.2) decode_fence_body (pair_wf Id_wf any_reason) /\
  exact_request encode_attempt_body decode_attempt_body Id_wf /\
  exact_request encode_lineage_body decode_lineage_body limit_wf.
Proof.
  repeat match goal with |- _ /\ _ => split end;
    first [eapply message_exact; apply _ | eapply body_exact; apply _].
Qed.
