(* ===== verification/TypedProps.v ===== *)
(** * The coordinator within its types

    What is true of the whole object at every moment, failed operations
    included: every integer has its width, every table its bound, every entry is
    filed under its own identity and well formed.  [ty] runs an operation and
    says so of the object it leaves and of the result it returns. *)

From S2P Require Import Prelude.
From S2P Require Import Ids.
From S2P Require Import Limits.
From S2P Require Import Status.
From S2P Require Import Checked.
From S2P Require Import Authority.
From S2P Require Import Model.
From S2P Require Import Decision.
From S2P Require Import Records.
From S2P Require Import Selector.
From S2P Require Import DocumentProps.
From S2P Require Import Bytes.
From S2P Require Import Canonical.
From S2P Require Import Wire.
From S2P Require Import WireProps.
From S2P Require Import Store.
From S2P Require Import StoreProps.
From S2P Require Import StateProps.
From S2P Require Import SnapshotProps.
From S2P Require Import LoadProps.
From S2P Require Import TableProps.
From S2P Require Import Fabric.
From S2P Require Import Coordinator.
From S2P Require Import FabricProps.
From S2P Require Import DurableProps.
From S2P Require Import DurableTheorems.
From S2P Require Import Protocol.
From S2P Require Import ProtocolProps.

(** ** The invariant *)

Record StateTyped (s : DurableState) : Prop := {
  st_authority : authority_wf (ds_authority s);
  st_policy : ds_has_policy s = true -> policy_wf (ds_policy s);
  st_obligations : ds_has_obligations s = true -> obligations_wf (ds_obligations s);
  st_fences : seq_wf fence_wf max_fences (ds_fences s);
  st_lineage : seq_wf lineage_wf max_lineage (ds_lineage s);
  st_counters : counters_wf s;
  st_last : is_u64 (ds_last_sequence s);
  st_restarts : is_u64 (ds_restart_count s) }.

Definition identity_typed (i : FabricIdentity) : Prop :=
  Id_wf (fi_incarnation i) /\ Id_wf (fi_boot i) /\ Id_wf (fi_epoch i).
Definition sets_typed (m : gmap AlternateSetId AlternateSet) : Prop :=
  Z.of_nat (size m) <= max_alternate_sets /\ map_Forall (fun id s => set_id s = id /\ wire_set_wf s) m.
Definition attempts_typed (m : gmap AttemptId AttemptRecord) : Prop :=
  Z.of_nat (size m) <= max_attempts /\ map_Forall (fun id r => at_id r = id /\ attempt_wf r) m.
Definition evidence_typed (m : gmap PathId PathEvidence) : Prop :=
  map_Forall (fun p e => ev_path e = p /\ evidence_wf e) m.
Definition grant_wf (g : Grant) : Prop :=
  Id_wf (gr_id g) /\ Id_wf (gr_attempt g) /\ Id_wf (gr_path g) /\ authority_wf (gr_basis g).
Definition grants_typed (m : gmap AttemptId Grant) : Prop := map_Forall (fun _ => grant_wf) m.
Definition store_typed (s : Store) : Prop :=
  is_u64 (s_last_sequence s) /\ recovery_wf (s_recovery s).

Record Typed (f : Fabric) : Prop := {
  ty_store : store_typed (fb_store f);
  ty_identity : identity_typed (fb_identity f);
  ty_options : 0 < fo_max_retained_attempts (fb_options f) <= max_attempts;
  ty_state : StateTyped (fb_state f);
  ty_sets : sets_typed (fb_sets f);
  ty_evidence : evidence_typed (fb_evidence f);
  ty_attempts : attempts_typed (fb_attempts f);
  ty_active : Id_wf (fb_active_attempt f);
  ty_grants : grants_typed (fb_grants f);
  ty_stats : fabric_stats_wf (fb_stats f) }.

(** *** Replacing one part *)

Lemma Typed_store f s : Typed f -> store_typed s -> Typed (f <| fb_store := s |>).
Proof. intros [] H. constructor; assumption. Qed.
Lemma Typed_state f g : Typed f -> StateTyped (g (fb_state f)) -> Typed (f <| fb_state ::= g |>).
Proof. intros [] H. constructor; assumption. Qed.
Lemma Typed_attempts f g : Typed f -> attempts_typed (g (fb_attempts f)) -> Typed (f <| fb_attempts ::= g |>).
Proof. intros [] H. constructor; assumption. Qed.
Lemma Typed_evidence f g : Typed f -> evidence_typed (g (fb_evidence f)) -> Typed (f <| fb_evidence ::= g |>).
Proof. intros [] H. constructor; assumption. Qed.
Lemma Typed_sets f g : Typed f -> sets_typed (g (fb_sets f)) -> Typed (f <| fb_sets ::= g |>).
Proof. intros [] H. constructor; assumption. Qed.
Lemma Typed_active f g : Typed f -> Id_wf (g (fb_active_attempt f)) -> Typed (f <| fb_active_attempt ::= g |>).
Proof. intros [] H. constructor; assumption. Qed.
Lemma Typed_grants f g : Typed f -> grants_typed (g (fb_grants f)) -> Typed (f <| fb_grants ::= g |>).
Proof. intros [] H. constructor; assumption. Qed.
Lemma Typed_stats f g : Typed f -> fabric_stats_wf (g (fb_stats f)) -> Typed (f <| fb_stats ::= g |>).
Proof. intros [] H. constructor; assumption. Qed.
Lemma Typed_path_fences f g : Typed f -> Typed (f <| fb_path_fences ::= g |>).
Proof. intros []. constructor; assumption. Qed.

(** A statistic that is incremented. *)
Ltac stats_typed := apply Typed_stats; [|
  match goal with HT : Typed _ |- _ => pose proof (ty_stats _ HT) as Hst end;
  unfold fabric_stats_wf in *; cbn; destruct_and! Hst;
  repeat (split; [first [assumption|apply wrap_u64_range]|]); first [assumption|apply wrap_u64_range]].

(** ** Runs *)

Definition ty {A} (R : A -> Prop) (m : Op A) (f : Fabric) : Prop :=
  Typed (m f).2 /\ forall x, (m f).1 = Ok x -> R x.

Definition anything {A} (_ : A) : Prop := True.

Lemma ty_fail {A} (R : A -> Prop) c r s f : Typed f -> ty R (fail_with c r s) f.
Proof. by split. Qed.
Lemma ty_op_fail {A} (R : A -> Prop) s f : Typed f -> ty R (op_fail s) f.
Proof. by split. Qed.
Lemma ty_return {A} (R : A -> Prop) x f : Typed f -> R x -> ty R (op_return x) f.
Proof. intros HT Hx. split; [exact HT|]. by intros y [= <-]. Qed.
Lemma ty_modify g f : Typed (g f) -> ty anything (op_modify g) f.
Proof. by split. Qed.
Lemma ty_read {A} (R : A -> Prop) k f : ty R (k f) f -> ty R (op_read k) f.
Proof. done. Qed.
Lemma ty_set {A} (R : A -> Prop) g k f : ty R k (g f) -> ty R (set! g in k) f.
Proof. done. Qed.
Lemma ty_bind {A B} (Q : A -> Prop) (R : B -> Prop) m k f :
  ty Q m f -> (forall x f1, Typed f1 -> Q x -> ty R (k x) f1) -> ty R (op_bind m k) f.
Proof.
  unfold ty, op_bind. intros [HT HQ] Hk. destruct (m f) as [[x|s] f1]; [|done].
  by apply Hk; [|apply HQ].
Qed.
Lemma ty_then {B} (R : B -> Prop) (m : Op unit) k f :
  ty anything m f -> (forall f1, Typed f1 -> ty R k f1) -> ty R (let! _ := m in k) f.
Proof. intros Hm Hk. apply (ty_bind anything); [exact Hm|]. intros _ f1 HT _. by apply Hk. Qed.
Lemma ty_for_each {A} (l : list A) body f :
  Typed f -> (forall x f1, Typed f1 -> x ∈ l -> ty anything (body x) f1) -> ty anything (for_each l body) f.
Proof.
  intros HT Hb. revert f HT. induction l as [|x l IH]; intros f HT; [by apply ty_return|].
  cbn [for_each]. apply ty_then; [apply Hb; [done|by left]|]. intros f1 HT1. apply IH; [|done].
  intros y f2 HT2 Hy. apply Hb; [done|by right].
Qed.
Lemma ty_if {A} (R : A -> Prop) (b : bool) m1 m2 f :
  (b = true -> ty R m1 f) -> (b = false -> ty R m2 f) -> ty R (if b then m1 else m2) f.
Proof. destruct b; auto. Qed.

(** Refusals and answers that change nothing. *)
Ltac ty_quiet :=
  lazymatch goal with
  | |- ty _ (fail_with _ _ _) _ => apply ty_fail; assumption
  | |- ty _ (op_fail _) _ => apply ty_op_fail; assumption
  | |- ty anything (op_return _) _ => apply ty_return; [assumption|exact I]
  | |- ty _ (if ?b then _ else _) _ => destruct b; ty_quiet
  end.

(** ** Journaling *)

Section journaling.
Context (env : Env).

Lemma append_typed io t p s : store_typed s -> store_typed (Store_append io t p s).2.
Proof.
  intros [Hl Hr]. unfold Store_append.
  destruct (s_closed s); [done|]. destruct (s_inspection_only s); [done|].
  destruct (_ <? _); [done|]. destruct (_ <? _); [done|].
  destruct (Z.eqb_spec (s_last_sequence s) UINT64_MAX) as [|Hne]; [done|]. cbv zeta.
  destruct (bool_decide _); [done|]. destruct (_ || _); [done|]. destruct (negb _); [done|].
  destruct (negb (ai_sync io)); [done|]. split; [|exact Hr].
  change (is_u64 (s_last_sequence s + 1)). unfold is_u64 in *. lia.
Qed.

Lemma ty_append t p f : Typed f -> ty anything (append_locked env t p) f.
Proof.
  intros HT. unfold append_locked, ty.
  pose proof (append_typed (env_append env (fb_store f)) t p _ (ty_store _ HT)) as Hs.
  destruct (Store_append _ t p _) as [st s']. cbn [snd] in Hs.
  pose proof (Typed_store _ _ HT Hs) as HT1. destruct (negb (Status_ok st)); [done|].
  split; [|done]. cbn [snd]. pose proof HT1 as HT2.
  assert (HT3 : Typed (f <| fb_store := s' |>
    <| fb_state ::= fun s => s <| ds_last_sequence := s_last_sequence s' |> |>)).
  { apply Typed_state; [exact HT1|]. destruct (ty_state _ HT1) as [A1 A2 A3 A4 A5 A6 A7 A8].
    constructor; try assumption. apply Hs. }
  clear HT HT1 HT2. stats_typed. exact HT3.
Qed.

(** An append leaves the tables alone. *)
Lemma ty_append_then {A} (R : A -> Prop) t p k f :
  Typed f ->
  (forall f1, Typed f1 -> ds_fences (fb_state f1) = ds_fences (fb_state f) -> fb_sets f1 = fb_sets f -> ty R k f1) ->
  ty R (let! _ := append_locked env t p in k) f.
Proof.
  intros HT Hk. destruct (ty_append t p f HT) as [HT1 _]. unfold ty, op_bind.
  assert (Hf : ds_fences (fb_state (append_locked env t p f).2) = ds_fences (fb_state f) /\
    fb_sets (append_locked env t p f).2 = fb_sets f).
  { unfold append_locked. destruct (Store_append _ _ _ _) as [st s']. by destruct (negb _). }
  destruct (append_locked env t p f) as [[[]|e] f1]; [|done]. cbn [snd] in *. destruct Hf. by apply Hk.
Qed.

Lemma ty_compact f : Typed f -> ty anything (compact_if_needed env) f.
Proof.
  intros HT. unfold compact_if_needed, ty.
  destruct (negb _); [done|]. destruct (_ <? _); [done|].
  assert (Hs : store_typed (Store_write_snapshot (env_snapshot env (fb_store f)) (snapshot_state f) (fb_store f)).2).
  { destruct (ty_store _ HT) as [Hl Hr]. unfold Store_write_snapshot.
    destruct (s_closed _); [done|]. destruct (s_inspection_only _); [done|].
    destruct (negb (_ =? _)); [done|]. cbv zeta. destruct (bool_decide _); [done|].
    destruct (negb (wi_open _)); [done|]. destruct (negb (wi_write _)); [done|].
    destruct (negb (wi_replace _)); [done|]. destruct (_ && _); [done|].
    assert (Hrec : recovery_wf ((s_recovery (fb_store f)) <| rr_snapshot_loaded := true |>
      <| rr_snapshot_sequence := ds_last_sequence (snapshot_state f) |>)).
    { pose proof (st_last _ (ty_state _ HT)). unfold recovery_wf in *. cbn. tauto. }
    destruct (s_journal_open _); (split; [exact Hl|exact Hrec]). }
  destruct (Store_write_snapshot _ _ _) as [st s']. cbn [snd] in Hs. unfold op_status.
  split; [by apply Typed_store|done].
Qed.

(** *** Attempts *)

Lemma attempts_insert m id r :
  attempts_typed m -> at_id r = id -> attempt_wf r -> (m !! id = None -> Z.of_nat (size m) < max_attempts) ->
  attempts_typed (<[id := r]> m).
Proof.
  intros [Hs Hm] Hid Hr Hroom. split; [|by apply map_Forall_insert_2].
  destruct (m !! id) as [r0|] eqn:E; [by rewrite map_size_insert_Some by eauto|].
  rewrite map_size_insert_None by done. specialize (Hroom eq_refl). lia.
Qed.

Lemma attempts_known f id r : Typed f -> fb_attempts f !! id = Some r -> at_id r = id /\ attempt_wf r.
Proof. intros HT Hr. destruct (ty_attempts _ HT) as [_ Hm]. exact (Hm id r Hr). Qed.

Lemma store_attempt_typed f id r r0 :
  Typed f -> fb_attempts f !! id = Some r0 -> at_id r = id -> attempt_wf r -> Typed (store_attempt id r f).
Proof.
  intros HT H0 Hid Hr. apply Typed_attempts; [exact HT|]. apply attempts_insert; [apply HT|done|done|].
  by rewrite H0.
Qed.

Lemma ty_retain r f : Typed f -> attempt_wf r -> ty anything (retain_attempt r) f.
Proof.
  intros HT Hr. unfold retain_attempt, ty.
  destruct (fb_attempts f !! at_id r) as [r0|] eqn:E.
  { split; [|done]. by apply (store_attempt_typed f _ r r0). }
  pose proof (ty_options _ HT) as Ho. pose proof (ty_attempts _ HT) as Ha.
  destruct (Z.leb_spec (fo_max_retained_attempts (fb_options f)) (Z.of_nat (size (fb_attempts f)))).
  - destruct (List.find _ _) as [[old r0]|] eqn:Hf; [|done]. split; [|done]. cbn [snd].
    assert (HT1 : Typed (f <| fb_attempts ::= fun m => <[at_id r := r]> (delete old m) |>)).
    { apply Typed_attempts; [exact HT|]. destruct Ha as [Hs Hm].
      apply List.find_some in Hf as [Hin _]. apply list_elem_of_In, elem_of_ordered_entries in Hin.
      pose proof (map_size_delete_Some old (fb_attempts f) ltac:(eauto)) as Hd.
      assert (Hpos : (size (fb_attempts f) <> 0)%nat).
      { intros Hz%map_size_empty_inv. rewrite Hz, lookup_empty in Hin. done. }
      apply attempts_insert; [|done|done|intros _; lia]. split; [lia|]. by apply map_Forall_delete. }
    clear HT Ha Ho. stats_typed. apply Typed_state; [exact HT1|].
    destruct (ty_state _ HT1) as [A1 A2 A3 A4 A5 A6 A7 A8]. constructor; try assumption.
    destruct A6 as (C1 & C2 & C3 & C4 & C5). repeat (split; [assumption|]). apply wrap_u64_range.
  - split; [|done]. cbn [snd]. apply Typed_attempts; [exact HT|].
    apply attempts_insert; [done|done|done|]. intros _. lia.
Qed.

Lemma ty_persist_attempt r is_begin f :
  Typed f -> attempt_wf r -> ty anything (persist_attempt env r is_begin) f.
Proof.
  intros HT Hr. unfold persist_attempt. cbv zeta. apply ty_if; intros _; [ty_quiet|].
  apply ty_then; [by apply ty_append|]. intros f1 HT1. apply ty_set, ty_retain; [|done].
  apply Typed_state; [done|]. destruct (ty_state _ HT1) as [A1 A2 A3 A4 A5 A6 A7 A8].
  constructor; try assumption. destruct A6 as (C1 & C2). split; [|exact C2].
  apply is_u64_max; [done|]. apply Hr.
Qed.

(** *** Lineage and fences *)

Lemma ty_persist_lineage x f : Typed f -> lineage_wf x -> ty anything (persist_lineage env x) f.
Proof.
  intros HT Hx. unfold persist_lineage. cbv zeta. apply ty_if; intros _; [ty_quiet|].
  apply ty_then; [by apply ty_append|]. intros f1 HT1. apply ty_modify, Typed_state; [done|].
  destruct (ty_state _ HT1) as [A1 A2 A3 A4 [A5 A5'] A6 A7 A8].
  assert (Hl : seq_wf lineage_wf max_lineage (push_lineage x (ds_lineage (fb_state f1)))).
  { unfold push_lineage. split.
    - rewrite size_of_app. change (size_of [x]) with 1.
      destruct (Z.leb_spec max_lineage (size_of (ds_lineage (fb_state f1)))); [|lia].
      destruct (ds_lineage (fb_state f1)) as [|y l]; [by vm_compute|].
      cbn [tail]. rewrite size_of_cons in *. lia.
    - apply Forall_app. split; [|by constructor]. destruct (_ <=? _); [|done].
      by destruct A5'; [constructor|]. }
  assert (Hc : counters_wf ((fb_state f1) <| ds_decision_sequence ::= fun n => Z.max n (Id_value (le_decision x)) |>)).
  { destruct A6 as (C1 & C2 & C3 & C4). split; [done|]. split; [done|]. split; [|exact C4].
    apply is_u64_max; [done|]. apply Hx. }
  unfold push_lineage in Hl. cbv zeta. cbn [ds_lineage update_field].
  destruct (max_lineage <=? size_of (ds_lineage (fb_state f1))); constructor; assumption.
Qed.

Lemma ty_persist_fence x f : Typed f -> fence_wf x -> ty anything (persist_fence env x) f.
Proof.
  intros HT Hx. unfold persist_fence. apply ty_read.
  destruct (Z.leb_spec max_fences (size_of (ds_fences (fb_state f)))) as [|Hroom].
  { apply ty_set, ty_fail, Typed_state; [done|]. destruct (ty_state _ HT) as [A1 A2 A3 A4 A5 A6 A7 A8].
    constructor; try assumption. destruct A6 as (C1 & C2 & C3 & C4 & C5).
    repeat (split; [assumption|]). split; [apply wrap_u64_range|done]. }
  cbv zeta. apply ty_if; intros _; [ty_quiet|].
  apply ty_append_then; [done|]. intros f1 HT1 Hf1 _. apply ty_modify, Typed_state; [done|].
  destruct (ty_state _ HT1) as [A1 A2 A3 [A4 A4'] A5 A6 A7 A8]. constructor; try assumption.
  - cbn [ds_fences update_field]. rewrite Hf1 in *. split; [rewrite size_of_app; change (size_of [x]) with 1; lia|].
    apply Forall_app. split; [done|]. by constructor.
  - destruct A6 as (C1 & C2 & C3). split; [done|]. split; [|exact C3].
    apply is_u64_max; [done|]. apply Hx.
Qed.

Lemma ty_record_fence att path why f :
  Typed f -> Id_wf att -> Id_wf path -> ty anything (record_fence env att path why) f.
Proof.
  intros HT Ha Hp. unfold record_fence. apply ty_read.
  destruct (Z.eqb_spec (ds_fence_sequence (fb_state f)) UINT64_MAX) as [|Hne]; [ty_quiet|].
  apply ty_persist_fence; [done|]. destruct (ty_identity _ HT) as (_ & Hb & He).
  destruct (ty_state _ HT) as [A1 _ _ _ _ (_ & C2 & _) _ _]. unfold fence_wf. cbn.
  split; [unfold Id_wf; cbn; unfold is_u64 in *; lia|].
  repeat (split; [first [assumption|exact I]|]). apply wrap_u64_range.
Qed.

(** *** Ending attempts *)

Lemma count_fence_typed f : Typed f -> Typed (count_fence f).
Proof. intros HT. unfold count_fence. stats_typed. exact HT. Qed.

Lemma ended_known s why id r f :
  Typed f -> fb_attempts f !! id = Some r ->
  at_id (ended s why (ds_last_sequence (fb_state f)) r) = id /\
  attempt_wf (ended s why (ds_last_sequence (fb_state f)) r).
Proof.
  intros HT Hr. destruct (attempts_known f id r HT Hr) as [Hid Hwf]. split; [exact Hid|].
  apply ended_wf; [exact Hwf|apply (ty_state _ HT)].
Qed.

(** Altering a known attempt and journaling it. *)
Lemma ty_refile {A} (R : A -> Prop) id r0 r is_begin k f :
  Typed f -> fb_attempts f !! id = Some r0 -> at_id r = id -> attempt_wf r ->
  (forall f1, Typed f1 -> ty R k f1) ->
  ty R (set! store_attempt id r in let! _ := persist_attempt env r is_begin in k) f.
Proof.
  intros HT H0 Hid Hr Hk. apply ty_set, ty_then; [|exact Hk]. apply ty_persist_attempt; [|done].
  by apply (store_attempt_typed f id r r0).
Qed.

Lemma ty_end_and_fence s why id f : Typed f -> ty anything (end_and_fence env s why id) f.
Proof.
  intros HT. unfold end_and_fence. apply ty_read. unfold find_attempt.
  destruct (fb_attempts f !! id) as [r|] eqn:Hr; [|ty_quiet]. cbv zeta.
  destruct (ended_known s why id r f HT Hr) as [Hid Hwf].
  eapply ty_refile; [done|exact Hr|exact Hid|exact Hwf|]. intros f1 HT1.
  apply ty_then.
  - apply ty_record_fence; [done| |apply Id_wf_absent]. rewrite <- Hid. apply Hwf.
  - intros f2 HT2. by apply ty_modify, count_fence_typed.
Qed.

Lemma grants_deleted m (l : list AttemptId) :
  grants_typed m -> grants_typed (foldl (fun m id => delete id m) m l).
Proof. revert m. induction l as [|i l IH]; intros m Hm; [done|]. cbn. by apply IH, map_Forall_delete. Qed.

Lemma ty_fence_attempts why s f : Typed f -> ty anything (fence_attempts env why s) f.
Proof.
  intros HT. unfold fence_attempts. apply ty_read. cbv zeta. apply ty_then.
  - apply ty_for_each; [done|]. intros id f1 HT1 _. by apply ty_end_and_fence.
  - intros f1 HT1. apply ty_if; intros _; [ty_quiet|]. apply ty_modify.
    apply Typed_grants; [|apply grants_deleted, HT1]. apply (Typed_active f1 (fun _ => Id_absent)); [done|].
    apply Id_wf_absent.
Qed.

Lemma ty_fence_then_compact why s f :
  Typed f -> ty anything (let! _ := fence_attempts env why s in compact_if_needed env) f.
Proof. intros HT. apply ty_then; [by apply ty_fence_attempts|]. intros f1. apply ty_compact. Qed.

Lemma release_typed id f : Typed f -> Typed (release id f).
Proof.
  intros HT. unfold release. apply Typed_active.
  - apply Typed_grants; [done|]. apply map_Forall_delete, HT.
  - cbn. destruct (Id_eqb _ _); [apply Id_wf_absent|apply HT].
Qed.

Lemma ty_revoke_path path id f : Typed f -> ty anything (revoke_path env path id) f.
Proof.
  intros HT. unfold revoke_path. apply ty_read. unfold find_attempt.
  destruct (fb_attempts f !! id) as [r|] eqn:Hr; [|ty_quiet]. apply ty_if; intros _; [|ty_quiet]. cbv zeta.
  destruct (ended_known AttemptState_fenced Reason_path_fenced id r f HT Hr) as [Hid Hwf].
  eapply ty_refile; [done|exact Hr|exact Hid|exact Hwf|]. intros f1 HT1. by apply ty_modify, release_typed.
Qed.

(** ** Ingest *)

Lemma ty_apply_policy p f : Typed f -> policy_fits p -> ty anything (apply_policy env p) f.
Proof.
  intros HT Hp. unfold apply_policy. cbv zeta.
  destruct (Status_ok (FailoverPolicy_validate p)) eqn:Hok; cbn [negb]; [|ty_quiet].
  assert (Hw : policy_wf p) by (unfold policy_wf; unfold policy_fits in Hp; tauto).
  apply ty_read. do 3 (apply ty_if; intros _; [ty_quiet|]).
  apply ty_then; [by apply ty_append|]. intros f1 HT1. apply ty_set, ty_fence_then_compact.
  apply Typed_state; [done|]. destruct (ty_state _ HT1) as [A1 A2 A3 A4 A5 A6 A7 A8].
  constructor; try assumption; [|done]. by apply authority_wf_policy; [|apply Hw].
Qed.

Lemma ty_apply_obligations o f : Typed f -> obligations_fit o -> ty anything (apply_obligations env o) f.
Proof.
  intros HT Ho. unfold apply_obligations. cbv zeta.
  destruct (Status_ok (ServiceObligations_validate o)) eqn:Hok; cbn [negb]; [|ty_quiet].
  assert (Hw : obligations_wf o) by (unfold obligations_wf; unfold obligations_fit in Ho; tauto).
  apply ty_read. do 3 (apply ty_if; intros _; [ty_quiet|]).
  apply ty_then; [by apply ty_append|]. intros f1 HT1. apply ty_set, ty_fence_then_compact.
  apply Typed_state; [done|]. destruct (ty_state _ HT1) as [A1 A2 A3 A4 A5 A6 A7 A8].
  constructor; try assumption; [|done]. by apply authority_wf_obligations; [|apply Hw].
Qed.

Lemma ty_apply_alternate_set s f : Typed f -> set_fits s -> ty anything (apply_alternate_set env s) f.
Proof.
  intros HT Hs. unfold apply_alternate_set. cbv zeta.
  destruct (Status_ok (AlternateSet_validate s)) eqn:Hok; cbn [negb]; [|ty_quiet].
  assert (Hw : wire_set_wf s) by (by apply wire_set_of_fits). apply ty_read.
  match goal with |- context [match _ with Some _ => _ | None => if _ then _ else ?put end] =>
    assert (Hput : (fb_sets f !! set_id s = None -> Z.of_nat (size (fb_sets f)) < max_alternate_sets) ->
      ty anything put f) end.
  { intros Hroom. apply ty_if; intros _; [ty_quiet|]. apply ty_append_then; [done|].
    intros f1 HT1 _ Hs1. apply ty_set, ty_compact. unfold store_set. apply Typed_state.
    - apply Typed_sets; [done|]. destruct (ty_sets _ HT1) as [Hn Hm]. rewrite Hs1 in *.
      split; [|by apply map_Forall_insert_2].
      destruct (fb_sets f !! set_id s) as [s0|] eqn:E; [by rewrite map_size_insert_Some by eauto|].
      rewrite map_size_insert_None by done. specialize (Hroom eq_refl). lia.
    - destruct (ty_state _ HT1) as [A1 A2 A3 A4 A5 A6 A7 A8]. by constructor. }
  destruct (fb_sets f !! set_id s) as [s0|].
  - apply ty_if; intros _; [ty_quiet|]. apply ty_if; intros _; [ty_quiet|]. by apply Hput.
  - destruct (Z.leb_spec max_alternate_sets (Z.of_nat (size (fb_sets f)))); [ty_quiet|]. by apply Hput.
Qed.

Lemma evidence_insert m e : evidence_typed m -> evidence_wf e -> evidence_typed (<[ev_path e := e]> m).
Proof. intros Hm He. by apply map_Forall_insert_2. Qed.

Lemma reject_evidence_typed f : Typed f -> Typed (reject_evidence f).
Proof. intros HT. unfold reject_evidence. stats_typed. exact HT. Qed.
Lemma accept_evidence_typed e f : Typed f -> evidence_wf e -> Typed (accept_evidence e f).
Proof.
  intros HT He. unfold accept_evidence.
  assert (HT1 : Typed (f <| fb_evidence ::= <[ev_path e := e]> |>))
    by (apply Typed_evidence; [done|]; apply evidence_insert; [apply HT|done]).
  clear HT. stats_typed. exact HT1.
Qed.

Lemma ty_apply_evidence e f : Typed f -> evidence_wf e -> ty anything (apply_evidence e) f.
Proof.
  intros HT He. pose proof (reject_evidence_typed f HT) as Hrej.
  pose proof (accept_evidence_typed e f HT He) as Hacc. unfold apply_evidence. cbv zeta.
  apply ty_if; intros _; [by apply ty_set, ty_op_fail|]. apply ty_read.
  destruct (fb_evidence f !! ev_path e) as [x|]; (apply ty_if; intros _; [by apply ty_set, ty_fail|]);
    by apply ty_modify.
Qed.

Lemma ty_set_authority a f : Typed f -> authority_wf a -> ty anything (set_authority env a) f.
Proof.
  intros HT Ha. unfold set_authority. apply ty_read. cbv zeta.
  do 4 (apply ty_if; intros _; [ty_quiet|]). apply ty_set, ty_read. cbv zeta.
  assert (HT1 : Typed (f <| fb_state ::= fun s => s <| ds_authority ::= fun x =>
            x <| av_topology := av_topology a |> <| av_path_authority := av_path_authority a |> |> |>)).
  { apply Typed_state; [done|]. destruct (ty_state _ HT) as [A1 A2 A3 A4 A5 A6 A7 A8].
    constructor; try assumption. destruct Ha as (H1 & H2 & _), A1 as (_ & _ & H3). exact (conj H1 (conj H2 H3)). }
  apply ty_if; intros _; [ty_quiet|].
  apply ty_then; [by apply ty_append|]. intros f1. apply ty_fence_then_compact.
Qed.

Lemma ty_fence_path path why f : Typed f -> Id_wf path -> ty anything (fence_path env path why) f.
Proof.
  intros HT Hp. unfold fence_path. apply ty_if; intros _; [ty_quiet|]. apply ty_read.
  apply ty_if; intros _; [ty_quiet|].
  apply ty_then; [apply ty_record_fence; [done|apply Id_wf_absent|done]|]. intros f1 HT1.
  apply ty_set, ty_read.
  pose proof (count_fence_typed _ (Typed_path_fences f1 <[path := why]> HT1)) as HT2.
  apply ty_then; [|intros f2; apply ty_compact].
  apply ty_for_each; [exact HT2|]. intros id f3 HT3 _. by apply ty_revoke_path.
Qed.

(** ** Decisions *)

Lemma structural_wf did i s aid prov kind basis o r v :
  Id_wf did -> Id_wf i -> Id_wf s -> Id_wf aid -> authority_wf basis -> is_i64 v ->
  document_wf (PromotionDecision_default <| dec_id := did |> <| dec_incumbent := i |>
    <| dec_basis := basis |> <| dec_attempt := aid |> <| dec_provenance := prov |>
    <| dec_authority_kind := kind |> <| dec_set := s |> <| dec_outcome := o |> <| dec_reason := r |>
    <| dec_explanation := [(r, v)] |>).
Proof.
  intros H1 H2 H3 H4 H5 H6. unfold document_wf, decision_wf, reported. cbn.
  repeat (split; [first [assumption|apply absent_wf]|]).
  do 2 (split; [split; [by vm_compute|constructor]|]).
  split; [split; [by vm_compute|constructor; [exact H6|constructor]]|].
  repeat split; vm_compute; congruence.
Qed.

Lemma select_locked_document i co s did aid kind f :
  Typed f -> Id_wf i -> Id_wf s -> Id_wf did -> Id_wf aid ->
  document_wf (select_locked i co s did aid kind f).
Proof.
  intros HT Hi Hs Hd Ha. unfold select_locked. cbv zeta.
  destruct (ty_state _ HT) as [A1 A2 A3 _ _ _ _ _]. pose proof zero_i64 as Hz.
  destruct (fb_sets f !! s) as [set|] eqn:Hset; [|by apply structural_wf].
  destruct (ds_has_policy (fb_state f)); cbn [negb]; [|by apply structural_wf].
  destruct (ds_has_obligations (fb_state f)); cbn [negb]; [|by apply structural_wf].
  match goal with |- context [Selector.evaluate ?inp] => assert (Hin : selection_wf inp) end.
  { destruct (ty_sets _ HT) as [_ Hm]. destruct (Hm s set Hset) as [_ Hw].
    repeat (split; [assumption|]). cbn.
    split; [by intros ? [= <-]|]. split; intros ? [= <-]; auto. }
  destruct (Selector.evaluate _) as [out|st] eqn:He; [|by apply structural_wf].
  exact (evaluate_wf _ _ Hin He).
Qed.

Lemma next_wf {T} n : is_u64 n -> n <> UINT64_MAX -> Id_wf (@Id_from_value T (n + 1)).
Proof. unfold Id_wf, is_u64. cbn. lia. Qed.

Lemma bump_decision_typed f : Typed f -> Typed (bump_decision f).
Proof.
  intros HT. apply Typed_state; [done|]. destruct (ty_state _ HT) as [A1 A2 A3 A4 A5 A6 A7 A8].
  constructor; try assumption. destruct A6 as (C1 & C2 & _ & C4). split; [done|]. split; [done|].
  split; [apply wrap_u64_range|exact C4].
Qed.
Lemma bump_attempt_typed f : Typed f -> Typed (bump_attempt f).
Proof.
  intros HT. apply Typed_state; [done|]. destruct (ty_state _ HT) as [A1 A2 A3 A4 A5 A6 A7 A8].
  constructor; try assumption. destruct A6 as (_ & C). split; [apply wrap_u64_range|exact C].
Qed.

(** An evaluation returns a document of the wire. *)
Lemma ty_evaluate i co s f :
  Typed f -> Id_wf i -> Id_wf s -> ty document_wf (Fabric_evaluate i co s) f.
Proof.
  intros HT Hi Hs. unfold Fabric_evaluate. apply ty_read.
  destruct (ty_state _ HT) as [_ _ _ _ _ (_ & _ & C3 & _) _ _].
  destruct (Z.eqb_spec (ds_decision_sequence (fb_state f)) UINT64_MAX) as [|Hne]; [ty_quiet|]. cbv zeta.
  apply ty_set, ty_return; [by apply bump_decision_typed|].
  exact (select_locked_document i co s _ _ _ f HT Hi Hs (next_wf _ C3 Hne) absent_wf).
Qed.

(** *** Promotion *)

Definition authorization_wf (a : PromotionAuthorization) : Prop :=
  document_wf (pa_decision a) /\ grant_wf (pa_grant a).

Lemma no_grant_wf : grant_wf Grant_default.
Proof. vm_compute. repeat split; congruence. Qed.

Lemma typed_lineage_of dec att outcome inc sel set why f :
  Typed f -> Id_wf dec -> Id_wf att -> Id_wf inc -> Id_wf sel -> Id_wf set ->
  lineage_wf (lineage_of dec att outcome inc sel set why f).
Proof.
  intros HT H1 H2 H3 H4 H5. destruct (ty_identity _ HT) as (_ & Hb & He).
  destruct (ty_state _ HT) as [A1 _ _ _ _ _ A7 _]. unfold lineage_wf. cbn. tauto.
Qed.

Lemma new_attempt_wf id inc sel set gen f :
  Typed f -> Id_wf id -> Id_wf inc -> Id_wf sel -> Id_wf set -> Id_wf gen ->
  attempt_wf (new_attempt id inc sel set gen f).
Proof.
  intros HT H1 H2 H3 H4 H5. destruct (ty_identity _ HT) as (_ & Hb & He).
  destruct (ty_state _ HT) as [A1 _ _ _ _ _ A7 _]. unfold attempt_wf. cbn.
  repeat (split; [first [assumption|exact I]|]). split; [apply wrap_u64_range|].
  vm_compute. repeat split; congruence.
Qed.

Lemma stat_typed (g : FabricStats -> FabricStats) f :
  Typed f -> (fabric_stats_wf (fb_stats f) -> fabric_stats_wf (g (fb_stats f))) -> Typed (stat g f).
Proof. intros HT Hg. apply Typed_stats; [done|]. apply Hg, HT. Qed.

(** Incrementing one statistic. *)
Ltac one_stat :=
  let H := fresh "H" in intros H; unfold fabric_stats_wf in *; cbn; destruct_and! H;
  repeat (split; [first [assumption|apply wrap_u64_range]|]); first [assumption|apply wrap_u64_range].

Lemma ty_begin_refused did r d f :
  Typed f -> Id_wf did -> attempt_wf r -> document_wf d ->
  ty authorization_wf (begin_refused env did r d) f.
Proof.
  intros HT Hd Hr Hdoc. unfold begin_refused. apply ty_read. cbv zeta.
  assert (Hr1 : attempt_wf (ended AttemptState_refused (dec_reason d) (ds_last_sequence (fb_state f)) r))
    by (apply ended_wf; [done|apply (ty_state _ HT)]).
  apply ty_then; [by apply ty_persist_attempt|]. intros f1 HT1. apply ty_read. unfold attempt_wf in Hr1.
  apply ty_then; [apply ty_persist_lineage; [done|]; apply typed_lineage_of; try done; tauto || apply absent_wf|].
  intros f2 HT2. apply ty_set. apply ty_then.
  - apply ty_compact, stat_typed; [done|]. destruct (is_indeterminate _); one_stat.
  - intros f3 HT3. apply ty_return; [done|]. split; [done|apply no_grant_wf].
Qed.

Lemma ty_begin_authorized r d f :
  Typed f -> attempt_wf r -> document_wf d -> ty authorization_wf (begin_authorized env r d) f.
Proof.
  intros HT Hr Hdoc. unfold begin_authorized. cbv zeta.
  apply ty_then; [by apply ty_persist_attempt|]. intros f1 HT1. apply ty_read. cbv zeta.
  change (at_id (r <| at_state := AttemptState_authorized |>)) with (at_id r).
  set (g := mkGrant _ _ _ _ _).
  assert (Hg : grant_wf g).
  { unfold grant_wf, g. cbn. split; [apply Hr|]. split; [apply Hr|].
    split; [|apply (ty_state _ HT1)]. unfold document_wf, decision_wf, reported in Hdoc. cbn in Hdoc. tauto. }
  apply ty_set, ty_then.
  - apply ty_compact, stat_typed; [|one_stat].
    apply Typed_grants; [|by apply map_Forall_insert_2; [|apply HT1]].
    apply (Typed_active f1 (fun _ => at_id r)); [done|apply Hr].
  - intros f2 HT2. by apply ty_return.
Qed.

Lemma contention_wf i s f : Typed f -> Id_wf i -> Id_wf s -> document_wf (contention i s f).
Proof.
  intros HT Hi Hs. unfold contention.
  exact (structural_wf (Id_from_value (wrap_u64 (ds_decision_sequence (fb_state f) + 1))) i s Id_absent
    (fo_provenance (fb_options f)) AuthorityKind_recommendation (ds_authority (fb_state f))
    PromotionOutcome_refused_already_owned Reason_attempt_active
    (i64_of_u64 (Id_value (fb_active_attempt f))) (wrap_u64_range _) Hi Hs absent_wf
    (st_authority _ (ty_state _ HT)) (i64_of_u64_range _ (ty_active _ HT))).
Qed.

Lemma ty_begin_promotion i co s f :
  Typed f -> Id_wf i -> Id_wf s -> ty authorization_wf (begin_promotion env i co s) f.
Proof.
  intros HT Hi Hs. unfold begin_promotion. apply ty_if; intros _; [ty_quiet|]. apply ty_read.
  apply ty_if; intros _.
  { apply ty_set, ty_return; [apply stat_typed; [done|one_stat]|].
    split; [by apply contention_wf|apply no_grant_wf]. }
  apply ty_set. pose proof (Typed_active f (fun _ => Id_absent) HT Id_wf_absent) as HT1.
  set (f1 := f <| fb_active_attempt := Id_absent |>) in *. clearbody f1. clear HT f.
  apply ty_read. cbv zeta. destruct (_ || _) eqn:Hmax; [ty_quiet|].
  apply orb_false_elim in Hmax as [Ha%Z.eqb_neq Hd%Z.eqb_neq].
  destruct (ty_state _ HT1) as [_ _ _ _ _ (C1 & _ & C3 & _) _ _].
  pose proof (@next_wf AttemptTag _ C1 Ha) as Haid. pose proof (@next_wf DecisionTag _ C3 Hd) as Hdid.
  pose proof (select_locked_document i co s _ _ AuthorityKind_grant f1 HT1 Hi Hs Hdid Haid) as Hdoc.
  set (d := select_locked _ _ _ _ _ _ _) in *. clearbody d.
  apply ty_set. pose proof (bump_decision_typed _ HT1) as HT2.
  apply ty_if; intros _.
  { apply ty_set, ty_return; [apply stat_typed; [done|one_stat]|]. split; [done|apply no_grant_wf]. }
  apply ty_read. cbv zeta.
  assert (Hr : attempt_wf (new_attempt (Id_from_value (ds_attempt_sequence (fb_state f1) + 1)) i (dec_selected d) s
    (dec_set_generation d) (bump_decision f1))).
  { unfold document_wf, decision_wf, reported in Hdoc. cbn in Hdoc. apply new_attempt_wf; tauto. }
  apply ty_then; [by apply ty_persist_attempt|]. intros f3 HT3. apply ty_set.
  pose proof (bump_attempt_typed _ HT3) as HT4.
  apply ty_if; intros _; [by apply ty_begin_refused|by apply ty_begin_authorized].
Qed.

(** *** Effects, abandonment and rollback *)

Lemma effect_evidence_wf e : effect_wf e -> evidence_wf (effect_evidence e).
Proof.
  intros (H1 & H2 & H3 & _ & H5 & _). unfold evidence_wf. cbn.
  repeat (split; [first [assumption|exact I|vm_compute; split; congruence]|]). exact I.
Qed.

Lemma reject_stale_typed f : Typed f -> Typed (reject_stale f).
Proof. intros HT. apply stat_typed; [exact HT|one_stat]. Qed.

(** Ending a known attempt: its record is filed and journaled, a lineage entry
    follows, and the object is updated and perhaps compacted. *)
Lemma ty_conclude id r0 r outcome why sel g f :
  Typed f -> fb_attempts f !! id = Some r0 -> at_id r = id -> attempt_wf r -> Id_wf sel ->
  (forall f1, Typed f1 -> Typed (g f1)) ->
  ty anything (set! store_attempt id r in let! _ := persist_attempt env r false in
    with! f in let! _ := persist_lineage env (lineage_of (Id_from_value (ds_decision_sequence (fb_state f)))
                           id outcome (at_incumbent r) sel (at_set r) why f) in
    set! g in compact_if_needed env) f.
Proof.
  intros HT H0 Hid Hr Hsel Hg. eapply ty_refile; [done|exact H0|exact Hid|exact Hr|].
  intros f1 HT1. apply ty_read. unfold attempt_wf in Hr. apply ty_then.
  - apply ty_persist_lineage; [done|]. apply typed_lineage_of; try tauto; try assumption.
    + apply (ty_state _ HT1).
    + rewrite <- Hid. tauto.
  - intros f2 HT2. by apply ty_set, ty_compact, Hg.
Qed.

Lemma settle_effect_typed id e f : Typed f -> effect_wf e ->
  Typed (stat (fun s => s <| fs_promotions_committed ::= bump |>)
    (f <| fb_evidence ::= <[eff_path e := effect_evidence e]> |>
       <| fb_active_attempt := Id_absent |> <| fb_grants ::= delete id |>)).
Proof.
  intros HT He. apply stat_typed; [|one_stat].
  apply Typed_grants; [|apply map_Forall_delete, HT].
  apply (Typed_active _ (fun _ => Id_absent)); [|apply Id_wf_absent].
  apply Typed_evidence; [done|].
  exact (evidence_insert _ (effect_evidence e) (ty_evidence _ HT) (effect_evidence_wf e He)).
Qed.

Lemma ty_commit_effect id r e f :
  Typed f -> fb_attempts f !! id = Some r -> effect_wf e -> ty anything (commit_effect env id r e) f.
Proof.
  intros HT Hr He. unfold commit_effect. apply ty_read. cbv zeta.
  destruct (ended_known AttemptState_committed Reason_none id r f HT Hr) as [Hid Hwf].
  refine (ty_conclude id r _ _ _ _ _ f HT Hr Hid Hwf _ _).
  - unfold attempt_wf in Hwf. tauto.
  - intros f1 HT1. by apply settle_effect_typed.
Qed.

Lemma ty_record_effect id e f : Typed f -> effect_wf e -> ty anything (record_effect env id e) f.
Proof.
  intros HT He. pose proof (reject_stale_typed f HT) as Hrej. unfold record_effect. apply ty_read.
  unfold find_attempt. destruct (fb_attempts f !! id) as [r|] eqn:Hr; [|ty_quiet]. cbv zeta.
  apply ty_if; intros _; [ty_quiet|]. do 2 (apply ty_if; intros _; [by apply ty_set, ty_fail|]).
  apply ty_if; intros _; [ty_quiet|]. apply ty_if; intros _; [by apply ty_set, ty_fail|].
  do 4 (apply ty_if; intros _; [ty_quiet|]). by apply ty_commit_effect.
Qed.

Lemma ty_abandon id why f : Typed f -> ty anything (abandon_attempt env id why) f.
Proof.
  intros HT. unfold abandon_attempt. apply ty_read. unfold find_attempt.
  destruct (fb_attempts f !! id) as [r|] eqn:Hr; [|ty_quiet]. apply ty_if; intros _; [ty_quiet|]. cbv zeta.
  destruct (ended_known AttemptState_abandoned why id r f HT Hr) as [Hid Hwf].
  refine (ty_conclude id r _ _ _ _ _ f HT Hr Hid Hwf absent_wf _). intros f1. apply release_typed.
Qed.

Lemma ty_rollback id e f : Typed f -> ty anything (rollback env id e) f.
Proof.
  intros HT. pose proof (reject_stale_typed f HT) as Hrej. unfold rollback. apply ty_read.
  unfold find_attempt. destruct (fb_attempts f !! id) as [r|] eqn:Hr; [|ty_quiet].
  do 2 (apply ty_if; intros _; [ty_quiet|]). apply ty_if; intros _; [by apply ty_set, ty_fail|].
  apply ty_if; intros _; [ty_quiet|]. destruct (validate_target e f) as [st why].
  apply ty_if; intros _; [ty_quiet|]. apply ty_set.
  assert (HT1 : Typed (stat (fun s => s <| fs_revalidations ::= bump |>) f)) by (apply stat_typed; [done|one_stat]).
  apply ty_if; intros _; [ty_quiet|]. cbv zeta. destruct (attempts_known f id r HT Hr) as [Hid Hwf].
  pose proof (ended_wf AttemptState_rolled_back why _ _ (revalidated_wf r Hwf) (st_last _ (ty_state _ HT))) as Hwf1.
  set (r1 := ended _ _ _ _) in *. change (at_id r1 = id) in Hid. clearbody r1.
  refine (ty_conclude id r r1 _ _ _ _ _ HT1 Hr Hid Hwf1 _ _).
  - unfold attempt_wf in Hwf1. tauto.
  - intros f1 HT2. apply stat_typed; [by apply release_typed|one_stat].
Qed.

(** *** Reversion *)

Lemma reverted_decision_wf did aid r e why f :
  Typed f -> Id_wf did -> Id_wf aid -> attempt_wf r -> evidence_wf e ->
  document_wf (reverted_decision did aid r e why f).
Proof.
  intros HT Hd Ha Hr He. unfold attempt_wf in Hr. unfold evidence_wf in He.
  pose proof (st_authority _ (ty_state _ HT)) as Hauth.
  assert (Hv : is_i64 (i64_of_u64 (Id_value (ev_path e)))) by (apply i64_of_u64_range, He).
  unfold document_wf, decision_wf, reported, reverted_decision. cbn.
  repeat (split; [first [assumption|apply absent_wf|tauto]|]).
  do 2 (split; [split; [by vm_compute|constructor]|]).
  split; [split; [by vm_compute|constructor; [exact Hv|constructor]]|].
  repeat split; vm_compute; congruence.
Qed.

Lemma reverted_attempt_wf aid r e why f :
  Typed f -> Id_wf aid -> attempt_wf r -> evidence_wf e -> attempt_wf (reverted_attempt aid r e why f).
Proof.
  intros HT Ha Hr He. unfold evidence_wf in He. destruct (ty_identity _ HT) as (_ & Hb & Hep).
  destruct (ty_state _ HT) as [A1 _ _ _ _ _ A7 _].
  pose proof (wrap_u32_range (at_revalidations r + 1)) as Hw32.
  pose proof (wrap_u64_range (ds_last_sequence (fb_state f) + 1)) as Hw64.
  unfold attempt_wf in *. cbn. tauto.
Qed.

Lemma ty_commit_revert aid did r e why f :
  Typed f -> Id_wf aid -> Id_wf did -> attempt_wf r -> evidence_wf e ->
  ty document_wf (commit_revert env aid did r e why) f.
Proof.
  intros HT Ha Hd Hr He. unfold commit_revert. apply ty_set.
  assert (HT1 : Typed (stat (fun s => s <| fs_revalidations ::= bump |>) f)) by (apply stat_typed; [done|one_stat]).
  apply ty_read. cbv zeta.
  set (f1 := stat _ f) in *. clearbody f1. clear HT f.
  pose proof (reverted_decision_wf did aid r e why f1 HT1 Hd Ha Hr He) as Hdoc.
  pose proof (reverted_attempt_wf aid r e why f1 HT1 Ha Hr He) as Hrec.
  set (d := reverted_decision _ _ _ _ _ _) in *. clearbody d.
  set (rec := reverted_attempt _ _ _ _ _) in *. clearbody rec.
  apply ty_then; [by apply ty_persist_attempt|]. intros f2 HT2. apply ty_set, ty_set, ty_read.
  pose proof (bump_decision_typed _ (bump_attempt_typed _ HT2)) as HT3.
  unfold attempt_wf in Hrec.
  apply ty_then; [apply ty_persist_lineage; [done|]; apply typed_lineage_of; tauto|].
  intros f4 HT4. apply ty_set, ty_then; [apply ty_compact, stat_typed; [done|one_stat]|].
  intros f5 HT5. by apply ty_return.
Qed.

Lemma ty_revert id e f : Typed f -> evidence_wf e -> ty document_wf (revert env id e) f.
Proof.
  intros HT He. unfold revert. apply ty_read.
  destruct (fb_attempts f !! id) as [r|] eqn:Hr; [|ty_quiet].
  destruct (attempts_known f id r HT Hr) as [Hid Hwf].
  apply ty_if; intros _; [ty_quiet|]. destruct (validate_target e f) as [st why].
  do 3 (apply ty_if; intros _; [ty_quiet|]). cbv zeta.
  destruct (_ || _) eqn:Hmax; [ty_quiet|].
  apply orb_false_elim in Hmax as [Ha%Z.eqb_neq Hd%Z.eqb_neq].
  destruct (ty_state _ HT) as [_ _ _ _ _ (C1 & _ & C3 & _) _ _].
  by apply ty_commit_revert; [|apply next_wf..| |].
Qed.

(** *** Commands *)

Lemma ty_forget {A} (R : A -> Prop) m f : ty R m f -> ty anything (forget m) f.
Proof. intros Hm. apply (ty_bind R); [exact Hm|]. intros x f1 HT1 _. by apply ty_return. Qed.

Lemma ty_execute c f : Typed f -> command_wf c -> ty anything (execute env c) f.
Proof.
  intros HT Hc. destruct c; cbn [execute command_wf] in *.
  - by apply ty_apply_policy.
  - by apply ty_apply_obligations.
  - by apply ty_apply_alternate_set.
  - by apply ty_apply_evidence.
  - by apply ty_set_authority.
  - by apply ty_fence_path.
  - by apply ty_fence_attempts.
  - destruct Hc. by eapply ty_forget, ty_evaluate.
  - destruct Hc. by eapply ty_forget, ty_begin_promotion.
  - destruct Hc. by apply ty_record_effect.
  - by apply ty_abandon.
  - by apply ty_rollback.
  - destruct Hc. by eapply ty_forget, ty_revert.
Qed.
End journaling.
