(* ===== verification/TypedTheorems.v ===== *)
(** * Every coordinator is within its types

    Opening starts from files of any content; whatever they hold, the object
    opened over them is typed, and every command, on every storage behaviour,
    keeps it so. *)

From S2P Require Import Prelude.
From S2P Require Import Ids.
From S2P Require Import Limits.
From S2P Require Import Status.
From S2P Require Import Checked.
From S2P Require Import Authority.
From S2P Require Import Model.
From S2P Require Import Decision.
From S2P Require Import Records.
From S2P Require Import Selector.
From S2P Require Import DocumentProps.
From S2P Require Import Bytes.
From S2P Require Import Canonical.
From S2P Require Import Wire.
From S2P Require Import WireProps.
From S2P Require Import Store.
From S2P Require Import StoreProps.
From S2P Require Import StateProps.
From S2P Require Import SnapshotProps.
From S2P Require Import LoadProps.
From S2P Require Import Fabric.
From S2P Require Import Coordinator.
From S2P Require Import FabricProps.
From S2P Require Import FabricTheorems.
From S2P Require Import DurableProps.
From S2P Require Import DurableTheorems.
From S2P Require Import Protocol.
From S2P Require Import ProtocolProps.
From S2P Require Import TypedProps.

(** ** The recovery report *)

(** What the replay counts never exceeds the bytes it walked over. *)
Lemma replay_records_counts fuel io rest rp total :
  Z.of_nat (rp_position rp) + size_of rest <= total -> 0 <= rp_skipped rp -> 0 <= rp_replayed rp ->
  rp_skipped rp + rp_replayed rp <= Z.of_nat (rp_position rp) ->
  let rp' := replay_records fuel io rest rp in
  Z.of_nat (rp_position rp') <= total /\ 0 <= rp_skipped rp' /\ 0 <= rp_replayed rp' /\
  rp_skipped rp' + rp_replayed rp' <= Z.of_nat (rp_position rp').
Proof.
  cbv zeta. revert rest rp.
  induction fuel as [|fuel IH]; intros rest rp Hp Hs Hr Hc;
    assert (Hn := size_of_nonneg rest); destruct rest as [|b bs]; cbn [replay_records]; try (cbn in *; lia).
  set (rest := b :: bs) in *. assert (Hl : size_of rest = Z.of_nat (length rest)) by done. clearbody rest.
  assert (Hstop : Z.of_nat (rp_position rp) <= total /\ 0 <= rp_skipped rp /\ 0 <= rp_replayed rp /\
    rp_skipped rp + rp_replayed rp <= Z.of_nat (rp_position rp)) by lia.
  destruct (_ <? journal_header_bytes)%nat; [exact Hstop|].
  destruct (negb (li_read io _)); [exact Hstop|].
  destruct (decode_journal_header _) as [h|st]; [|exact Hstop]. cbv zeta.
  destruct (Nat.ltb_spec (length rest) (journal_header_bytes + Z.to_nat (jh_payload_length h) + journal_trailer_bytes));
    [exact Hstop|].
  assert (Hadvance : 1 <= Z.of_nat (journal_header_bytes + Z.to_nat (jh_payload_length h) + journal_trailer_bytes))
    by (unfold journal_header_bytes; lia).
  destruct (_ && _); [exact Hstop|]. destruct (negb (li_read io _)); [exact Hstop|].
  destruct (negb (_ =? crc32c _)); [exact Hstop|].
  set (n := (_ + _ + journal_trailer_bytes)%nat) in *. clearbody n.
  assert (Hd : size_of (drop n rest) = size_of rest - Z.of_nat n).
  { unfold size_of. rewrite length_drop. lia. }
  destruct (jh_sequence h <=? _); [apply IH; cbn; lia|].
  destruct (negb (_ =? wrap_u64 _)); [exact Hstop|]. destruct (RecordType_cast _) as [t|]; [|exact Hstop].
  destruct (apply_record _ _ _) as [applied state]. destruct (negb (Status_ok applied)); [exact Hstop|].
  apply IH; cbn; lia.
Qed.

Definition file_fits (file : option (list byte)) : Prop := size_of (default [] file) <= UINT64_MAX.

Lemma recovery_default_wf : recovery_wf RecoveryReport_default.
Proof. vm_compute. repeat split; congruence. Qed.

Lemma recovery_bytes r n : recovery_wf r -> is_u64 n -> recovery_wf (r <| rr_journal_bytes := n |>).
Proof. unfold recovery_wf. cbn. tauto. Qed.
Lemma recovery_torn r n :
  recovery_wf r -> is_u64 n -> recovery_wf (r <| rr_torn_tail_present := true |> <| rr_truncated_bytes := n |>).
Proof. unfold recovery_wf. cbn. tauto. Qed.
Lemma recovery_repaired r : recovery_wf r -> recovery_wf (r <| rr_torn_tail_recovered := true |>).
Proof. done. Qed.
Lemma recovery_counts r a b :
  recovery_wf r -> rr_records_skipped r = 0 -> rr_records_replayed r = 0 -> is_u64 a -> is_u64 b ->
  recovery_wf (r <| rr_records_skipped ::= Z.add a |> <| rr_records_replayed ::= Z.add b |>).
Proof. unfold recovery_wf. cbn. intros Hw -> -> Ha Hb. rewrite !Z.add_0_r. tauto. Qed.

Lemma Store_open_typed io io_only create journal snapshot s :
  Store_open io io_only create journal snapshot = Ok s ->
  recovery_wf (s_recovery s) /\ rr_records_skipped (s_recovery s) = 0 /\ rr_records_replayed (s_recovery s) = 0 /\
  (s_journal_file s = journal \/ s_journal_file s = Some []).
Proof.
  unfold Store_open, Store_open_files. destruct (_ && _); [done|].
  pose proof recovery_default_wf as Hd.
  destruct (_ && negb (oi_lock io)); cbn [negb Status_ok]; [done|].
  destruct io_only; cbn [s_inspection_only Store_fresh]; destruct (_ && oi_open_journal io); cbn.
  all: try (destruct (oi_create_journal io); cbn).
  all: intros [= <-]; cbn; auto.
Qed.

Lemma load_snapshot_typed io s st state s' :
  recovery_wf (s_recovery s) -> load_snapshot io DurableState_default s = (st, state, s') ->
  recovery_wf (s_recovery s') /\ rr_records_skipped (s_recovery s') = rr_records_skipped (s_recovery s) /\
  rr_records_replayed (s_recovery s') = rr_records_replayed (s_recovery s) /\
  s_journal_file s' = s_journal_file s.
Proof.
  intros Hr. unfold load_snapshot.
  destruct (if li_exists_snapshot io then _ else _) as [bytes|]; [|by intros [= <- <- <-]].
  destruct (negb (li_stat_snapshot io)); [by intros [= <- <- <-]|].
  destruct (_ <? size_of bytes); [by intros [= <- <- <-]|].
  destruct (negb (li_open_snapshot io)); [by intros [= <- <- <-]|].
  destruct (negb (li_read_snapshot io)); [by intros [= <- <- <-]|].
  destruct (decode_snapshot bytes) as [d|e] eqn:E; intros [= <- <- <-]; [|done].
  apply decode_snapshot_wf, tw_last in E. split; [|done]. unfold recovery_wf in *. cbn. tauto.
Qed.

Lemma replay_journal_typed io state s st state' s' :
  recovery_wf (s_recovery s) -> rr_records_skipped (s_recovery s) = 0 ->
  rr_records_replayed (s_recovery s) = 0 -> file_fits (s_journal_file s) -> tables_wf state ->
  replay_journal io state s = (st, state', s') -> Status_ok st = true -> store_typed s'.
Proof.
  intros Hr H1 H2 Hf Hs He Hok. pose proof (replay_journal_wf _ _ _ _ _ _ Hs He) as Hs'.
  apply tw_last in Hs'. apply tw_last in Hs. revert He. unfold replay_journal.
  change (s_journal_file (s <| s_last_sequence := ds_last_sequence state |>)) with (s_journal_file s).
  destruct (s_journal_file s) as [bytes|]; [|by intros [= <- <- <-]].
  destruct (_ || _); [by intros [= <- <- <-]|]. cbv zeta. change (size_of bytes <= UINT64_MAX) in Hf.
  pose proof (size_of_nonneg bytes) as Hn. assert (Hb : is_u64 (size_of bytes)) by (unfold is_u64; lia).
  pose proof (recovery_bytes _ _ Hr Hb) as Hr1.
  destruct (bool_decide (bytes = [])); [by intros [= <- <- <-]|].
  destruct (negb (li_seek_start io)); [by intros [= <- <- <-]|].
  pose proof (replay_records_counts (length bytes) io bytes (mkReplay ok_status state 0 false 0 0)
    (size_of bytes) ltac:(cbn; lia) ltac:(done) ltac:(done) ltac:(done)) as Hc. cbv zeta in Hc.
  set (rp := replay_records _ _ _ _) in *. clearbody rp.
  destruct (negb (Status_ok (rp_status rp))) eqn:Hst.
  { intros [= <- <- <-]. apply negb_true_iff in Hst. congruence. }
  assert (Hz : forall at_, Z.of_nat at_ <= size_of bytes -> is_u64 (Z.of_nat at_) /\ is_u64 (size_of bytes - Z.of_nat at_))
    by (unfold is_u64; lia).
  assert (Hn1 : Z.of_nat (if rp_torn rp then rp_position rp else length bytes) <= size_of bytes)
    by (destruct (rp_torn rp); [lia|done]).
  destruct (Hz _ Hn1) as [Hz1 Hz2]. clear Hz Hn1.
  assert (Hk : is_u64 (rp_skipped rp) /\ is_u64 (rp_replayed rp)) by (unfold is_u64 in *; lia).
  pose proof (recovery_counts _ _ _ Hr1 H1 H2 (proj1 Hk) (proj2 Hk)) as Hcount.
  set (at_ := if rp_torn rp then _ else _) in *. clearbody at_.
  pose proof (recovery_bytes _ _ Hcount Hz1) as Hr2. pose proof (recovery_torn _ _ Hr2 Hz2) as Hr3.
  pose proof (recovery_repaired _ Hr3) as Hr4.
  destruct (rp_torn rp); repeat match goal with
    | |- context [negb (s_inspection_only ?x)] => destruct (s_inspection_only x) end; cbn [andb negb].
  all: try (destruct (li_truncate io); cbn [negb]; [|by intros [= <- <- <-]]).
  all: destruct (li_seek_end io); cbn [negb]; [|by intros [= <- <- <-]].
  all: intros [= <- <- <-]; split; [exact Hs'|]; assumption.
Qed.

Lemma Store_load_typed io s state s' :
  recovery_wf (s_recovery s) -> rr_records_skipped (s_recovery s) = 0 ->
  rr_records_replayed (s_recovery s) = 0 -> file_fits (s_journal_file s) ->
  Store_load io s = (Ok state, s') -> store_typed s'.
Proof.
  intros Hr H1 H2 Hf. unfold Store_load. destruct (s_closed s); [done|].
  destruct (load_snapshot io DurableState_default s) as [[st1 state1] s1] eqn:E1.
  destruct (negb (Status_ok st1)); [done|].
  destruct (replay_journal io state1 s1) as [[st2 state2] s2] eqn:E2.
  destruct (Status_ok st2) eqn:Hok; cbn [negb]; [|done]. intros [= _ <-].
  destruct (load_snapshot_typed _ _ _ _ _ Hr E1) as (Hr1 & Hs1 & Hn1 & Hj1).
  eapply replay_journal_typed; [exact Hr1| | | |by eapply load_snapshot_wf|exact E2|exact Hok].
  - by rewrite Hs1.
  - by rewrite Hn1.
  - by rewrite Hj1.
Qed.

(** ** The object over a loaded state *)

Lemma emplaced_wf {A T} (key : A -> Id T) (P : A -> Prop) l m n :
  Forall P l -> Z.of_nat (size m) + size_of l <= n ->
  map_Forall (fun k x => key x = k /\ P x) m ->
  Z.of_nat (size (foldl (fun m x => emplace (key x) x m) m l)) <= n /\
  map_Forall (fun k x => key x = k /\ P x) (foldl (fun m x => emplace (key x) x m) m l).
Proof.
  intros Hl. revert m. induction Hl as [|x l Hx _ IH]; intros m Hn Hm.
  - split; [|exact Hm]. change (size_of []) with 0 in Hn. cbn [foldl]. lia.
  - rewrite size_of_cons in Hn. cbn [foldl]. pose proof (size_of_nonneg l).
    apply IH; unfold emplace; destruct (m !! key x) eqn:E; try done; try lia.
    + rewrite map_size_insert_None by done. lia.
    + by apply map_Forall_insert_2.
Qed.

Lemma fabric_stats_default_wf : fabric_stats_wf FabricStats_default.
Proof. vm_compute. repeat split; congruence. Qed.

Lemma loaded_typed options store state :
  0 < fo_max_retained_attempts options <= max_attempts -> store_typed store -> tables_wf state ->
  Typed (Fabric_loaded options store state).
Proof.
  intros Ho Hs [T1 T2 T3 [T4 T4'] T5 T6 [T7 T7'] T8 T9 T10 T11 T12]. constructor; cbn.
  - exact Hs.
  - vm_compute. repeat split; congruence.
  - exact Ho.
  - constructor; try assumption.
    + intros E. by rewrite E in T2.
    + intros E. by rewrite E in T3.
  - apply (emplaced_wf set_id wire_set_wf); [exact T4'|rewrite map_size_empty; lia|apply map_Forall_empty].
  - apply map_Forall_empty.
  - apply (emplaced_wf at_id attempt_wf); [exact T7'|rewrite map_size_empty; lia|apply map_Forall_empty].
  - apply absent_wf.
  - apply map_Forall_empty.
  - apply fabric_stats_default_wf.
Qed.

(** What the platform's clock and random source hand out. *)
Definition entropy_wf (e : Entropy) : Prop := is_u64 (en_boot e) /\ is_u64 (en_incarnation e).

Lemma incarnate_typed entropy f :
  Typed f -> entropy_wf entropy -> Id_value (av_epoch (ds_authority (fb_state f))) <> UINT64_MAX ->
  Typed (incarnate entropy f).
Proof.
  intros HT [Hb Hi] Hne. pose proof HT as [F1 F2 F3 F4 F5 F6 F7 F8 F9 F10].
  destruct F4 as [A1 A2 A3 A4 A5 A6 A7 A8].
  assert (He : Id_wf (@Id_from_value EpochTag (Id_value (av_epoch (ds_authority (fb_state f))) + 1))).
  { apply next_wf; [|exact Hne]. unfold authority_wf in A1. apply A1. }
  assert (Hn : is_u64 (bump (ds_restart_count (fb_state f)))) by apply wrap_u64_range.
  constructor; try assumption.
  - exact (conj Hi (conj Hb He)).
  - constructor; try assumption. cbn. unfold authority_wf in *. cbn. tauto.
  - unfold fabric_stats_wf in *. cbn. tauto.
Qed.

Lemma Typed_no_grants f : Typed f -> Typed (f <| fb_active_attempt := Id_absent |> <| fb_grants := ∅ |>).
Proof.
  intros HT. apply (Typed_grants _ (fun _ => ∅)); [|apply map_Forall_empty].
  apply (Typed_active f (fun _ => Id_absent)); [done|apply absent_wf].
Qed.

Lemma sync_attempts_typed f : Typed f -> Typed (sync_attempts f).
Proof. intros HT. apply Typed_state; [done|]. by destruct (ty_state _ HT). Qed.

Lemma ty_start env entropy f : Typed f -> entropy_wf entropy -> ty anything (Fabric_start env entropy) f.
Proof.
  intros HT He. unfold Fabric_start. apply ty_read.
  destruct (Z.eqb_spec (Id_value (av_epoch (ds_authority (fb_state f)))) UINT64_MAX) as [|Hne]; [ty_quiet|].
  apply ty_set, ty_read. pose proof (incarnate_typed entropy f HT He Hne) as HT1. cbv zeta.
  apply ty_if; intros _; [ty_quiet|].
  apply ty_then; [by apply ty_append|]. intros f2 HT2. apply ty_read.
  apply ty_then; [apply ty_for_each; [done|]; intros; by apply ty_end_and_fence|]. intros f3 HT3.
  apply ty_set, ty_compact, sync_attempts_typed. by apply Typed_no_grants.
Qed.

Lemma open_typed env options open_io load_io entropy journal snapshot f :
  entropy_wf entropy -> is_u64 (fo_max_retained_attempts options) -> file_fits journal ->
  Fabric_open env options open_io load_io entropy journal snapshot = Ok f -> Typed f.
Proof.
  intros He Hopt Hj Ho.
  assert (Hr : 0 < fo_max_retained_attempts options <= max_attempts).
  { unfold Fabric_open in Ho. destruct (_ || _) eqn:E; [done|].
    apply orb_false_elim in E as [E1%Z.eqb_neq E2%Z.ltb_ge]. unfold is_u64 in Hopt. lia. }
  apply Fabric_open_inv in Ho as (s0 & store & state & Hs0 & Hl & Hs).
  destruct (Store_open_typed _ _ _ _ _ _ Hs0) as (R1 & R2 & R3 & Hfile).
  assert (Hfit : file_fits (s_journal_file s0)) by (destruct Hfile as [->| ->]; [done|by vm_compute]).
  pose proof (Store_load_typed _ _ _ _ R1 R2 R3 Hfit Hl) as Hst. apply Store_load_wf in Hl.
  pose proof (ty_start env entropy _ (loaded_typed options store state Hr Hst Hl) He) as [HT _].
  by rewrite Hs in HT.
Qed.

(** ** Commands in any order, under any storage behaviour *)

Definition commanded : Fabric -> Fabric -> Prop :=
  rtc (fun f f' => exists env c, command_wf c /\ f' = (execute env c f).2).

Lemma commanded_typed f f' : commanded f f' -> Typed f -> Typed f'.
Proof.
  intros H. induction H as [|f f1 f2 (env & c & Hc & ->) _ IH]; [done|]. intros HT.
  apply IH. by apply ty_execute.
Qed.

Lemma run_commanded env cs f : Forall command_wf cs -> commanded f (run env cs f).2.
Proof.
  intros Hcs. revert f. induction Hcs as [|c cs Hc _ IH]; intros f; [apply rtc_refl|].
  cbn [run]. specialize (IH (execute env c f).2). destruct (execute env c f) as [r f1] eqn:He.
  cbn [snd] in IH. destruct (run env cs f1) as [rs f2]. cbn [snd] in *.
  eapply rtc_l; [|exact IH]. exists env, c. by rewrite He.
Qed.

(** C5: Types are kept.  A coordinator opened over files of any content, with a
    journal a 64-bit offset can address, and driven by any well-formed commands on
    any storage behaviour, failures included, stays within its types: every
    integer in its width, the alternate sets, attempts, fences and lineage within
    their limits, every entry of every table well formed, and sets, attempts and
    evidence filed under their own identity.  (The evidence table has no bound:
    [record_effect] inserts without the check of [apply_evidence].)  The documents it then answers an
    evaluation, a promotion or a reversion with are ones the wire carries. *)
Theorem coordinator_typed env options open_io load_io entropy journal snapshot f0 f :
  entropy_wf entropy -> is_u64 (fo_max_retained_attempts options) -> file_fits journal ->
  Fabric_open env options open_io load_io entropy journal snapshot = Ok f0 -> commanded f0 f ->
  Typed f /\
  (forall incumbent condition set d, Id_wf incumbent -> Id_wf set ->
     (Fabric_evaluate incumbent condition set f).1 = Ok d -> document_wf d) /\
  (forall env' incumbent condition set a, Id_wf incumbent -> Id_wf set ->
     (begin_promotion env' incumbent condition set f).1 = Ok a -> authorization_wf a) /\
  (forall env' id target d, evidence_wf target ->
     (revert env' id target f).1 = Ok d -> document_wf d).
Proof.
  intros He Hopt Hj Ho Hc. pose proof (commanded_typed _ _ Hc (open_typed _ _ _ _ _ _ _ _ He Hopt Hj Ho)) as HT.
  split; [exact HT|]. split; [|split].
  - intros i co s d Hi Hs. by apply ty_evaluate.
  - intros env' i co s a Hi Hs. by apply ty_begin_promotion.
  - intros env' id e d Hev. by apply ty_revert.
Qed.

Lemma coordinator_typed_witness :
  Typed carried_through /\
  (forall incumbent condition set d, Id_wf incumbent -> Id_wf set ->
     (Fabric_evaluate incumbent condition set carried_through).1 = Ok d -> document_wf d) /\
  (forall env' incumbent condition set a, Id_wf incumbent -> Id_wf set ->
     (begin_promotion env' incumbent condition set carried_through).1 = Ok a -> authorization_wf a) /\
  (forall env' id target d, evidence_wf target ->
     (revert env' id target carried_through).1 = Ok d -> document_wf d).
Proof.
  apply (coordinator_typed healthy_env (FabricOptions_default "state") healthy_open healthy_load
    (mkEntropy 6 7 8 9) None None (from_result (opened healthy_env 6 None None)) carried_through).
  - vm_compute. repeat split; congruence.
  - vm_compute. split; congruence.
  - by vm_compute.
  - apply opened_from_result. by vm_compute.
  - apply run_commanded, setup_wf.
Defined.
