(* ===== verification/PlatformTheorems.v ===== *)
(** * The identity of an incarnation

    What the platform's randomness gives a coordinator that opens. *)

From S2P Require Import Prelude.
From S2P Require Import Ids.
From S2P Require Import Limits.
From S2P Require Import Status.
From S2P Require Import Authority.
From S2P Require Import Records.
From S2P Require Import WireProps.
From S2P Require Import Store.
From S2P Require Import StateProps.
From S2P Require Import LoadProps.
From S2P Require Import Fabric.
From S2P Require Import FabricProps.
From S2P Require Import FabricTheorems.
From S2P Require Import DurableTheorems.
From S2P Require Import TypedProps.
From S2P Require Import TypedTheorems.
From S2P Require Import Platform.

(** Draws within the widths of what the device and the clock return. *)
Definition draws_wf (d : Draws) : Prop :=
  is_u32 (dw_boot2 d) /\ is_u64 (dw_boot_micros d) /\
  is_u32 (dw_incarnation2 d) /\ is_u64 (dw_incarnation_micros d).

Lemma random_u64_range draw1 draw2 micros pid :
  is_u32 draw2 -> is_u64 micros -> 0 < random_u64 draw1 draw2 micros pid <= UINT64_MAX.
Proof.
  intros H2 H3. unfold random_u64. cbv zeta. pose proof (mix_range (random_seed draw1 draw2 micros pid)) as Hm.
  destruct (Z.eqb_spec (mix (random_seed draw1 draw2 micros pid)) 0); [by vm_compute|]. unfold is_u64 in Hm. lia.
Qed.

(** Two draws collide only from the same seed, or through the one that stands for zero. *)
Lemma random_u64_injective a1 a2 am ap b1 b2 bm bp :
  is_u32 a2 -> is_u64 am -> is_u32 b2 -> is_u64 bm ->
  random_u64 a1 a2 am ap = random_u64 b1 b2 bm bp ->
  random_seed a1 a2 am ap = random_seed b1 b2 bm bp \/
  random_seed a1 a2 am ap = 0 \/ random_seed b1 b2 bm bp = 0.
Proof.
  intros H1 H2 H3 H4 H.
  pose proof (seed_range a1 a2 am ap H1 H2) as Ha. pose proof (seed_range b1 b2 bm bp H3 H4) as Hb.
  unfold random_u64 in H. cbv zeta in H.
  destruct (Z.eqb_spec (mix (random_seed a1 a2 am ap)) 0) as [Ea|]; [right; left; by apply mix_zero|].
  destruct (Z.eqb_spec (mix (random_seed b1 b2 bm bp)) 0) as [Eb|]; [right; right; by apply mix_zero|].
  left. by apply mix_injective.
Qed.

(** ** Operations keep the identity *)

Definition keeps {A} (m : Op A) : Prop := forall f, fb_identity (m f).2 = fb_identity f.

Lemma keeps_return {A} (x : A) : keeps (op_return x).
Proof. done. Qed.
Lemma keeps_fail {A} s : keeps (A := A) (op_fail s).
Proof. done. Qed.
Lemma keeps_modify g : (forall f, fb_identity (g f) = fb_identity f) -> keeps (op_modify g).
Proof. by intros Hg f; apply Hg. Qed.
Lemma keeps_bind {A B} (m : Op A) (k : A -> Op B) : keeps m -> (forall x, keeps (k x)) -> keeps (op_bind m k).
Proof.
  intros Hm Hk f. unfold op_bind. specialize (Hm f). destruct (m f) as [[x|s] f1]; [|exact Hm].
  by rewrite Hk.
Qed.
Lemma keeps_read {A} (k : Fabric -> Op A) : (forall f, keeps (k f)) -> keeps (op_read k).
Proof. intros Hk f. apply Hk. Qed.
Lemma keeps_if {A} (b : bool) (m1 m2 : Op A) : keeps m1 -> keeps m2 -> keeps (if b then m1 else m2).
Proof. by destruct b. Qed.
Lemma keeps_for_each {A} (l : list A) body : (forall x, keeps (body x)) -> keeps (for_each l body).
Proof. intros Hb. induction l as [|x l IH]; [done|]. cbn [for_each]. apply keeps_bind; [apply Hb|by intros _]. Qed.

Create HintDb keeps.
#[export] Hint Resolve keeps_return keeps_fail keeps_bind keeps_read keeps_if keeps_for_each : keeps.
#[export] Hint Extern 1 (keeps (op_modify _)) => (apply keeps_modify; reflexivity) : keeps.
#[export] Hint Extern 1 (keeps (fail_with _ _ _)) => (apply keeps_fail) : keeps.

Section identity.
Context (env : Env).

Lemma keeps_append t p : keeps (append_locked env t p).
Proof. intros f. unfold append_locked. destruct (Store_append _ _ _ _) as [st s]. by destruct (negb _). Qed.
Lemma keeps_compact : keeps (compact_if_needed env).
Proof.
  intros f. unfold compact_if_needed. destruct (negb _); [done|]. destruct (_ <? _); [done|].
  by destruct (Store_write_snapshot _ _ _).
Qed.
Lemma keeps_retain r : keeps (retain_attempt r).
Proof.
  intros f. unfold retain_attempt. destruct (fb_attempts f !! at_id r); [done|]. destruct (_ <=? _); [|done].
  by destruct (List.find _ _) as [[]|].
Qed.
Hint Resolve keeps_append keeps_compact keeps_retain : keeps.

Lemma keeps_persist_attempt r b : keeps (persist_attempt env r b).
Proof. unfold persist_attempt. auto 8 with keeps. Qed.
Lemma keeps_persist_fence x : keeps (persist_fence env x).
Proof. unfold persist_fence. auto 10 with keeps. Qed.
Hint Resolve keeps_persist_attempt keeps_persist_fence : keeps.
Lemma keeps_record_fence a p r : keeps (record_fence env a p r).
Proof. unfold record_fence. auto 8 with keeps. Qed.
Hint Resolve keeps_record_fence : keeps.
Lemma keeps_end_and_fence s r id : keeps (end_and_fence env s r id).
Proof.
  unfold end_and_fence. apply keeps_read. intros f. destruct (find_attempt id f); auto 10 with keeps.
Qed.
Hint Resolve keeps_end_and_fence : keeps.

(** A start that succeeds has taken the identity it drew. *)
Lemma start_identity entropy f g :
  Fabric_start env entropy f = (Ok tt, g) -> fb_identity g = fb_identity (incarnate entropy f).
Proof.
  unfold Fabric_start, op_read at 1. destruct (_ =? UINT64_MAX); [done|]. intros H.
  assert (Hk : forall (m : Op unit), keeps m -> (set! incarnate entropy in m) f = (Ok tt, g) ->
    fb_identity g = fb_identity (incarnate entropy f)).
  { intros m Hm He. specialize (Hm (incarnate entropy f)). unfold op_bind, op_modify in He. by rewrite He in Hm. }
  eapply Hk; [|exact H]. cbv zeta. auto 12 with keeps.
Qed.
End identity.

(** The draws make an entropy within its types. *)
Lemma entropy_drawn d : draws_wf d -> entropy_wf (platform_entropy d).
Proof.
  intros (B1 & B2 & I1 & I2).
  pose proof (random_u64_range (dw_boot1 d) (dw_boot2 d) (dw_boot_micros d) (dw_process_id d) B1 B2).
  pose proof (random_u64_range (dw_incarnation1 d) (dw_incarnation2 d) (dw_incarnation_micros d) (dw_process_id d) I1 I2).
  split; cbn; unfold is_u64; lia.
Qed.


Definition sample_draws : Draws := mkDraws 17 4 1700000000000000 99 6 1700000000000010 4242 1700000000000020.

