(* ===== verification/Server.v ===== *)
(** * The coordinator service ([include/pff/server.hpp], [src/server.cpp])

    The server object, its session table and its session threads.  A session
    thread is a sequence of steps, each between two of its blocking calls: what a
    receive delivers, whether a send succeeds and what the platform does to the
    coordinator's files are inputs of the step; the bytes sent are its output.  The
    sections in which such a step counts something are part of it; those that
    change the session table or the count of threads are steps of their own.
    Sockets themselves are not modelled: a session object always has one. *)

From S2P Require Import Prelude.
From S2P Require Import Ids.
From S2P Require Import Limits.
From S2P Require Import Status.
From S2P Require Import Checked.
From S2P Require Import Authority.
From S2P Require Import Model.
From S2P Require Import Decision.
From S2P Require Import Records.
From S2P Require Import Bytes.
From S2P Require Import Canonical.
From S2P Require Import Wire.
From S2P Require Import Store.
From S2P Require Import Fabric.
From S2P Require Import Platform.
From S2P Require Import Net.
From S2P Require Import Protocol.

(** The largest receive. *)
Definition kRecvChunk : Z := 64 * 1024.

Record ServerOptions := mkServerOptions {
  so_bind_address : list byte;
  so_port : Z;
  so_max_sessions : Z;
  so_max_requests_per_session : Z;
  so_allow_shutdown : bool }.

Definition ServerOptions_default : ServerOptions :=
  mkServerOptions (String.list_byte_of_string "127.0.0.1") 0 max_sessions
    default_max_requests_per_session true.

Record ServerStats := mkServerStats {
  ss_connections_accepted : Z;
  ss_connections_rejected : Z;
  ss_handshakes_completed : Z;
  ss_requests_handled : Z;
  ss_frames_rejected : Z;
  ss_sessions_closed : Z;
  ss_sessions_evicted : Z;
  ss_bytes_received : Z;
  ss_bytes_sent : Z;
  ss_active_sessions : Z }.

#[export] Instance ServerStats_eta : Eta ServerStats :=
  fun s => mkServerStats (ss_connections_accepted s) (ss_connections_rejected s)
    (ss_handshakes_completed s) (ss_requests_handled s) (ss_frames_rejected s)
    (ss_sessions_closed s) (ss_sessions_evicted s) (ss_bytes_received s) (ss_bytes_sent s)
    (ss_active_sessions s).

Definition ServerStats_default : ServerStats := mkServerStats 0 0 0 0 0 0 0 0 0 0.

Record Session := mkSession {
  se_id : SessionId;
  se_epoch : Epoch;
  se_boot : BootId;
  se_requests_handled : Z;
  se_last_request_sequence : Z;
  se_decoder : FrameDecoder }.

#[export] Instance Session_eta : Eta Session :=
  fun s => mkSession (se_id s) (se_epoch s) (se_boot s) (se_requests_handled s)
    (se_last_request_sequence s) (se_decoder s).

Definition Session_new (max_payload : Z) : Session :=
  mkSession Id_absent Id_absent Id_absent 0 0 (FrameDecoder_new max_payload).

Record DispatchResult := mkDispatchResult {
  dr_response_type : MsgType;
  dr_payload : list byte;
  dr_close_session : bool;
  dr_stop_server : bool }.

#[export] Instance DispatchResult_eta : Eta DispatchResult :=
  fun r => mkDispatchResult (dr_response_type r) (dr_payload r) (dr_close_session r)
    (dr_stop_server r).

(** Where a session thread is: at a receive or popping frames, before or after
    the handshake; past its loops; past [forget_session], out of the table but
    still counted; or in a send that raised [SIGPIPE], which ends the process. *)
Inductive Phase :=
  | Ph_hello_recv | Ph_hello_pop | Ph_request_recv | Ph_request_pop | Ph_leaving | Ph_forgotten
  | Ph_killed.
#[export] Instance Phase_eq_dec : EqDecision Phase.
Proof. solve_decision. Defined.

(** A session object with the thread that serves it. *)
Record Thread := mkThread { th_phase : Phase; th_session : Session }.

#[export] Instance Thread_eta : Eta Thread := fun t => mkThread (th_phase t) (th_session t).

(** Where the accept loop is: at its accept; with an accepted connection, having
    found the stop flag clear; with its session object in the table; with its
    thread counted but not started; with a thread that could not be started and is
    no longer counted; past the loop; waiting for the session threads; or out of
    [run]. *)
Inductive Running :=
  | Ru_loop
  | Ru_accepted (h : nat)
  | Ru_pushed (h : nat)
  | Ru_counted (h : nat)
  | Ru_unstarted (h : nat)
  | Ru_past
  | Ru_waiting
  | Ru_returned (s : Status).

(** The server.  [sv_sessions] is the session table, a list of session objects;
    [sv_threads] are the threads alive, by the object each serves;
    [sv_running] is where [run] is; [sv_killed] tells that [SIGPIPE] has ended the
    process. *)
Record Server := mkServer {
  sv_options : ServerOptions;
  sv_fabric : Fabric;
  sv_stop : bool;
  sv_listening : bool;
  sv_active_threads : Z;
  sv_sessions : list nat;
  sv_threads : gmap nat Thread;
  sv_session_sequence : Z;
  sv_stats : ServerStats;
  sv_running : Running;
  sv_killed : bool }.

#[export] Instance Server_eta : Eta Server :=
  fun s => mkServer (sv_options s) (sv_fabric s) (sv_stop s) (sv_listening s)
    (sv_active_threads s) (sv_sessions s) (sv_threads s) (sv_session_sequence s) (sv_stats s)
    (sv_running s) (sv_killed s).

Definition sv_stat (update : ServerStats -> ServerStats) (sv : Server) : Server :=
  sv <| sv_stats ::= update |>.

(** [Server::start], once the socket library is up: [bound] is the outcome of
    listening. *)
Definition Server_start (options : ServerOptions) (fabric : Fabric) (bound : Status) : Result Server :=
  if (so_max_sessions options =? 0) || (max_sessions <? so_max_sessions options) then
    Err (mkStatus Code_invalid Reason_domain_invalid "max_sessions out of range")
  else if negb (Status_ok bound) then Err bound
  else Ok (mkServer options fabric false true 0 [] ∅ 0 ServerStats_default Ru_loop false).

(** [Server::stats]. *)
Definition Server_stats (sv : Server) : ServerStats :=
  (sv_stats sv) <| ss_active_sessions := size_of (sv_sessions sv) |>.

(** [request_stop]: the flag; waking the accept and releasing blocked sessions
    act on sockets only. *)
Definition request_stop (sv : Server) : Server := sv <| sv_stop := true |>.

(** ** Answers *)

Definition detail_bytes (s : string) : list byte := String.list_byte_of_string s.

Definition error_payload (code : Code) (reason : Reason) (detail : string) : list byte :=
  encode_error_response (mkErrorResponse code reason (detail_bytes detail)).

Definition error_response (code : Code) (reason : Reason) (detail : list byte) : DispatchResult :=
  let detail := if max_reason_bytes <? size_of detail
                then take (Z.to_nat max_reason_bytes) detail else detail in
  mkDispatchResult MsgType_error_rsp (encode_error_response (mkErrorResponse code reason detail))
    false false.

Definition refuse (code : Code) (reason : Reason) (detail : string) : DispatchResult :=
  error_response code reason (detail_bytes detail).

(** The lambda of [dispatch]: a success acknowledges with an empty payload. *)
Definition from_status {A} (result : Result A) : DispatchResult :=
  let status := Result_status result in
  if Status_ok status then mkDispatchResult MsgType_ok_rsp [] false false
  else refuse (status_code status) (status_reason status) (status_detail status).

(** A response that could be encoded. *)
Definition answer (type : MsgType) (payload : list byte) (detail : string) : DispatchResult :=
  if bool_decide (payload = []) then refuse Code_invalid Reason_invalid_payload detail
  else mkDispatchResult type payload false false.

Section serve.

(** What the platform does to the coordinator's files during the step. *)
Variable env : Env.

(** A handler acts on the coordinator. *)
Definition Handler : Type := Fabric -> DispatchResult * Fabric.

Definition reply (r : DispatchResult) : Handler := fun f => (r, f).

(** [return from_status(fabric_->operation(...))]. *)
Definition acknowledge (op : Op unit) : Handler := fun f =>
  let (result, f) := op f in (from_status result, f).

(** [auto body = get(reader); if (!body.ok() || !reader.at_end()) ...]. *)
Definition with_body {A} (get : Read (Result A)) (reader : ByteReader) (invalid : string)
    (k : A -> Handler) : Handler :=
  match get reader with
  | (Ok body, reader) =>
      if negb (r_at_end reader) then reply (refuse Code_invalid Reason_invalid_payload invalid)
      else k body
  | (Err _, _) => reply (refuse Code_invalid Reason_invalid_payload invalid)
  end.

Definition status_response (sv : Server) (f : Fabric) : StatusResponse :=
  let identity := fb_identity f in
  let stats := fb_stats f in
  mkStatusResponse (fi_incarnation identity) (fi_epoch identity) (fi_boot identity)
    (Fabric_authority f) stats (Fabric_recovery f) (size_of (sv_sessions sv))
    (ss_requests_handled (sv_stats sv)) (Fabric_policy_installed f)
    (Fabric_obligations_installed f) (Fabric_alternate_set_count f)
    (Fabric_active_attempt_count f) 0 (fs_fences_recorded stats).

Definition evaluate_reply (value : PromotionRequest) : Handler := fun f =>
  match Fabric_evaluate (req_incumbent value) (req_condition value) (req_set value) f with
  | (Err status, f) => (from_status (Err (A := unit) status), f)
  | (Ok decision, f) =>
      (answer MsgType_evaluate_rsp
         (encode_promote_response (mkPromoteResponse decision Id_absent Id_absent))
         "cannot encode decision", f)
  end.

Definition promote_response (a : PromotionAuthorization) : PromoteResponse :=
  if negb (pa_authorized a) then
    mkPromoteResponse (pa_decision a) Id_absent (dec_attempt (pa_decision a))
  else mkPromoteResponse (pa_decision a) (gr_id (pa_grant a)) (gr_attempt (pa_grant a)).

Definition promote_reply (value : PromotionRequest) : Handler := fun f =>
  match begin_promotion env (req_incumbent value) (req_condition value) (req_set value) f with
  | (Err status, f) => (from_status (Err (A := unit) status), f)
  | (Ok authorization, f) =>
      (answer MsgType_promote_rsp (encode_promote_response (promote_response authorization))
         "cannot encode grant", f)
  end.

Definition revert_reply (body : AttemptId * PathEvidence) : Handler := fun f =>
  match revert env body.1 body.2 f with
  | (Err status, f) => (from_status (Err (A := unit) status), f)
  | (Ok decision, f) =>
      (answer MsgType_evaluate_rsp
         (encode_promote_response (mkPromoteResponse decision Id_absent (dec_attempt decision)))
         "cannot encode reversion", f)
  end.

Definition attempt_response (id : AttemptId) (f : Fabric) : AttemptResponse :=
  match Fabric_attempt id f with
  | Ok record => mkAttemptResponse true record
  | Err _ => mkAttemptResponse false (AttemptRecord_default <| at_id := id |>)
  end.

Definition lineage_response (limit : Z) (f : Fabric) : LineageResponse :=
  let entries := Fabric_lineage (Z.to_nat limit) f in
  mkLineageResponse (limit <=? size_of entries) entries.

(** The switch of [dispatch] over the kinds of request. *)
Definition dispatch_request (sv : Server) (type : MsgType) (reader : ByteReader) : Handler :=
  match type with
  | MsgType_status_req => fun f =>
      (answer MsgType_status_rsp (encode_status_response (status_response sv f))
         "cannot encode status", f)
  | MsgType_set_policy_req =>
      with_body get_policy reader "policy payload invalid"
        (fun policy => acknowledge (apply_policy env policy))
  | MsgType_set_obligations_req =>
      with_body get_obligations reader "obligations payload invalid"
        (fun obligations => acknowledge (apply_obligations env obligations))
  | MsgType_put_set_req =>
      with_body get_set reader "alternate set payload invalid"
        (fun set => acknowledge (apply_alternate_set env set))
  | MsgType_put_evidence_req =>
      with_body get_evidence reader "evidence payload invalid"
        (fun evidence => acknowledge (apply_evidence evidence))
  | MsgType_set_authority_req =>
      with_body get_authority reader "authority payload invalid"
        (fun authority => acknowledge (set_authority env authority))
  | MsgType_evaluate_req =>
      with_body decode_request_body reader "request payload invalid" evaluate_reply
  | MsgType_promote_req =>
      with_body decode_request_body reader "request payload invalid" promote_reply
  | MsgType_effect_req =>
      with_body decode_effect_body reader "effect payload invalid"
        (fun body => acknowledge (record_effect env body.1 body.2))
  | MsgType_abandon_req =>
      with_body decode_abandon_body reader "abandon payload invalid"
        (fun body => acknowledge (abandon_attempt env body.1 body.2))
  | MsgType_rollback_req =>
      with_body decode_rollback_body reader "rollback payload invalid"
        (fun body => acknowledge (rollback env body.1 body.2))
  | MsgType_revert_req =>
      with_body decode_rollback_body reader "rollback payload invalid" revert_reply
  | MsgType_fence_req =>
      with_body decode_fence_body reader "fence payload invalid"
        (fun body => acknowledge (fence_path env body.1 body.2))
  | MsgType_attempt_req =>
      with_body decode_attempt_body reader "attempt payload invalid"
        (fun attempt f =>
           (answer MsgType_attempt_rsp (encode_attempt_response (attempt_response attempt f))
              "cannot encode attempt", f))
  | MsgType_lineage_req =>
      with_body decode_lineage_body reader "lineage payload invalid"
        (fun limit f =>
           (answer MsgType_lineage_rsp (encode_lineage_response (lineage_response limit f))
              "cannot encode lineage", f))
  | MsgType_shutdown_req =>
      if negb (so_allow_shutdown (sv_options sv)) then
        reply (refuse Code_refused Reason_message_unsupported "shutdown is disabled for this service")
      else reply (mkDispatchResult MsgType_shutdown_rsp [] false true)
  | _ =>
      reply (refuse Code_unsupported Reason_message_unsupported
               "message type is not a supported request")
  end.

(** The session authority a request must carry: the refusal it meets otherwise. *)
Definition check_header (options : ServerOptions) (session : Session) (header : SessionHeader)
    : option DispatchResult :=
  if negb (bool_decide (sh_session header = se_id session)) then
    Some (refuse Code_refused Reason_session_unknown
            "request session does not match the established session")
  else if negb (bool_decide (sh_epoch header = se_epoch session))
          || negb (bool_decide (sh_boot header = se_boot session)) then
    Some (refuse Code_stale Reason_session_stale "session authority is no longer current")
  else if (sh_request_sequence header =? 0)
          || (sh_request_sequence header <=? se_last_request_sequence session) then
    Some (refuse Code_conflict Reason_sequence_regression "request sequence replayed or regressed")
  else if so_max_requests_per_session options <? sh_request_sequence header then
    Some (refuse Code_exhausted Reason_request_limit "session request budget exhausted")
  else None.

Definition dispatch (sv : Server) (session : Session) (frame : Frame) (f : Fabric)
    : DispatchResult * Session * Fabric :=
  match decode_session_header (ByteReader_new (fm_payload frame)) with
  | (Err status, _) =>
      ((refuse Code_invalid (status_reason status) "session header invalid")
         <| dr_close_session := true |>, session, f)
  | (Ok header, reader) =>
      match check_header (sv_options sv) session header with
      | Some result => (result <| dr_close_session := true |>, session, f)
      | None =>
          let session := session <| se_last_request_sequence := sh_request_sequence header |> in
          let (result, f) := dispatch_request sv (fm_type frame) reader f in
          (result, session, f)
      end
  end.

(** ** The session thread *)

(** What the step gives its session: the server, the session object, where its
    thread is, and the frames written to its socket. *)
Definition Stepped : Type := Server * Session * Phase * list (list byte).

Definition add_u64 (n m : Z) : Z := wrap_u64 (n + m).

(** [send_frame]; [sent] is how [net::send_all] comes back. *)
Definition send_frame (sent : Sending) (type : MsgType) (sequence : Z) (payload : list byte)
    (sv : Server) : Sending * Server * list (list byte) :=
  let frame := encode_frame type sequence 0 payload in
  if bool_decide (frame = []) then
    (Sending_returned (mkStatus Code_invalid Reason_invalid_payload "cannot encode response frame"), sv, [])
  else
    match sent with
    | Sending_returned status =>
        if Status_ok status then
          (sent, sv_stat (fun s => s <| ss_bytes_sent ::= fun n => add_u64 n (size_of frame) |>) sv, [frame])
        else (sent, sv, [])
    | Sending_killed => (sent, sv <| sv_killed := true |>, [])
    end.

(** What the thread does with the status of a send that comes back. *)
Definition sending (sent : Sending) (type : MsgType) (sequence : Z) (payload : list byte)
    (sv : Server) (session : Session) (k : Status -> Server -> list (list byte) -> Stepped) : Stepped :=
  match send_frame sent type sequence payload sv with
  | (Sending_returned status, sv, out) => k status sv out
  | (Sending_killed, sv, out) => (sv, session, Ph_killed, out)
  end.

Definition reject_frame (sv : Server) : Server :=
  sv_stat (fun s => s <| ss_frames_rejected ::= bump |>) sv.

(** [SessionId::from_value(++session_sequence_)] and the session authority. *)
Definition establish (sv : Server) (session : Session) : Server * Session :=
  let identity := fb_identity (sv_fabric sv) in
  let sequence := bump (sv_session_sequence sv) in
  (sv_stat (fun s => s <| ss_handshakes_completed ::= bump |>) (sv <| sv_session_sequence := sequence |>),
   session <| se_id := Id_from_value sequence |> <| se_epoch := fi_epoch identity |>
           <| se_boot := fi_boot identity |>).

Definition hello_response (sv : Server) (session : Session) : HelloResponse :=
  let identity := fb_identity (sv_fabric sv) in
  mkHelloResponse protocol_version (se_id session) (fi_epoch identity) (fi_boot identity)
    (fi_incarnation identity) (Fabric_authority (sv_fabric sv))
    (so_max_requests_per_session (sv_options sv)).

(** The body of the handshake loop for a popped frame. *)
Definition hello_frame (sent : Sending) (sv : Server) (session : Session) (frame : Frame) : Stepped :=
  if negb (bool_decide (fm_type frame = MsgType_hello)) then
    sending sent MsgType_error_rsp (fm_sequence frame)
      (error_payload Code_refused Reason_message_unsupported "handshake required") sv session
      (fun _ sv out => (reject_frame sv, session, Ph_leaving, out))
  else
    match decode_hello_request (fm_payload frame) with
    | Err _ => (sv, session, Ph_leaving, [])
    | Ok hello =>
        if negb (hq_protocol hello =? protocol_version) then
          sending sent MsgType_error_rsp (fm_sequence frame)
            (error_payload Code_version_unsupported Reason_protocol_version_mismatch
               "protocol version mismatch") sv session
            (fun _ sv out => (sv, session, Ph_leaving, out))
        else
          let (sv, session) := establish sv session in
          let ack := encode_hello_response (hello_response sv session) in
          if bool_decide (ack = []) then (sv, session, Ph_leaving, [])
          else
            sending sent MsgType_hello_ack (fm_sequence frame) ack sv session
              (fun status sv out =>
                 (sv, session, (if Status_ok status then Ph_request_recv else Ph_leaving), out))
    end.

(** The body of the request loop for a popped frame. *)
Definition request_frame (sent : Sending) (sv : Server) (session : Session) (frame : Frame) : Stepped :=
  if negb (is_request_type (fm_type frame)) then
    sending sent MsgType_error_rsp (fm_sequence frame)
      (error_payload Code_refused Reason_message_unsupported "response type is not a request") sv session
      (fun _ sv out => (sv, session, Ph_leaving, out))
  else
    let '(dispatched, session, fabric) := dispatch sv session frame (sv_fabric sv) in
    let session := session <| se_requests_handled ::= bump |> in
    let sv := sv_stat (fun s => s <| ss_requests_handled ::= bump |>) (sv <| sv_fabric := fabric |>) in
    let sv := if bool_decide (dr_response_type dispatched = MsgType_error_rsp)
              then reject_frame sv else sv in
    sending sent (dr_response_type dispatched) (fm_sequence frame) (dr_payload dispatched) sv session
      (fun status sv out =>
         let leaving := negb (Status_ok status) || dr_close_session dispatched in
         let sv := if dr_stop_server dispatched then request_stop sv else sv in
         (sv, session, (if leaving || dr_stop_server dispatched then Ph_leaving else Ph_request_pop), out)).

(** The end of a loop that pops frames: a handshake whose decoder has failed is
    over, otherwise the thread receives again. *)
Definition pop_end (sv : Server) (session : Session) (phase : Phase) : Stepped :=
  let handshaking := bool_decide (phase = Ph_hello_pop) in
  if handshaking && FrameDecoder_failed (se_decoder session)
  then (reject_frame sv, session, Ph_leaving, [])
  else (sv, session, (if handshaking then Ph_hello_recv else Ph_request_recv), []).

(** One turn of the loop that pops frames. *)
Definition pop_step (sent : Sending) (sv : Server) (session : Session) (phase : Phase) : Stepped :=
  if FrameDecoder_failed (se_decoder session) then pop_end sv session phase
  else
    match FrameDecoder_pop (se_decoder session) with
    | (Err _, decoder) => pop_end sv (session <| se_decoder := decoder |>) phase
    | (Ok frame, decoder) =>
        let session := session <| se_decoder := decoder |> in
        if bool_decide (phase = Ph_hello_pop) then hello_frame sent sv session frame
        else request_frame sent sv session frame
    end.

(** A receive that returned: an error or no bytes end the session. *)
Definition recv_step (received : Result (list byte)) (sv : Server) (session : Session)
    (phase : Phase) : Stepped :=
  match received with
  | Err _ => (sv, session, Ph_leaving, [])
  | Ok data =>
      if bool_decide (data = []) then (sv, session, Ph_leaving, [])
      else
        let sv := sv_stat (fun s => s <| ss_bytes_received ::= fun n => add_u64 n (size_of data) |>) sv in
        let (fed, decoder) := FrameDecoder_feed data (se_decoder session) in
        let session := session <| se_decoder := decoder |> in
        if bool_decide (phase = Ph_hello_recv) then (sv, session, Ph_hello_pop, [])
        else ((if Status_ok fed then sv else reject_frame sv), session, Ph_request_pop, [])
  end.

(** What a step waits for from outside. *)
Record Input := mkInput { in_received : Result (list byte); in_sent : Sending }.

(** The next step of a session thread.  A thread that finds the stop flag set
    before a receive is past its loops. *)
Definition thread_step (input : Input) (sv : Server) (t : Thread) : Stepped :=
  let session := th_session t in
  match th_phase t with
  | Ph_hello_recv | Ph_request_recv => recv_step (in_received input) sv session (th_phase t)
  | Ph_hello_pop | Ph_request_pop => pop_step (in_sent input) sv session (th_phase t)
  | Ph_leaving | Ph_forgotten | Ph_killed => (sv, session, th_phase t, [])
  end.

Definition put_thread (h : nat) (phase : Phase) (session : Session) (sv : Server) : Server :=
  sv <| sv_threads ::= <[h := mkThread phase session]> |>.

(** The step of the thread of session object [h]. *)
Definition serve_step (h : nat) (input : Input) (sv : Server) : Server * list (list byte) :=
  match sv_threads sv !! h with
  | None => (sv, [])
  | Some t =>
      let '(sv, session, phase, out) := thread_step input sv t in
      (put_thread h phase session sv, out)
  end.

End serve.

(** The loop condition before a receive, with the stop flag set. *)
Definition observe_stop (h : nat) (sv : Server) : Server :=
  match sv_threads sv !! h with
  | Some (mkThread (Ph_hello_recv | Ph_request_recv) session) =>
      if sv_stop sv then put_thread h Ph_leaving session sv else sv
  | _ => sv
  end.

(** [forget_session]. *)
Definition forget_session (h : nat) (sv : Server) : Server :=
  if bool_decide (h ∈ sv_sessions sv) then
    sv_stat (fun s => s <| ss_sessions_closed ::= bump |>)
      (sv <| sv_sessions := List.remove Nat.eq_dec h (sv_sessions sv) |>)
  else sv.

(** The end of [serve_session] is two critical sections: the object leaves the
    table, *)
Definition leave_session (h : nat) (sv : Server) : Server :=
  match sv_threads sv !! h with
  | Some t => put_thread h Ph_forgotten (th_session t) (forget_session h sv)
  | None => sv
  end.

(** and the thread, which ends with it, is no longer counted. *)
Definition finish_session (h : nat) (sv : Server) : Server :=
  sv <| sv_active_threads ::= Z.pred |> <| sv_threads ::= delete h |>.

(** *** The thread on its own

    [serve_session] as its thread runs it when nothing comes in between: the
    steps above in the order of its loops. *)

Definition is_popping (p : Phase) : bool :=
  match p with Ph_hello_pop | Ph_request_pop => true | _ => false end.

(** The bytes a session has buffered; a frame takes at least 32 of them, so they
    bound the turns of the loop that pops frames. *)
Definition buffered (h : nat) (sv : Server) : nat :=
  match sv_threads sv !! h with
  | Some t => FrameDecoder_available (se_decoder (th_session t))
  | None => 0
  end.

Fixpoint pop_frames (fuel : nat) (env : Env) (sent : Sending) (h : nat) (sv : Server)
    : Server * list (list byte) :=
  match fuel, sv_threads sv !! h with
  | S fuel, Some t =>
      if is_popping (th_phase t) then
        let (sv, out) := serve_step env h (mkInput (Ok []) sent) sv in
        let (sv, out') := pop_frames fuel env sent h sv in (sv, out ++ out')
      else (sv, [])
  | _, _ => (sv, [])
  end.

Definition serve_received (env : Env) (sent : Sending) (h : nat) (received : Result (list byte))
    (sv : Server) : Server * list (list byte) :=
  let (sv, out) := serve_step env h (mkInput received sent) sv in
  let (sv, out') := pop_frames (S (buffered h sv)) env sent h sv in (sv, out ++ out').

(** [received] is what the receives of the session deliver; when they are used up
    the thread is blocked in the next one. *)
Fixpoint serve_session (env : Env) (sent : Sending) (h : nat) (received : list (Result (list byte)))
    (sv : Server) : Server * list (list byte) :=
  let sv := observe_stop h sv in
  match sv_threads sv !! h with
  | None => (sv, [])
  | Some (mkThread Ph_leaving _) => (finish_session h (leave_session h sv), [])
  | Some (mkThread Ph_killed _) => (sv, [])
  | Some _ =>
      match received with
      | [] => (sv, [])
      | r :: received =>
          let (sv, out) := serve_received env sent h r sv in
          let (sv, out') := serve_session env sent h received sv in (sv, out ++ out')
      end
  end.

(** ** The accept loop *)

Definition thread_unavailable : Status :=
  mkStatus Code_exhausted Reason_allocation_denied "cannot start session thread".

(** The next step of [run], from one accept or critical section to the next.
    [accepted] is the outcome of the accept, which names the session object to be;
    [spawned] tells whether its thread can be started.  A connection is turned away
    when the table is full; a table found with room gets the object, and the
    section that counts the thread is another one, as are those that undo both when
    the thread does not start. *)
Definition run_step (accepted : Result nat) (spawned : bool) (sv : Server) : Server :=
  match sv_running sv with
  | Ru_loop =>
      if sv_stop sv || negb (sv_listening sv) then sv <| sv_running := Ru_past |>
      else
        match accepted with
        | Err status => sv <| sv_running := Ru_returned status |>
        | Ok h => sv <| sv_running := Ru_accepted h |>
        end
  | Ru_accepted h =>
      if so_max_sessions (sv_options sv) <=? size_of (sv_sessions sv) then
        (sv_stat (fun s => s <| ss_connections_rejected ::= bump |>) sv) <| sv_running := Ru_loop |>
      else
        (sv_stat (fun s => s <| ss_connections_accepted ::= bump |>)
          (sv <| sv_sessions ::= fun l => l ++ [h] |>)) <| sv_running := Ru_pushed h |>
  | Ru_pushed h => sv <| sv_active_threads ::= Z.succ |> <| sv_running := Ru_counted h |>
  | Ru_counted h =>
      if spawned then
        (put_thread h Ph_hello_recv (Session_new max_frame_payload) sv) <| sv_running := Ru_loop |>
      else sv <| sv_active_threads ::= Z.pred |> <| sv_running := Ru_unstarted h |>
  | Ru_unstarted h => (forget_session h sv) <| sv_running := Ru_returned thread_unavailable |>
  | Ru_past => sv <| sv_listening := false |> <| sv_running := Ru_waiting |>
  | Ru_waiting =>
      if sv_active_threads sv =? 0 then sv <| sv_running := Ru_returned ok_status |> else sv
  | Ru_returned _ => sv
  end.

(** An accepted connection with nothing in between. *)
Definition accept_connection (h : nat) (sv : Server) : Server :=
  Nat.iter 4 (run_step (Ok h) true) sv.
