(* ===== verification/ServerProps.v ===== *)
(** * Properties of the service

    What a frame asks of the coordinator, the runs of the server with the
    requests they accept, and what every run maintains. *)

From S2P Require Import Prelude.
From S2P Require Import Ids.
From S2P Require Import Limits.
From S2P Require Import Status.
From S2P Require Import Authority.
From S2P Require Import Model.
From S2P Require Import Decision.
From S2P Require Import Records.
From S2P Require Import Bytes.
From S2P Require Import Canonical.
From S2P Require Import Wire.
From S2P Require Import WireProps.
From S2P Require Import Store.
From S2P Require Import StateProps.
From S2P Require Import SnapshotProps.
From S2P Require Import Fabric.
From S2P Require Import Coordinator.
From S2P Require Import FabricProps.
From S2P Require Import FabricTheorems.
From S2P Require Import Net.
From S2P Require Import Protocol.
From S2P Require Import ProtocolProps.
From S2P Require Import Server.

(** ** The command a request carries *)

Definition body_of {A} (get : Read (Result A)) (reader : ByteReader) (k : A -> Command)
    : option Command :=
  match get reader with
  | (Ok body, reader) => if r_at_end reader then Some (k body) else None
  | (Err _, _) => None
  end.

Definition command_of (type : MsgType) (reader : ByteReader) : option Command :=
  match type with
  | MsgType_set_policy_req => body_of get_policy reader CApplyPolicy
  | MsgType_set_obligations_req => body_of get_obligations reader CApplyObligations
  | MsgType_put_set_req => body_of get_set reader CApplyAlternateSet
  | MsgType_put_evidence_req => body_of get_evidence reader CApplyEvidence
  | MsgType_set_authority_req => body_of get_authority reader CSetAuthority
  | MsgType_evaluate_req => body_of decode_request_body reader
      (fun v => CEvaluate (req_incumbent v) (req_condition v) (req_set v))
  | MsgType_promote_req => body_of decode_request_body reader
      (fun v => CBeginPromotion (req_incumbent v) (req_condition v) (req_set v))
  | MsgType_effect_req => body_of decode_effect_body reader (fun b => CRecordEffect b.1 b.2)
  | MsgType_abandon_req => body_of decode_abandon_body reader (fun b => CAbandon b.1 b.2)
  | MsgType_rollback_req => body_of decode_rollback_body reader (fun b => CRollback b.1 b.2)
  | MsgType_revert_req => body_of decode_rollback_body reader (fun b => CRevert b.1 b.2)
  | MsgType_fence_req => body_of decode_fence_body reader (fun b => CFencePath b.1 b.2)
  | _ => None
  end.

(** The coordinator after an optional command. *)
Definition obey (env : Env) (c : option Command) (f : Fabric) : Fabric :=
  match c with Some c => (execute env c f).2 | None => f end.

Lemma acknowledge_fabric op f : (acknowledge op f).2 = (op f).2.
Proof. unfold acknowledge. by destruct (op f). Qed.

Lemma forget_fabric {A} (m : Op A) f : (forget m f).2 = (m f).2.
Proof. unfold forget, op_bind. by destruct (m f) as [[]]. Qed.

Lemma evaluate_reply_fabric v f :
  (evaluate_reply v f).2 = (Fabric_evaluate (req_incumbent v) (req_condition v) (req_set v) f).2.
Proof. unfold evaluate_reply. by destruct (Fabric_evaluate _ _ _ f) as [[]]. Qed.
Lemma promote_reply_fabric env v f :
  (promote_reply env v f).2 = (begin_promotion env (req_incumbent v) (req_condition v) (req_set v) f).2.
Proof. unfold promote_reply. by destruct (begin_promotion _ _ _ _ f) as [[]]. Qed.
Lemma revert_reply_fabric env b f : (revert_reply env b f).2 = (revert env b.1 b.2 f).2.
Proof. unfold revert_reply. by destruct (revert _ _ _ f) as [[]]. Qed.

Create Rewrite HintDb server.
#[export] Hint Rewrite acknowledge_fabric @forget_fabric evaluate_reply_fabric promote_reply_fabric
  revert_reply_fabric : server.

(** A handler with a body runs its command, or nothing when the body is refused. *)
Lemma with_body_fabric {A} (get : Read (Result A)) reader invalid (k : A -> Handler) (c : A -> Command) env f :
  (forall body, (k body f).2 = (execute env (c body) f).2) ->
  (with_body get reader invalid k f).2 = obey env (body_of get reader c) f.
Proof.
  intros Hk. unfold with_body, body_of. destruct (get reader) as [[body|] r]; [|done].
  destruct (r_at_end r); [apply Hk|done].
Qed.

Lemma with_body_pure {A} (get : Read (Result A)) reader invalid (k : A -> Handler) f :
  (forall body, (k body f).2 = f) -> (with_body get reader invalid k f).2 = f.
Proof.
  intros Hk. unfold with_body. destruct (get reader) as [[body|] r]; [|done].
  destruct (r_at_end r); [apply Hk|done].
Qed.

(** Handling a request is executing its command. *)
Lemma dispatch_request_fabric env sv type reader f :
  (dispatch_request env sv type reader f).2 = obey env (command_of type reader) f.
Proof.
  destruct type; cbn [dispatch_request command_of]; try reflexivity;
    try (apply with_body_fabric; intros body; cbn [execute]; autorewrite with server; reflexivity);
    try (by apply with_body_pure).
  by destruct (negb _).
Qed.

(** Every command a request carries is within the widths of its types. *)
Lemma body_of_wf {A} (get : Read (Result A)) enc wf `{!Decodes get enc wf} reader s (k : A -> Command) c :
  At reader s -> body_of get reader k = Some c -> (forall v, wf v -> command_wf (k v)) -> command_wf c.
Proof.
  intros HA Hb Hk. unfold body_of in Hb. destruct (get reader) as [[body|] r] eqn:E; [|done].
  destruct (r_at_end r); [|done]. injection Hb as <-. apply Hk.
  by destruct (dec_inv _ _ _ _ HA E).
Qed.

#[export] Instance decodes_effect_body : Decodes decode_effect_body _ _ := body_decodes.
#[export] Instance decodes_abandon_body : Decodes decode_abandon_body _ _ := body_decodes.
#[export] Instance decodes_rollback_body : Decodes decode_rollback_body _ _ := body_decodes.
#[export] Instance decodes_fence_body : Decodes decode_fence_body _ _ := body_decodes.

Lemma command_of_wf type reader s c : At reader s -> command_of type reader = Some c -> command_wf c.
Proof.
  intros HA Hc. destruct type; cbn [command_of] in Hc; try discriminate Hc.
  - eapply (body_of_wf get_policy enc_policy policy_wf); [exact HA|exact Hc|].
    intros v Hv. unfold policy_wf in Hv. cbn. unfold policy_fits. tauto.
  - eapply (body_of_wf get_obligations enc_obligations obligations_wf); [exact HA|exact Hc|].
    intros v Hv. unfold obligations_wf in Hv. cbn. unfold obligations_fit. tauto.
  - eapply (body_of_wf get_set enc_set wire_set_wf); [exact HA|exact Hc|].
    intros v (H1 & H2 & [_ H3] & _). cbn. split; [done|]. split; [done|].
    eapply Forall_impl; [exact H3|]. intros x Hx. unfold candidate_wf in Hx. unfold candidate_fits. tauto.
  - by eapply (body_of_wf get_evidence enc_evidence evidence_wf).
  - by eapply (body_of_wf get_authority enc_authority authority_wf).
  - eapply (body_of_wf decode_request_body enc_request request_wf); [exact HA|exact Hc|].
    intros v Hv. unfold request_wf in Hv. cbn. tauto.
  - eapply (body_of_wf decode_request_body enc_request request_wf); [exact HA|exact Hc|].
    intros v Hv. unfold request_wf in Hv. cbn. tauto.
  - eapply (body_of_wf decode_effect_body (enc_pair enc_id enc_effect) (pair_wf Id_wf effect_wf));
       [exact HA|exact Hc|done].
  - eapply (body_of_wf decode_abandon_body (enc_pair enc_id enc_reason) (pair_wf Id_wf any_reason));
       [exact HA|exact Hc|]. by intros v [].
  - eapply (body_of_wf decode_rollback_body (enc_pair enc_id enc_evidence) (pair_wf Id_wf evidence_wf));
       [exact HA|exact Hc|done].
  - eapply (body_of_wf decode_rollback_body (enc_pair enc_id enc_evidence) (pair_wf Id_wf evidence_wf));
       [exact HA|exact Hc|done].
  - eapply (body_of_wf decode_fence_body (enc_pair enc_id enc_reason) (pair_wf Id_wf any_reason));
       [exact HA|exact Hc|]. by intros v [].
Qed.

(** ** Accepted requests *)

(** The header and the command of a frame that passes the checks of its session. *)
Definition accepted (options : ServerOptions) (session : Session) (frame : Frame)
    : option (Z * option Command) :=
  match decode_session_header (ByteReader_new (fm_payload frame)) with
  | (Ok header, reader) =>
      match check_header options session header with
      | None => Some (sh_request_sequence header, command_of (fm_type frame) reader)
      | Some _ => None
      end
  | (Err _, _) => None
  end.

Lemma check_header_spec options session header :
  check_header options session header = None <->
  sh_session header = se_id session /\ sh_epoch header = se_epoch session /\
  sh_boot header = se_boot session /\ sh_request_sequence header <> 0 /\
  se_last_request_sequence session < sh_request_sequence header /\
  sh_request_sequence header <= so_max_requests_per_session options.
Proof.
  unfold check_header. repeat case_bool_decide; cbn [negb orb];
    try (split; [discriminate|intros (? & ? & ? & _); contradiction]).
  destruct (Z.eqb_spec (sh_request_sequence header) 0);
    destruct (Z.leb_spec (sh_request_sequence header) (se_last_request_sequence session)); cbn [orb];
    destruct (Z.ltb_spec (so_max_requests_per_session options) (sh_request_sequence header));
    (split; [try discriminate|]); intros; repeat split; try done; try lia;
    exfalso; destruct_and?; lia.
Qed.

(** A frame either passes and is executed once under a new sequence, or leaves
    the coordinator and the session as they are and closes the session. *)
Lemma dispatch_spec env sv session frame f :
  match accepted (sv_options sv) session frame with
  | Some (n, c) => exists r,
      dispatch env sv session frame f =
        (r, session <| se_last_request_sequence := n |>, obey env c f) /\
      se_last_request_sequence session < n <= so_max_requests_per_session (sv_options sv) /\ n <> 0 /\
      (forall c', c = Some c' -> command_wf c')
  | None => exists r, dispatch env sv session frame f = (r, session, f) /\ dr_close_session r = true
  end.
Proof.
  unfold accepted, dispatch. pose proof (At_new (fm_payload frame)) as HA.
  destruct (decode_session_header _) as [[header|st] reader] eqn:Hd; [|by eexists].
  destruct (check_header _ _ _) as [r|] eqn:Hc; [by eexists|].
  apply check_header_spec in Hc as (_ & _ & _ & H0 & Hlo & Hhi).
  pose proof (dispatch_request_fabric env sv (fm_type frame) reader f) as Hf.
  destruct (dispatch_request _ _ _ _ _) as [r f']. cbn [snd] in Hf. subst f'.
  exists r. split; [done|]. split; [done|]. split; [done|].
  intros c' Hc'. destruct (dec_inv _ _ _ _ HA Hd) as (_ & s' & _ & HA1). by eapply command_of_wf.
Qed.

(** ** Steps *)

(** A request that was accepted: by which session, under which sequence, and the
    command it carries with what the platform does to its files. *)
Record Accepted := mkAccepted {
  ac_session : SessionId;
  ac_sequence : Z;
  ac_env : Env;
  ac_command : option Command }.

(** The request the next step of a thread accepts. *)
Definition accepts (env : Env) (options : ServerOptions) (t : Thread) : list Accepted :=
  let session := th_session t in
  if bool_decide (th_phase t = Ph_request_pop) then
    if FrameDecoder_failed (se_decoder session) then [] else
    match FrameDecoder_pop (se_decoder session) with
    | (Ok frame, _) =>
        if is_request_type (fm_type frame) then
          match accepted options session frame with
          | Some (n, c) => [mkAccepted (se_id session) n env c]
          | None => []
          end
        else []
    | (Err _, _) => []
    end
  else [].

(** Nothing but the statistics and the flags changes. *)
Definition quiet (sv sv' : Server) : Prop :=
  sv_options sv' = sv_options sv /\ sv_fabric sv' = sv_fabric sv /\ sv_sessions sv' = sv_sessions sv /\
  sv_threads sv' = sv_threads sv /\ sv_active_threads sv' = sv_active_threads sv /\
  sv_session_sequence sv' = sv_session_sequence sv /\ sv_running sv' = sv_running sv.

Lemma quiet_refl sv : quiet sv sv.
Proof. done. Qed.
Lemma quiet_trans a b c : quiet a b -> quiet b c -> quiet a c.
Proof. unfold quiet. intros H1 H2. destruct_and!. repeat split; congruence. Qed.
Lemma quiet_stat g sv : quiet sv (sv_stat g sv).
Proof. done. Qed.
Lemma quiet_stop sv : quiet sv (request_stop sv).
Proof. done. Qed.

(** A send either ends the process or hands its status on; whatever its caller
    goes on with starts from the server as it was, up to the statistics. *)
Lemma sending_cases sent type n payload sv s k :
  exists sv1 out, quiet sv sv1 /\ sv_stop sv1 = sv_stop sv /\
    ((sending sent type n payload sv s k = (sv1, s, Ph_killed, out) /\ sent = Sending_killed) \/
     (sv_killed sv1 = sv_killed sv /\ exists st, sending sent type n payload sv s k = k st sv1 out)).
Proof.
  unfold sending, send_frame. case_bool_decide.
  { exists sv, []. split; [done|]. split; [done|]. right. split; [done|]. by eexists. }
  destruct sent as [st|].
  - destruct (Status_ok st).
    + eexists _, _. split; [apply quiet_stat|]. split; [|right; split; [|exists st; reflexivity]]; reflexivity.
    + exists sv, []. split; [done|]. split; [done|]. right. split; [done|]. by exists st.
  - eexists _, []. split; [|split; [|left; split; reflexivity]]; done.
Qed.

(** What a step may do to its session. *)
Definition keeps_session (s s' : Session) : Prop :=
  se_id s' = se_id s /\ se_epoch s' = se_epoch s /\ se_boot s' = se_boot s /\
  se_last_request_sequence s' = se_last_request_sequence s.

Definition in_handshake (p : Phase) : bool :=
  match p with Ph_hello_recv | Ph_hello_pop => true | _ => false end.

(** Past its loops, one way or another. *)
Definition outside (p : Phase) : bool :=
  match p with Ph_leaving | Ph_forgotten | Ph_killed => true | _ => false end.

Lemma outside_handshake p : outside p = true -> in_handshake p = false.
Proof. by destruct p. Qed.

Definition step_quiet (env : Env) (sv sv' : Server) (t : Thread) (s' : Session) (p' : Phase) : Prop :=
  quiet sv sv' /\ keeps_session (th_session t) s' /\ accepts env (sv_options sv) t = [] /\
  (outside p' = true \/ in_handshake p' = in_handshake (th_phase t)).

Definition step_established (env : Env) (sv sv' : Server) (t : Thread) (s' : Session) (p' : Phase) : Prop :=
  let n := bump (sv_session_sequence sv) in
  th_phase t = Ph_hello_pop /\ accepts env (sv_options sv) t = [] /\
  quiet (sv <| sv_session_sequence := n |>) sv' /\ se_id s' = Id_from_value n /\
  se_epoch s' = fi_epoch (fb_identity (sv_fabric sv)) /\
  se_boot s' = fi_boot (fb_identity (sv_fabric sv)) /\
  se_last_request_sequence s' = se_last_request_sequence (th_session t) /\ in_handshake p' = false.

Definition step_accepted (env : Env) (sv sv' : Server) (t : Thread) (s' : Session) (p' : Phase) : Prop :=
  exists n c, th_phase t = Ph_request_pop /\
    accepts env (sv_options sv) t = [mkAccepted (se_id (th_session t)) n env c] /\
    se_last_request_sequence (th_session t) < n <= so_max_requests_per_session (sv_options sv) /\
    n <> 0 /\ (forall c', c = Some c' -> command_wf c') /\
    quiet (sv <| sv_fabric := obey env c (sv_fabric sv) |>) sv' /\
    keeps_session ((th_session t) <| se_last_request_sequence := n |>) s' /\ in_handshake p' = false.

Lemma hello_frame_spec env sent sv s frame t :
  th_phase t = Ph_hello_pop -> keeps_session (th_session t) s ->
  let '(sv', s', p', _) := hello_frame sent sv s frame in
  se_decoder s' = se_decoder s /\
  (step_quiet env sv sv' t s' p' \/ step_established env sv sv' t s' p').
Proof.
  intros Hp Hk. unfold hello_frame.
  assert (Ha : accepts env (sv_options sv) t = []) by (unfold accepts; by rewrite Hp).
  assert (Hq : forall sv' p', quiet sv sv' -> outside p' = true -> step_quiet env sv sv' t s p')
    by (intros sv' p' Hq Ho; split; [exact Hq|]; split; [exact Hk|]; split; [exact Ha|by left]).
  case_bool_decide; cbn [negb].
  2:{ edestruct (sending_cases sent MsgType_error_rsp) as (sv1 & out & Hs & _ & [[-> _]|(_ & st & ->)]);
      (split; [done|]); left; (apply Hq; [|done]); [exact Hs|exact (quiet_trans _ _ _ Hs (quiet_stat _ _))]. }
  destruct (decode_hello_request _) as [hello|]; [|split; [done|left; by apply Hq]].
  destruct (_ =? _); cbn [negb].
  2:{ edestruct (sending_cases sent MsgType_error_rsp) as (sv1 & out & Hs & _ & [[-> _]|(_ & st & ->)]);
      (split; [done|]); left; by apply Hq. }
  unfold establish. cbv zeta.
  assert (He : forall sv' p', quiet (sv <| sv_session_sequence := bump (sv_session_sequence sv) |>) sv' ->
    in_handshake p' = false ->
    step_established env sv sv' t (s <| se_id := Id_from_value (bump (sv_session_sequence sv)) |>
      <| se_epoch := fi_epoch (fb_identity (sv_fabric sv)) |>
      <| se_boot := fi_boot (fb_identity (sv_fabric sv)) |>) p').
  { intros sv' p' Hqs Hp'. destruct Hk as (_ & _ & _ & Hl).
    exact (conj Hp (conj Ha (conj Hqs (conj eq_refl (conj eq_refl (conj eq_refl (conj Hl Hp'))))))). }
  case_bool_decide.
  { split; [reflexivity|]. right. apply He; [apply quiet_stat|reflexivity]. }
  edestruct (sending_cases sent MsgType_hello_ack) as (sv1 & out & Hs & _ & [[-> _]|(_ & st & ->)]);
    (split; [reflexivity|]); right; (apply He; [exact (quiet_trans _ _ _ (quiet_stat _ _) Hs)|]);
    [done|by destruct (Status_ok st)].
Qed.

(** What precedes the answer in the request loop touches statistics only. *)
Lemma dispatched_quiet sv f (r : DispatchResult) :
  let sv1 := sv_stat (fun st => st <| ss_requests_handled ::= bump |>) (sv <| sv_fabric := f |>) in
  quiet (sv <| sv_fabric := f |>)
    (if bool_decide (dr_response_type r = MsgType_error_rsp) then reject_frame sv1 else sv1).
Proof. intros sv1. case_bool_decide; [apply (quiet_trans _ sv1); apply quiet_stat|apply quiet_stat]. Qed.

Lemma quiet_stop_if (b : bool) sv : quiet sv (if b then request_stop sv else sv).
Proof. destruct b; [apply quiet_stop|apply quiet_refl]. Qed.

(** The effect of a step that handles a popped frame, whose thread [t] popped it. *)
Lemma request_frame_spec env sent sv s frame t :
  th_phase t = Ph_request_pop -> keeps_session (th_session t) s ->
  FrameDecoder_failed (se_decoder (th_session t)) = false ->
  FrameDecoder_pop (se_decoder (th_session t)) = (Ok frame, se_decoder s) ->
  let '(sv', s', p', _) := request_frame env sent sv s frame in
  se_decoder s' = se_decoder s /\
  (step_quiet env sv sv' t s' p' \/ step_accepted env sv sv' t s' p').
Proof.
  intros Hp Hk Hnf Hpop. unfold request_frame.
  assert (Hac : accepts env (sv_options sv) t =
    if is_request_type (fm_type frame) then
      match accepted (sv_options sv) s frame with
      | Some (n, c) => [mkAccepted (se_id (th_session t)) n env c] | None => [] end else []).
  { unfold accepts. rewrite Hp. cbn [bool_decide]. rewrite bool_decide_eq_true_2 by done.
    rewrite Hnf, Hpop. destruct (is_request_type _); [|done].
    replace (accepted (sv_options sv) s frame) with (accepted (sv_options sv) (th_session t) frame); [done|].
    unfold accepted, check_header. destruct Hk as (-> & -> & -> & ->). done. }
  destruct (is_request_type (fm_type frame)); cbn [negb].
  2:{ edestruct (sending_cases sent MsgType_error_rsp) as (sv1 & out & Hs & _ & [[-> _]|(_ & st & ->)]);
      (split; [done|]); left; (split; [exact Hs|]); (split; [exact Hk|]); (split; [exact Hac|by left]). }
  pose proof (dispatch_spec env sv s frame (sv_fabric sv)) as Hd.
  destruct (accepted (sv_options sv) s frame) as [[n c]|] eqn:Ha.
  - destruct Hd as (r & -> & Hn & H0 & Hc). cbv zeta.
    pose proof (dispatched_quiet sv (obey env c (sv_fabric sv)) r) as Hpre. cbv zeta in Hpre.
    assert (Hacc : forall sv' p', quiet (sv <| sv_fabric := obey env c (sv_fabric sv) |>) sv' ->
      in_handshake p' = false -> step_accepted env sv sv' t
        (s <| se_last_request_sequence := n |> <| se_requests_handled ::= bump |>) p').
    { intros sv' p' Hq Hp'. destruct Hk as (H1 & H2 & H3 & H4). rewrite H4 in Hn. exists n, c.
      split; [exact Hp|]. split; [exact Hac|]. split; [exact Hn|]. split; [exact H0|]. split; [exact Hc|].
      split; [exact Hq|]. split; [repeat split; cbn; assumption|exact Hp']. }
    edestruct (sending_cases sent (dr_response_type r)) as (sv1 & out & Hs & _ & [[-> _]|(_ & st & ->)]);
      (split; [done|]); right; (apply Hacc; [|by try destruct (_ || _)]).
    + exact (quiet_trans _ _ _ Hpre Hs).
    + exact (quiet_trans _ _ _ (quiet_trans _ _ _ Hpre Hs) (quiet_stop_if _ _)).
  - destruct Hd as (r & -> & Hcl). cbv zeta.
    pose proof (dispatched_quiet sv (sv_fabric sv) r) as Hpre. cbv zeta in Hpre.
    assert (He : quiet sv (sv <| sv_fabric := sv_fabric sv |>)) by (by destruct sv).
    assert (Hqq : forall sv' p', quiet sv sv' -> outside p' = true ->
      step_quiet env sv sv' t (s <| se_requests_handled ::= bump |>) p').
    { intros sv' p' Hq Ho. split; [exact Hq|]. split; [exact Hk|]. split; [exact Hac|by left]. }
    edestruct (sending_cases sent (dr_response_type r)) as (sv1 & out & Hs & _ & [[-> _]|(_ & st & ->)]);
      (split; [done|]); left; (apply Hqq; [|try done]).
    + exact (quiet_trans _ _ _ He (quiet_trans _ _ _ Hpre Hs)).
    + exact (quiet_trans _ _ _ He (quiet_trans _ _ _ (quiet_trans _ _ _ Hpre Hs) (quiet_stop_if _ _))).
    + rewrite Hcl. by destruct (negb _).
Qed.

Lemma pop_wf d : decoder_wf d -> decoder_wf (FrameDecoder_pop d).2.
Proof.
  intros Hwf. destruct (FrameDecoder_pop d) as [[f|s] d'] eqn:Hp; cbn [snd].
  - destruct (pop_inv _ _ _ Hwf Hp) as (Hw & _ & _ & _ & _ & _ & ->). apply popped_window; [|done].
    rewrite Hw, length_app. lia.
  - destruct (pop_none _ _ _ Hp) as [->|(_ & -> & _)]; [done|]. destruct Hwf. by constructor.
Qed.

Lemma feed_wf data d : decoder_wf d -> decoder_wf (FrameDecoder_feed data d).2.
Proof.
  intros Hwf. destruct (decide (healthy d)) as [Hh|Hh].
  2:{ by rewrite (feed_failed _ _ Hh). }
  destruct (Z.le_gt_cases (size_of (window d) + size_of data) max_frame_bytes) as [Hs|Hs].
  - by destruct (feed_fits _ _ Hh Hwf Hs) as (d1 & -> & _ & _ & Hwf1 & _).
  - rewrite (feed_overflows _ _ Hh Hwf Hs). destruct Hwf. by constructor.
Qed.

(** The step of a thread: one of three kinds. *)
Definition stepped (env : Env) (sv sv' : Server) (t : Thread) (s' : Session) (p' : Phase) : Prop :=
  step_quiet env sv sv' t s' p' \/ step_established env sv sv' t s' p' \/
  step_accepted env sv sv' t s' p'.

Lemma pop_end_spec env sv t s :
  th_phase t = Ph_hello_pop \/ th_phase t = Ph_request_pop ->
  keeps_session (th_session t) s -> accepts env (sv_options sv) t = [] ->
  let '(sv', s', p', _) := pop_end sv s (th_phase t) in s' = s /\ stepped env sv sv' t s' p'.
Proof.
  intros Hp Hk Ha. unfold pop_end. destruct (_ && _).
  - split; [done|]. left. split; [apply quiet_stat|]. split; [exact Hk|]. split; [exact Ha|by left].
  - split; [done|]. left. split; [apply quiet_refl|]. split; [exact Hk|]. split; [exact Ha|right].
    by destruct Hp as [-> | ->].
Qed.

Lemma pop_step_spec env sent sv t :
  th_phase t = Ph_hello_pop \/ th_phase t = Ph_request_pop ->
  let '(sv', s', p', _) := pop_step env sent sv (th_session t) (th_phase t) in
  (se_decoder s' = se_decoder (th_session t) \/
   se_decoder s' = (FrameDecoder_pop (se_decoder (th_session t))).2) /\ stepped env sv sv' t s' p'.
Proof.
  intros Hp. unfold pop_step.
  destruct (FrameDecoder_failed (se_decoder (th_session t))) eqn:Hf.
  { pose proof (pop_end_spec env sv t (th_session t) Hp) as H.
    destruct (pop_end _ _ _) as [[[sv' s'] p'] out].
    destruct H as [-> Hs]; [done| |by split; [left|]]. unfold accepts. rewrite Hf. by case_bool_decide. }
  destruct (FrameDecoder_pop (se_decoder (th_session t))) as [[frame|st] d] eqn:Hpop; cbn [snd].
  2:{ pose proof (pop_end_spec env sv t ((th_session t) <| se_decoder := d |>) Hp) as H.
    destruct (pop_end _ _ _) as [[[sv' s'] p'] out].
    destruct H as [-> Hs]; [done| |by split; [right|]].
    unfold accepts. rewrite Hf, Hpop. by case_bool_decide. }
  set (s := (th_session t) <| se_decoder := d |>).
  assert (Hk : keeps_session (th_session t) s) by done.
  destruct Hp as [Hp|Hp]; rewrite Hp.
  - rewrite bool_decide_eq_true_2 by done.
    pose proof (hello_frame_spec env sent sv s frame t Hp Hk) as H.
    destruct (hello_frame _ _ _ _) as [[[sv' s'] p'] out]. destruct H as [Hd [H|H]].
    + split; [by right|by left].
    + split; [by right|by right; left].
  - rewrite bool_decide_eq_false_2 by done.
    pose proof (request_frame_spec env sent sv s frame t Hp Hk Hf Hpop) as H.
    destruct (request_frame _ _ _ _ _) as [[[sv' s'] p'] out]. destruct H as [Hd [H|H]].
    + split; [by right|by left].
    + split; [by right|by right; right].
Qed.

Lemma recv_step_spec env received sv t :
  th_phase t = Ph_hello_recv \/ th_phase t = Ph_request_recv ->
  let '(sv', s', p', _) := recv_step received sv (th_session t) (th_phase t) in
  (se_decoder s' = se_decoder (th_session t) \/
   exists data, se_decoder s' = (FrameDecoder_feed data (se_decoder (th_session t))).2) /\
  stepped env sv sv' t s' p'.
Proof.
  intros Hp. unfold recv_step.
  assert (Ha : accepts env (sv_options sv) t = []) by (unfold accepts; by destruct Hp as [-> | ->]).
  assert (Hq : forall sv' s' p', quiet sv sv' -> keeps_session (th_session t) s' ->
    outside p' = true \/ in_handshake p' = in_handshake (th_phase t) -> stepped env sv sv' t s' p').
  { intros. left. by repeat (split; [assumption|]). }
  destruct received as [data|st].
  2:{ split; [by left|]. apply Hq; [done|done|by left]. }
  case_bool_decide; [split; [by left|]; apply Hq; [done|done|by left]|].
  destruct (FrameDecoder_feed data _) as [fed d] eqn:Hfeed.
  case_bool_decide as Hph.
  - split; [right; exists data; by rewrite Hfeed|]. apply Hq; [apply quiet_stat|done|right; by rewrite Hph].
  - split; [right; exists data; by rewrite Hfeed|].
    apply Hq; [|done|right; by destruct Hp as [?| ->]].
    destruct (Status_ok fed); [apply quiet_stat|].
    eapply quiet_trans; [apply quiet_stat|apply quiet_stat].
Qed.

Lemma thread_step_spec env input sv t :
  let '(sv', s', p', _) := thread_step env input sv t in
  (decoder_wf (se_decoder (th_session t)) -> decoder_wf (se_decoder s')) /\ stepped env sv sv' t s' p'.
Proof.
  assert (Hout : outside (th_phase t) = true -> stepped env sv sv t (th_session t) (th_phase t)).
  { intros Ho. left. split; [done|]. split; [done|]. split; [|by right].
    unfold accepts. by destruct (th_phase t). }
  unfold thread_step. destruct (th_phase t) eqn:Hp; rewrite <- Hp;
    lazymatch type of Hp with
    | _ = Ph_hello_pop => pose proof (pop_step_spec env (in_sent input) sv t (or_introl Hp)) as H
    | _ = Ph_request_pop => pose proof (pop_step_spec env (in_sent input) sv t (or_intror Hp)) as H
    | _ = Ph_hello_recv => pose proof (recv_step_spec env (in_received input) sv t (or_introl Hp)) as H
    | _ = Ph_request_recv => pose proof (recv_step_spec env (in_received input) sv t (or_intror Hp)) as H
    | _ => split; [done|]; rewrite Hp; by apply Hout
    end.
  all: first [ destruct (recv_step _ _ _ _) as [[[sv' s'] p'] out]
             | destruct (pop_step _ _ _ _ _) as [[[sv' s'] p'] out] ];
    destruct H as [Hd Hs]; split; [|exact Hs]; intros Hwf.
  1, 3: destruct Hd as [->|[data ->]]; [exact Hwf|by apply feed_wf].
  all: destruct Hd as [->| ->]; [exact Hwf|by apply pop_wf].
Qed.

(** ** Runs *)

(** Any thread may take its next step, whatever arrives and whatever becomes of
    what is sent; the accept loop takes its steps, sessions end in two, and the
    service is told to stop, in any order, as long as the process lives.  An
    accepted connection gets a new object. *)
Inductive server_step : Server -> list Accepted -> Server -> Prop :=
  | s_serve env h input sv t :
      sv_threads sv !! h = Some t ->
      server_step sv (accepts env (sv_options sv) t) (serve_step env h input sv).1
  | s_observe h sv : server_step sv [] (observe_stop h sv)
  | s_leave h sv session :
      sv_threads sv !! h = Some (mkThread Ph_leaving session) -> server_step sv [] (leave_session h sv)
  | s_finish h sv session :
      sv_threads sv !! h = Some (mkThread Ph_forgotten session) -> server_step sv [] (finish_session h sv)
  | s_run accepted spawned sv :
      (forall h, accepted = Ok h -> sv_threads sv !! h = None) ->
      server_step sv [] (run_step accepted spawned sv)
  | s_stop sv : server_step sv [] (request_stop sv).

(** A run with the requests it accepts, while attempt and session identities are
    left. *)
Inductive serves : Server -> list Accepted -> Server -> Prop :=
  | serves_refl sv : serves sv [] sv
  | serves_step sv l sv1 log sv2 :
      ids_left (sv_fabric sv) -> sv_session_sequence sv < UINT64_MAX -> sv_killed sv = false ->
      server_step sv l sv1 -> serves sv1 log sv2 -> serves sv (l ++ log) sv2.

(** ** The invariant *)

(** The object the accept loop is working on, whether it is in the table, and how
    many threads are counted without being alive. *)
Definition pending (r : Running) : option nat :=
  match r with
  | Ru_accepted h | Ru_pushed h | Ru_counted h | Ru_unstarted h => Some h
  | _ => None
  end.
Definition listed (r : Running) : option nat :=
  match r with Ru_accepted _ => None | _ => pending r end.
Definition starting (r : Running) : Z := match r with Ru_counted _ => 1 | _ => 0 end.

(** The session table, the session threads and their count. *)
Record table_ok (sv : Server) : Prop := {
  tb_sessions : forall h, h ∈ sv_sessions sv <->
    listed (sv_running sv) = Some h \/
    exists t, sv_threads sv !! h = Some t /\ th_phase t <> Ph_forgotten;
  tb_nodup : NoDup (sv_sessions sv);
  tb_pending : forall h, pending (sv_running sv) = Some h -> sv_threads sv !! h = None;
  tb_active : sv_active_threads sv = Z.of_nat (size (sv_threads sv)) + starting (sv_running sv);
  tb_bound : size_of (sv_sessions sv) <= so_max_sessions (sv_options sv);
  tb_decoders : forall h t, sv_threads sv !! h = Some t -> decoder_wf (se_decoder (th_session t));
  tb_killed : forall h t, sv_threads sv !! h = Some t -> th_phase t = Ph_killed -> sv_killed sv = true }.

(** Session identities and request sequences, and what they say of the requests
    accepted so far. *)
Record sessions_ok (log : list Accepted) (sv : Server) : Prop := {
  se_counter : 0 <= sv_session_sequence sv;
  se_range : forall h t, sv_threads sv !! h = Some t ->
    0 <= Id_value (se_id (th_session t)) <= sv_session_sequence sv;
  se_fresh : forall h t, sv_threads sv !! h = Some t -> in_handshake (th_phase t) = true ->
    se_id (th_session t) = Id_absent;
  se_established : forall h t, sv_threads sv !! h = Some t -> in_handshake (th_phase t) = false ->
    outside (th_phase t) = false -> 0 < Id_value (se_id (th_session t));
  se_unique : forall h1 h2 t1 t2, sv_threads sv !! h1 = Some t1 -> sv_threads sv !! h2 = Some t2 ->
    se_id (th_session t1) = se_id (th_session t2) -> 0 < Id_value (se_id (th_session t1)) -> h1 = h2;
  se_logged : forall a, a ∈ log -> 0 < Id_value (ac_session a) <= sv_session_sequence sv /\
    0 < ac_sequence a <= so_max_requests_per_session (sv_options sv);
  se_recorded : forall a h t, a ∈ log -> sv_threads sv !! h = Some t ->
    se_id (th_session t) = ac_session a -> ac_sequence a <= se_last_request_sequence (th_session t);
  se_nonneg : forall h t, sv_threads sv !! h = Some t -> 0 <= se_last_request_sequence (th_session t);
  se_once : NoDup ((fun a => (ac_session a, ac_sequence a)) <$> log) }.

Record server_ok (log : list Accepted) (sv : Server) : Prop := {
  sok_table : table_ok sv;
  sok_sessions : sessions_ok log sv }.

Lemma quiet_put sv sv' h p s :
  quiet sv sv' ->
  sv_threads (put_thread h p s sv') = <[h := mkThread p s]> (sv_threads sv) /\
  sv_options (put_thread h p s sv') = sv_options sv /\
  sv_sessions (put_thread h p s sv') = sv_sessions sv /\
  sv_active_threads (put_thread h p s sv') = sv_active_threads sv /\
  sv_session_sequence (put_thread h p s sv') = sv_session_sequence sv /\
  sv_running (put_thread h p s sv') = sv_running sv /\
  sv_fabric (put_thread h p s sv') = sv_fabric sv.
Proof. intros (Ho & Hf & Hs & Ht & Ha & Hn & Hr). unfold put_thread. cbn. by rewrite Ht. Qed.

(** Replacing the object of a session that stays in the table, or out of it. *)
Lemma table_put sv sv' h t p s :
  table_ok sv -> sv_threads sv !! h = Some t -> decoder_wf (se_decoder s) ->
  (p = Ph_forgotten <-> th_phase t = Ph_forgotten) ->
  (sv_killed sv = true \/ p = Ph_killed -> sv_killed sv' = true) ->
  sv_threads sv' = <[h := mkThread p s]> (sv_threads sv) -> sv_options sv' = sv_options sv ->
  sv_sessions sv' = sv_sessions sv -> sv_active_threads sv' = sv_active_threads sv ->
  sv_running sv' = sv_running sv -> table_ok sv'.
Proof.
  intros [Hd Hn Hp Ha Hb Hw Hki] Ht Hs Hf Hk Hth Ho Hse Hac Hru.
  constructor; rewrite ?Hse, ?Ho, ?Hac, ?Hru, ?Hth; try assumption.
  - intros h'. rewrite Hd. apply or_iff_compat_l. destruct (decide (h = h')) as [->|Hne].
    + rewrite lookup_insert_eq, Ht. split; intros (x & [= <-] & Hx); eexists; (split; [reflexivity|]);
        by rewrite ?Hf in *; cbn in *; rewrite ?Hf.
    + by rewrite lookup_insert_ne.
  - intros h' H. specialize (Hp h' H). rewrite lookup_insert_ne; [done|]. by intros <-; rewrite Ht in Hp.
  - by rewrite (size_replace _ _ t).
  - intros h' t' Hl. apply lookup_insert_Some in Hl as [[<- <-]|[_ Hl]]; [exact Hs|].
    by apply (Hw h').
  - intros h' t' Hl Hp'. apply Hk. apply lookup_insert_Some in Hl as [[<- <-]|[_ Hl]]; [by right|].
    left. by apply (Hki h' t').
Qed.

(** Case analysis of a lookup in the table after a replacement. *)
Ltac put_cases Hth H :=
  rewrite Hth in H; apply lookup_insert_Some in H as [[<- <-]|[? H]]; cbn [th_session th_phase] in *.

Lemma sessions_same log sv sv' h t p s :
  sessions_ok log sv -> sv_threads sv !! h = Some t -> keeps_session (th_session t) s ->
  (outside p = true \/ in_handshake p = in_handshake (th_phase t)) ->
  (outside (th_phase t) = true -> outside p = true) ->
  sv_threads sv' = <[h := mkThread p s]> (sv_threads sv) -> sv_options sv' = sv_options sv ->
  sv_session_sequence sv' = sv_session_sequence sv -> sessions_ok log sv'.
Proof.
  intros [Hc Hr Hf He Hu Hl Hrec Hn Ho] Ht (Hid & _ & _ & Hlast) Hp Hlv Hth Hop Hsq.
  constructor; rewrite ?Hsq, ?Hop; try assumption.
  - intros h' t' H. put_cases Hth H; [rewrite Hid; by eapply Hr|by eapply Hr].
  - intros h' t' H Hh. put_cases Hth H; [|by eapply Hf].
    rewrite Hid. apply (Hf h t Ht). destruct Hp as [Hp|Hp]; [by rewrite (outside_handshake _ Hp) in Hh|by rewrite <- Hp].
  - intros h' t' H Hh Hnl. put_cases Hth H; [|by eapply He].
    rewrite Hid. destruct Hp as [Hp|Hp]; [congruence|]. apply (He h t Ht); [by rewrite <- Hp|].
    apply not_true_is_false. intros Hlv'%Hlv. congruence.
  - intros h1 h2 t1 t2 H1 H2 Heq Hv. put_cases Hth H1; put_cases Hth H2; [done|..|by eapply Hu].
    + apply (Hu h h2 t t2); [done|done|by rewrite <- Hid|by rewrite <- Hid].
    + apply (Hu h1 h t1 t); [done|done|by rewrite <- Hid|done].
  - intros a h' t' Ha H Hs. put_cases Hth H; [|by eapply Hrec].
    rewrite Hlast. apply (Hrec a h t Ha Ht). by rewrite <- Hid.
  - intros h' t' H. put_cases Hth H; [rewrite Hlast; by eapply Hn|by eapply Hn].
Qed.

Lemma sessions_established log sv sv' h t p s :
  sessions_ok log sv -> sv_threads sv !! h = Some t ->
  se_id s = Id_from_value (sv_session_sequence sv + 1) ->
  se_last_request_sequence s = se_last_request_sequence (th_session t) -> in_handshake p = false ->
  sv_threads sv' = <[h := mkThread p s]> (sv_threads sv) -> sv_options sv' = sv_options sv ->
  sv_session_sequence sv' = sv_session_sequence sv + 1 -> sessions_ok log sv'.
Proof.
  intros [Hc Hr Hf He Hu Hl Hrec Hn Ho] Ht Hid Hlast Hp Hth Hop Hsq.
  assert (Hnew : Id_value (se_id s) = sv_session_sequence sv + 1) by (by rewrite Hid).
  assert (Hold : forall h' t', sv_threads sv !! h' = Some t' -> se_id (th_session t') <> se_id s).
  { intros h' t' H Heq. specialize (Hr h' t' H). rewrite Heq in Hr. lia. }
  constructor; rewrite ?Hsq, ?Hop; try assumption; try lia.
  - intros h' t' H. put_cases Hth H; [lia|]. specialize (Hr h' t' H). lia.
  - intros h' t' H Hh. put_cases Hth H; [congruence|by eapply Hf].
  - intros h' t' H Hh Hnl. put_cases Hth H; [lia|by eapply He].
  - intros h1 h2 t1 t2 H1 H2 Heq Hv. put_cases Hth H1; put_cases Hth H2; [done|..|by eapply Hu].
    + by destruct (Hold _ _ H2).
    + by destruct (Hold _ _ H1).
  - intros a Ha. destruct (Hl a Ha). lia.
  - intros a h' t' Ha H Hs. put_cases Hth H; [|by eapply Hrec].
    destruct (Hl a Ha) as [Hla _]. rewrite <- Hs, Hnew in Hla. lia.
  - intros h' t' H. put_cases Hth H; [rewrite Hlast; by eapply Hn|by eapply Hn].
Qed.

Lemma sessions_accepted log sv sv' h t p s n env c :
  sessions_ok log sv -> sv_threads sv !! h = Some t -> th_phase t = Ph_request_pop ->
  se_id s = se_id (th_session t) -> se_last_request_sequence s = n ->
  se_last_request_sequence (th_session t) < n <= so_max_requests_per_session (sv_options sv) ->
  in_handshake p = false ->
  sv_threads sv' = <[h := mkThread p s]> (sv_threads sv) -> sv_options sv' = sv_options sv ->
  sv_session_sequence sv' = sv_session_sequence sv ->
  sessions_ok (log ++ [mkAccepted (se_id (th_session t)) n env c]) sv'.
Proof.
  intros [Hc Hr Hf He Hu Hl Hrec Hn Ho] Ht Hph Hid Hlast Hlt Hp Hth Hop Hsq.
  assert (Hv : 0 < Id_value (se_id (th_session t))) by (apply (He h t Ht); by rewrite Hph).
  pose proof (Hn h t Ht) as Hn0. pose proof (Hr h t Ht) as Hr0.
  constructor; rewrite ?Hsq, ?Hop; try assumption.
  - intros h' t' H. put_cases Hth H; [by rewrite Hid|by eapply Hr].
  - intros h' t' H Hh. put_cases Hth H; [congruence|by eapply Hf].
  - intros h' t' H Hh Hnl. put_cases Hth H; [by rewrite Hid|by eapply He].
  - intros h1 h2 t1 t2 H1 H2 Heq Hv'. put_cases Hth H1; put_cases Hth H2; [done|..|by eapply Hu].
    + apply (Hu h h2 t t2); [done|done|by rewrite <- Hid|done].
    + apply (Hu h1 h t1 t); [done|done|by rewrite <- Hid|done].
  - intros a [Ha|Ha%list_elem_of_singleton]%elem_of_app; [by apply Hl|subst a; cbn; lia].
  - intros a h' t' [Ha|Ha%list_elem_of_singleton]%elem_of_app H Hs.
    + put_cases Hth H; [|by eapply Hrec]. rewrite Hid in Hs. specialize (Hrec a h t Ha Ht Hs). lia.
    + subst a. cbn in Hs |- *. put_cases Hth H; [lia|]. exfalso.
      assert (h' = h); [|congruence]. apply (Hu h' h t' t); [done|done|done|by rewrite Hs].
  - intros h' t' H. put_cases Hth H; [lia|by eapply Hn].
  - rewrite fmap_app. apply list.NoDup_app. split; [exact Ho|]. split; [|apply NoDup_singleton].
    intros x Hx Hx1%list_elem_of_singleton. cbn in Hx1. subst x.
    apply list_elem_of_fmap in Hx as (a & [= Hs Hq] & Ha). specialize (Hrec a h t Ha Ht Hs). lia.
Qed.

(** Forgetting session objects, or leaving them be. *)
Lemma sessions_sub log sv sv' :
  sessions_ok log sv -> (forall h t, sv_threads sv' !! h = Some t -> sv_threads sv !! h = Some t) ->
  sv_options sv' = sv_options sv -> sv_session_sequence sv' = sv_session_sequence sv ->
  sessions_ok log sv'.
Proof.
  intros [Hc Hr Hf He Hu Hl Hrec Hn Ho] Hth Hop Hsq.
  constructor; rewrite ?Hsq, ?Hop; try assumption; eauto.
Qed.

(** No step of the thread takes its object out of the table. *)
Lemma thread_step_forgotten env input sv t :
  (thread_step env input sv t).1.2 = Ph_forgotten <-> th_phase t = Ph_forgotten.
Proof.
  assert (Hr : forall r v s p, (recv_step r v s p).1.2 <> Ph_forgotten).
  { intros r v s p. unfold recv_step. destruct r; [|done]. case_bool_decide; [done|]. cbv zeta.
    destruct (FrameDecoder_feed _ _). by case_bool_decide. }
  assert (Hsend : forall st ty n pl v s k, (forall x v1 out, (k x v1 out).1.2 <> Ph_forgotten) ->
    (sending st ty n pl v s k).1.2 <> Ph_forgotten).
  { intros. destruct (sending_cases st ty n pl v s k) as (v1 & out & _ & _ & [[-> _]|(_ & x & ->)]); [done|auto]. }
  assert (He : forall v s p, (pop_end v s p).1.2 <> Ph_forgotten).
  { intros v s p. unfold pop_end. destruct (_ && _); [done|]. by destruct (bool_decide _). }
  assert (Hp : forall v s p, (pop_step env (in_sent input) v s p).1.2 <> Ph_forgotten).
  { intros v s p. unfold pop_step. destruct (FrameDecoder_failed _); [apply He|].
    destruct (FrameDecoder_pop _) as [[f|] d]; [|apply He]. case_bool_decide.
    - unfold hello_frame. destruct (negb _); [by apply Hsend|]. destruct (decode_hello_request _); [|done].
      destruct (negb _); [by apply Hsend|]. destruct (establish _ _). case_bool_decide; [done|].
      apply Hsend. intros x v1 out. by destruct (Status_ok x).
    - unfold request_frame. destruct (negb _); [by apply Hsend|]. destruct (dispatch _ _ _ _ _) as [[r s1] fb].
      apply Hsend. intros x v1 out. cbn. by destruct (_ || _). }
  unfold thread_step. destruct (th_phase t); (split; [|done]); intros H; first [done|by apply Hr in H|by apply Hp in H].
Qed.

(** A step that ends the process says so. *)
Lemma thread_step_killed env input sv t :
  sv_killed sv = true \/ ((thread_step env input sv t).1.2 = Ph_killed /\ th_phase t <> Ph_killed) ->
  sv_killed (thread_step env input sv t).1.1.1 = true.
Proof.
  set (good (x : Stepped) := sv_killed sv = true \/ x.1.2 = Ph_killed -> sv_killed x.1.1.1 = true).
  assert (Hg : good (thread_step env input sv t) \/ (th_phase t = Ph_killed /\ (thread_step env input sv t).1.1.1 = sv)).
  2:{ destruct Hg as [Hg|[Hp ->]]; [intros [H|[H _]]; apply Hg; tauto|]. by intros [H|[_ H]]. }
  assert (Hplain : forall s p out, p <> Ph_killed -> good (sv, s, p, out)) by (intros s p out Hp [E|E]; done).
  assert (Hr : forall r s p, good (recv_step r sv s p)).
  { intros r s p. unfold recv_step. destruct r; [|by apply Hplain]. case_bool_decide; [by apply Hplain|]. cbv zeta.
    destruct (FrameDecoder_feed _ _) as [fed d]. case_bool_decide; [by intros [E|E]|].
    destruct (Status_ok fed); by intros [E|E]. }
  assert (Hsend : forall st ty n pl v s k, sv_killed v = sv_killed sv ->
    (forall x v1 out, sv_killed v1 = sv_killed sv -> good (k x v1 out)) -> good (sending st ty n pl v s k)).
  { intros st ty n pl v s k Hv Hk. unfold sending, send_frame. case_bool_decide; [by apply Hk|].
    destruct st as [st|]; [|by intros _]. destruct (Status_ok st); by apply Hk. }
  assert (He : forall s p, good (pop_end sv s p)).
  { intros s p. unfold pop_end. destruct (_ && _); [by intros [E|E]|]. apply Hplain. by destruct (bool_decide _). }
  assert (Hp : forall s p, good (pop_step env (in_sent input) sv s p)).
  { intros s p. unfold pop_step. destruct (FrameDecoder_failed _); [apply He|].
    destruct (FrameDecoder_pop _) as [[f|] d]; [|apply He]. case_bool_decide.
    - unfold hello_frame. destruct (negb _); [apply Hsend; [done|]; intros x v1 out Hv [E|E]; [|done]; by etransitivity|].
      destruct (decode_hello_request _); [|by apply Hplain].
      destruct (negb _); [apply Hsend; [done|]; intros x v1 out Hv [E|E]; [|done]; by etransitivity|].
      unfold establish. cbv zeta. case_bool_decide; [by intros [E|E]|].
      apply Hsend; [done|]. intros x v1 out Hv [E|E]; [by etransitivity|]. by destruct (Status_ok x).
    - unfold request_frame. destruct (negb _); [apply Hsend; [done|]; intros x v1 out Hv [E|E]; [|done]; by etransitivity|].
      destruct (dispatch _ _ _ _ _) as [[r s1] fb]. cbv zeta. apply Hsend; [by case_bool_decide|].
      intros x v1 out Hv. cbn. intros [E|E]; [|by destruct (_ || _)].
      destruct (dr_stop_server r); by etransitivity. }
  unfold thread_step. destruct (th_phase t); first [by right|left; first [apply Hr|apply Hp|by apply Hplain]].
Qed.

Lemma thread_step_outside env input sv t :
  outside (th_phase t) = true -> (thread_step env input sv t).1.2 = th_phase t.
Proof. intros Ho. unfold thread_step. by destruct (th_phase t). Qed.

(** What a step of thread [h] makes of the table: its entry is replaced. *)
Lemma serve_step_replaces env h input sv t :
  sv_threads sv !! h = Some t ->
  exists p s out, thread_step env input sv t = ((thread_step env input sv t).1.1.1, s, p, out) /\
    sv_threads (serve_step env h input sv).1 = <[h := mkThread p s]> (sv_threads sv) /\
    sv_running (serve_step env h input sv).1 = sv_running sv.
Proof.
  intros Ht. unfold serve_step. rewrite Ht. pose proof (thread_step_spec env input sv t) as Hs.
  destruct (thread_step env input sv t) as [[[sv1 s] p] out]. cbn [fst]. exists p, s, out. split; [done|].
  destruct Hs as [_ [(Hq & _)|[(_ & _ & Hq & _)|(n & c & _ & _ & _ & _ & _ & Hq & _)]]];
    by apply (quiet_put _ _ h p s) in Hq as (Hth & _ & _ & _ & _ & Hr & _).
Qed.

Lemma serve_step_ok env h input sv t :
  table_ok sv -> sv_threads sv !! h = Some t -> table_ok (serve_step env h input sv).1.
Proof.
  intros Htb Ht. unfold serve_step. rewrite Ht.
  pose proof (thread_step_spec env input sv t) as Hs.
  pose proof (thread_step_forgotten env input sv t) as Hf. pose proof (thread_step_killed env input sv t) as Hki.
  assert (Hke : th_phase t = Ph_killed -> sv_killed sv = true) by (by apply (tb_killed _ Htb h t)).
  destruct (thread_step env input sv t) as [[[sv1 s] p] out]. cbn [fst snd] in *.
  destruct Hs as [Hwf Hs]. specialize (Hwf (tb_decoders _ Htb h t Ht)).
  assert (Hkp : sv_killed sv = true \/ p = Ph_killed -> sv_killed (put_thread h p s sv1) = true).
  { intros H. change (sv_killed sv1 = true). apply Hki.
    destruct (decide (th_phase t = Ph_killed)) as [Hd|Hd]; [left; by apply Hke|tauto]. }
  destruct Hs as [(Hq & _)|[(_ & _ & Hq & _)|(n & c & _ & _ & _ & _ & _ & Hq & _)]];
    apply (quiet_put _ _ h p s) in Hq as (Hth & Ho & Hss & Hac & _ & Hru & _); by eapply table_put.
Qed.

Lemma serve_ok log env h input sv t :
  server_ok log sv -> sv_session_sequence sv < UINT64_MAX -> sv_threads sv !! h = Some t ->
  server_ok (log ++ accepts env (sv_options sv) t) (serve_step env h input sv).1.
Proof.
  intros [Htb Hse] Hseq Ht. split; [by eapply serve_step_ok|]. unfold serve_step. rewrite Ht.
  pose proof (thread_step_spec env input sv t) as Hs. pose proof (thread_step_outside env input sv t) as Hlv.
  destruct (thread_step env input sv t) as [[[sv1 s] p] out]. cbn [fst snd] in *.
  destruct Hs as [_ [(Hq & Hk & Ha & Hp)|[(Hph & Ha & Hq & Hid & _ & _ & Hl & Hp)|
    (n & c & Hph & Ha & Hn & _ & _ & Hq & (Hid & _ & _ & Hl) & Hp)]]]; rewrite Ha, ?app_nil_r;
    apply (quiet_put _ _ h p s) in Hq as (Hth & Ho & _ & _ & Hsq & _).
  - eapply sessions_same; try done. intros H. by rewrite (Hlv H).
  - assert (Hb : bump (sv_session_sequence sv) = sv_session_sequence sv + 1).
    { pose proof (se_counter _ _ Hse). unfold bump. unfold_ints. apply Z.mod_small. lia. }
    rewrite Hb in *. by eapply sessions_established.
  - by eapply sessions_accepted.
Qed.

Lemma elem_of_remove (h x : nat) l : x ∈ List.remove Nat.eq_dec h l <-> x ∈ l /\ x <> h.
Proof.
  rewrite !list_elem_of_In. split.
  - by intros ?%List.in_remove.
  - intros []. by apply List.in_in_remove.
Qed.

Lemma NoDup_remove_nat (h : nat) l : NoDup l -> NoDup (List.remove Nat.eq_dec h l).
Proof.
  induction 1 as [|x l Hx _ IH]; [constructor|]. cbn [List.remove]. destruct (Nat.eq_dec h x); [done|].
  constructor; [|done]. by rewrite elem_of_remove; intros [].
Qed.

Lemma length_remove (h : nat) l :
  NoDup l -> h ∈ l -> length l = S (length (List.remove Nat.eq_dec h l)).
Proof.
  intros Hn Hh. induction Hn as [|x l Hx Hl IH]; [by apply not_elem_of_nil in Hh|].
  cbn [List.remove]. destruct (Nat.eq_dec h x) as [->|Hne].
  - cbn. f_equal. clear -Hx. induction l as [|y l IH]; [done|]. cbn [List.remove].
    apply not_elem_of_cons in Hx as [Hxy Hx]. destruct (Nat.eq_dec x y); [done|]. cbn. by rewrite <- IH.
  - apply elem_of_cons in Hh as [?|Hh]; [done|]. cbn. by rewrite <- IH.
Qed.

Lemma forget_threads h sv : sv_threads (forget_session h sv) = sv_threads sv.
Proof. unfold forget_session. by case_bool_decide. Qed.

(** What [forget_session] leaves, apart from the statistics. *)
Lemma forget_spec h sv :
  h ∈ sv_sessions sv ->
  sv_sessions (forget_session h sv) = List.remove Nat.eq_dec h (sv_sessions sv) /\
  sv_threads (forget_session h sv) = sv_threads sv /\
  sv_active_threads (forget_session h sv) = sv_active_threads sv /\
  sv_options (forget_session h sv) = sv_options sv /\ sv_running (forget_session h sv) = sv_running sv /\
  sv_session_sequence (forget_session h sv) = sv_session_sequence sv /\
  sv_killed (forget_session h sv) = sv_killed sv.
Proof. intros Hh. unfold forget_session. by rewrite bool_decide_eq_true_2. Qed.

Lemma leave_eq h sv session :
  sv_threads sv !! h = Some (mkThread Ph_leaving session) ->
  leave_session h sv = put_thread h Ph_forgotten session (forget_session h sv).
Proof. intros Ht. unfold leave_session. by rewrite Ht. Qed.

Lemma leave_threads h sv session :
  sv_threads sv !! h = Some (mkThread Ph_leaving session) ->
  sv_threads (leave_session h sv) = <[h := mkThread Ph_forgotten session]> (sv_threads sv).
Proof. intros Ht. rewrite (leave_eq _ _ _ Ht). unfold put_thread. cbn. by rewrite forget_threads. Qed.

Lemma leave_table h sv session :
  table_ok sv -> sv_threads sv !! h = Some (mkThread Ph_leaving session) -> table_ok (leave_session h sv).
Proof.
  intros [Hd Hn Hp Ha Hb Hw Hki] Ht. pose proof (leave_threads h sv session Ht) as Hth.
  assert (Hh : h ∈ sv_sessions sv) by (apply Hd; right; by eexists).
  pose proof (length_remove h _ Hn Hh) as Hlen. destruct (forget_spec h sv Hh) as (Hs & _ & Hac & Ho & Hru & _ & Hke).
  assert (Hl : listed (sv_running sv) <> Some h).
  { intros Hl. assert (Hpe : pending (sv_running sv) = Some h) by (revert Hl; by destruct (sv_running sv)).
    specialize (Hp h Hpe). congruence. }
  rewrite (leave_eq _ _ _ Ht) in *. unfold put_thread in *. cbn in Hth.
  constructor; cbn; rewrite ?Hth, ?Hs, ?Hac, ?Ho, ?Hru, ?Hke.
  - intros h'. rewrite elem_of_remove, Hd. destruct (decide (h' = h)) as [->|Hne].
    + rewrite lookup_insert_eq. split; [by intros []|]. by intros [?|(t & [= <-] & H)].
    + rewrite lookup_insert_ne by done. by split; [intros []|].
  - by apply NoDup_remove_nat.
  - intros h' H. specialize (Hp h' H). rewrite lookup_insert_ne; [done|]. intros <-. by rewrite Ht in Hp.
  - by rewrite (size_replace _ _ _ _ Ht).
  - unfold size_of in *. lia.
  - intros h' t' H. apply lookup_insert_Some in H as [[<- <-]|[_ H]]; [exact (Hw _ _ Ht)|by apply (Hw h')].
  - intros h' t' H Hph. apply lookup_insert_Some in H as [[<- <-]|[_ H]]; [done|by apply (Hki h' t')].
Qed.

Lemma leave_ok log h sv session :
  server_ok log sv -> sv_threads sv !! h = Some (mkThread Ph_leaving session) ->
  server_ok log (leave_session h sv).
Proof.
  intros [Htb Hse] Ht. split; [by eapply leave_table|].
  assert (Hh : h ∈ sv_sessions sv) by (apply (tb_sessions _ Htb); right; by eexists).
  destruct (forget_spec h sv Hh) as (_ & _ & _ & Ho & _ & Hq & _).
  eapply (sessions_same log sv _ h _ Ph_forgotten session Hse Ht); try done; try (by left).
  - by apply leave_threads.
  - by rewrite (leave_eq _ _ _ Ht).
  - by rewrite (leave_eq _ _ _ Ht).
Qed.

Lemma size_remove (m : gmap nat Thread) h t : m !! h = Some t -> Z.of_nat (size m) = Z.of_nat (size (delete h m)) + 1.
Proof. intros Ht. rewrite <- (insert_delete_id m h t Ht) at 1. rewrite map_size_insert_None by apply lookup_delete_eq. lia. Qed.

Lemma finish_table h sv session :
  table_ok sv -> sv_threads sv !! h = Some (mkThread Ph_forgotten session) -> table_ok (finish_session h sv).
Proof.
  intros [Hd Hn Hp Ha Hb Hw Hki] Ht. unfold finish_session. constructor; cbn; try assumption.
  - intros h'. rewrite Hd. apply or_iff_compat_l. destruct (decide (h' = h)) as [->|Hne].
    + rewrite lookup_delete_eq, Ht. split; [by intros (t & [= <-] & H)|by intros (t & H & _)].
    + by rewrite lookup_delete_ne.
  - intros h' H. apply lookup_delete_None. right. by apply Hp.
  - rewrite Ha, (size_remove _ _ _ Ht). lia.
  - intros h' t' H. apply lookup_delete_Some in H as [_ H]. by apply (Hw h').
  - intros h' t' H. apply lookup_delete_Some in H as [_ H]. by apply (Hki h').
Qed.

(** Forgetting threads, or leaving them be. *)
Lemma finish_ok log h sv session :
  server_ok log sv -> sv_threads sv !! h = Some (mkThread Ph_forgotten session) ->
  server_ok log (finish_session h sv).
Proof.
  intros [Htb Hse] Ht. split; [by eapply finish_table|].
  eapply sessions_sub; [exact Hse| |done|done].
  intros h' t' H. change (delete h (sv_threads sv) !! h' = Some t') in H.
  by apply lookup_delete_Some in H as [_ H].
Qed.

(** The loop condition either lets the thread go on or ends its loops. *)
Lemma observe_cases h sv :
  observe_stop h sv = sv \/
  exists p s, sv_threads sv !! h = Some (mkThread p s) /\ outside p = false /\
    observe_stop h sv = put_thread h Ph_leaving s sv.
Proof.
  unfold observe_stop. destruct (sv_threads sv !! h) as [[p s]|]; [|by left].
  destruct p; try (by left); (destruct (sv_stop sv); [right; by eexists _, _|by left]).
Qed.

Lemma observe_threads h sv t :
  sv_threads sv !! h = Some t -> th_phase t = Ph_hello_recv \/ th_phase t = Ph_request_recv -> sv_stop sv = true ->
  sv_threads (observe_stop h sv) = <[h := mkThread Ph_leaving (th_session t)]> (sv_threads sv).
Proof. intros Ht Hp Hs. unfold observe_stop. rewrite Ht, Hs. destruct t as [p s]. by destruct Hp as [[= ->]|[= ->]]. Qed.

Lemma observe_table h sv : table_ok sv -> table_ok (observe_stop h sv).
Proof.
  intros Htb. destruct (observe_cases h sv) as [->|(p & s & Ht & Hout & ->)]; [done|].
  destruct (quiet_put sv sv h Ph_leaving s (quiet_refl sv)) as (Hth & Ho & Hss & Hac & Hsq & Hru & _).
  eapply (table_put sv _ h _ Ph_leaving s); [exact Htb|exact Ht| | |by intros [E|E]|done..];
    [by apply (tb_decoders _ Htb h _ Ht)|]. split; [done|]. cbn. intros ->. discriminate Hout.
Qed.

Lemma observe_ok log h sv : server_ok log sv -> server_ok log (observe_stop h sv).
Proof.
  intros [Htb Hse]. split; [by apply observe_table|].
  destruct (observe_cases h sv) as [->|(p & s & Ht & Hout & ->)]; [done|].
  destruct (quiet_put sv sv h Ph_leaving s (quiet_refl sv)) as (Hth & Ho & Hss & Hac & Hsq & Hru & _).
  eapply (sessions_same log sv _ h _ Ph_leaving s); [exact Hse|exact Ht|done|by left|done|done..].
Qed.

(** A table that only gains an object in its handshake. *)
Lemma sessions_new log sv sv' h s :
  sessions_ok log sv -> sv_threads sv !! h = None ->
  se_id s = Id_absent -> se_last_request_sequence s = 0 ->
  sv_threads sv' = <[h := mkThread Ph_hello_recv s]> (sv_threads sv) -> sv_options sv' = sv_options sv ->
  sv_session_sequence sv' = sv_session_sequence sv -> sessions_ok log sv'.
Proof.
  intros [Hc Hr Hf He Hu Hl Hrec Hn Ho] Ht Hid Hlast Hth Hop Hsq.
  constructor; rewrite ?Hsq, ?Hop; try assumption.
  - intros h' t' H. put_cases Hth H; [rewrite Hid; cbn; lia|by eapply Hr].
  - intros h' t' H Hh. put_cases Hth H; [done|by eapply Hf].
  - intros h' t' H Hh Hnl. put_cases Hth H; [done|by eapply He].
  - intros h1 h2 t1 t2 H1 H2 Heq Hv. put_cases Hth H1; put_cases Hth H2; [done|..|by eapply Hu].
    + rewrite Hid in Hv. cbn in Hv. lia.
    + rewrite Heq, Hid in Hv. cbn in Hv. lia.
  - intros a h' t' Ha H Hs. put_cases Hth H; [|by eapply Hrec].
    destruct (Hl a Ha) as [Hla _]. rewrite <- Hs, Hid in Hla. cbn in Hla. lia.
  - intros h' t' H. put_cases Hth H; [lia|by eapply Hn].
Qed.

Lemma table_move sv r :
  table_ok sv -> listed r = listed (sv_running sv) -> starting r = starting (sv_running sv) ->
  (forall h, pending r = Some h -> sv_threads sv !! h = None) -> table_ok (sv <| sv_running := r |>).
Proof.
  intros [Hd Hn Hp Ha Hb Hw Hki] Hl Hs Hpr. constructor; cbn; rewrite ?Hl, ?Hs; assumption.
Qed.

Lemma push_table h sv :
  table_ok sv -> sv_running sv = Ru_accepted h -> size_of (sv_sessions sv) < so_max_sessions (sv_options sv) ->
  table_ok (sv <| sv_sessions ::= fun l => l ++ [h] |> <| sv_running := Ru_pushed h |>).
Proof.
  intros [Hd Hn Hp Ha Hb Hw Hki] Hr Hlt. rewrite Hr in *. cbn [listed pending starting] in *.
  pose proof (Hp h eq_refl) as Hnone.
  constructor; cbn; try assumption.
  - intros h'. rewrite elem_of_app, list_elem_of_singleton, Hd. split.
    + intros [[?|H]| ->]; [done|by right|by left].
    + intros [[= ->]|H]; [by right|left; by right].
  - apply list.NoDup_app. split; [exact Hn|]. split; [|apply NoDup_singleton].
    intros x Hx ->%list_elem_of_singleton. apply Hd in Hx as [?|(t & Hx & _)]; [done|]. by rewrite Hnone in Hx.
  - rewrite size_of_app. unfold size_of in *. cbn [length]. lia.
Qed.

Lemma count_table h sv :
  table_ok sv -> sv_running sv = Ru_pushed h ->
  table_ok (sv <| sv_active_threads ::= Z.succ |> <| sv_running := Ru_counted h |>).
Proof.
  intros [Hd Hn Hp Ha Hb Hw Hki] Hr. rewrite Hr in *. constructor; cbn; try assumption. rewrite Ha. cbn. lia.
Qed.

Lemma uncount_table h sv :
  table_ok sv -> sv_running sv = Ru_counted h ->
  table_ok (sv <| sv_active_threads ::= Z.pred |> <| sv_running := Ru_unstarted h |>).
Proof.
  intros [Hd Hn Hp Ha Hb Hw Hki] Hr. rewrite Hr in *. constructor; cbn; try assumption. rewrite Ha. cbn. lia.
Qed.

Lemma drop_table h sv st :
  table_ok sv -> sv_running sv = Ru_unstarted h ->
  table_ok ((forget_session h sv) <| sv_running := Ru_returned st |>).
Proof.
  intros [Hd Hn Hp Ha Hb Hw Hki] Hr. rewrite Hr in *. cbn [listed pending starting] in *.
  assert (Hh : h ∈ sv_sessions sv) by (apply Hd; by left). pose proof (Hp h eq_refl) as Hnone.
  pose proof (length_remove h _ Hn Hh) as Hlen. destruct (forget_spec h sv Hh) as (Hs & Ht & Hac & Ho & _ & _ & Hke).
  constructor; cbn; rewrite ?Ht, ?Hs, ?Hac, ?Ho, ?Hke; try done.
  - intros h'. rewrite elem_of_remove, Hd. split.
    + intros [[[= ->]|H] Hne]; [done|by right].
    + intros [?|(t & H & Hf)]; [done|]. split; [right; by eexists|]. intros ->. by rewrite Hnone in H.
  - by apply NoDup_remove_nat.
  - unfold size_of in *. lia.
Qed.

(** The thread of a new connection. *)
Definition spawned_server (h : nat) (sv : Server) : Server :=
  (put_thread h Ph_hello_recv (Session_new max_frame_payload) sv) <| sv_running := Ru_loop |>.

Lemma spawn_table h sv :
  table_ok sv -> sv_running sv = Ru_counted h -> table_ok (spawned_server h sv).
Proof.
  intros [Hd Hn Hp Ha Hb Hw Hki] Hr. rewrite Hr in *. cbn [listed pending starting] in *.
  pose proof (Hp h eq_refl) as Hnone. unfold spawned_server. constructor; cbn; try done.
  - intros h'. rewrite Hd. destruct (decide (h = h')) as [->|Hne].
    + rewrite lookup_insert_eq. split; [|by left]. intros _. right. by eexists.
    + rewrite lookup_insert_ne by done. split; (intros [?|?]; [congruence|by right]).
  - rewrite map_size_insert_None by done. rewrite Ha. lia.
  - intros h' t' H. apply lookup_insert_Some in H as [[<- <-]|[_ H]]; [apply new_wf|by apply (Hw h')].
  - intros h' t' H. apply lookup_insert_Some in H as [[<- <-]|[_ H]]; [done|by apply (Hki h')].
Qed.

Lemma table_quiet sv sv' : table_ok sv -> quiet sv sv' -> sv_killed sv' = sv_killed sv -> table_ok sv'.
Proof.
  intros [Hd Hn Hp Ha Hb Hw Hki] (Ho & _ & Hs & Ht & Hac & _ & Hr) Hk.
  constructor; rewrite ?Ht, ?Hs, ?Ho, ?Hac, ?Hr, ?Hk; assumption.
Qed.

Lemma run_table accepted spawned sv :
  table_ok sv -> (forall h, accepted = Ok h -> sv_threads sv !! h = None) ->
  table_ok (run_step accepted spawned sv).
Proof.
  intros Htb Hnew. pose proof (tb_pending _ Htb) as Hp.
  assert (Hmove : forall r, listed r = listed (sv_running sv) -> starting r = starting (sv_running sv) ->
    (forall h, pending r = Some h -> sv_threads sv !! h = None) -> table_ok (sv <| sv_running := r |>))
    by (intros; by apply table_move).
  unfold run_step. destruct (sv_running sv) eqn:Hr.
  - destruct (_ || _); [by apply Hmove|]. destruct accepted as [h|st]; [|by apply Hmove].
    apply Hmove; [done|done|]. intros h' [= <-]. by apply Hnew.
  - destruct (Z.leb_spec (so_max_sessions (sv_options sv)) (size_of (sv_sessions sv))) as [Hle|Hlt].
    + by apply (table_quiet (sv <| sv_running := Ru_loop |>)); [apply Hmove|..].
    + by apply (table_quiet (sv <| sv_sessions ::= fun l => l ++ [h] |> <| sv_running := Ru_pushed h |>));
        [apply push_table|..].
  - by apply count_table.
  - destruct spawned; [by apply spawn_table|by apply uncount_table].
  - by apply drop_table.
  - apply (table_move (sv <| sv_listening := false |>)); cbn; rewrite ?Hr; try done.
    by eapply table_quiet.
  - destruct (_ =? 0); [by apply Hmove|exact Htb].
  - exact Htb.
Qed.

(** The threads after a step of the accept loop: one more at most. *)
Lemma run_threads accepted spawned sv :
  sv_threads (run_step accepted spawned sv) = sv_threads sv \/
  exists h, sv_running sv = Ru_counted h /\ run_step accepted spawned sv = spawned_server h sv.
Proof.
  unfold run_step. destruct (sv_running sv) as [|h|h|h|h| | |st].
  - left. destruct (_ || _); [done|]. by destruct accepted.
  - left. by destruct (_ <=? _).
  - by left.
  - destruct spawned; [right; by exists h|by left].
  - left. apply forget_threads.
  - by left.
  - left. by destruct (_ =? _).
  - by left.
Qed.

(** What no step of the accept loop touches. *)
Lemma run_keeps accepted spawned sv :
  sv_options (run_step accepted spawned sv) = sv_options sv /\
  sv_fabric (run_step accepted spawned sv) = sv_fabric sv /\
  sv_stop (run_step accepted spawned sv) = sv_stop sv /\
  sv_killed (run_step accepted spawned sv) = sv_killed sv /\
  sv_session_sequence (run_step accepted spawned sv) = sv_session_sequence sv.
Proof.
  unfold run_step. destruct (sv_running sv).
  - destruct (_ || _); [done|]. by destruct accepted.
  - by destruct (_ <=? _).
  - done.
  - by destruct spawned.
  - unfold forget_session. by case_bool_decide.
  - done.
  - by destruct (_ =? _).
  - done.
Qed.

Lemma run_ok log accepted spawned sv :
  server_ok log sv -> (forall h, accepted = Ok h -> sv_threads sv !! h = None) ->
  server_ok log (run_step accepted spawned sv).
Proof.
  intros [Htb Hse] Hnew. split; [by apply run_table|].
  destruct (run_keeps accepted spawned sv) as (Ho & _ & _ & _ & Hq).
  destruct (run_threads accepted spawned sv) as [Ht|(h & Hr & He)].
  - eapply sessions_sub; [exact Hse|by rewrite Ht|exact Ho|exact Hq].
  - rewrite He. apply (sessions_new log sv _ h (Session_new max_frame_payload)); try done.
    apply (tb_pending _ Htb). by rewrite Hr.
Qed.

Lemma step_ok log l sv sv' :
  server_ok log sv -> sv_session_sequence sv < UINT64_MAX -> server_step sv l sv' ->
  server_ok (log ++ l) sv'.
Proof.
  intros Hok Hseq Hs. destruct Hs as [env h input sv t Ht|h sv|h sv s Ht|h sv s Ht|acc spawned sv Ht|sv];
    rewrite ?app_nil_r.
  - by apply serve_ok.
  - by apply observe_ok.
  - by eapply leave_ok.
  - by eapply finish_ok.
  - by apply run_ok.
  - destruct Hok as [Htb Hse]. split; [by apply (table_quiet sv)|by eapply sessions_sub].
Qed.

Lemma serves_ok sv log sv' :
  serves sv log sv' -> forall log0, server_ok log0 sv -> server_ok (log0 ++ log) sv'.
Proof.
  induction 1 as [sv|sv l sv1 log sv2 _ Hseq _ Hs _ IH]; intros log0 Hok; [by rewrite app_nil_r|].
  rewrite app_assoc. apply IH. by apply (step_ok log0 l sv).
Qed.

(** A server that has just been started. *)
Lemma start_ok options f bound sv :
  0 <= so_max_sessions options -> Server_start options f bound = Ok sv ->
  server_ok [] sv /\ sv_fabric sv = f /\ sv_options sv = options /\
  0 < so_max_sessions options <= max_sessions.
Proof.
  intros H0. unfold Server_start. destruct (Z.eqb_spec (so_max_sessions options) 0); [done|].
  destruct (Z.ltb_spec max_sessions (so_max_sessions options)); [done|]. cbn [orb].
  destruct (Status_ok bound); cbn [negb]; [|done]. intros [= <-].
  split; [|split; [done|split; [done|lia]]]. split.
  - constructor; cbn; try done; [|constructor]. intros h.
    split; [by intros ?%not_elem_of_nil|intros [?|(t & Hl & _)]; [done|by rewrite lookup_empty in Hl]].
  - constructor; cbn; try done; try (intros a Ha; by apply not_elem_of_nil in Ha). constructor.
Qed.

(** What the end of a session, and the stop flag, leave alone. *)
Lemma leave_keeps h sv :
  sv_options (leave_session h sv) = sv_options sv /\ sv_fabric (leave_session h sv) = sv_fabric sv /\
  sv_stop (leave_session h sv) = sv_stop sv /\ sv_killed (leave_session h sv) = sv_killed sv /\
  sv_session_sequence (leave_session h sv) = sv_session_sequence sv /\
  sv_running (leave_session h sv) = sv_running sv.
Proof.
  unfold leave_session. destruct (sv_threads sv !! h); [|done]. unfold forget_session. by case_bool_decide.
Qed.

Lemma observe_keeps h sv :
  sv_options (observe_stop h sv) = sv_options sv /\ sv_fabric (observe_stop h sv) = sv_fabric sv /\
  sv_stop (observe_stop h sv) = sv_stop sv /\ sv_killed (observe_stop h sv) = sv_killed sv /\
  sv_session_sequence (observe_stop h sv) = sv_session_sequence sv /\
  sv_running (observe_stop h sv) = sv_running sv.
Proof.
  unfold observe_stop. destruct (sv_threads sv !! h) as [[[] s]|]; try done;
    (destruct (sv_stop sv) eqn:E; unfold put_thread; cbn; by rewrite ?E).
Qed.

Lemma serves_options sv log sv' : serves sv log sv' -> sv_options sv' = sv_options sv.
Proof.
  induction 1 as [sv|sv l sv1 log sv2 _ _ _ Hs _ IH]; [done|]. rewrite IH. clear IH.
  destruct Hs as [env h input sv t Ht|h sv|h sv s Ht|h sv s Ht|acc spawned sv Ht|sv]; try done.
  - unfold serve_step. rewrite Ht. pose proof (thread_step_spec env input sv t) as Hs.
    destruct (thread_step env input sv t) as [[[sv1 s] p] out]. cbn [fst].
    destruct Hs as [_ [(Hq & _)|[(_ & _ & Hq & _)|(n & c & _ & _ & _ & _ & _ & Hq & _)]]];
      by apply (quiet_put _ _ h p s) in Hq as (_ & Ho & _).
  - apply observe_keeps.
  - apply leave_keeps.
  - apply run_keeps.
Qed.

(** ** The coordinator under a run *)

(** The commands of the accepted requests, in their order. *)
Definition obeys (log : list Accepted) (f : Fabric) : Fabric :=
  foldl (fun f a => obey (ac_env a) (ac_command a) f) f log.

Definition commands_wf (log : list Accepted) : Prop :=
  forall a c, a ∈ log -> ac_command a = Some c -> command_wf c.

Lemma step_fabric sv l sv' :
  server_step sv l sv' ->
  sv_fabric sv' = obeys l (sv_fabric sv) /\ commands_wf l /\ (length l <= 1)%nat.
Proof.
  assert (Hnil : forall sv sv', sv_fabric sv' = sv_fabric sv ->
    sv_fabric sv' = obeys [] (sv_fabric sv) /\ commands_wf [] /\ (0 <= 1)%nat).
  { intros a b H. split; [exact H|]. split; [|lia]. intros x c Hx. by apply not_elem_of_nil in Hx. }
  intros Hs. destruct Hs as [env h input sv t Ht|h sv|h sv s Ht|h sv s Ht|acc spawned sv Ht|sv];
    try (apply Hnil; reflexivity).
  - unfold serve_step. rewrite Ht. pose proof (thread_step_spec env input sv t) as Hs.
    destruct (thread_step env input sv t) as [[[sv1 s] p] out]. cbn [fst].
    destruct Hs as [_ [(Hq & _ & Ha & _)|[(_ & Ha & Hq & _)|(n & c & _ & Ha & _ & _ & Hc & Hq & _)]]];
      rewrite Ha; apply (quiet_put _ _ h p s) in Hq as (_ & _ & _ & _ & _ & _ & Hf);
      [by apply Hnil|by apply Hnil|].
    split; [exact Hf|]. split; [|done]. intros a c' ->%list_elem_of_singleton. apply Hc.
  - apply Hnil, observe_keeps.
  - apply Hnil, leave_keeps.
  - apply Hnil, run_keeps.
Qed.

Lemma serves_fabric sv log sv' :
  serves sv log sv' ->
  sv_fabric sv' = obeys log (sv_fabric sv) /\ commands_wf log /\ evolves (sv_fabric sv) (sv_fabric sv').
Proof.
  induction 1 as [sv|sv l sv1 log sv2 Hids _ _ Hs _ (IHf & IHc & IHe)].
  { split; [done|]. split; [intros a c Ha; by apply not_elem_of_nil in Ha|apply rtc_refl]. }
  destruct (step_fabric _ _ _ Hs) as (Hf & Hc & Hl). split; [|split].
  - rewrite IHf, Hf. unfold obeys. by rewrite foldl_app.
  - intros a c [Ha|Ha]%elem_of_app; [by eapply Hc|by eapply IHc].
  - destruct l as [|a [|b l]]; [| |cbn in Hl; lia].
    + cbn in Hf. by rewrite <- Hf.
    + cbn in Hf. destruct (ac_command a) as [c|] eqn:Hcmd; cbn [obey] in Hf; [|by rewrite <- Hf].
      eapply rtc_l; [|exact IHe]. exists (ac_env a), c. split; [done|].
      split; [|done]. apply (Hc a c); [by left|done].
Qed.
