(* ===== verification/ServerTheorems.v ===== *)
(** * The service: theorems

    Whatever its clients send and however its threads interleave, the service
    drives the coordinator by well-formed commands only, each accepted at most
    once and under the authority of the session that sent it. *)

From S2P Require Import Prelude.
From S2P Require Import Ids.
From S2P Require Import Limits.
From S2P Require Import Status.
From S2P Require Import Authority.
From S2P Require Import Model.
From S2P Require Import Decision.
From S2P Require Import Records.
From S2P Require Import Bytes.
From S2P Require Import Canonical.
From S2P Require Import Wire.
From S2P Require Import Store.
From S2P Require Import Fabric.
From S2P Require Import Coordinator.
From S2P Require Import FabricProps.
From S2P Require Import FabricTheorems.
From S2P Require Import Net.
From S2P Require Import Protocol.
From S2P Require Import ProtocolProps.
From S2P Require Import Server.
From S2P Require Import ServerProps.

(** ** A sample run *)

Inductive Move :=
  | MvRun (h : nat)
  | MvServe (h : nat) (input : Input)
  | MvLeave (h : nat)
  | MvFinish (h : nat)
  | MvStop.

(** One move, with the requests it accepts, where it is possible. *)
Definition make_move (move : Move) (sv : Server) : option (list Accepted * Server) :=
  match move with
  | MvRun h =>
      match sv_threads sv !! h with None => Some ([], run_step (Ok h) true sv) | Some _ => None end
  | MvServe h input =>
      match sv_threads sv !! h with
      | Some t => Some (accepts healthy_env (sv_options sv) t, (serve_step healthy_env h input sv).1)
      | None => None
      end
  | MvLeave h =>
      match sv_threads sv !! h with
      | Some (mkThread Ph_leaving _) => Some ([], leave_session h sv)
      | _ => None
      end
  | MvFinish h =>
      match sv_threads sv !! h with
      | Some (mkThread Ph_forgotten _) => Some ([], finish_session h sv)
      | _ => None
      end
  | MvStop => Some ([], request_stop sv)
  end.

Lemma make_move_step move sv l sv' : make_move move sv = Some (l, sv') -> server_step sv l sv'.
Proof.
  destruct move as [h|h input|h|h|]; cbn [make_move]; [..|intros [= <- <-]; apply s_stop];
    destruct (sv_threads sv !! h) as [t|] eqn:Ht; try done.
  - intros [= <- <-]. apply s_run. by intros h' [= <-].
  - intros [= <- <-]. by apply s_serve.
  - destruct t as [[] s]; try done. intros [= <- <-]. by eapply s_leave.
  - destruct t as [[] s]; try done. intros [= <- <-]. by eapply s_finish.
Qed.

(** The moves in order, with the requests they accept, while they are possible. *)
Fixpoint run_moves (moves : list Move) (sv : Server) : option (list Accepted * Server) :=
  match moves with
  | [] => Some ([], sv)
  | move :: moves =>
      if ids_leftb (sv_fabric sv) && (sv_session_sequence sv <? UINT64_MAX) && negb (sv_killed sv) then
        match make_move move sv with
        | Some (l, sv) =>
            match run_moves moves sv with Some (log, sv) => Some (l ++ log, sv) | None => None end
        | None => None
        end
      else None
  end.

Lemma run_moves_serves moves sv log sv' : run_moves moves sv = Some (log, sv') -> serves sv log sv'.
Proof.
  revert sv log sv'. induction moves as [|move moves IH]; intros sv log sv'; cbn [run_moves].
  { intros [= <- <-]. apply serves_refl. }
  destruct (ids_leftb (sv_fabric sv) && _ && _) eqn:Hg; [|done].
  apply andb_true_iff in Hg as [[Hi%ids_leftb_spec Hq%Z.ltb_lt]%andb_true_iff Hk%negb_true_iff].
  destruct (make_move move sv) as [[l sv1]|] eqn:Hm; [|done].
  destruct (run_moves moves sv1) as [[log1 sv2]|] eqn:Hr; [|done]. intros [= <- <-].
  eapply serves_step; [exact Hi|exact Hq|exact Hk|by eapply make_move_step|by apply IH].
Qed.

Definition sample_server : Server :=
  mkServer ServerOptions_default ready_fabric false true 0 [] ∅ 0 ServerStats_default Ru_loop false.

Definition receives (data : list byte) : Input := mkInput (Ok data) (Sending_returned ok_status).

(** A greeting, then a request to fence a path, then the same request again. *)
Definition sample_hello : list byte :=
  encode_frame MsgType_hello 1 0 (encode_hello_request (mkHelloRequest protocol_version [] 7)).
Definition sample_header (n : Z) : SessionHeader :=
  mkSessionHeader (Id_from_value 1) (Id_from_value 1) (Id_from_value 6) n.
Definition sample_request : list byte :=
  encode_frame MsgType_fence_req 2 0
    (encode_session_request (sample_header 1)
       (encode_fence_body (Id_from_value 11) Reason_path_fenced)).

Definition accepting (h : nat) : list Move := [MvRun h; MvRun h; MvRun h; MvRun h].

Definition sample_moves : list Move :=
  accepting 0 ++ [MvServe 0 (receives sample_hello); MvServe 0 (receives []);
   MvServe 0 (receives sample_request); MvServe 0 (receives []); MvServe 0 (receives [])] ++
  accepting 1 ++ [MvServe 0 (receives sample_request); MvServe 0 (receives []); MvLeave 0].

Example sample_run :
  match run_moves sample_moves sample_server with
  | Some (log, sv) => bool_decide (length log = 1%nat /\ sv_sessions sv = [1%nat] /\
      sv_active_threads sv = 2 /\ is_Some (fb_path_fences (sv_fabric sv) !! Id_from_value 11))
  | None => false
  end = true.
Proof. vm_compute. reflexivity. Qed.

(** C8: The service implements the coordinator.  Whatever bytes its clients send,
    whatever the network and the storage do, and however connections and session
    threads interleave, the coordinator behind the service has been through
    exactly the commands of the accepted requests, one after the other, each
    within the widths of its types; so everything proved of reachable
    coordinators holds of it. *)
Theorem service_refines_coordinator options f bound sv0 log sv :
  0 <= so_max_sessions options -> Server_start options f bound = Ok sv0 ->
  serves sv0 log sv -> reachable f ->
  sv_fabric sv = obeys log f /\ commands_wf log /\ reachable (sv_fabric sv).
Proof.
  intros H0 Hs Hr Hf. destruct (start_ok _ _ _ _ H0 Hs) as (_ & <- & _).
  destruct (serves_fabric _ _ _ Hr) as (Hfab & Hwf & He). split; [exact Hfab|]. split; [exact Hwf|].
  destruct Hf as (env & o & oi & li & en & j & s & f0 & Ho & He0).
  exists env, o, oi, li, en, j, s, f0. split; [exact Ho|]. by etransitivity.
Qed.

Lemma service_refines_coordinator_witness :
  match run_moves sample_moves sample_server with
  | Some (log, sv) => sv_fabric sv = obeys log ready_fabric /\ commands_wf log /\ reachable (sv_fabric sv)
  | None => False
  end.
Proof.
  destruct (run_moves sample_moves sample_server) as [[log sv]|] eqn:Hr.
  - apply (service_refines_coordinator ServerOptions_default ready_fabric ok_status sample_server).
    + vm_compute. congruence.
    + reflexivity.
    + apply (run_moves_serves _ _ _ _ Hr).
    + apply ready_reachable.
  - pose proof sample_run as H. rewrite Hr in H. discriminate H.
Defined.

(** C9: Requests are accepted at most once.  Along any run from the start of the
    service, no session has the same request sequence accepted twice, every
    accepted sequence is positive and within the session's budget, and every
    accepting session was established.  The session table never exceeds its
    bound and holds no object twice; it holds exactly the objects of the session
    threads that have not forgotten them yet, and of the connection the accept
    loop is about to serve; the count of threads is that of the threads alive, one
    more while the accept loop is between counting a thread and starting it.  No
    two sessions that are established share an identity. *)
Theorem requests_at_most_once options f bound sv0 log sv :
  0 <= so_max_sessions options -> Server_start options f bound = Ok sv0 -> serves sv0 log sv ->
  NoDup ((fun a => (ac_session a, ac_sequence a)) <$> log) /\
  (forall a, a ∈ log -> 0 < Id_value (ac_session a) <= sv_session_sequence sv /\
     0 < ac_sequence a <= so_max_requests_per_session options) /\
  NoDup (sv_sessions sv) /\ size_of (sv_sessions sv) <= so_max_sessions options <= max_sessions /\
  (forall h, h ∈ sv_sessions sv <->
     listed (sv_running sv) = Some h \/ exists t, sv_threads sv !! h = Some t /\ th_phase t <> Ph_forgotten) /\
  sv_active_threads sv = Z.of_nat (size (sv_threads sv)) + starting (sv_running sv) /\
  (forall h1 h2 t1 t2, sv_threads sv !! h1 = Some t1 -> sv_threads sv !! h2 = Some t2 ->
     se_id (th_session t1) = se_id (th_session t2) -> 0 < Id_value (se_id (th_session t1)) -> h1 = h2).
Proof.
  intros H0 Hs Hr. destruct (start_ok _ _ _ _ H0 Hs) as (Hok & _ & Ho & Hmax).
  pose proof (serves_options _ _ _ Hr) as Hopt. rewrite Ho in Hopt.
  destruct (serves_ok _ _ _ Hr [] Hok) as [[Ht Hn _ Ha Hb _] [_ _ _ _ Hu Hl _ _ Hd]].
  cbn [app] in *. rewrite Hopt in *. split; [exact Hd|]. split; [exact Hl|]. split; [exact Hn|].
  split; [lia|]. split; [exact Ht|]. by split.
Qed.

Lemma requests_at_most_once_witness :
  match run_moves sample_moves sample_server with
  | Some (log, sv) => NoDup ((fun a => (ac_session a, ac_sequence a)) <$> log)
  | None => False
  end.
Proof.
  destruct (run_moves sample_moves sample_server) as [[log sv]|] eqn:Hr.
  - apply (requests_at_most_once ServerOptions_default ready_fabric ok_status sample_server log sv).
    + vm_compute. congruence.
    + reflexivity.
    + apply (run_moves_serves _ _ _ _ Hr).
  - pose proof sample_run as H. rewrite Hr in H. discriminate H.
Defined.

(** C23: A request acts only under its session's authority.  A frame either names
    the established session, its coordinator epoch and boot, and a sequence
    beyond every one accepted before and within the budget, in which case its
    command, if it carries one, is executed once and the sequence is recorded; or
    it is answered with an error, changes neither the coordinator nor the
    session, and the session is closed. *)
Theorem requests_are_guarded env sv session frame f r session' f' :
  dispatch env sv session frame f = (r, session', f') ->
  (dr_response_type r = MsgType_error_rsp /\ dr_close_session r = true /\
   session' = session /\ f' = f) \/
  (exists header reader,
     decode_session_header (ByteReader_new (fm_payload frame)) = (Ok header, reader) /\
     sh_session header = se_id session /\ sh_epoch header = se_epoch session /\
     sh_boot header = se_boot session /\
     0 <> sh_request_sequence header /\
     se_last_request_sequence session < sh_request_sequence header
       <= so_max_requests_per_session (sv_options sv) /\
     session' = session <| se_last_request_sequence := sh_request_sequence header |> /\
     f' = obey env (command_of (fm_type frame) reader) f).
Proof.
  unfold dispatch. destruct (decode_session_header _) as [[header|st] reader] eqn:Hd.
  2:{ intros [= <- <- <-]. by left. }
  destruct (check_header _ _ _) as [res|] eqn:Hc.
  { intros [= <- <- <-]. left. unfold check_header in Hc.
    repeat match type of Hc with (if ?b then _ else _) = _ => destruct b end; by simplify_eq. }
  apply check_header_spec in Hc as (H1 & H2 & H3 & H4 & H5 & H6).
  pose proof (dispatch_request_fabric env sv (fm_type frame) reader f) as Hf.
  destruct (dispatch_request _ _ _ _ _) as [res f1]. cbn [snd] in Hf. subst f1.
  intros [= <- <- <-]. right. exists header, reader. by repeat (split; [done|]).
Qed.

(** A session that was established, and a frame for it. *)
Definition sample_session : Session :=
  mkSession (Id_from_value 1) (Id_from_value 1) (Id_from_value 6) 0 0
    (FrameDecoder_new max_frame_payload).
Definition sample_frame (n : Z) : Frame :=
  sent MsgType_fence_req 2 (encode_session_request (sample_header n)
    (encode_fence_body (Id_from_value 11) Reason_path_fenced)).

Lemma requests_are_guarded_witness :
  let '(r, session', f') :=
    dispatch healthy_env sample_server sample_session (sample_frame 0) ready_fabric in
  (dr_response_type r = MsgType_error_rsp /\ dr_close_session r = true /\
   session' = sample_session /\ f' = ready_fabric) \/
  (exists header reader,
     decode_session_header (ByteReader_new (fm_payload (sample_frame 0))) = (Ok header, reader) /\
     se_last_request_sequence session' = sh_request_sequence header).
Proof.
  destruct (dispatch healthy_env sample_server sample_session (sample_frame 0) ready_fabric)
    as [[r session'] f'] eqn:Hd.
  destruct (requests_are_guarded _ _ _ _ _ _ _ _ Hd) as [H|(header & reader & H1 & _ & _ & _ & _ & _ & H2 & _)].
  - left. exact H.
  - right. exists header, reader. split; [exact H1|]. rewrite H2. reflexivity.
Defined.
