(* ===== verification/Stopping.v ===== *)
(** * The service stops

    Once the stop flag is set every session thread is on its way out, and so is the
    accept loop: a receive in progress returns, since [request_stop] has shut its
    socket down, the frames it delivered are served, and the condition of the loop
    ends the thread.  A measure of what is left bounds every schedule.  The shut
    sockets have another side: an answer still sent on one raises [SIGPIPE], which
    ends the process at once unless it is ignored. *)

From S2P Require Import Prelude.
From S2P Require Import Ids.
From S2P Require Import Limits.
From S2P Require Import Status.
From S2P Require Import Bytes.
From S2P Require Import Canonical.
From S2P Require Import WireProps.
From S2P Require Import Fabric.
From S2P Require Import FabricProps.
From S2P Require Import FabricTheorems.
From S2P Require Import Platform.
From S2P Require Import Net.
From S2P Require Import Protocol.
From S2P Require Import ProtocolProps.
From S2P Require Import Server.
From S2P Require Import ServerProps.
From S2P Require Import ServerTheorems.

(** ** Summing over the session threads *)

Definition total (w : nat -> Thread -> Z) (m : gmap nat Thread) : Z :=
  map_fold (fun h t n => w h t + n) 0 m.

Lemma total_empty w : total w ∅ = 0.
Proof. apply map_fold_empty. Qed.

Lemma total_new w m h t : m !! h = None -> total w (<[h := t]> m) = w h t + total w m.
Proof. intros Hm. exact (map_fold_insert_L (fun h t n => w h t + n) 0 h t m ltac:(intros; cbn beta; lia) Hm). Qed.

Lemma total_delete w m h t : m !! h = Some t -> total w m = w h t + total w (delete h m).
Proof.
  intros Ht. rewrite <- (insert_delete_id m h t Ht) at 1. apply total_new, lookup_delete_eq.
Qed.

Lemma total_ext w w' m : (forall h t, m !! h = Some t -> w h t = w' h t) -> total w m = total w' m.
Proof.
  induction m as [|h t m Hm IH] using map_ind; intros Hw; [done|].
  rewrite !total_new by done. rewrite (Hw h t) by apply lookup_insert_eq. f_equal. apply IH.
  intros h' t' Hl. apply Hw. rewrite lookup_insert_ne; [done|]. intros ->. congruence.
Qed.

Lemma total_bound w m a b :
  (forall h t, m !! h = Some t -> a <= w h t <= b) -> a * Z.of_nat (size m) <= total w m <= b * Z.of_nat (size m).
Proof.
  induction m as [|h t m Hm IH] using map_ind; intros Hw; [rewrite total_empty, map_size_empty; lia|].
  rewrite total_new, map_size_insert_None by done. pose proof (Hw h t (lookup_insert_eq _ _ _)).
  assert (Hw' : forall h' t', m !! h' = Some t' -> a <= w h' t' <= b).
  { intros h' t' Hl. apply (Hw h'). rewrite lookup_insert_ne; [done|]. intros ->. congruence. }
  specialize (IH Hw'). lia.
Qed.

(** ** Winding down *)

Definition receiving (p : Phase) : bool :=
  match p with Ph_hello_recv | Ph_request_recv => true | _ => false end.

(** The steps of the session threads and of the accept loop with the flag set.  The
    set holds the threads that were inside a receive when it was: theirs return
    once more, with whatever they were given.  Every other thread, those started
    later among them, meets the loop condition before its next receive.  A send
    kills only where [SIGPIPE] does. *)
Definition survives (sigpipe : Sigpipe) (input : Input) : Prop :=
  sigpipe = Sigpipe_ignored -> in_sent input <> Sending_killed.

(** The accept loop waits for the session threads, or is over. *)
Definition run_enabled (sv : Server) : Prop :=
  match sv_running sv with
  | Ru_returned _ => False
  | Ru_waiting => sv_active_threads sv = 0
  | _ => True
  end.

#[export] Instance run_enabled_dec sv : Decision (run_enabled sv).
Proof. unfold run_enabled. destruct (sv_running sv); apply _. Defined.

Inductive unwinds (sigpipe : Sigpipe) : gset nat * Server -> gset nat * Server -> Prop :=
  | w_return B h env input sv t :
      sv_threads sv !! h = Some t -> receiving (th_phase t) = true -> h ∈ B -> survives sigpipe input ->
      unwinds sigpipe (B, sv) (B ∖ {[h]}, (serve_step env h input sv).1)
  | w_pop B h env input sv t :
      sv_threads sv !! h = Some t -> is_popping (th_phase t) = true -> survives sigpipe input ->
      unwinds sigpipe (B, sv) (B ∖ {[h]}, (serve_step env h input sv).1)
  | w_look B h sv t :
      sv_threads sv !! h = Some t -> receiving (th_phase t) = true -> h ∉ B ->
      unwinds sigpipe (B, sv) (B, observe_stop h sv)
  | w_leave B h sv session :
      sv_threads sv !! h = Some (mkThread Ph_leaving session) ->
      unwinds sigpipe (B, sv) (B, leave_session h sv)
  | w_finish B h sv session :
      sv_threads sv !! h = Some (mkThread Ph_forgotten session) ->
      unwinds sigpipe (B, sv) (B, finish_session h sv)
  | w_run B accepted spawned sv :
      run_enabled sv ->
      unwinds sigpipe (B, sv)
        (match sv_running sv with Ru_counted h => B ∖ {[h]} | _ => B end, run_step accepted spawned sv).

(** As long as the process lives. *)
Definition winds (sigpipe : Sigpipe) (x y : gset nat * Server) : Prop :=
  sv_killed x.2 = false /\ unwinds sigpipe x y.

(** What a thread may still do, *)
Definition weight (B : gset nat) (h : nat) (t : Thread) : Z :=
  if receiving (th_phase t) then if decide (h ∈ B) then 5 + max_frame_bytes else 3
  else if is_popping (th_phase t) then 4 + Z.of_nat (FrameDecoder_available (se_decoder (th_session t)))
  else if bool_decide (th_phase t = Ph_leaving) then 2 else 1.

(** and what the accept loop may. *)
Definition run_weight (r : Running) : Z :=
  match r with
  | Ru_accepted _ => 9
  | Ru_pushed _ => 8
  | Ru_counted _ => 7
  | Ru_loop => 3
  | Ru_past => 2
  | Ru_unstarted _ | Ru_waiting => 1
  | Ru_returned _ => 0
  end.

Definition remaining (x : gset nat * Server) : Z :=
  total (weight x.1) (sv_threads x.2) + run_weight (sv_running x.2).

Lemma weight_positive B h t : 1 <= weight B h t.
Proof.
  unfold weight. destruct (receiving _).
  - destruct (decide _); [unfold max_frame_bytes; unfold_limits; lia|lia].
  - destruct (is_popping _); [lia|]. destruct (bool_decide _); lia.
Qed.

Lemma weight_le B h t : decoder_wf (se_decoder (th_session t)) -> weight B h t <= 5 + max_frame_bytes.
Proof.
  intros [_ Hb _]. unfold weight. rewrite available_window. unfold size_of in Hb.
  assert (0 < max_frame_bytes) by (by vm_compute).
  destruct (receiving _); [destruct (decide _); lia|]. destruct (is_popping _); [lia|].
  destruct (bool_decide _); lia.
Qed.

Lemma weight_leaving B h s : weight B h (mkThread Ph_leaving s) = 2.
Proof. done. Qed.

Lemma run_weight_bounds r : 0 <= run_weight r <= 9.
Proof. destruct r; cbn; lia. Qed.

(** ** One step of a thread *)

Lemma pop_end_phase sv s p :
  is_popping p = true ->
  let '(_, _, p', _) := pop_end sv s p in p' = Ph_leaving \/ receiving p' = true.
Proof. intros Hp. unfold pop_end. destruct (_ && _); [by left|]. right. by destruct (bool_decide _). Qed.

(** Out of the loops: the thread has nothing more to pop or receive. *)
Definition over (p : Phase) : Prop := p = Ph_leaving \/ p = Ph_killed.

Lemma hello_frame_phase sent sv s f :
  let '(_, _, p', _) := hello_frame sent sv s f in over p' \/ receiving p' = true.
Proof.
  unfold hello_frame, over. destruct (negb _).
  { edestruct (sending_cases sent) as (sv1 & out & _ & _ & [[-> _]|(_ & st & ->)]); left; auto. }
  destruct (decode_hello_request _) as [hello|]; [|by left; left]. destruct (negb _).
  { edestruct (sending_cases sent) as (sv1 & out & _ & _ & [[-> _]|(_ & st & ->)]); left; auto. }
  destruct (establish sv s) as [sv1 s1]. case_bool_decide; [by left; left|].
  edestruct (sending_cases sent) as (sv2 & out & _ & _ & [[-> _]|(_ & st & ->)]); [left; by right|].
  destruct (Status_ok st); [by right|by left; left].
Qed.

Lemma dispatch_decoder env sv s f fb : se_decoder (dispatch env sv s f fb).1.2 = se_decoder s.
Proof.
  unfold dispatch. destruct (decode_session_header _) as [[header|st] reader]; [|done].
  destruct (check_header _ _ _); [done|]. by destruct (dispatch_request _ _ _ _ _).
Qed.

Lemma request_frame_phase env sent sv s f :
  let '(_, s', p', _) := request_frame env sent sv s f in
  over p' \/ (p' = Ph_request_pop /\ se_decoder s' = se_decoder s).
Proof.
  unfold request_frame, over. destruct (negb (is_request_type _)).
  { edestruct (sending_cases sent) as (sv1 & out & _ & _ & [[-> _]|(_ & st & ->)]); left; auto. }
  pose proof (dispatch_decoder env sv s f (sv_fabric sv)) as Hd.
  destruct (dispatch _ _ _ _ _) as [[r s1] fb]. cbn [fst snd] in Hd. cbv zeta.
  edestruct (sending_cases sent) as (sv1 & out & _ & _ & [[-> _]|(_ & st & ->)]); [left; by right|].
  destruct (_ || _ || _); [by left; left|]. by right.
Qed.

(** Popping leads out of the loop, or consumes. *)
Lemma pop_step_phase env sent sv s p :
  is_popping p = true -> decoder_wf (se_decoder s) ->
  let '(_, s', p', _) := pop_step env sent sv s p in
  over p' \/ receiving p' = true \/
  (is_popping p' = true /\ (FrameDecoder_available (se_decoder s') < FrameDecoder_available (se_decoder s))%nat).
Proof.
  intros Hp Hwf. unfold pop_step.
  assert (He : forall s1, let '(_, s', p', _) := pop_end sv s1 p in over p' \/ receiving p' = true \/
    (is_popping p' = true /\ (FrameDecoder_available (se_decoder s') < FrameDecoder_available (se_decoder s))%nat)).
  { intros s1. pose proof (pop_end_phase sv s1 p Hp) as H.
    destruct (pop_end sv s1 p) as [[[? ?] ?] ?]. unfold over. tauto. }
  destruct (FrameDecoder_failed _); [apply He|].
  destruct (FrameDecoder_pop _) as [[f|st] d] eqn:Hpop; [|apply He]. clear He.
  destruct (pop_inv _ _ _ Hwf Hpop) as (Hw & _ & _ & _ & _ & _ & Hd).
  assert (Hlt : (FrameDecoder_available d < FrameDecoder_available (se_decoder s))%nat).
  { rewrite !available_window, Hw, length_app. pose proof (frame_bytes_long f). unfold frame_bytes in *. lia. }
  clear Hw Hd. case_bool_decide.
  - pose proof (hello_frame_phase sent sv (s <| se_decoder := d |>) f) as H1.
    destruct (hello_frame _ _ _ _) as [[[? ?] ?] ?]. tauto.
  - pose proof (request_frame_phase env sent sv (s <| se_decoder := d |>) f) as H1.
    destruct (request_frame _ _ _ _ _) as [[[? s'] p'] ?]. destruct H1 as [H1|[-> Hs']]; [by left|].
    right. right. split; [done|]. rewrite Hs'. exact Hlt.
Qed.

Lemma recv_step_phase received sv s p :
  let '(_, _, p', _) := recv_step received sv s p in over p' \/ is_popping p' = true.
Proof.
  unfold recv_step, over. destruct received as [data|]; [|by left; left]. case_bool_decide; [by left; left|]. cbv zeta.
  destruct (FrameDecoder_feed _ _) as [fed d]. case_bool_decide; by right.
Qed.

(** *** The stop flag stays set *)

Lemma hello_frame_stop sent sv s f : sv_stop (hello_frame sent sv s f).1.1.1 = sv_stop sv.
Proof.
  unfold hello_frame. destruct (negb _).
  { edestruct (sending_cases sent) as (sv1 & out & _ & Hst & [[-> _]|(_ & st & ->)]); exact Hst. }
  destruct (decode_hello_request _) as [hello|]; [|done]. destruct (negb _).
  { edestruct (sending_cases sent) as (sv1 & out & _ & Hst & [[-> _]|(_ & st & ->)]); exact Hst. }
  assert (He : sv_stop (establish sv s).1 = sv_stop sv) by done.
  destruct (establish sv s) as [sv1 s1]. cbn [fst] in He. case_bool_decide; [done|].
  edestruct (sending_cases sent) as (sv2 & out & _ & Hst & [[-> _]|(_ & st & ->)]);
    cbn [fst]; by rewrite Hst.
Qed.

Lemma request_frame_stop env sent sv s f :
  sv_stop sv = true -> sv_stop (request_frame env sent sv s f).1.1.1 = true.
Proof.
  intros Hs. unfold request_frame. destruct (negb (is_request_type _)).
  { edestruct (sending_cases sent) as (sv1 & out & _ & Hst & [[-> _]|(_ & st & ->)]); cbn [fst]; by rewrite Hst. }
  destruct (dispatch _ _ _ _ _) as [[r s1] fb]. cbv zeta.
  match goal with |- context [sending sent ?ty ?n ?pl ?sv1] =>
    assert (H1 : sv_stop sv1 = true) by (case_bool_decide; exact Hs) end.
  edestruct (sending_cases sent) as (sv2 & out & _ & Hst & [[-> _]|(_ & st & ->)]); cbn [fst];
    [by rewrite Hst|]. destruct (dr_stop_server r); [done|]. by rewrite Hst.
Qed.

Lemma thread_step_stop env input sv t : sv_stop sv = true -> sv_stop (thread_step env input sv t).1.1.1 = true.
Proof.
  intros Hs. unfold thread_step.
  assert (Hr : forall s p, sv_stop (recv_step (in_received input) sv s p).1.1.1 = true).
  { intros s p. unfold recv_step. destruct (in_received input); [|done]. case_bool_decide; [done|]. cbv zeta.
    destruct (FrameDecoder_feed _ _) as [fed d]. case_bool_decide; [done|]. by destruct (Status_ok fed). }
  assert (Hp : forall s p, sv_stop (pop_step env (in_sent input) sv s p).1.1.1 = true).
  { intros s p. unfold pop_step, pop_end. destruct (FrameDecoder_failed _); [by destruct (_ && _)|].
    destruct (FrameDecoder_pop _) as [[f|] d]; [|by destruct (_ && _)].
    case_bool_decide; [by rewrite hello_frame_stop|by apply request_frame_stop]. }
  by destruct (th_phase t).
Qed.

Lemma serve_step_stop env h input sv : sv_stop sv = true -> sv_stop (serve_step env h input sv).1 = true.
Proof.
  intros Hs. unfold serve_step. destruct (sv_threads sv !! h) as [t|]; [|done].
  pose proof (thread_step_stop env input sv t Hs) as H. by destruct (thread_step _ _ _ _) as [[[? ?] ?] ?].
Qed.

(** *** Whether the process lives *)

(** A step whose send does not kill leaves the process alive. *)
Lemma thread_step_lives env input sv t :
  in_sent input <> Sending_killed -> sv_killed (thread_step env input sv t).1.1.1 = sv_killed sv.
Proof.
  intros Hin.
  assert (Hsend : forall ty n pl v s k, sv_killed v = sv_killed sv ->
    (forall x v1 out, sv_killed v1 = sv_killed sv -> sv_killed (k x v1 out).1.1.1 = sv_killed sv) ->
    sv_killed (sending (in_sent input) ty n pl v s k).1.1.1 = sv_killed sv).
  { intros ty n pl v s k Hv Hk.
    destruct (sending_cases (in_sent input) ty n pl v s k) as (v1 & out & _ & _ & [[_ Hd]|(Hl & x & ->)]);
      [done|]. apply Hk. by rewrite Hl. }
  assert (Hr : forall s p, sv_killed (recv_step (in_received input) sv s p).1.1.1 = sv_killed sv).
  { intros s p. unfold recv_step. destruct (in_received input); [|done]. case_bool_decide; [done|]. cbv zeta.
    destruct (FrameDecoder_feed _ _) as [fed d]. case_bool_decide; [done|]. by destruct (Status_ok fed). }
  assert (He : forall s p, sv_killed (pop_end sv s p).1.1.1 = sv_killed sv)
    by (intros s p; unfold pop_end; by destruct (_ && _)).
  assert (Hp : forall s p, sv_killed (pop_step env (in_sent input) sv s p).1.1.1 = sv_killed sv).
  { intros s p. unfold pop_step. destruct (FrameDecoder_failed _); [apply He|].
    destruct (FrameDecoder_pop _) as [[f|] d]; [|apply He]. case_bool_decide.
    - unfold hello_frame. destruct (negb _); [by apply Hsend|]. destruct (decode_hello_request _); [|done].
      destruct (negb _); [by apply Hsend|]. unfold establish. cbv zeta. case_bool_decide; [done|]. by apply Hsend.
    - unfold request_frame. destruct (negb _); [by apply Hsend|]. destruct (dispatch _ _ _ _ _) as [[r s1] fb].
      cbv zeta. apply Hsend; [by case_bool_decide|]. intros x v1 out Hv. cbn [fst]. by destruct (dr_stop_server r). }
  unfold thread_step. destruct (th_phase t); first [done|apply Hr|apply Hp].
Qed.

Lemma serve_step_lives env h input sv :
  in_sent input <> Sending_killed -> sv_killed (serve_step env h input sv).1 = sv_killed sv.
Proof.
  intros Hin. unfold serve_step. destruct (sv_threads sv !! h) as [t|]; [|done].
  pose proof (thread_step_lives env input sv t Hin) as H. by destruct (thread_step _ _ _ _) as [[[? ?] ?] ?].
Qed.

(** *** The table *)

(** What a step of thread [h] makes of the table: its entry is replaced. *)
Lemma serve_step_table env h input sv t :
  table_ok sv -> sv_threads sv !! h = Some t ->
  exists p s, sv_threads (serve_step env h input sv).1 = <[h := mkThread p s]> (sv_threads sv) /\
    sv_running (serve_step env h input sv).1 = sv_running sv /\
    table_ok (serve_step env h input sv).1 /\
    (receiving (th_phase t) = true -> over p \/ is_popping p = true) /\
    (is_popping (th_phase t) = true -> over p \/ receiving p = true \/
       (is_popping p = true /\ (FrameDecoder_available (se_decoder s) <
          FrameDecoder_available (se_decoder (th_session t)))%nat)).
Proof.
  intros Htb Ht. pose proof (serve_step_ok env h input sv t Htb Ht) as Hok.
  pose proof (serve_step_replaces env h input sv t Ht) as (p & s & out & He & Hth & Hru).
  exists p, s. split; [exact Hth|]. split; [exact Hru|]. split; [exact Hok|].
  pose proof (tb_decoders _ Htb h t Ht) as Hdec. unfold thread_step in He. destruct (th_phase t) eqn:Hph.
  all: try match type of He with recv_step ?r ?v ?s ?p = _ =>
      pose proof (recv_step_phase r v s p) as H; rewrite He in H; by split end.
  all: try match type of He with pop_step ?e ?st ?v ?s ?p = _ =>
      pose proof (pop_step_phase e st v s p eq_refl Hdec) as H; rewrite He in H; by split end.
  all: by split.
Qed.

(** ** What is left decreases *)

Lemma weight_elsewhere B h h' t : h <> h' -> weight (B ∖ {[h]}) h' t = weight B h' t.
Proof.
  intros Hne. unfold weight. destruct (receiving _); [|done].
  by rewrite (decide_ext (h' ∈ B ∖ {[h]}) (h' ∈ B)) by (rewrite elem_of_difference, elem_of_singleton; split; [by intros []|by intros; split; [|intros ->]]).
Qed.

(** Replacing the entry of [h], which was in the set or not. *)
Lemma remaining_put B h t t' m :
  m !! h = Some t -> weight (B ∖ {[h]}) h t' < weight B h t ->
  total (weight (B ∖ {[h]})) (<[h := t']> m) < total (weight B) m.
Proof.
  intros Ht Hw. rewrite (total_delete _ m h t Ht), <- insert_delete_eq, total_new by apply lookup_delete_eq.
  rewrite (total_ext _ (weight B)); [lia|]. intros h' t0 Hl. apply lookup_delete_Some in Hl as [Hne _].
  by apply weight_elsewhere.
Qed.

Lemma remaining_look B h t t' m :
  m !! h = Some t -> weight B h t' < weight B h t ->
  total (weight B) (<[h := t']> m) < total (weight B) m.
Proof.
  intros Ht Hw. rewrite (total_delete _ m h t Ht), <- insert_delete_eq, total_new by apply lookup_delete_eq. lia.
Qed.

(** A thread started now is not in a receive: it has yet to meet the condition. *)
Lemma remaining_spawn B h m :
  m !! h = None ->
  total (weight (B ∖ {[h]})) (<[h := mkThread Ph_hello_recv (Session_new max_frame_payload)]> m) =
    3 + total (weight B) m.
Proof.
  intros Hm. rewrite total_new by done. f_equal.
  - unfold weight. cbn [th_phase receiving]. rewrite decide_False; [done|].
    rewrite elem_of_difference, elem_of_singleton. by intros [_ []].
  - apply total_ext. intros h' t Hl. apply weight_elsewhere. intros ->. congruence.
Qed.

Lemma receiving_popping p : is_popping p = true -> receiving p = false.
Proof. by destruct p. Qed.

Lemma receiving_phase p : receiving p = true -> p = Ph_hello_recv \/ p = Ph_request_recv.
Proof. destruct p; intros H; try discriminate H; auto. Qed.

Lemma weight_over B h p s : over p -> weight B h (mkThread p s) <= 2.
Proof. by intros [-> | ->]; vm_compute. Qed.

Lemma serve_decreases B h env input sv t :
  table_ok sv -> sv_threads sv !! h = Some t ->
  (receiving (th_phase t) = true /\ h ∈ B \/ is_popping (th_phase t) = true) ->
  remaining (B ∖ {[h]}, (serve_step env h input sv).1) < remaining (B, sv).
Proof.
  intros Htb Ht Hp. destruct (serve_step_table env h input sv t Htb Ht) as (p & s & Hth & Hru & Htb' & Hr & Hq).
  unfold remaining. cbn [fst snd]. rewrite Hru, Hth.
  enough (weight (B ∖ {[h]}) h (mkThread p s) < weight B h t) by (pose proof (remaining_put B h t _ _ Ht H); lia).
  assert (0 < max_frame_bytes) by (by vm_compute). destruct Hp as [[Hp HB]|Hp].
  - specialize (Hr Hp). unfold weight at 2. rewrite Hp, decide_True by done.
    assert (Hwf : decoder_wf (se_decoder s)).
    { apply (tb_decoders _ Htb' h (mkThread p s)). by rewrite Hth, lookup_insert_eq. }
    destruct Hwf as [_ Hb _]. unfold size_of in Hb.
    destruct Hr as [Hr|Hr]; [pose proof (weight_over (B ∖ {[h]}) h p s Hr); lia|].
    unfold weight. cbn [th_phase th_session]. rewrite (receiving_popping _ Hr), Hr, available_window. lia.
  - specialize (Hq Hp). unfold weight at 2. rewrite (receiving_popping _ Hp), Hp.
    destruct Hq as [Hq|[Hq|[Hq Hlt]]]; [pose proof (weight_over (B ∖ {[h]}) h p s Hq); lia| |];
      unfold weight; cbn [th_phase th_session].
    + rewrite Hq, decide_False by (rewrite elem_of_difference, elem_of_singleton; by intros [_ []]). lia.
    + rewrite (receiving_popping _ Hq), Hq. lia.
Qed.

(** With the flag set the loop takes no further connection, whatever its accept
    says. *)
Lemma run_step_stopped accepted spawned sv :
  sv_stop sv = true -> run_step accepted spawned sv = run_step (Err thread_unavailable) spawned sv.
Proof. intros Hs. unfold run_step. rewrite Hs. by destruct (sv_running sv). Qed.

Lemma run_decreases B accepted spawned sv :
  table_ok sv -> sv_stop sv = true -> run_enabled sv ->
  remaining (match sv_running sv with Ru_counted h => B ∖ {[h]} | _ => B end, run_step accepted spawned sv)
    < remaining (B, sv).
Proof.
  intros Htb Hs He. unfold remaining, run_enabled, run_step in *. rewrite Hs. cbn [orb fst snd].
  destruct (sv_running sv) as [|h|h|h|h| | |st] eqn:Hr; cbn [run_weight].
  - cbn. lia.
  - destruct (_ <=? _); cbn; lia.
  - cbn. lia.
  - destruct spawned.
    + pose proof (tb_pending _ Htb h) as Hp. rewrite Hr in Hp. specialize (Hp eq_refl).
      cbn. rewrite remaining_spawn by done. lia.
    + cbn. pose proof (tb_pending _ Htb h) as Hp. rewrite Hr in Hp. specialize (Hp eq_refl).
      rewrite (total_ext _ (weight B)); [lia|]. intros h' t Hl. apply weight_elsewhere. intros ->. congruence.
  - cbn. rewrite forget_threads. lia.
  - cbn. lia.
  - rewrite He. cbn. lia.
  - done.
Qed.

(** Every step uses some of it up, and stays within the table. *)
Lemma winds_decreases sigpipe x y :
  winds sigpipe x y -> table_ok x.2 -> sv_stop x.2 = true ->
  table_ok y.2 /\ sv_stop y.2 = true /\ remaining y < remaining x.
Proof.
  intros [_ Hw] Htb Hst.
  destruct Hw as [B h env input sv t Ht Hp HB _|B h env input sv t Ht Hp _|B h sv t Ht Hp HB|B h sv s Ht|
    B h sv s Ht|B accepted spawned sv He]; cbn [fst snd] in *.
  - destruct (serve_step_table env h input sv t Htb Ht) as (_ & _ & _ & _ & Htb' & _).
    split; [exact Htb'|]. split; [by apply serve_step_stop|]. apply (serve_decreases B h env input sv t); auto.
  - destruct (serve_step_table env h input sv t Htb Ht) as (_ & _ & _ & _ & Htb' & _).
    split; [exact Htb'|]. split; [by apply serve_step_stop|]. apply (serve_decreases B h env input sv t); auto.
  - destruct (observe_keeps h sv) as (_ & _ & Hos & _ & _ & Hor).
    split; [by apply observe_table|]. split; [by rewrite Hos|]. unfold remaining. cbn [fst snd]. rewrite Hor.
    rewrite (observe_threads h sv t Ht (receiving_phase _ Hp) Hst). apply Z.add_lt_mono_r, (remaining_look _ _ t); [exact Ht|].
    rewrite weight_leaving. unfold weight. rewrite Hp, decide_False by done. lia.
  - destruct (leave_keeps h sv) as (_ & _ & Hos & _ & _ & Hor).
    split; [by eapply leave_table|]. split; [by rewrite Hos|]. unfold remaining. cbn [fst snd]. rewrite Hor.
    rewrite (leave_threads h sv s Ht). apply Z.add_lt_mono_r, (remaining_look _ _ _ _ _ Ht).
    by vm_compute.
  - split; [by eapply finish_table|]. split; [exact Hst|]. unfold remaining. cbn [fst snd].
    change (sv_threads (finish_session h sv)) with (delete h (sv_threads sv)).
    change (sv_running (finish_session h sv)) with (sv_running sv).
    rewrite (total_delete _ (sv_threads sv) h _ Ht). pose proof (weight_positive B h (mkThread Ph_forgotten s)). lia.
  - rewrite (run_step_stopped accepted spawned sv Hst) at 1 2.
    destruct (run_keeps (Err thread_unavailable) spawned sv) as (_ & _ & Hos & _).
    split; [by apply run_table|]. split; [by rewrite Hos|]. by apply run_decreases.
Qed.

(** ** Where it ends *)

(** Nothing is left: no thread, no session, and [run] is over. *)
Definition wound_down (sv : Server) : Prop :=
  sv_threads sv = ∅ /\ sv_sessions sv = [] /\ sv_active_threads sv = 0 /\
  exists st, sv_running sv = Ru_returned st.

Lemma thread_enabled sigpipe B sv h t :
  table_ok sv -> sv_killed sv = false -> sv_threads sv !! h = Some t -> exists y, winds sigpipe (B, sv) y.
Proof.
  intros Htb Hk Ht. set (i := mkInput (Ok []) (Sending_returned ok_status)).
  assert (Hi : survives sigpipe i) by (intros _; done).
  destruct (receiving (th_phase t)) eqn:Hr.
  { destruct (decide (h ∈ B)) as [HB|HB]; eexists; (split; [exact Hk|]); [|by eapply w_look].
    by eapply (w_return sigpipe B h healthy_env i). }
  destruct (is_popping (th_phase t)) eqn:Hp.
  { eexists. split; [exact Hk|]. by eapply (w_pop sigpipe B h healthy_env i). }
  destruct t as [[] s]; try done.
  - eexists. split; [exact Hk|]. by eapply w_leave.
  - eexists. split; [exact Hk|]. by eapply w_finish.
  - by rewrite (tb_killed _ Htb h _ Ht eq_refl) in Hk.
Qed.

(** As long as the process lives and something is left, something can happen. *)
Lemma winds_enabled sigpipe B sv :
  table_ok sv -> sv_killed sv = false -> (exists y, winds sigpipe (B, sv) y) \/ wound_down sv.
Proof.
  intros Htb Hk. destruct (decide (sv_threads sv = ∅)) as [He|Hne].
  2:{ left. apply map_choose in Hne as (h & t & Ht). by eapply thread_enabled. }
  pose proof (tb_active _ Htb) as Ha. rewrite He, map_size_empty in Ha.
  destruct (decide (run_enabled sv)) as [Hrun|Hrun].
  { left. eexists. split; [exact Hk|]. by apply (w_run sigpipe B (Err ok_status) true). }
  right. unfold run_enabled in Hrun. unfold wound_down. destruct (sv_running sv) eqn:Hr; try done; cbn in Ha.
  split; [exact He|]. split; [|split; [lia|by eexists]].
  destruct (sv_sessions sv) as [|h l] eqn:Hs; [done|].
  assert (Hh : h ∈ sv_sessions sv) by (rewrite Hs; by left).
  apply (tb_sessions _ Htb) in Hh as [Hh|(t & Hh & _)]; [by rewrite Hr in Hh|by rewrite He, lookup_empty in Hh].
Qed.

(** How [run] may return with the flag set. *)
Definition returns (sv : Server) (st : Status) : Prop :=
  st = ok_status \/ st = thread_unavailable \/ sv_running sv = Ru_returned st.

Lemma winds_returns sigpipe x y st :
  winds sigpipe x y -> sv_stop x.2 = true -> table_ok x.2 -> sv_running y.2 = Ru_returned st -> returns x.2 st.
Proof.
  intros [_ Hw] Hst Htb Hy. unfold returns.
  destruct Hw as [B h env input sv t Ht Hp HB _|B h env input sv t Ht Hp _|B h sv t Ht Hp HB|B h sv s Ht|
    B h sv s Ht|B accepted spawned sv He]; cbn [fst snd] in *.
  - destruct (serve_step_table env h input sv t Htb Ht) as (_ & _ & _ & Hr & _). rewrite <- Hr. auto.
  - destruct (serve_step_table env h input sv t Htb Ht) as (_ & _ & _ & Hr & _). rewrite <- Hr. auto.
  - destruct (observe_keeps h sv) as (_ & _ & _ & _ & _ & Hor). rewrite <- Hor. auto.
  - destruct (leave_keeps h sv) as (_ & _ & _ & _ & _ & Hor). rewrite <- Hor. auto.
  - auto.
  - unfold run_step in Hy. rewrite Hst in Hy. destruct (sv_running sv) eqn:Hr; try done.
    + by destruct (_ <=? _).
    + by destruct spawned.
    + injection Hy as <-. auto.
    + destruct (_ =? 0); [injection Hy as <-; auto|congruence].
    + right. right. congruence.
Qed.

Lemma nsteps_winds sigpipe n x y :
  nsteps (winds sigpipe) n x y -> table_ok x.2 -> sv_stop x.2 = true ->
  table_ok y.2 /\ sv_stop y.2 = true /\ Z.of_nat n + remaining y <= remaining x /\
  (forall st, sv_running y.2 = Ru_returned st -> returns x.2 st).
Proof.
  induction 1 as [x|n x y z Hxy _ IH]; intros Htb Hst.
  { split; [done|]. split; [done|]. split; [lia|]. intros st H. unfold returns. auto. }
  destruct (winds_decreases _ _ _ Hxy Htb Hst) as (Htb1 & Hst1 & Hlt).
  destruct (IH Htb1 Hst1) as (Htb2 & Hst2 & Hle & Hret). split; [done|]. split; [done|]. split; [lia|].
  intros st H. destruct (Hret st H) as [->|[->|Hr]]; unfold returns; auto.
  by apply (winds_returns sigpipe x y st).
Qed.

Lemma winds_lives x y : winds Sigpipe_ignored x y -> sv_killed y.2 = false.
Proof.
  intros [Hk Hw].
  destruct Hw as [B h env input sv t _ _ _ Hs|B h env input sv t _ _ Hs|B h sv t _ _ _|B h sv s _|
    B h sv s _|B accepted spawned sv _]; cbn [fst snd] in *.
  - by rewrite serve_step_lives by (by apply Hs).
  - by rewrite serve_step_lives by (by apply Hs).
  - by destruct (observe_keeps h sv) as (_ & _ & _ & -> & _).
  - by destruct (leave_keeps h sv) as (_ & _ & _ & -> & _).
  - exact Hk.
  - by destruct (run_keeps accepted spawned sv) as (_ & _ & _ & -> & _).
Qed.

Lemma nsteps_lives n x y : nsteps (winds Sigpipe_ignored) n x y -> sv_killed x.2 = false -> sv_killed y.2 = false.
Proof. induction 1 as [|n x y z Hxy _ IH]; [done|]. intros _. by eapply IH, winds_lives. Qed.

Lemma remaining_bounds x :
  table_ok x.2 -> 0 <= remaining x <= 9 + Z.of_nat (size (sv_threads x.2)) * (5 + max_frame_bytes).
Proof.
  intros Htb. unfold remaining. pose proof (run_weight_bounds (sv_running x.2)).
  destruct (total_bound (weight x.1) (sv_threads x.2) 0 (5 + max_frame_bytes)) as [Hlo Hhi]; [|lia].
  intros h t Ht. pose proof (weight_positive x.1 h t). split; [lia|].
  apply weight_le. by apply (tb_decoders _ Htb h).
Qed.

(** Winding down is bounded, and ends with the return of [run] or by the signal. *)
Lemma winding_ends sigpipe options f bound sv0 log sv blocked n blocked' sv' :
  0 <= so_max_sessions options -> Server_start options f bound = Ok sv0 -> serves sv0 log sv ->
  sv_stop sv = true -> nsteps (winds sigpipe) n (blocked, sv) (blocked', sv') ->
  sv_stop sv' = true /\ Z.of_nat n <= 9 + Z.of_nat (size (sv_threads sv)) * (5 + max_frame_bytes) /\
  ((exists next, winds sigpipe (blocked', sv') next) \/ wound_down sv' \/ sv_killed sv' = true) /\
  (forall st, sv_running sv' = Ru_returned st -> returns sv st).
Proof.
  intros H0 Hs Hr Hst Hw. destruct (start_ok _ _ _ _ H0 Hs) as (Hok & _).
  destruct (serves_ok _ _ _ Hr [] Hok) as [Htb _].
  destruct (nsteps_winds _ _ _ _ Hw Htb Hst) as (Htb' & Hst' & Hle & Hret). cbn [fst snd] in *.
  pose proof (remaining_bounds (blocked, sv) Htb) as [_ Hhi].
  pose proof (remaining_bounds (blocked', sv') Htb') as [Hlo _]. cbn [snd] in Hhi.
  split; [exact Hst'|]. split; [lia|]. split; [|exact Hret].
  destruct (sv_killed sv') eqn:Hk; [by right; right|].
  destruct (winds_enabled sigpipe blocked' sv' Htb' Hk); tauto.
Qed.


(** A session that has sent its greeting when the service is told to stop: with the
    signal ignored, its answer fails and everything ends. *)
Definition fails (data : list byte) : Input :=
  mkInput (Ok data) (Sending_returned (socket_failure EPIPE)).
Definition stopped_server : Server := request_stop (accept_connection 0 sample_server).
Definition woken_server : Server := (serve_step healthy_env 0 (fails sample_hello) stopped_server).1.
Definition served_server : Server := (serve_step healthy_env 0 (fails []) woken_server).1.
Definition left_server : Server := leave_session 0 served_server.
Definition emptied_server : Server := finish_session 0 left_server.
Definition past_server : Server := run_step (Err ok_status) true emptied_server.
Definition waiting_server : Server := run_step (Err ok_status) true past_server.
Definition returned_server : Server := run_step (Err ok_status) true waiting_server.
Definition emptied_set : gset nat := {[0%nat]} ∖ {[0%nat]} ∖ {[0%nat]}.

Lemma w_run_on sigpipe B sv :
  sv_killed sv = false -> run_enabled sv -> match sv_running sv with Ru_counted _ => false | _ => true end = true ->
  winds sigpipe (B, sv) (B, run_step (Err ok_status) true sv).
Proof.
  intros Hk He Hr. split; [exact Hk|]. pose proof (w_run sigpipe B (Err ok_status) true sv He) as H.
  by destruct (sv_running sv).
Qed.

Lemma w_serve_on sigpipe B h data sv :
  sv_killed sv = false ->
  match sv_threads sv !! h with
  | Some t => (receiving (th_phase t) && bool_decide (h ∈ B)) || is_popping (th_phase t)
  | None => false
  end = true ->
  winds sigpipe (B, sv) (B ∖ {[h]}, (serve_step healthy_env h (fails data) sv).1).
Proof.
  intros Hk. destruct (sv_threads sv !! h) as [t|] eqn:Ht; [|done]. intros Hp. split; [exact Hk|].
  apply orb_true_iff in Hp as [[Hp HB%bool_decide_eq_true]%andb_true_iff|Hp]; [by eapply w_return|by eapply w_pop].
Qed.

Lemma w_end_on sigpipe B h sv :
  sv_killed sv = false -> option_map th_phase (sv_threads sv !! h) = Some Ph_leaving ->
  winds sigpipe (B, sv) (B, leave_session h sv).
Proof.
  intros Hk Ht. split; [exact Hk|]. destruct (sv_threads sv !! h) as [[p s]|] eqn:Hl; [|done].
  injection Ht as ->. by eapply w_leave.
Qed.

Lemma w_finish_on sigpipe B h sv :
  sv_killed sv = false -> option_map th_phase (sv_threads sv !! h) = Some Ph_forgotten ->
  winds sigpipe (B, sv) (B, finish_session h sv).
Proof.
  intros Hk Ht. split; [exact Hk|]. destruct (sv_threads sv !! h) as [[p s]|] eqn:Hl; [|done].
  injection Ht as ->. by eapply w_finish.
Qed.

Lemma emptied_winds : nsteps (winds Sigpipe_ignored) 7 ({[0%nat]}, stopped_server) (emptied_set, returned_server).
Proof.
  refine (nsteps_l _ _ _ ({[0%nat]} ∖ {[0%nat]}, woken_server) _ (w_serve_on _ _ 0 sample_hello stopped_server _ _) _);
    [by vm_compute..|].
  refine (nsteps_l _ _ _ (emptied_set, served_server) _ (w_serve_on _ _ 0 [] woken_server _ _) _); [by vm_compute..|].
  refine (nsteps_l _ _ _ (emptied_set, left_server) _ (w_end_on _ _ 0 served_server _ _) _); [by vm_compute..|].
  refine (nsteps_l _ _ _ (emptied_set, emptied_server) _ (w_finish_on _ _ 0 left_server _ _) _); [by vm_compute..|].
  refine (nsteps_l _ _ _ (emptied_set, past_server) _ (w_run_on _ _ emptied_server _ _ _) _); [by vm_compute..|].
  refine (nsteps_l _ _ _ (emptied_set, waiting_server) _ (w_run_on _ _ past_server _ _ _) _); [by vm_compute..|].
  refine (nsteps_l _ _ _ (emptied_set, returned_server) _ (w_run_on _ _ waiting_server _ _ _) _); [by vm_compute..|].
  apply nsteps_O.
Qed.

