(* ===== verification/Client.v ===== *)
(** * The client ([include/pff/server.hpp], [src/client.cpp])

    The client object and its calls.  A call sends one request and receives until
    a frame is whole; whether the send succeeds and what the receives deliver are
    inputs of the call.  A call whose receives have all been used and whose
    answer is not yet whole has no result: it is still waiting.  Neither has one
    whose send raised [SIGPIPE] in a process that dies of it. *)

From S2P Require Import Prelude.
From S2P Require Import Ids.
From S2P Require Import Limits.
From S2P Require Import Status.
From S2P Require Import Authority.
From S2P Require Import Model.
From S2P Require Import Decision.
From S2P Require Import Records.
From S2P Require Import Bytes.
From S2P Require Import Canonical.
From S2P Require Import Wire.
From S2P Require Import Store.
From S2P Require Import Platform.
From S2P Require Import Net.
From S2P Require Import Protocol.

Record ClientOptions := mkClientOptions {
  co_host : list byte;
  co_port : Z;
  co_name : list byte;
  co_nonce : Z }.

Definition default_name : list byte := String.list_byte_of_string "pff-client".

Record Client := mkClient {
  cl_decoder : FrameDecoder;
  cl_header : SessionHeader;
  cl_hello : HelloResponse;
  cl_sequence : Z;
  cl_closed : bool }.

#[export] Instance Client_eta : Eta Client :=
  fun c => mkClient (cl_decoder c) (cl_header c) (cl_hello c) (cl_sequence c) (cl_closed c).

Definition SessionHeader_default : SessionHeader := mkSessionHeader Id_absent Id_absent Id_absent 0.
Definition HelloResponse_default : HelloResponse :=
  mkHelloResponse protocol_version Id_absent Id_absent Id_absent Id_absent AuthorityVector_default 0.

(** The object before its handshake. *)
Definition Client_new : Client :=
  mkClient (FrameDecoder_new max_frame_payload) SessionHeader_default HelloResponse_default 0 false.

(** What the network does during a call. *)
Record Net := mkNet {
  net_sent : Sending;
  net_received : list (Result (list byte));
  net_closed : Status }.

(** A call: its result once there is one, the client after it, and the frames it
    wrote to the socket. *)
Definition Call (A : Type) : Type := Net -> Client -> option (Result A) * Client * list (list byte).

Definition call_fail {A} (s : Status) : Call A := fun _ cl => (Some (Err s), cl, []).

(** What the caller makes of the result. *)
Definition call_map {A B} (m : Call A) (k : A -> Result B) : Call B := fun net cl =>
  match m net cl with
  | (Some (Ok x), cl, out) => (Some (k x), cl, out)
  | (Some (Err s), cl, out) => (Some (Err s), cl, out)
  | (None, cl, out) => (None, cl, out)
  end.

(** The loop of [round_trip]. *)
Fixpoint await (sequence : Z) (received : list (Result (list byte))) (cl : Client)
    : option (Result Frame) * Client :=
  let (popped, decoder) := FrameDecoder_pop (cl_decoder cl) in
  let cl := cl <| cl_decoder := decoder |> in
  match popped with
  | Ok frame =>
      if negb (fm_sequence frame =? sequence) then
        (Some (Err (mkStatus Code_conflict Reason_sequence_regression
                      "response sequence does not match the request sequence")), cl)
      else (Some (Ok frame), cl)
  | Err _ =>
      if FrameDecoder_failed (cl_decoder cl) then (Some (Err (fd_status (cl_decoder cl))), cl)
      else
        match received with
        | [] => (None, cl)
        | Err status :: _ => (Some (Err status), cl)
        | Ok data :: received =>
            if bool_decide (data = []) then
              (Some (Err (mkStatus Code_io_failure Reason_io_failure
                            "coordinator closed the connection")), cl)
            else
              let (fed, decoder) := FrameDecoder_feed data (cl_decoder cl) in
              let cl := cl <| cl_decoder := decoder |> in
              if negb (Status_ok fed) then (Some (Err fed), cl) else await sequence received cl
        end
  end.

Definition round_trip (type : MsgType) (payload : list byte) : Call Frame := fun net cl =>
  let sequence := wrap_u64 (cl_sequence cl + 1) in
  let frame := encode_frame type sequence 0 payload in
  if bool_decide (frame = []) then
    (Some (Err (mkStatus Code_invalid Reason_invalid_payload "cannot encode request frame")), cl, [])
  else
    match net_sent net with
    | Sending_killed => (None, cl, [])
    | Sending_returned status =>
        if negb (Status_ok status) then (Some (Err status), cl, [])
        else
          let (result, cl) := await sequence (net_received net) (cl <| cl_sequence := sequence |>) in
          (result, cl, [frame])
    end.

(** The status an error response carries. *)
Definition error_status (error : ErrorResponse) : Status :=
  mkStatus (er_code error) (er_reason error) (String.string_of_list_byte (er_detail error)).

(** [Client::connect], once the connection is established. *)
Definition hello_of (options : ClientOptions) : HelloRequest :=
  let name := if bool_decide (co_name options = []) then default_name else co_name options in
  mkHelloRequest protocol_version
    (if max_name_bytes <? size_of name then take (Z.to_nat max_name_bytes) name else name)
    (co_nonce options).

Definition greeted (frame : Frame) : Result HelloResponse :=
  if negb (bool_decide (fm_type frame = MsgType_hello_ack)) then
    match decode_error_response (fm_payload frame) with
    | Ok error => Err (error_status error)
    | Err _ => Err (mkStatus Code_refused Reason_message_unsupported "handshake refused")
    end
  else decode_hello_response (fm_payload frame).

Definition Client_connect (options : ClientOptions) (net : Net)
    : option (Result Client) * list (list byte) :=
  let payload := encode_hello_request (hello_of options) in
  if bool_decide (payload = []) then
    (Some (Err (mkStatus Code_invalid Reason_invalid_payload "cannot encode hello")), [])
  else
    let '(result, client, out) :=
      call_map (round_trip MsgType_hello payload) greeted net Client_new in
    (match result with
     | None => None
     | Some (Err status) => Some (Err status)
     | Some (Ok hello) =>
         let client := client <| cl_hello := hello |> in
         if negb (ha_protocol hello =? protocol_version) then
           Some (Err (mkStatus Code_version_unsupported Reason_protocol_version_mismatch
                        "coordinator protocol version mismatch"))
         else
           Some (Ok (client <| cl_header :=
             mkSessionHeader (ha_session hello) (ha_epoch hello) (ha_boot hello) 0 |>))
     end, out).

Definition transact (request : MsgType) (payload : list byte) (expected : MsgType) : Call Frame :=
  call_map (round_trip request payload) (fun response =>
    if bool_decide (fm_type response = MsgType_error_rsp) then
      match decode_error_response (fm_payload response) with
      | Err status => Err status
      | Ok error => Err (error_status error)
      end
    else if negb (bool_decide (fm_type response = expected)) then
      Err (mkStatus Code_invalid Reason_message_unsupported
             "coordinator returned an unexpected response type")
    else Ok response).

Definition expect_ok (request : MsgType) (payload : list byte) : Call unit :=
  call_map (transact request payload MsgType_ok_rsp) (fun response =>
    if negb (bool_decide (fm_payload response = [])) then
      Err (mkStatus Code_invalid Reason_trailing_garbage "ok response carried a payload")
    else Ok tt).

(** [header_.request_sequence += 1]. *)
Definition next_header (cl : Client) : Client :=
  cl <| cl_header ::= fun h => h <| sh_request_sequence ::= fun n => wrap_u64 (n + 1) |> |>.

(** [next_request] and what is done with the payload. *)
Definition with_request {A} (body : list byte) (k : list byte -> Call A) : Call A := fun net cl =>
  let cl := next_header cl in
  k (encode_session_request (cl_header cl) body) net cl.

(** A body that could not be encoded. *)
Definition with_encoded {A} (body : list byte) (detail : string) (k : Call A) : Call A :=
  if bool_decide (body = []) then call_fail (mkStatus Code_invalid Reason_invalid_payload detail) else k.

(** ** The calls *)

(** Those that succeed with an empty acknowledgement. *)
Definition acknowledged (request : MsgType) (body : list byte) (detail : string) : Call unit :=
  with_encoded body detail (with_request body (expect_ok request)).

(** The lambdas of the document calls. *)
Definition encoded_document (put : ByteWriter -> ByteWriter) : list byte :=
  let writer := put (ByteWriter_new max_record_payload) in
  if negb (w_ok writer) then [] else w_buffer writer.

Definition Client_set_policy (policy : FailoverPolicy) : Call unit :=
  acknowledged MsgType_set_policy_req (encoded_document (put_policy policy)) "cannot encode policy".
Definition Client_set_obligations (obligations : ServiceObligations) : Call unit :=
  acknowledged MsgType_set_obligations_req (encoded_document (put_obligations obligations))
    "cannot encode obligations".
Definition Client_put_set (set : AlternateSet) : Call unit :=
  acknowledged MsgType_put_set_req (encoded_document (put_set set)) "cannot encode alternate set".
Definition Client_put_evidence (evidence : PathEvidence) : Call unit :=
  acknowledged MsgType_put_evidence_req (encoded_document (put_evidence evidence))
    "cannot encode evidence".
Definition Client_set_authority (authority : AuthorityVector) : Call unit :=
  acknowledged MsgType_set_authority_req (encoded_document (put_authority authority))
    "cannot encode authority".
Definition Client_record_effect (attempt : AttemptId) (effect : EffectEvidence) : Call unit :=
  acknowledged MsgType_effect_req (encode_effect_body attempt effect) "cannot encode effect".
Definition Client_abandon (attempt : AttemptId) (reason : Reason) : Call unit :=
  acknowledged MsgType_abandon_req (encode_abandon_body attempt reason) "cannot encode abandon".
Definition Client_rollback (attempt : AttemptId) (evidence : PathEvidence) : Call unit :=
  acknowledged MsgType_rollback_req (encode_rollback_body attempt evidence) "cannot encode rollback".
Definition Client_fence_path (path : PathId) (reason : Reason) : Call unit :=
  acknowledged MsgType_fence_req (encode_fence_body path reason) "cannot encode fence".

(** Those that are answered with a document. *)
Definition inquire {A} (request : MsgType) (body : list byte) (detail : string) (expected : MsgType)
    (decode : list byte -> Result A) : Call A :=
  with_encoded body detail
    (with_request body (fun payload =>
       call_map (transact request payload expected) (fun response => decode (fm_payload response)))).

(** [decoded.value().decision]. *)
Definition decode_decision_response (bytes : list byte) : Result PromotionDecision :=
  let? decoded := decode_promote_response bytes in Ok (ps_decision decoded).

Definition Client_evaluate (request : PromotionRequest) : Call PromotionDecision :=
  inquire MsgType_evaluate_req (encode_request_body request) "cannot encode request"
    MsgType_evaluate_rsp decode_decision_response.
Definition Client_promote (request : PromotionRequest) : Call PromoteResponse :=
  inquire MsgType_promote_req (encode_request_body request) "cannot encode request"
    MsgType_promote_rsp decode_promote_response.
Definition Client_revert (attempt : AttemptId) (target : PathEvidence) : Call PromotionDecision :=
  inquire MsgType_revert_req (encode_rollback_body attempt target) "cannot encode revert"
    MsgType_evaluate_rsp decode_decision_response.
Definition Client_attempt (attempt_id : AttemptId) : Call AttemptResponse :=
  inquire MsgType_attempt_req (encode_attempt_body attempt_id) "cannot encode attempt query"
    MsgType_attempt_rsp decode_attempt_response.

Definition Client_lineage (limit : Z) : Call LineageResponse :=
  let bounded := wrap_u32 (if limit =? 0 then max_lineage
                           else if max_lineage <? limit then max_lineage else limit) in
  inquire MsgType_lineage_req (encode_lineage_body bounded) "cannot encode lineage query"
    MsgType_lineage_rsp decode_lineage_response.

(** Those without a body check the whole payload instead. *)
Definition Client_status : Call StatusResponse :=
  with_request [] (fun payload =>
    with_encoded payload "cannot encode status request"
      (call_map (transact MsgType_status_req payload MsgType_status_rsp)
         (fun response => decode_status_response (fm_payload response)))).

(** The socket is closed once the service has answered. *)
Definition Client_shutdown : Call unit :=
  with_request [] (fun payload =>
    with_encoded payload "cannot encode shutdown request"
      (fun net cl =>
         match transact MsgType_shutdown_req payload MsgType_shutdown_rsp net cl with
         | (Some (Ok _), cl, out) =>
             (Some (if Status_ok (net_closed net) then Ok tt else Err (net_closed net)),
              cl <| cl_closed := true |>, out)
         | (Some (Err status), cl, out) => (Some (Err status), cl, out)
         | (None, cl, out) => (None, cl, out)
         end)).
