(* ===== verification/ClientProps.v ===== *)
(** * Properties of a call

    One call of a client and its service by the session at the other end: the
    request is framed, cut into chunks, reassembled, dispatched, and the answer
    travels back the same way. *)

From S2P Require Import Prelude.
From S2P Require Import Ids.
From S2P Require Import Limits.
From S2P Require Import Status.
From S2P Require Import Authority.
From S2P Require Import Model.
From S2P Require Import Decision.
From S2P Require Import Records.
From S2P Require Import Bytes.
From S2P Require Import Canonical.
From S2P Require Import Wire.
From S2P Require Import WireProps.
From S2P Require Import Store.
From S2P Require Import StateProps.
From S2P Require Import SnapshotProps.
From S2P Require Import Fabric.
From S2P Require Import FabricProps.
From S2P Require Import Net.
From S2P Require Import Protocol.
From S2P Require Import ProtocolProps.
From S2P Require Import Server.
From S2P Require Import ServerProps.
From S2P Require Import Client.

(** ** Cutting *)

(** The receives that deliver [bytes]: no receive delivers nothing. *)
Definition cuts (chunks : list (list byte)) (bytes : list byte) : Prop :=
  concat chunks = bytes /\ [] ∉ chunks.

(** A decoder between frames. *)
Definition idle (d : FrameDecoder) : Prop :=
  healthy d /\ decoder_wf d /\ window d = [] /\ fd_max_payload d = max_frame_payload.

Lemma idle_new : idle (FrameDecoder_new max_frame_payload).
Proof. destruct (new_wf max_frame_payload) as (? & ? & ?). by split. Qed.

(** A decoder that has received part of a frame. *)
Definition partway (f : Frame) (w : list byte) (d : FrameDecoder) : Prop :=
  healthy d /\ decoder_wf d /\ window d = w /\ fd_max_payload d = max_frame_payload /\
  exists more, w ++ more = frame_bytes f /\ more <> [].

Lemma idle_partway f d : idle d -> partway f [] d.
Proof.
  intros (Hh & Hwf & Hw & Hm). repeat (split; [done|]). exists (frame_bytes f). split; [done|].
  pose proof (frame_bytes_long f). intros He. rewrite He in *. cbn in *. lia.
Qed.

Lemma partway_pop f w d :
  frame_wf max_frame_payload f -> partway f w d ->
  exists st, FrameDecoder_pop d = (Err st, d) /\ Status_ok st = false.
Proof.
  intros [_ _ Hs Hp] (Hh & Hwf & Hw & Hm & more & He & Hne). subst w.
  destruct (pop_partial d (fm_type f) (fm_sequence f) (fm_payload f) more Hh Hwf Hs) as (detail & ->); [by rewrite Hm|exact He|exact Hne|].
  by eexists.
Qed.

(** The next chunk of a frame: still part of it, or all of it. *)
Lemma partway_feed f w d chunk rest :
  frame_wf max_frame_payload f -> partway f w d -> w ++ chunk ++ rest = frame_bytes f -> chunk <> [] ->
  exists d', FrameDecoder_feed chunk d = (ok_status, d') /\
    match rest with
    | [] => healthy d' /\ decoder_wf d' /\ window d' = frame_bytes f /\ fd_max_payload d' = max_frame_payload
    | _ => partway f (w ++ chunk) d'
    end.
Proof.
  intros [_ _ Hs Hp] (Hh & Hwf & Hw & Hm & _) He Hne. subst w.
  destruct (feed_fits chunk d Hh Hwf) as (d' & Hf & Hw' & Hh' & Hwf' & Hm').
  { pose proof (frame_bytes_size f) as Hsz. rewrite <- He, !size_of_app in Hsz.
    pose proof (size_of_nonneg rest). unfold max_frame_bytes. unfold_limits. lia. }
  exists d'. split; [exact Hf|]. rewrite Hm in Hm'. destruct rest as [|b rest].
  - rewrite app_nil_r in He. rewrite He in Hw'. by repeat (split; [done|]).
  - repeat (split; [done|]). exists (b :: rest). split; [by rewrite <- app_assoc|done].
Qed.

(** A whole frame in the buffer is popped and leaves the decoder idle. *)
Lemma whole_pop f d :
  frame_wf max_frame_payload f -> healthy d -> decoder_wf d -> window d = frame_bytes f ->
  fd_max_payload d = max_frame_payload ->
  exists d', FrameDecoder_pop d = (Ok f, d') /\ idle d'.
Proof.
  intros Hf Hh Hwf Hw Hm. pose proof Hf as [_ _ Hs Hp]. rewrite <- (app_nil_r (frame_bytes f)) in Hw.
  pose proof (pop_frame d (fm_type f) (fm_sequence f) (fm_payload f) [] Hh Hwf Hs) as H. rewrite Hm in H. specialize (H Hp Hw).
  cbv zeta in H. destruct H as (Hpop & Hw' & Hh' & Hwf' & Hm').
  exists (popped (length (frame_bytes f)) d). split; [|exact (conj Hh' (conj Hwf' (conj Hw' Hm')))].
  rewrite Hpop. f_equal. f_equal. symmetry. exact (frame_eta _ _ Hf).
Qed.

(** The last chunk leaves nothing behind it. *)
Lemma no_more_chunks (chunks : list (list byte)) : concat chunks = [] -> [] ∉ chunks -> chunks = [].
Proof.
  destruct chunks as [|c chunks]; [done|]. cbn. intros [-> _]%app_nil Hc. exfalso. apply Hc. by left.
Qed.

Lemma partway_more f w d chunks : partway f w d -> w ++ concat chunks = frame_bytes f -> chunks <> [].
Proof.
  intros (_ & _ & _ & _ & more & He & Hne) Hw ->. cbn in Hw. rewrite app_nil_r in Hw.
  apply Hne. apply (app_inv_head w). by rewrite He, app_nil_r.
Qed.

(** ** The client's end *)

(** A call that waits gets the frame that arrives, whatever the chunks. *)
Lemma await_frame f w chunks cl :
  frame_wf max_frame_payload f -> partway f w (cl_decoder cl) ->
  w ++ concat chunks = frame_bytes f -> [] ∉ chunks ->
  exists d, await (fm_sequence f) (Ok <$> chunks) cl = (Some (Ok f), cl <| cl_decoder := d |>) /\ idle d.
Proof.
  intros Hf. revert w cl. induction chunks as [|chunk chunks IH]; intros w cl Hp Hw Hc.
  { by destruct (partway_more _ _ _ _ Hp Hw). }
  apply not_elem_of_cons in Hc as [Hne Hc]. cbn [fmap list_fmap await].
  destruct (partway_pop _ _ _ Hf Hp) as (st & Hpop & Hst). rewrite Hpop. cbv zeta beta iota.
  destruct cl as [d0 hd he sq clo]. cbn [cl_decoder] in *. cbn.
  assert (Hnf : FrameDecoder_failed d0 = false).
  { destruct Hp as (Hh & _). unfold FrameDecoder_failed. by rewrite Hh. }
  rewrite Hnf. rewrite bool_decide_eq_false_2 by (intros ->; done).
  destruct (partway_feed _ _ _ chunk (concat chunks) Hf Hp Hw) as (d & -> & Hd); [by intros ->|].
  change (Status_ok ok_status) with true. cbn [negb].
  destruct (concat chunks) as [|b rest] eqn:Hcc.
  - rewrite (no_more_chunks _ Hcc Hc). destruct Hd as (Hh & Hwf & Hwd & Hm).
    destruct (whole_pop f d Hf Hh Hwf Hwd Hm) as (d' & Hpop' & Hidle).
    exists d'. split; [|exact Hidle]. cbn. rewrite Hpop'. by rewrite Z.eqb_refl.
  - destruct (IH (w ++ chunk) (mkClient d hd he sq clo)) as (d' & Ha & Hidle); [exact Hd| |exact Hc|].
    + rewrite <- app_assoc, <- Hcc. exact Hw.
    + exists d'. split; [|exact Hidle]. exact Ha.
Qed.

(** The calling end: one frame goes out and the one that answers it comes back. *)
Lemma round_trip_frame type payload net chunks fa cl :
  idle (cl_decoder cl) -> 0 <= cl_sequence cl < UINT64_MAX -> size_of payload <= max_frame_payload ->
  Sending_ok (net_sent net) = true ->
  frame_wf max_frame_payload fa -> fm_sequence fa = cl_sequence cl + 1 ->
  net_received net = Ok <$> chunks -> cuts chunks (frame_bytes fa) ->
  exists d, round_trip type payload net cl =
      (Some (Ok fa), cl <| cl_sequence := cl_sequence cl + 1 |> <| cl_decoder := d |>,
       [frame_bytes (sent type (cl_sequence cl + 1) payload)]) /\ idle d.
Proof.
  intros Hi Hs Hp Hok Hfa Hsq Hn [Hc Hne]. unfold round_trip.
  assert (Hw : wrap_u64 (cl_sequence cl + 1) = cl_sequence cl + 1) by (unfold_ints; apply Z.mod_small; lia).
  rewrite Hw, encode_frame_spec by done. rewrite bool_decide_eq_false_2 by discriminate.
  destruct (sending_ok_inv _ Hok) as (st & -> & ->). cbn [negb].
  rewrite Hn, <- Hsq.
  destruct (await_frame fa [] chunks (cl <| cl_sequence := fm_sequence fa |>)) as (d & Haw & Hd);
    [exact Hfa|by apply idle_partway|exact Hc|exact Hne|].
  rewrite Haw. by exists d.
Qed.

(** ** The server's end *)

(** Nothing but statistics. *)
Definition counted (sv sv' : Server) : Prop := quiet sv sv' /\ sv_stop sv' = sv_stop sv.

(** A session at a receive, and the server around it. *)
Definition ready (p : Phase) (h : nat) (s : Session) (sv : Server) : Prop :=
  sv_threads sv !! h = Some (mkThread p s) /\ sv_stop sv = false.

(** A session waiting for requests. *)
Definition waiting : nat -> Session -> Server -> Prop := ready Ph_request_recv.

(** The receiving phase of a loop and the one that pops frames. *)
Definition loop (p q : Phase) : Prop :=
  (p = Ph_hello_recv /\ q = Ph_hello_pop) \/ (p = Ph_request_recv /\ q = Ph_request_pop).

Lemma loop_hello : loop Ph_hello_recv Ph_hello_pop.
Proof. by left. Qed.
Lemma loop_request : loop Ph_request_recv Ph_request_pop.
Proof. by right. Qed.

(** What serving a session leaves of the rest of the server. *)
Definition beside (h : nat) (sv sv' : Server) : Prop :=
  sv_options sv' = sv_options sv /\ sv_stop sv' = sv_stop sv /\
  (forall h', h <> h' -> sv_threads sv' !! h' = sv_threads sv !! h').

Lemma beside_trans h a b c : beside h a b -> beside h b c -> beside h a c.
Proof.
  intros (Ho1 & Hs1 & Ht1) (Ho2 & Hs2 & Ht2). split; [congruence|]. split; [congruence|].
  intros h' Hne. by rewrite Ht2, Ht1.
Qed.

(** Nor of the coordinator and the sessions established. *)
Definition around (h : nat) (sv sv' : Server) : Prop :=
  beside h sv sv' /\ sv_fabric sv' = sv_fabric sv /\
  sv_session_sequence sv' = sv_session_sequence sv /\ sv_sessions sv' = sv_sessions sv.

Lemma around_trans h a b c : around h a b -> around h b c -> around h a c.
Proof.
  intros (H1 & F1 & N1 & L1) (H2 & F2 & N2 & L2). split; [by eapply beside_trans|].
  repeat split; congruence.
Qed.

Lemma put_around h p s sv sv' :
  counted sv sv' ->
  around h sv (put_thread h p s sv') /\ sv_threads (put_thread h p s sv') !! h = Some (mkThread p s).
Proof.
  intros [Hq Hst]. destruct (quiet_put _ _ h p s Hq) as (Hth & Ho & Hl & _ & Hn & _ & Hf). split.
  - split; [|by repeat split]. split; [exact Ho|]. split; [exact Hst|].
    intros h' Hne. by rewrite Hth, lookup_insert_ne.
  - by rewrite Hth, lookup_insert_eq.
Qed.

Lemma put_counted h p s sv sv' :
  counted sv sv' ->
  beside h sv (put_thread h p s sv') /\ sv_fabric (put_thread h p s sv') = sv_fabric sv /\
  sv_threads (put_thread h p s sv') !! h = Some (mkThread p s).
Proof. intros Hc. by destruct (put_around h p s _ _ Hc) as [(? & ? & _) ?]. Qed.

Lemma around_ready h p s s' sv sv' q :
  ready p h s sv -> around h sv sv' -> sv_threads sv' !! h = Some (mkThread q s') -> ready q h s' sv'.
Proof. intros [_ Hs] ((_ & Hb & _) & _) Ht. split; [exact Ht|congruence]. Qed.

Lemma recv_chunk p q env sent h sv s chunk d :
  loop p q -> sv_threads sv !! h = Some (mkThread p s) -> chunk <> [] ->
  FrameDecoder_feed chunk (se_decoder s) = (ok_status, d) ->
  exists sv1, serve_step env h (mkInput (Ok chunk) sent) sv =
    (put_thread h q (s <| se_decoder := d |>) sv1, []) /\ counted sv sv1.
Proof.
  intros Hl Ht Hne Hf. unfold serve_step. rewrite Ht. unfold thread_step. cbn [th_phase th_session in_received].
  unfold recv_step. rewrite bool_decide_eq_false_2 by done. rewrite Hf.
  destruct Hl as [[-> ->]|[-> ->]]; [rewrite bool_decide_eq_true_2 by done|rewrite bool_decide_eq_false_2 by done];
    (eexists; split; [reflexivity|]; split; [apply quiet_stat|reflexivity]).
Qed.

Lemma pop_nothing p q env sent h sv s st :
  loop p q -> sv_threads sv !! h = Some (mkThread q s) -> healthy (se_decoder s) ->
  FrameDecoder_pop (se_decoder s) = (Err st, se_decoder s) ->
  exists sv1, serve_step env h (mkInput (Ok []) sent) sv =
    (put_thread h p s sv1, []) /\ counted sv sv1.
Proof.
  intros Hl Ht Hh Hp. unfold serve_step. rewrite Ht. unfold thread_step. cbn [th_phase th_session in_sent].
  assert (Hs : s <| se_decoder := se_decoder s |> = s) by by destruct s.
  destruct Hl as [[-> ->]|[-> ->]]; unfold pop_step, FrameDecoder_failed; rewrite Hh, Hp, Hs; cbn [negb];
    unfold pop_end, FrameDecoder_failed; rewrite Hh; (exists sv; split; [reflexivity|by split]).
Qed.

(** The frame's request as [dispatch] treats it, whatever the statistics. *)
Definition dispatches (env : Env) (sv : Server) (s : Session) (f : Frame) (r : DispatchResult)
    (n : Z) (fabric : Fabric) : Prop :=
  (forall sv' s', sv_options sv' = sv_options sv -> keeps_session s s' ->
     dispatch env sv' s' f (sv_fabric sv) = (r, s' <| se_last_request_sequence := n |>, fabric)) /\
  is_request_type (fm_type f) = true /\ dr_close_session r = false /\ dr_stop_server r = false /\
  size_of (dr_payload r) <= max_frame_payload.

(** The frame that answers [f]. *)
Definition answer_frame (r : DispatchResult) (f : Frame) : Frame :=
  sent (dr_response_type r) (fm_sequence f) (dr_payload r).

(** A send that succeeds hands the frame over and goes on with its status. *)
Lemma sending_sent ok type n payload sv s k :
  Sending_ok ok = true -> size_of payload <= max_frame_payload ->
  exists st sv', sending ok type n payload sv s k =
      k st sv' [enc_frame type n payload] /\
    Status_ok st = true /\ counted sv sv'.
Proof.
  intros (st & -> & Hok)%sending_ok_inv Hsz. unfold sending, send_frame.
  rewrite encode_frame_spec by done.
  assert (Hne : enc_frame type n payload <> []) by discriminate.
  rewrite bool_decide_eq_false_2 by exact Hne. rewrite Hok. eexists st, _. split; [reflexivity|].
  split; [exact Hok|]. split; [apply quiet_stat|reflexivity].
Qed.

Lemma pop_request env ok h sv s f r n fabric d :
  sv_threads sv !! h = Some (mkThread Ph_request_pop s) -> healthy (se_decoder s) ->
  FrameDecoder_pop (se_decoder s) = (Ok f, d) -> Sending_ok ok = true ->
  dispatches env sv s f r n fabric ->
  exists sv1 s1, serve_step env h (mkInput (Ok []) ok) sv =
    (put_thread h Ph_request_pop s1 sv1, [frame_bytes (answer_frame r f)]) /\
    counted (sv <| sv_fabric := fabric |>) sv1 /\
    keeps_session (s <| se_last_request_sequence := n |>) s1 /\ se_decoder s1 = d.
Proof.
  intros Ht Hh Hp Hok (Hd & Hreq & Hcl & Hstop & Hsz). unfold serve_step. rewrite Ht.
  unfold thread_step. cbn [th_phase th_session in_sent].
  unfold pop_step, FrameDecoder_failed. rewrite Hh, Hp. cbn [negb].
  rewrite bool_decide_eq_false_2 by done. unfold request_frame. rewrite Hreq. cbn [negb].
  rewrite (Hd sv (s <| se_decoder := d |>)) by done. cbv zeta.
  match goal with |- context [sending ok _ _ _ ?sv1 ?s1 ?k] =>
    destruct (sending_sent ok (dr_response_type r) (fm_sequence f) (dr_payload r) sv1 s1 k Hok Hsz) as (st & sv2 & -> & Hst & Hc);
    assert (Hc1 : counted (sv <| sv_fabric := fabric |>) sv1) end.
  { case_bool_decide; (split; [|reflexivity]);
      [apply (quiet_trans _ (sv_stat (fun st => st <| ss_requests_handled ::= bump |>) (sv <| sv_fabric := fabric |>)))|];
      apply quiet_stat. }
  rewrite Hst, Hcl, Hstop. cbn [negb orb]. eexists sv2, _. split; [reflexivity|].
  split; [|split; [|reflexivity]].
  - destruct Hc as [Hc Hc'], Hc1 as [Hc1 Hc1']. split; [exact (quiet_trans _ _ _ Hc1 Hc)|congruence].
  - split; [reflexivity|]. split; [reflexivity|]. split; reflexivity.
Qed.

Lemma idle_pop d : idle d -> exists st, FrameDecoder_pop d = (Err st, d).
Proof.
  intros (Hh & _ & Hw & _). unfold FrameDecoder_pop. rewrite Hh. cbn [negb]. cbv zeta.
  rewrite available_window, Hw. by eexists.
Qed.

Lemma pop_frames_recv fuel env ok h sv t :
  sv_threads sv !! h = Some t -> is_popping (th_phase t) = false -> pop_frames fuel env ok h sv = (sv, []).
Proof. intros Ht Hp. destruct fuel; cbn [pop_frames]; by rewrite ?Ht, ?Hp. Qed.

Lemma loop_popping p q : loop p q -> is_popping p = false /\ is_popping q = true.
Proof. by intros [[-> ->]|[-> ->]]. Qed.

(** One pop that yields nothing, and the thread waits again. *)
Lemma pop_frames_blocked p q fuel env ok h sv s st :
  loop p q -> sv_threads sv !! h = Some (mkThread q s) -> healthy (se_decoder s) ->
  FrameDecoder_pop (se_decoder s) = (Err st, se_decoder s) ->
  exists sv', pop_frames (S fuel) env ok h sv = (sv', []) /\ around h sv sv' /\
    sv_threads sv' !! h = Some (mkThread p s).
Proof.
  intros Hl Ht Hh Hp. destruct (loop_popping _ _ Hl) as [Hpp Hpq].
  destruct (pop_nothing p q env ok h sv s st Hl Ht Hh Hp) as (sv1 & Hs & Hc).
  destruct (put_around h p s _ _ Hc) as (Hb & Hlk).
  eexists. cbn [pop_frames]. rewrite Ht. cbn [th_phase]. rewrite Hpq, Hs.
  rewrite (pop_frames_recv fuel env ok h _ _ Hlk Hpp). by repeat (split; [done|]).
Qed.

(** The whole frame is served: one answer, and the thread waits again. *)
Lemma pop_frames_request fuel env ok h sv s f r n fabric d :
  sv_threads sv !! h = Some (mkThread Ph_request_pop s) -> healthy (se_decoder s) ->
  FrameDecoder_pop (se_decoder s) = (Ok f, d) -> idle d -> Sending_ok ok = true ->
  dispatches env sv s f r n fabric ->
  exists sv' s', pop_frames (S (S fuel)) env ok h sv = (sv', [frame_bytes (answer_frame r f)]) /\
    beside h sv sv' /\ sv_fabric sv' = fabric /\
    sv_threads sv' !! h = Some (mkThread Ph_request_recv s') /\
    keeps_session (s <| se_last_request_sequence := n |>) s' /\ se_decoder s' = d.
Proof.
  intros Ht Hh Hp Hi Hok Hd.
  destruct (pop_request env ok h sv s f r n fabric d Ht Hh Hp Hok Hd) as (sv1 & s1 & Hs & Hc & Hk & Hdec).
  destruct (put_counted h Ph_request_pop s1 _ _ Hc) as (Hb & Hf & Hl).
  destruct (idle_pop d Hi) as (st & Hpop). rewrite <- Hdec in Hpop.
  destruct (pop_frames_blocked _ _ fuel env ok h _ s1 st loop_request Hl) as (sv2 & Hs2 & (Hb2 & Hf2 & _) & Hl2);
    [rewrite Hdec; by apply Hi|exact Hpop|].
  exists sv2, s1. cbn [pop_frames] in Hs2 |- *. rewrite Ht. cbn [is_popping th_phase]. rewrite Hs.
  rewrite Hs2. split; [done|]. split.
  { apply (beside_trans h _ (put_thread h Ph_request_pop s1 sv1)); [exact Hb|exact Hb2]. }
  split; [by rewrite Hf2, Hf|]. by split.
Qed.

Lemma buffered_at h sv t :
  sv_threads sv !! h = Some t -> buffered h sv = FrameDecoder_available (se_decoder (th_session t)).
Proof. intros Ht. unfold buffered. by rewrite Ht. Qed.

Lemma observe_nothing p h s sv : ready p h s sv -> observe_stop h sv = sv.
Proof. intros [Ht Hst]. unfold observe_stop. rewrite Ht, Hst. by destruct p. Qed.

Lemma serve_session_recv p q env ok h r rs sv s :
  loop p q -> ready p h s sv ->
  serve_session env ok h (r :: rs) sv =
  let (sv1, out) := serve_received env ok h r sv in
  let (sv2, out') := serve_session env ok h rs sv1 in (sv2, out ++ out').
Proof.
  intros Hl Hr. cbn [serve_session]. rewrite (observe_nothing _ _ _ _ Hr). destruct Hr as [Ht _].
  rewrite Ht. by destruct Hl as [[-> _]|[-> _]].
Qed.

Lemma serve_session_blocked env ok h sv s : waiting h s sv -> serve_session env ok h [] sv = (sv, []).
Proof.
  intros Hr. cbn [serve_session]. rewrite (observe_nothing _ _ _ _ Hr). destruct Hr as [Ht _].
  by rewrite Ht.
Qed.

(** [dispatches] speaks of a session and a server up to what serving changes. *)
Lemma dispatches_beside env h sv sv' s s' f r n fabric :
  dispatches env sv s f r n fabric -> beside h sv sv' -> sv_fabric sv' = sv_fabric sv ->
  keeps_session s s' -> dispatches env sv' s' f r n fabric.
Proof.
  intros (Hd & Hrest) (Ho & _) Hf Hk. split; [|exact Hrest]. intros sv2 s2 Ho2 Hk2.
  rewrite Hf. apply Hd; [congruence|]. unfold keeps_session in *. destruct_and!. repeat split; congruence.
Qed.

(** A frame that arrives in chunks is popped once, when it is whole; [Q] is what
    serving the whole frame achieves. *)
Lemma serve_frame p q env ok h f chunks w sv s (Q : Server -> Session -> list (list byte) -> Prop) :
  loop p q -> frame_wf max_frame_payload f -> ready p h s sv -> partway f w (se_decoder s) ->
  w ++ concat chunks = frame_bytes f -> [] ∉ chunks ->
  (forall sv2 d d' fuel, around h sv sv2 ->
     sv_threads sv2 !! h = Some (mkThread q (s <| se_decoder := d |>)) -> healthy d ->
     FrameDecoder_pop d = (Ok f, d') -> idle d' ->
     exists sv3 s3 out, pop_frames (S (S fuel)) env ok h sv2 = (sv3, out) /\ waiting h s3 sv3 /\ Q sv3 s3 out) ->
  exists sv' s' out, serve_session env ok h (Ok <$> chunks) sv = (sv', out) /\ waiting h s' sv' /\ Q sv' s' out.
Proof.
  intros Hloop Hf. revert w sv s. induction chunks as [|chunk chunks IH]; intros w sv s Hr Hp Hw Hc HQ.
  { by destruct (partway_more _ _ _ _ Hp Hw). }
  apply not_elem_of_cons in Hc as [Hne Hc]. cbn [fmap list_fmap].
  rewrite (serve_session_recv _ _ _ _ _ _ _ _ _ Hloop Hr). destruct Hr as [Ht Hstop].
  destruct (partway_feed _ _ _ chunk (concat chunks) Hf Hp Hw) as (d & Hfeed & Hd'); [by intros ->|].
  destruct (recv_chunk p q env ok h sv s chunk d Hloop Ht) as (sv1 & Hs1 & Hc1); [by intros ->|exact Hfeed|].
  destruct (put_around h q (s <| se_decoder := d |>) _ _ Hc1) as (Hb1 & Hl1).
  set (sv2 := put_thread h q (s <| se_decoder := d |>) sv1) in *.
  unfold serve_received. rewrite Hs1, (buffered_at _ _ _ Hl1).
  change (se_decoder (th_session (mkThread q (s <| se_decoder := d |>)))) with d.
  destruct (concat chunks) as [|b rest] eqn:Hcc.
  - rewrite (no_more_chunks _ Hcc Hc). destruct Hd' as (Hh & Hwf & Hwd & Hm).
    destruct (whole_pop f d Hf Hh Hwf Hwd Hm) as (d' & Hpop & Hidle).
    rewrite available_window, Hwd. pose proof (frame_bytes_long f).
    destruct (length (frame_bytes f)) as [|fuel]; [lia|].
    destruct (HQ sv2 d d' fuel Hb1 Hl1 Hh Hpop Hidle) as (sv3 & s3 & out & -> & Hwait & Hq).
    exists sv3, s3, out. cbn [fmap list_fmap]. rewrite (serve_session_blocked _ _ _ _ _ Hwait).
    split; [by rewrite app_nil_r|]. by split.
  - destruct (partway_pop f _ d Hf Hd') as (st & Hpop & _).
    destruct (pop_frames_blocked p q (FrameDecoder_available d) env ok h sv2 _ st Hloop Hl1) as
      (sv3 & -> & Hb3 & Hl3); [by apply Hd'|exact Hpop|].
    pose proof (around_trans _ _ _ _ Hb1 Hb3) as Hb.
    destruct (IH (w ++ chunk) sv3 (s <| se_decoder := d |>)) as (sv' & s' & out & -> & Hrest).
    + exact (around_ready h p s _ sv sv3 p (conj Ht Hstop) Hb Hl3).
    + exact Hd'.
    + rewrite <- app_assoc, <- Hcc. exact Hw.
    + exact Hc.
    + intros sv4 d1 d2 fuel Hb4. apply HQ. by eapply around_trans.
    + by exists sv', s', out.
Qed.

(** A request that arrives in chunks is answered once. *)
Lemma serve_request env ok h f chunks sv s r n fabric :
  frame_wf max_frame_payload f -> waiting h s sv -> idle (se_decoder s) ->
  cuts chunks (frame_bytes f) -> Sending_ok ok = true -> dispatches env sv s f r n fabric ->
  exists sv' s', serve_session env ok h (Ok <$> chunks) sv = (sv', [frame_bytes (answer_frame r f)]) /\
    beside h sv sv' /\ sv_fabric sv' = fabric /\ waiting h s' sv' /\
    keeps_session (s <| se_last_request_sequence := n |>) s' /\ idle (se_decoder s').
Proof.
  intros Hf Hwait Hi [Hcut Hne] Hok Hd.
  destruct (serve_frame Ph_request_recv Ph_request_pop env ok h f chunks [] sv s
    (fun sv' s' out => out = [frame_bytes (answer_frame r f)] /\ beside h sv sv' /\ sv_fabric sv' = fabric /\
       keeps_session (s <| se_last_request_sequence := n |>) s' /\ idle (se_decoder s')))
    as (sv' & s' & out & Hs & Hw' & -> & Hb & Hfab & Hk & Hi'); try done.
  - exact loop_request.
  - by apply idle_partway.
  - intros sv2 d d' fuel Ha Hl Hh Hpop Hidle. pose proof Ha as (Hb2 & Hf2 & _).
    destruct (pop_frames_request fuel env ok h sv2 _ f r n fabric d' Hl Hh Hpop Hidle Hok)
      as (sv3 & s3 & Hs3 & Hb3 & Hf3 & Hl3 & Hk3 & Hd3); [by eapply dispatches_beside|].
    pose proof (beside_trans _ _ _ _ Hb2 Hb3) as Hb.
    exists sv3, s3, [frame_bytes (answer_frame r f)]. split; [exact Hs3|]. split.
    { split; [exact Hl3|]. destruct Hb as (_ & Hb & _), Hwait as [_ Hst]. congruence. }
    split; [done|]. split; [exact Hb|]. split; [exact Hf3|]. split; [exact Hk3|by rewrite Hd3].
  - exists sv', s'. by repeat (split; [done|]).
Qed.

(** ** Both ends *)

(** A client and the session that serves it, between calls. *)
Record linked (h : nat) (s : Session) (sv : Server) (cl : Client) : Prop := {
  lk_waiting : waiting h s sv;
  lk_server : idle (se_decoder s);
  lk_client : idle (cl_decoder cl);
  lk_session : sh_session (cl_header cl) = se_id s;
  lk_epoch : sh_epoch (cl_header cl) = se_epoch s;
  lk_boot : sh_boot (cl_header cl) = se_boot s;
  lk_wf : Id_wf (se_id s) /\ Id_wf (se_epoch s) /\ Id_wf (se_boot s);
  lk_sequence : 0 <= se_last_request_sequence s <= sh_request_sequence (cl_header cl);
  lk_count : 0 <= cl_sequence cl }.

(** The budgets of a call: requests of the session, and frame sequences. *)
Definition affordable (sv : Server) (cl : Client) : Prop :=
  sh_request_sequence (cl_header cl) < so_max_requests_per_session (sv_options sv) <= UINT64_MAX /\
  cl_sequence cl < UINT64_MAX.

(** The header of the next request, and its frame. *)
Definition request_header (cl : Client) : SessionHeader :=
  (cl_header cl) <| sh_request_sequence ::= Z.succ |>.
Definition request_of (type : MsgType) (body : list byte) (cl : Client) : Frame :=
  sent type (cl_sequence cl + 1) (enc_session_header (request_header cl) ++ body).

Lemma next_header_eq h s sv cl :
  linked h s sv cl -> affordable sv cl ->
  next_header cl = cl <| cl_header := request_header cl |> /\ session_header_wf (request_header cl).
Proof.
  intros [_ _ _ H1 H2 H3 (Hw1 & Hw2 & Hw3) Hs _] [Hb _]. unfold next_header, request_header.
  destruct cl as [d [a b c n] he sq clo]. cbn in *. subst.
  assert (Hn : wrap_u64 (n + 1) = Z.succ n) by (unfold_ints; rewrite Z.mod_small; lia).
  rewrite Hn. split; [done|]. split; [exact Hw1|]. split; [exact Hw2|]. split; [exact Hw3|].
  cbn. unfold_ints. lia.
Qed.

Lemma wrap_sequence sv cl : affordable sv cl -> 0 <= cl_sequence cl ->
  wrap_u64 (cl_sequence cl + 1) = cl_sequence cl + 1.
Proof. intros [_ H] H0. unfold_ints. apply Z.mod_small. lia. Qed.

Lemma request_wf_frame h s sv cl type body :
  linked h s sv cl -> affordable sv cl -> size_of body <= max_record_payload - 32 ->
  frame_wf max_frame_payload (request_of type body cl).
Proof.
  intros Hl [_ Ha] Hb. pose proof (lk_count _ _ _ _ Hl). constructor; [done|done| |].
  - cbn. unfold_ints. lia.
  - cbn [request_of sent fm_payload]. rewrite size_of_app, size_enc_session_header.
    unfold_limits. lia.
Qed.

(** The session at the other end passes the request to its handler. *)
Lemma request_dispatches env h s sv cl type body r fabric :
  linked h s sv cl -> affordable sv cl -> is_request_type type = true ->
  (forall sv' reader, sv_options sv' = sv_options sv -> At reader body ->
     dispatch_request env sv' type reader (sv_fabric sv) = (r, fabric)) ->
  dr_close_session r = false -> dr_stop_server r = false -> size_of (dr_payload r) <= max_frame_payload ->
  dispatches env sv s (request_of type body cl) r (sh_request_sequence (cl_header cl) + 1) fabric.
Proof.
  intros Hl Ha Ht Hh Hc Hst Hsz. split; [|by repeat split].
  intros sv' s' Ho Hk. unfold dispatch. cbn [request_of sent fm_payload fm_type].
  destruct (next_header_eq _ _ _ _ Hl Ha) as [_ Hwf].
  destruct (dec_read _ (request_header cl) body (At_new _) Hwf) as (reader & -> & HA).
  assert (Hck : check_header (sv_options sv') s' (request_header cl) = None).
  { destruct Hl as [_ _ _ H1 H2 H3 _ Hs _], Hk as (K1 & K2 & K3 & K4), Ha as [Hb _].
    apply check_header_spec. rewrite K1, K2, K3, K4, Ho. cbn. repeat split; try done; lia. }
  rewrite Hck, (Hh _ _ Ho HA). reflexivity.
Qed.

(** The calling end: the request goes out and the answer comes back. *)
Lemma round_trip_answer h s sv cl type body net chunks r :
  linked h s sv cl -> affordable sv cl -> size_of body <= max_record_payload - 32 ->
  Sending_ok (net_sent net) = true -> size_of (dr_payload r) <= max_frame_payload ->
  net_received net = Ok <$> chunks -> cuts chunks (frame_bytes (answer_frame r (request_of type body cl))) ->
  exists cl', round_trip type (encode_session_request (request_header cl) body) net
      (cl <| cl_header := request_header cl |>) =
    (Some (Ok (answer_frame r (request_of type body cl))), cl', [frame_bytes (request_of type body cl)]) /\
    idle (cl_decoder cl') /\ cl_header cl' = request_header cl /\ cl_sequence cl' = cl_sequence cl + 1.
Proof.
  intros Hl Ha Hb Hok Hsz Hn Hc. pose proof (lk_count _ _ _ _ Hl) as H0. pose proof Ha as [_ Hmax].
  rewrite encode_session_request_spec by done.
  destruct (round_trip_frame type (enc_session_header (request_header cl) ++ body) net chunks
    (answer_frame r (request_of type body cl)) (cl <| cl_header := request_header cl |>))
    as (d & Hrt & Hi); [apply (lk_client _ _ _ _ Hl)|exact (conj H0 Hmax)| |exact Hok| |reflexivity|exact Hn|exact Hc|].
  - apply (fmw_payload _ _ (request_wf_frame _ _ _ _ type body Hl Ha Hb)).
  - constructor; [done|done| |exact Hsz]. cbn. unfold_ints. lia.
  - eexists. split; [exact Hrt|]. by repeat split; apply Hi.
Qed.

(** ** An exchange *)

(** A call and its service: the request is written once; cut however, it is
    served by the session and answered once, leaving the coordinator as
    [fabric]; the answer, cut however, gives the call its result; and both ends
    are ready for the next call. *)
Definition exchanges {A} (call : Call A) (h : nat) (sv : Server) (cl : Client) (env : Env)
    (result : Result A) (fabric : Fabric) : Prop :=
  exists request,
    (forall net, Sending_ok (net_sent net) = true -> (call net cl).2 = [request]) /\
    forall ok chunks, Sending_ok ok = true -> cuts chunks request ->
      exists sv' s' response,
        serve_session env ok h (Ok <$> chunks) sv = (sv', [response]) /\
        sv_fabric sv' = fabric /\ beside h sv sv' /\
        forall net chunks', Sending_ok (net_sent net) = true ->
          net_received net = Ok <$> chunks' -> cuts chunks' response ->
          exists cl', call net cl = (Some result, cl', [request]) /\ linked h s' sv' cl'.

(** A call that sends one request and interprets the frame that answers. *)
Definition calls {A} (call : Call A) (type : MsgType) (body : list byte) (k : Frame -> Result A) : Prop :=
  forall net cl, call net cl =
    call_map (round_trip type (encode_session_request (cl_header (next_header cl)) body)) k net
      (next_header cl).

(** Both ends are ready again, one request and one frame further. *)
Lemma relinked h s s' sv sv' cl cl' :
  linked h s sv cl -> waiting h s' sv' -> idle (se_decoder s') -> idle (cl_decoder cl') ->
  keeps_session (s <| se_last_request_sequence := sh_request_sequence (cl_header cl) + 1 |>) s' ->
  cl_header cl' = request_header cl -> cl_sequence cl' = cl_sequence cl + 1 ->
  linked h s' sv' cl'.
Proof.
  intros [_ _ _ H1 H2 H3 (W1 & W2 & W3) Hsq0 H0] Hwait Hi Hi' (K1 & K2 & K3 & K4) Hhd Hsq.
  cbn [se_id se_epoch se_boot se_last_request_sequence update_field] in K1, K2, K3, K4.
  constructor; [exact Hwait|exact Hi|exact Hi'|..|lia]; rewrite ?Hhd, ?K1, ?K2, ?K3, ?K4; try assumption.
  - by split.
  - cbn. lia.
Qed.

Lemma exchange {A} (call : Call A) type body k h s sv cl env r fabric :
  calls call type body k -> linked h s sv cl -> affordable sv cl -> is_request_type type = true ->
  size_of body <= max_record_payload - 32 ->
  (forall sv' reader, sv_options sv' = sv_options sv -> At reader body ->
     dispatch_request env sv' type reader (sv_fabric sv) = (r, fabric)) ->
  dr_close_session r = false -> dr_stop_server r = false -> size_of (dr_payload r) <= max_frame_payload ->
  exchanges call h sv cl env (k (answer_frame r (request_of type body cl))) fabric.
Proof.
  intros Hcall Hl Ha Ht Hb Hh Hc Hst Hsz.
  destruct (next_header_eq _ _ _ _ Hl Ha) as [Hnext Hwf].
  set (f := request_of type body cl).
  pose proof (request_wf_frame _ _ _ _ type body Hl Ha Hb) as Hfw.
  exists (frame_bytes f). split.
  - intros net Hok. rewrite Hcall, Hnext. unfold call_map, round_trip.
    change (cl_sequence (cl <| cl_header := request_header cl |>)) with (cl_sequence cl).
    change (cl_header (cl <| cl_header := request_header cl |>)) with (request_header cl).
    rewrite (wrap_sequence _ _ Ha (lk_count _ _ _ _ Hl)), encode_session_request_spec by done.
    rewrite encode_frame_spec by apply Hfw.
    rewrite bool_decide_eq_false_2 by discriminate.
    destruct (sending_ok_inv _ Hok) as (st & -> & ->). cbn [negb]. by destruct (await _ _ _) as [[[]|] ].
  - intros ok chunks Hok [Hcut Hne].
    pose proof (request_dispatches env h s sv cl type body r fabric Hl Ha Ht Hh Hc Hst Hsz) as Hd.
    destruct (serve_request env ok h f chunks sv s r _ fabric Hfw (lk_waiting _ _ _ _ Hl)
      (lk_server _ _ _ _ Hl) (conj Hcut Hne) Hok Hd)
      as (sv' & s' & Hserve & Hbs & Hfab & Hwait & Hk & Hi).
    exists sv', s', (frame_bytes (answer_frame r f)). split; [exact Hserve|]. split; [exact Hfab|].
    split; [exact Hbs|]. intros net chunks' Hsent Hrecv Hcut'.
    destruct (round_trip_answer h s sv cl type body net chunks' r Hl Ha Hb Hsent Hsz Hrecv Hcut')
      as (cl' & Hrt & Hi' & Hhd & Hsq).
    exists cl'. split.
    + rewrite Hcall, Hnext. unfold call_map.
      change (cl_header (cl <| cl_header := request_header cl |>)) with (request_header cl).
      by rewrite Hrt.
    + by apply (relinked h s s' sv sv' cl).
Qed.

(** ** Acknowledged calls *)

(** A status as an error response carries it: the detail is cut to its bound. *)
Definition carried (s : Status) : Status :=
  mkStatus (status_code s) (status_reason s)
    (String.string_of_list_byte (take (Z.to_nat max_reason_bytes) (detail_bytes (status_detail s)))).
Definition carried_result (r : Result unit) : Result unit :=
  let s := Result_status r in if Status_ok s then Ok tt else Err (carried s).

Lemma refuse_payload code reason detail :
  dr_payload (refuse code reason detail) =
  encode_error_response (mkErrorResponse code reason (take (Z.to_nat max_reason_bytes) (detail_bytes detail))).
Proof.
  unfold refuse, error_response. cbn [dr_payload]. f_equal. f_equal.
  destruct (Z.ltb_spec max_reason_bytes (size_of (detail_bytes detail))); [done|].
  symmetry. apply take_ge. unfold size_of in *. lia.
Qed.

Lemma cut_wf code reason bs : error_response_wf (mkErrorResponse code reason (take (Z.to_nat max_reason_bytes) bs)).
Proof. exact (truncated_wf (mkErrorResponse code reason bs)). Qed.

Lemma refuse_decodes code reason detail :
  decode_error_response (dr_payload (refuse code reason detail)) =
    Ok (mkErrorResponse code reason (take (Z.to_nat max_reason_bytes) (detail_bytes detail))) /\
  size_of (dr_payload (refuse code reason detail)) <= max_frame_payload.
Proof.
  rewrite refuse_payload. pose proof (cut_wf code reason (detail_bytes detail)) as Hwf. split.
  - by apply (message_exact encode_error_response decode_error_response enc_error_response error_response_wf).
  - rewrite (msg_encodes (decode := decode_error_response) _ Hwf).
    etransitivity; [apply (msg_size (encode := encode_error_response) (decode := decode_error_response) _ Hwf)|].
    by vm_compute.
Qed.

Definition ok_answer (type : MsgType) (response : Frame) : Result Frame :=
  if bool_decide (fm_type response = MsgType_error_rsp) then
    match decode_error_response (fm_payload response) with
    | Err status => Err status
    | Ok error => Err (error_status error)
    end
  else if negb (bool_decide (fm_type response = type)) then
    Err (mkStatus Code_invalid Reason_message_unsupported
           "coordinator returned an unexpected response type")
  else Ok response.

Definition ack_answer (response : Frame) : Result unit :=
  let? response := ok_answer MsgType_ok_rsp response in
  if negb (bool_decide (fm_payload response = [])) then
    Err (mkStatus Code_invalid Reason_trailing_garbage "ok response carried a payload")
  else Ok tt.

Lemma acknowledged_calls type body detail : body <> [] -> calls (acknowledged type body detail) type body ack_answer.
Proof.
  intros Hb net cl. unfold acknowledged, with_encoded. rewrite bool_decide_eq_false_2 by done.
  unfold with_request, expect_ok, transact, call_map.
  destruct (round_trip _ _ _ _) as [[[[response|st]|] cl'] out]; [|done|done].
  unfold ack_answer. unfold ok_answer.
  case_bool_decide; [by destruct (decode_error_response _)|]. case_bool_decide; reflexivity.
Qed.

(** What the caller makes of the answer to a status. *)
Lemma ack_answer_status (result : Result unit) f :
  let r := from_status result in
  ack_answer (answer_frame r f) = carried_result result /\
  dr_close_session r = false /\ dr_stop_server r = false /\ size_of (dr_payload r) <= max_frame_payload.
Proof.
  cbv zeta. unfold from_status, carried_result. destruct (Status_ok (Result_status result)).
  - split; [reflexivity|]. split; [reflexivity|]. split; [reflexivity|]. by vm_compute.
  - set (s := Result_status result).
    destruct (refuse_decodes (status_code s) (status_reason s) (status_detail s)) as [Hd Hs].
    split; [|split; [reflexivity|split; [reflexivity|exact Hs]]].
    unfold ack_answer, ok_answer, answer_frame. cbn [sent fm_type fm_payload].
    rewrite bool_decide_eq_true_2 by reflexivity. rewrite Hd. reflexivity.
Qed.

(** A request that is answered with the status of an operation. *)
Lemma exchange_acknowledged type body detail h s sv cl env (op : Op unit) :
  linked h s sv cl -> affordable sv cl -> is_request_type type = true ->
  body <> [] -> size_of body <= max_record_payload - 32 ->
  (forall sv' reader, At reader body ->
     dispatch_request env sv' type reader (sv_fabric sv) = acknowledge op (sv_fabric sv)) ->
  exchanges (acknowledged type body detail) h sv cl env
    (carried_result (op (sv_fabric sv)).1) (op (sv_fabric sv)).2.
Proof.
  intros Hl Ha Ht Hne Hb Hh. destruct (op (sv_fabric sv)) as [result fabric] eqn:Hop. cbn [fst snd].
  destruct (ack_answer_status result (request_of type body cl)) as (Hk & Hc & Hst & Hsz).
  rewrite <- Hk. eapply exchange; [by apply acknowledged_calls|exact Hl|exact Ha|exact Ht|exact Hb| |done..].
  intros sv' reader _ HA. rewrite (Hh sv' reader HA). unfold acknowledge. by rewrite Hop.
Qed.

(** A handler whose body is read in full. *)
Lemma with_body_read {A} (get : Read (Result A)) enc wf `{!Decodes get enc wf} reader invalid
    (k : A -> Handler) v :
  At reader (enc v) -> wf v -> with_body get reader invalid k = k v.
Proof.
  intros HA Hv. rewrite <- (app_nil_r (enc v)) in HA. unfold with_body.
  destruct (dec_read _ _ _ HA Hv) as (r & -> & HA1). by rewrite (proj2 (At_at_end _ _ HA1) eq_refl).
Qed.
