(* ===== verification/ClientTheorems.v ===== *)
(** * Remote calls: theorems

    A call made through a client and served by the service is the call made on
    the coordinator itself. *)

From S2P Require Import Prelude.
From S2P Require Import Ids.
From S2P Require Import Limits.
From S2P Require Import Status.
From S2P Require Import Authority.
From S2P Require Import Model.
From S2P Require Import Decision.
From S2P Require Import Records.
From S2P Require Import Bytes.
From S2P Require Import Canonical.
From S2P Require Import Wire.
From S2P Require Import WireProps.
From S2P Require Import WireTheorems.
From S2P Require Import Store.
From S2P Require Import StateProps.
From S2P Require Import SnapshotProps.
From S2P Require Import Fabric.
From S2P Require Import FabricProps.
From S2P Require Import FabricTheorems.
From S2P Require Import Net.
From S2P Require Import Protocol.
From S2P Require Import ProtocolProps.
From S2P Require Import Server.
From S2P Require Import ServerProps.
From S2P Require Import ServerTheorems.
From S2P Require Import Client.
From S2P Require Import ClientProps.

(** The call a client makes for a command that is answered with a status. *)
Definition remote_call (c : Command) : option (Call unit) :=
  match c with
  | CApplyPolicy p => Some (Client_set_policy p)
  | CApplyObligations o => Some (Client_set_obligations o)
  | CApplyAlternateSet s => Some (Client_put_set s)
  | CApplyEvidence e => Some (Client_put_evidence e)
  | CSetAuthority a => Some (Client_set_authority a)
  | CFencePath p r => Some (Client_fence_path p r)
  | CRecordEffect id e => Some (Client_record_effect id e)
  | CAbandon id r => Some (Client_abandon id r)
  | CRollback id e => Some (Client_rollback id e)
  | CFenceAll _ | CEvaluate _ _ _ | CBeginPromotion _ _ _ | CRevert _ _ => None
  end.

(** Arguments that the codecs carry: within the widths of their types, and for
    documents valid. *)
Definition sendable (c : Command) : Prop :=
  match c with
  | CApplyPolicy p => policy_wf p
  | CApplyObligations o => obligations_wf o
  | CApplyAlternateSet s => wire_set_wf s
  | _ => command_wf c
  end.

Lemma remote_body {A} encode (get : Read (Result A)) enc wf `{!Body encode get enc wf}
    type (v : A) detail h s sv cl env (op : A -> Op unit) invalid :
  linked h s sv cl -> affordable sv cl -> is_request_type type = true -> wf v -> enc v <> [] ->
  (forall sv' reader, dispatch_request env sv' type reader =
     with_body get reader invalid (fun v => acknowledge (op v))) ->
  exchanges (acknowledged type (encode v) detail) h sv cl env
    (carried_result (op v (sv_fabric sv)).1) (op v (sv_fabric sv)).2.
Proof.
  intros Hl Ha Ht Hv Hne Hd. rewrite (body_encodes (decode := get) v Hv).
  apply (exchange_acknowledged _ _ _ h s); [exact Hl|exact Ha|exact Ht|exact Hne| |].
  - by apply (body_size (encode := encode) (decode := get)).
  - intros sv' reader HA. pose proof (body_decodes (encode := encode) (decode := get)).
    by rewrite Hd, (with_body_read get enc wf _ _ _ v HA Hv).
Qed.

Lemma remote_fence p r h s sv cl env :
  linked h s sv cl -> affordable sv cl -> Id_wf p ->
  exchanges (Client_fence_path p r) h sv cl env
    (carried_result (fence_path env p r (sv_fabric sv)).1) (fence_path env p r (sv_fabric sv)).2.
Proof.
  intros Hl Ha Hp.
  exact (remote_body (fun b => encode_fence_body b.1 b.2) decode_fence_body
      (enc_pair enc_id enc_reason) (pair_wf Id_wf any_reason) MsgType_fence_req (p, r) "cannot encode fence"
      h s sv cl env (fun b => fence_path env b.1 b.2) "fence payload invalid"
      Hl Ha eq_refl (conj Hp I) ltac:(discriminate) (fun _ _ => eq_refl)).
Qed.

(** C12: A remote command is the command.  When a client and the session serving
    it are between calls and their budgets are not used up, a call for any of the
    nine commands that answer with a status, whatever its arguments that the codecs
    carry (identifiers and numbers within their types, valid policies, obligations
    and sets), writes one request; the service, however the request is cut on its
    way, executes exactly that command once and answers once; and the caller,
    however the answer is cut, obtains the status the command had, with its
    detail cut to the bound of the wire.  Both ends are then ready for the next
    call. *)
Theorem remote_commands_transparent c call h s sv cl env :
  remote_call c = Some call -> sendable c -> linked h s sv cl -> affordable sv cl ->
  exchanges call h sv cl env
    (carried_result (execute env c (sv_fabric sv)).1) (execute env c (sv_fabric sv)).2.
Proof.
  intros Hc Hs Hl Ha. destruct c; cbn [remote_call sendable command_wf] in Hc, Hs;
    lazymatch type of Hc with None = _ => discriminate Hc | _ => apply (inj Some) in Hc as <- end.
  - exact (remote_body document get_policy enc_policy policy_wf MsgType_set_policy_req p "cannot encode policy"
      h s sv cl env (apply_policy env) "policy payload invalid"
      Hl Ha eq_refl Hs ltac:(discriminate) (fun _ _ => eq_refl)).
  - exact (remote_body document get_obligations enc_obligations obligations_wf MsgType_set_obligations_req o "cannot encode obligations"
      h s sv cl env (apply_obligations env) "obligations payload invalid"
      Hl Ha eq_refl Hs ltac:(discriminate) (fun _ _ => eq_refl)).
  - exact (remote_body document get_set enc_set wire_set_wf MsgType_put_set_req s0 "cannot encode alternate set"
      h s sv cl env (apply_alternate_set env) "alternate set payload invalid"
      Hl Ha eq_refl Hs ltac:(discriminate) (fun _ _ => eq_refl)).
  - exact (remote_body document get_evidence enc_evidence evidence_wf MsgType_put_evidence_req e "cannot encode evidence"
      h s sv cl env (apply_evidence) "evidence payload invalid"
      Hl Ha eq_refl Hs ltac:(discriminate) (fun _ _ => eq_refl)).
  - exact (remote_body document get_authority enc_authority authority_wf MsgType_set_authority_req a "cannot encode authority"
      h s sv cl env (set_authority env) "authority payload invalid"
      Hl Ha eq_refl Hs ltac:(discriminate) (fun _ _ => eq_refl)).
  - exact (remote_fence p r h s sv cl env Hl Ha Hs).
  - exact (remote_body (fun b => encode_effect_body b.1 b.2) decode_effect_body
      (enc_pair enc_id enc_effect) (pair_wf Id_wf effect_wf) MsgType_effect_req (id, e) "cannot encode effect"
      h s sv cl env (fun b => record_effect env b.1 b.2) "effect payload invalid"
      Hl Ha eq_refl Hs ltac:(discriminate) (fun _ _ => eq_refl)).
  - exact (remote_body (fun b => encode_abandon_body b.1 b.2) decode_abandon_body
      (enc_pair enc_id enc_reason) (pair_wf Id_wf any_reason) MsgType_abandon_req (id, r) "cannot encode abandon"
      h s sv cl env (fun b => abandon_attempt env b.1 b.2) "abandon payload invalid"
      Hl Ha eq_refl (conj Hs I) ltac:(discriminate) (fun _ _ => eq_refl)).
  - exact (remote_body (fun b => encode_rollback_body b.1 b.2) decode_rollback_body
      (enc_pair enc_id enc_evidence) (pair_wf Id_wf evidence_wf) MsgType_rollback_req (id, e) "cannot encode rollback"
      h s sv cl env (fun b => rollback env b.1 b.2) "rollback payload invalid"
      Hl Ha eq_refl Hs ltac:(discriminate) (fun _ _ => eq_refl)).
Qed.

(** A client and a server after the handshake. *)
Definition linked_server : Server :=
  put_thread 0 Ph_request_recv sample_session (sample_server <| sv_sessions := [0%nat] |>).
Definition linked_client : Client :=
  mkClient (FrameDecoder_new max_frame_payload) (sample_header 0) HelloResponse_default 1 false.

Lemma sample_linked : linked 0 sample_session linked_server linked_client.
Proof.
  constructor; try reflexivity; try apply idle_new; try (vm_compute; congruence).
  - split; reflexivity.
  - repeat split; vm_compute; congruence.
  - vm_compute. split; congruence.
Qed.

Definition sample_command : Command := CFencePath (Id_from_value 11) Reason_path_fenced.

Lemma remote_commands_transparent_witness :
  exchanges (Client_fence_path (Id_from_value 11) Reason_path_fenced) 0 linked_server linked_client
    healthy_env
    (carried_result (execute healthy_env sample_command (sv_fabric linked_server)).1)
    (execute healthy_env sample_command (sv_fabric linked_server)).2.
Proof.
  refine (remote_commands_transparent sample_command
    (Client_fence_path (Id_from_value 11) Reason_path_fenced) 0 sample_session linked_server
    linked_client healthy_env eq_refl _ sample_linked _).
  - vm_compute. split; congruence.
  - split; [vm_compute; split; congruence|vm_compute; reflexivity].
Defined.
