(* ===== verification/Handshake.v ===== *)
(** * The handshake

    A client that connects to a fresh session obtains its identity and ends up
    linked to it; the service learns nothing else. *)

From S2P Require Import Prelude.
From S2P Require Import Ids.
From S2P Require Import Limits.
From S2P Require Import Status.
From S2P Require Import Authority.
From S2P Require Import Bytes.
From S2P Require Import Canonical.
From S2P Require Import Wire.
From S2P Require Import WireProps.
From S2P Require Import Store.
From S2P Require Import StateProps.
From S2P Require Import SnapshotProps.
From S2P Require Import Fabric.
From S2P Require Import FabricProps.
From S2P Require Import FabricTheorems.
From S2P Require Import TypedProps.
From S2P Require Import TypedTheorems.
From S2P Require Import Net.
From S2P Require Import Protocol.
From S2P Require Import ProtocolProps.
From S2P Require Import Server.
From S2P Require Import ServerProps.
From S2P Require Import ServerTheorems.
From S2P Require Import Client.
From S2P Require Import ClientProps.
From S2P Require Import ClientTheorems.

(** ** The greeting *)

Definition greeting (options : ClientOptions) : Frame :=
  sent MsgType_hello 1 (enc_hello_request (hello_of options)).

Lemma hello_of_wf options : is_u64 (co_nonce options) -> hello_request_wf (hello_of options).
Proof.
  intros Hn. unfold hello_request_wf, hello_of. cbn. split; [vm_compute; split; congruence|]. split; [|exact Hn].
  set (name := if bool_decide _ then _ else _). destruct (Z.ltb_spec max_name_bytes (size_of name)); [|done].
  unfold size_of in *. rewrite length_take. unfold_limits. lia.
Qed.

Lemma enc_hello_request_ne v : enc_hello_request v <> [].
Proof. discriminate. Qed.

Lemma greeting_encoded options :
  is_u64 (co_nonce options) ->
  encode_hello_request (hello_of options) = enc_hello_request (hello_of options) /\
  frame_wf max_frame_payload (greeting options).
Proof.
  intros Hn. pose proof (hello_of_wf options Hn) as Hwf. split; [by apply msg_encodes|].
  constructor; [done|done|vm_compute; split; congruence|].
  cbn [greeting sent fm_payload].
  etransitivity; [apply (msg_size (encode := encode_hello_request) (decode := decode_hello_request) _ Hwf)|].
  by vm_compute.
Qed.

(** ** The session's end *)

(** The session once it is established, with an idle decoder. *)
Definition established (sv : Server) (d : FrameDecoder) : Session :=
  (establish sv (Session_new max_frame_payload)).2 <| se_decoder := d |>.

(** What is needed of the service to greet a client. *)
Record greets (sv : Server) : Prop := {
  gr_typed : Typed (sv_fabric sv);
  gr_sequence : 0 <= sv_session_sequence sv < UINT64_MAX;
  gr_budget : is_u64 (so_max_requests_per_session (sv_options sv)) }.

Lemma greets_around h sv sv' : greets sv -> around h sv sv' -> greets sv'.
Proof.
  intros [H1 H2 H3] ((Ho & _) & Hf & Hn & _). constructor; [by rewrite Hf|by rewrite Hn|by rewrite Ho].
Qed.

Lemma bump_sequence sv : greets sv -> bump (sv_session_sequence sv) = sv_session_sequence sv + 1.
Proof. intros [_ H _]. unfold bump. unfold_ints. apply Z.mod_small. lia. Qed.

Lemma hello_response_typed sv s : greets sv -> Id_wf (se_id s) -> hello_response_wf (hello_response sv s).
Proof.
  intros [HT _ Hb] Hid. unfold hello_response_wf, hello_response. cbn.
  destruct (ty_identity _ HT) as (Hi & Hbt & He). destruct (ty_state _ HT) as [A1 _ _ _ _ _ _ _].
  split; [vm_compute; split; congruence|]. repeat (split; [assumption|]). exact Hb.
Qed.

Definition welcome (sv : Server) : HelloResponse := hello_response sv (established sv (FrameDecoder_new max_frame_payload)).
Definition welcome_frame (sv : Server) : Frame := sent MsgType_hello_ack 1 (enc_hello_response (welcome sv)).

Lemma welcome_wf sv : greets sv -> hello_response_wf (welcome sv).
Proof.
  intros Hg. apply hello_response_typed; [exact Hg|].
  change (Id_wf (@Id_from_value SessionTag (bump (sv_session_sequence sv)))).
  unfold Id_wf. cbn. apply wrap_u64_range.
Qed.

Lemma welcome_frame_wf sv : greets sv -> frame_wf max_frame_payload (welcome_frame sv).
Proof.
  intros Hg. constructor; [done|done|vm_compute; split; congruence|]. cbn [welcome_frame sent fm_payload].
  change (size_of (enc_hello_response (welcome sv))) with 90. by vm_compute.
Qed.

Lemma welcome_around h sv sv' : around h sv sv' -> welcome sv' = welcome sv.
Proof.
  intros ((Ho & _) & Hf & Hn & _). unfold welcome, hello_response, established, establish. cbn.
  by rewrite Hf, Hn, Ho.
Qed.

(** The greeting is popped, and the session leaves its handshake. *)
Lemma pop_greeting env ok h sv options d d' :
  is_u64 (co_nonce options) -> greets sv ->
  sv_threads sv !! h = Some (mkThread Ph_hello_pop ((Session_new max_frame_payload) <| se_decoder := d |>)) ->
  healthy d -> FrameDecoder_pop d = (Ok (greeting options), d') -> Sending_ok ok = true ->
  exists sv1, serve_step env h (mkInput (Ok []) ok) sv =
      (put_thread h Ph_request_recv (established sv d') sv1, [frame_bytes (welcome_frame sv)]) /\
    counted (sv <| sv_session_sequence := sv_session_sequence sv + 1 |>) sv1.
Proof.
  intros Hn Hg Ht Hh Hp Hok. unfold serve_step. rewrite Ht. unfold thread_step. cbn [th_phase th_session in_sent].
  unfold pop_step, FrameDecoder_failed.
  change (se_decoder ((Session_new max_frame_payload) <| se_decoder := d |>)) with d.
  rewrite Hh, Hp. cbn [negb]. rewrite bool_decide_eq_true_2 by done.
  unfold hello_frame. rewrite bool_decide_eq_true_2 by done. cbn [negb].
  change (fm_payload (greeting options)) with (enc_hello_request (hello_of options)).
  assert (Hd : decode_hello_request (enc_hello_request (hello_of options)) = Ok (hello_of options)).
  { apply (msg_decodes (encode := encode_hello_request)). split; [by apply hello_of_wf|done]. }
  rewrite Hd. change (hq_protocol (hello_of options) =? protocol_version) with true. cbn [negb].
  set (s0 := ((Session_new max_frame_payload) <| se_decoder := d |>) <| se_decoder := d' |>).
  assert (He : establish sv s0 = ((establish sv s0).1, established sv d')) by done. rewrite He. cbv zeta.
  assert (Hw : encode_hello_response (hello_response (establish sv s0).1 (established sv d')) =
    enc_hello_response (welcome sv)).
  { change (hello_response (establish sv s0).1 (established sv d')) with (welcome sv).
    apply msg_encodes. by apply welcome_wf. }
  rewrite Hw. rewrite bool_decide_eq_false_2 by discriminate.
  change (fm_sequence (greeting options)) with 1.
  match goal with |- context [sending ok ?ty ?n ?pl ?sv1 ?s1 ?k] =>
    destruct (sending_sent ok ty n pl sv1 s1 k Hok (fmw_payload _ _ (welcome_frame_wf sv Hg)))
      as (st & sv2 & -> & Hst & Hc) end.
  rewrite Hst. exists sv2. split; [reflexivity|].
  assert (Hb : (establish sv s0).1 = sv_stat (fun s => s <| ss_handshakes_completed ::= bump |>)
    (sv <| sv_session_sequence := sv_session_sequence sv + 1 |>)).
  { unfold establish. cbn [fst]. by rewrite (bump_sequence sv Hg). }
  rewrite Hb in Hc. destruct Hc as [Hc Hc']. split; [|exact Hc'].
  exact (quiet_trans _ _ _ (quiet_stat _ _) Hc).
Qed.

(** The whole greeting is served: one answer, and the thread waits for requests. *)
Lemma serve_greeting env ok h sv options chunks :
  is_u64 (co_nonce options) -> greets sv -> ready Ph_hello_recv h (Session_new max_frame_payload) sv ->
  cuts chunks (frame_bytes (greeting options)) -> Sending_ok ok = true ->
  exists sv' d, serve_session env ok h (Ok <$> chunks) sv = (sv', [frame_bytes (welcome_frame sv)]) /\
    waiting h (established sv d) sv' /\ idle d /\ beside h sv sv' /\ sv_fabric sv' = sv_fabric sv /\
    sv_session_sequence sv' = sv_session_sequence sv + 1.
Proof.
  intros Hn Hg Hr [Hcut Hne] Hok. destruct (greeting_encoded options Hn) as [_ Hf].
  destruct (serve_frame Ph_hello_recv Ph_hello_pop env ok h (greeting options) chunks []
    sv (Session_new max_frame_payload)
    (fun sv' s' out => exists d, s' = established sv d /\ out = [frame_bytes (welcome_frame sv)] /\ idle d /\
       beside h sv sv' /\ sv_fabric sv' = sv_fabric sv /\
       sv_session_sequence sv' = sv_session_sequence sv + 1))
    as (sv' & s' & out & Hs & Hw & d & -> & -> & Hd & Hb & Hfab & Hq).
  - exact loop_hello.
  - exact Hf.
  - exact Hr.
  - apply idle_partway, idle_new.
  - exact Hcut.
  - exact Hne.
  - intros sv2 d d' fuel Ha Hl Hh Hpop Hidle. pose proof (greets_around _ _ _ Hg Ha) as Hg2.
    destruct (pop_greeting env ok h sv2 options d d' Hn Hg2 Hl Hh Hpop Hok) as (sv3 & Hstep & Hc).
    destruct (put_around h Ph_request_recv (established sv2 d') _ _ Hc) as ((Hb3 & Hf3 & Hq3 & _) & Hl3).
    pose proof Ha as (Hb2 & Hf2 & Hq2 & _).
    assert (Hest : established sv2 d' = established sv d').
    { unfold established, establish. cbn. by rewrite Hf2, Hq2. }
    assert (Hwel : welcome_frame sv2 = welcome_frame sv) by (unfold welcome_frame; by rewrite (welcome_around _ _ _ Ha)).
    exists (put_thread h Ph_request_recv (established sv2 d') sv3), (established sv d'), [frame_bytes (welcome_frame sv)].
    assert (Hbb : beside h sv (put_thread h Ph_request_recv (established sv2 d') sv3))
      by (eapply beside_trans; [exact Hb2|exact Hb3]).
    split; [|split].
    + cbn [pop_frames]. rewrite Hl. cbn [th_phase is_popping]. rewrite Hstep, Hl3, Hwel.
      cbn [th_phase is_popping]. by rewrite app_nil_r.
    + rewrite <- Hest. split; [exact Hl3|]. destruct Hbb as (_ & Hbb & _), Hr as [_ Hstop]. congruence.
    + exists d'. split; [done|]. split; [done|]. split; [exact Hidle|]. split; [exact Hbb|].
      split; [by rewrite Hf3; exact Hf2|]. rewrite Hq3. change (sv_session_sequence sv2 + 1 = sv_session_sequence sv + 1). by rewrite Hq2.
  - exists sv', d. by repeat (split; [done|]).
Qed.

(** ** The client's end *)

Lemma connect_written options net :
  is_u64 (co_nonce options) -> Sending_ok (net_sent net) = true ->
  (Client_connect options net).2 = [frame_bytes (greeting options)].
Proof.
  intros Hn Hok. destruct (greeting_encoded options Hn) as [He Hf]. unfold Client_connect. rewrite He.
  rewrite bool_decide_eq_false_2 by discriminate. unfold call_map, round_trip.
  change (wrap_u64 (cl_sequence Client_new + 1)) with 1. rewrite encode_frame_spec by apply Hf.
  rewrite bool_decide_eq_false_2 by discriminate.
  destruct (sending_ok_inv _ Hok) as (st & -> & ->). cbn [negb]. by destruct (await _ _ _) as [[[]|] ].
Qed.

(** The client once it has been welcomed. *)
Definition welcomed (sv : Server) (d : FrameDecoder) : Client :=
  mkClient d (mkSessionHeader (ha_session (welcome sv)) (ha_epoch (welcome sv)) (ha_boot (welcome sv)) 0)
    (welcome sv) 1 false.

Lemma connect_welcomed options net sv chunks :
  is_u64 (co_nonce options) -> greets sv -> Sending_ok (net_sent net) = true ->
  net_received net = Ok <$> chunks -> cuts chunks (frame_bytes (welcome_frame sv)) ->
  exists d, Client_connect options net = (Some (Ok (welcomed sv d)), [frame_bytes (greeting options)]) /\ idle d.
Proof.
  intros Hn Hg Hok Hr Hc. destruct (greeting_encoded options Hn) as [He Hf]. unfold Client_connect. rewrite He.
  rewrite bool_decide_eq_false_2 by discriminate.
  destruct (round_trip_frame MsgType_hello (enc_hello_request (hello_of options)) net chunks
    (welcome_frame sv) Client_new) as (d & Hrt & Hi);
    [apply idle_new|vm_compute; split; congruence|apply (fmw_payload _ _ Hf)|exact Hok|
     by apply welcome_frame_wf|reflexivity|exact Hr|exact Hc|].
  exists d. split; [|exact Hi]. unfold call_map. rewrite Hrt.
  assert (Hd : greeted (welcome_frame sv) = Ok (welcome sv)).
  { unfold greeted. rewrite bool_decide_eq_true_2 by done. cbn [negb].
    apply (msg_decodes (encode := encode_hello_response)). split; [by apply welcome_wf|done]. }
  rewrite Hd. change (ha_protocol (welcome sv) =? protocol_version) with true. reflexivity.
Qed.

Lemma welcomed_linked h sv sv' d d' :
  greets sv -> waiting h (established sv d) sv' -> idle d -> idle d' ->
  linked h (established sv d) sv' (welcomed sv d').
Proof.
  intros Hg Hw Hd Hd'. destruct (welcome_wf sv Hg) as (_ & H1 & H2 & H3 & _). by constructor.
Qed.

(** The handshake links both ends.  A client of any name and nonce that
    connects to a session just accepted writes one greeting; the service, however
    the greeting is cut, answers once, gives the session the next session identity
    and the coordinator's epoch and boot, and changes nothing of the coordinator;
    and the client, however that answer is cut, is connected: it knows the
    coordinator as it is, and both ends agree on the session and are ready for
    requests. *)
Theorem handshake_links env options h sv :
  is_u64 (co_nonce options) -> greets sv -> ready Ph_hello_recv h (Session_new max_frame_payload) sv ->
  exists greeting,
    (forall net, Sending_ok (net_sent net) = true -> (Client_connect options net).2 = [greeting]) /\
    forall ok chunks, Sending_ok ok = true -> cuts chunks greeting ->
      exists sv' s' response,
        serve_session env ok h (Ok <$> chunks) sv = (sv', [response]) /\
        beside h sv sv' /\ sv_fabric sv' = sv_fabric sv /\
        sv_session_sequence sv' = sv_session_sequence sv + 1 /\
        Id_value (se_id s') = sv_session_sequence sv + 1 /\
        forall net chunks', Sending_ok (net_sent net) = true ->
          net_received net = Ok <$> chunks' -> cuts chunks' response ->
          exists cl, Client_connect options net = (Some (Ok cl), [greeting]) /\
            linked h s' sv' cl /\ cl_hello cl = hello_response sv' s' /\
            sh_request_sequence (cl_header cl) = 0 /\ cl_sequence cl = 1.
Proof.
  intros Hn Hg Hr. exists (frame_bytes (greeting options)).
  split; [intros net Hok; by apply connect_written|]. intros ok chunks Hok Hc.
  destruct (serve_greeting env ok h sv options chunks Hn Hg Hr Hc Hok) as
    (sv' & d & Hs & Hw & Hd & Hb & Hf & Hq).
  exists sv', (established sv d), (frame_bytes (welcome_frame sv)). split; [exact Hs|]. split; [exact Hb|].
  split; [exact Hf|]. split; [exact Hq|]. split; [exact (bump_sequence sv Hg)|].
  intros net chunks' Hsent Hrecv Hc'.
  destruct (connect_welcomed options net sv chunks' Hn Hg Hsent Hrecv Hc') as (d' & Hcon & Hd').
  exists (welcomed sv d'). split; [exact Hcon|]. split; [by apply welcomed_linked|].
  split; [|by split]. change (welcome sv = hello_response sv' (established sv d)).
  unfold welcome, hello_response. cbn. destruct Hb as (Ho & _). by rewrite Hf, Ho.
Qed.

(** A server that has just accepted a connection. *)
Definition accepted_server : Server := accept_connection 0 sample_server.

Lemma ready_fabric_typed : Typed ready_fabric.
Proof.
  assert (Ho : Typed (from_result (opened healthy_env 6 None None))).
  { eapply (open_typed healthy_env (FabricOptions_default "state") healthy_open healthy_load
      (mkEntropy 6 7 8 9) None None); [|vm_compute; split; congruence|by vm_compute|].
    - vm_compute. repeat split; congruence.
    - apply DurableTheorems.opened_from_result. by vm_compute. }
  eapply commanded_typed; [|exact Ho]. apply run_commanded.
  pose proof setup_wf as Hw. by apply Forall_app in Hw as [Hw _].
Qed.

Lemma accepted_greets : greets accepted_server.
Proof.
  constructor; [exact ready_fabric_typed|vm_compute; split; congruence|vm_compute; split; congruence].
Qed.

Lemma handshake_links_witness :
  exists greeting,
    (forall net, Sending_ok (net_sent net) = true ->
       (Client_connect (mkClientOptions [] 0 [] 7) net).2 = [greeting]) /\
    forall ok chunks, Sending_ok ok = true -> cuts chunks greeting ->
      exists sv' s' response,
        serve_session healthy_env ok 0 (Ok <$> chunks) accepted_server = (sv', [response]) /\
        beside 0 accepted_server sv' /\ sv_fabric sv' = sv_fabric accepted_server /\
        sv_session_sequence sv' = sv_session_sequence accepted_server + 1 /\
        Id_value (se_id s') = sv_session_sequence accepted_server + 1 /\
        forall net chunks', Sending_ok (net_sent net) = true ->
          net_received net = Ok <$> chunks' -> cuts chunks' response ->
          exists cl, Client_connect (mkClientOptions [] 0 [] 7) net = (Some (Ok cl), [greeting]) /\
            linked 0 s' sv' cl /\ cl_hello cl = hello_response sv' s' /\
            sh_request_sequence (cl_header cl) = 0 /\ cl_sequence cl = 1.
Proof.
  refine (handshake_links healthy_env (mkClientOptions [] 0 [] 7) 0 accepted_server _ accepted_greets _).
  - vm_compute. split; congruence.
  - split; reflexivity.
Defined.
