(* ===== verification/Remote.v ===== *)
(** * Remote decisions and queries

    The calls that are answered with a document: a decision made remotely is the
    decision of the coordinator as the wire reports it, and a query returns what
    the coordinator holds. *)

From S2P Require Import Prelude.
From S2P Require Import Ids.
From S2P Require Import Limits.
From S2P Require Import Status.
From S2P Require Import Authority.
From S2P Require Import Model.
From S2P Require Import Decision.
From S2P Require Import Records.
From S2P Require Import Selector.
From S2P Require Import DocumentProps.
From S2P Require Import Bytes.
From S2P Require Import Canonical.
From S2P Require Import Wire.
From S2P Require Import WireProps.
From S2P Require Import Store.
From S2P Require Import StateProps.
From S2P Require Import SnapshotProps.
From S2P Require Import Fabric.
From S2P Require Import FabricProps.
From S2P Require Import FabricTheorems.
From S2P Require Import TypedProps.
From S2P Require Import TypedTheorems.
From S2P Require Import Net.
From S2P Require Import Protocol.
From S2P Require Import ProtocolProps.
From S2P Require Import Server.
From S2P Require Import ServerProps.
From S2P Require Import ServerTheorems.
From S2P Require Import Client.
From S2P Require Import ClientProps.
From S2P Require Import ClientTheorems.
From S2P Require Import Handshake.

(** ** Failures carry a failure

    An operation never reports a failure with the status of a success. *)

Definition honest {A} (m : Op A) : Prop := forall f s, (m f).1 = Err s -> Status_ok s = false.

Lemma honest_return {A} (x : A) : honest (op_return x).
Proof. done. Qed.
Lemma honest_modify g : honest (op_modify g).
Proof. done. Qed.
Lemma honest_fail {A} c r s : c <> Code_ok -> honest (A := A) (fail_with c r s).
Proof. intros Hc f st [= <-]. by destruct c. Qed.
Lemma honest_status s : honest (op_status s).
Proof. intros f st. unfold op_status. destruct (Status_ok s) eqn:E; [done|]. by intros [= <-]. Qed.
Lemma honest_bind {A B} (m : Op A) (k : A -> Op B) : honest m -> (forall x, honest (k x)) -> honest (op_bind m k).
Proof.
  intros Hm Hk f s. unfold op_bind. specialize (Hm f).
  destruct (m f) as [[x|e] f1]; [apply Hk|]. intros [= <-]. by apply Hm.
Qed.
Lemma honest_read {A} (k : Fabric -> Op A) : (forall f, honest (k f)) -> honest (op_read k).
Proof. intros Hk f. apply Hk. Qed.
Lemma honest_if {A} (b : bool) (m1 m2 : Op A) : honest m1 -> honest m2 -> honest (if b then m1 else m2).
Proof. by destruct b. Qed.

Create HintDb honest.
#[export] Hint Resolve honest_return honest_modify honest_status honest_bind honest_read honest_if : honest.
#[export] Hint Extern 1 (honest (fail_with _ _ _)) => (apply honest_fail; discriminate) : honest.

Section honesty.
Context (env : Env).

Lemma honest_append t p : honest (append_locked env t p).
Proof.
  intros f s. unfold append_locked. destruct (Store_append _ _ _ _) as [st s'].
  destruct (Status_ok st) eqn:E; cbn; [done|]. by intros [= <-].
Qed.
Lemma honest_compact : honest (compact_if_needed env).
Proof.
  intros f. unfold compact_if_needed. destruct (negb _); [done|]. destruct (_ <? _); [done|].
  destruct (Store_write_snapshot _ _ _) as [st s']. apply honest_status.
Qed.
Lemma honest_retain r : honest (retain_attempt r).
Proof.
  intros f s. unfold retain_attempt. destruct (fb_attempts f !! at_id r); [done|]. destruct (_ <=? _); [|done].
  destruct (List.find _ _) as [[]|]; [done|]. by intros [= <-].
Qed.
Hint Resolve honest_append honest_compact honest_retain : honest.

Lemma honest_persist_attempt r b : honest (persist_attempt env r b).
Proof. unfold persist_attempt. auto 8 with honest. Qed.
Lemma honest_persist_lineage x : honest (persist_lineage env x).
Proof. unfold persist_lineage. auto 8 with honest. Qed.
Hint Resolve honest_persist_attempt honest_persist_lineage : honest.

Lemma honest_evaluate i co s : honest (Fabric_evaluate i co s).
Proof. unfold Fabric_evaluate. auto 10 with honest. Qed.

Lemma honest_begin_promotion i co s : honest (begin_promotion env i co s).
Proof. unfold begin_promotion, begin_refused, begin_authorized. cbv zeta. auto 30 with honest. Qed.

Lemma honest_revert id e : honest (revert env id e).
Proof.
  unfold revert, commit_revert. apply honest_read. intros f.
  destruct (fb_attempts f !! id); [|auto with honest]. destruct (validate_target e f). cbv zeta.
  auto 30 with honest.
Qed.
End honesty.

(** ** Calls answered with a document *)

(** What the caller of such a call makes of the frame that answers. *)
Definition document_answer {A} (expected : MsgType) (decode : list byte -> Result A) (response : Frame) : Result A :=
  let? response := ok_answer expected response in decode (fm_payload response).

Lemma inquire_calls {A} type body detail expected (decode : list byte -> Result A) :
  body <> [] -> calls (inquire type body detail expected decode) type body (document_answer expected decode).
Proof.
  intros Hb net cl. unfold inquire, with_encoded. rewrite bool_decide_eq_false_2 by done.
  unfold with_request, transact, call_map.
  destruct (round_trip _ _ _ _) as [[[[response|st]|] cl'] out]; [|done|done].
  unfold document_answer, ok_answer. case_bool_decide; [by destruct (decode_error_response _)|].
  case_bool_decide; reflexivity.
Qed.

(** An answer that leaves the session open and fits a frame. *)
Definition plain (r : DispatchResult) : Prop :=
  dr_close_session r = false /\ dr_stop_server r = false /\ size_of (dr_payload r) <= max_frame_payload.

Lemma answer_document {M A} (encode : M -> list byte) dec enc wf `{!Message encode dec enc wf}
    type detail (v v' : M) (decode : list byte -> Result A) x f :
  wf v' -> encode v = encode v' -> enc v' <> [] -> type <> MsgType_error_rsp ->
  (forall bytes, dec bytes = Ok v' -> decode bytes = Ok x) ->
  document_answer type decode (answer_frame (answer type (encode v) detail) f) = Ok x /\
  plain (answer type (encode v) detail).
Proof.
  intros Hv He Hne Ht Hk. rewrite He, (msg_encodes (decode := dec) v' Hv).
  unfold answer. rewrite bool_decide_eq_false_2 by done. split.
  - unfold document_answer, ok_answer, answer_frame. cbn [sent fm_type fm_payload dr_response_type dr_payload].
    rewrite bool_decide_eq_false_2 by done. rewrite bool_decide_eq_true_2 by done. cbn [negb].
    apply Hk, (msg_decodes (encode := encode)). by split.
  - repeat split. cbn [dr_payload].
    etransitivity; [exact (msg_size (encode := encode) (decode := dec) v' Hv)|by vm_compute].
Qed.

Lemma answer_failure {A} s type (decode : list byte -> Result A) f :
  Status_ok s = false ->
  let r := from_status (Err (A := unit) s) in
  document_answer type decode (answer_frame r f) = Err (carried s) /\ plain r.
Proof.
  intros Hs. cbv zeta. unfold from_status. change (Result_status (Err (A := unit) s)) with s. rewrite Hs.
  destruct (refuse_decodes (status_code s) (status_reason s) (status_detail s)) as [Hd Hsz].
  split; [|by repeat split]. unfold document_answer, ok_answer, answer_frame. cbn [sent fm_type fm_payload].
  rewrite bool_decide_eq_true_2 by reflexivity. rewrite Hd. reflexivity.
Qed.

(** The result of an operation as its remote caller sees it. *)
Definition seen {A B} (g : A -> B) (r : Result A) : Result B :=
  match r with Ok x => Ok (g x) | Err s => Err (carried s) end.

(** A request answered with the document an operation returned, or its failure. *)
Lemma exchange_document {A B} type body detail expected (decode : list byte -> Result B)
    (respond : A -> DispatchResult) (g : A -> B) (op : Op A) h s sv cl env :
  linked h s sv cl -> affordable sv cl -> is_request_type type = true ->
  body <> [] -> size_of body <= max_record_payload - 32 ->
  (forall sv' reader, At reader body ->
     dispatch_request env sv' type reader (sv_fabric sv) =
     match op (sv_fabric sv) with
     | (Err status, f) => (from_status (Err (A := unit) status), f)
     | (Ok x, f) => (respond x, f)
     end) ->
  honest op ->
  (forall x frame, (op (sv_fabric sv)).1 = Ok x ->
     document_answer expected decode (answer_frame (respond x) frame) = Ok (g x) /\ plain (respond x)) ->
  exchanges (inquire type body detail expected decode) h sv cl env
    (seen g (op (sv_fabric sv)).1) (op (sv_fabric sv)).2.
Proof.
  intros Hl Ha Ht Hne Hb Hd Hop Hx. set (frame := request_of type body cl).
  assert (Hr : exists r, (forall sv' reader, At reader body ->
      dispatch_request env sv' type reader (sv_fabric sv) = (r, (op (sv_fabric sv)).2)) /\
      document_answer expected decode (answer_frame r frame) = seen g (op (sv_fabric sv)).1 /\ plain r).
  { specialize (Hop (sv_fabric sv)). destruct (op (sv_fabric sv)) as [[x|st] f]; cbn [fst snd seen] in *.
    - destruct (Hx x frame eq_refl) as [H1 H2]. by exists (respond x).
    - destruct (answer_failure st expected decode frame (Hop st eq_refl)) as [H1 H2].
      by exists (from_status (Err (A := unit) st)). }
  destruct Hr as (r & Hdr & <- & Hc & Hs & Hsz).
  eapply exchange; [by apply inquire_calls|exact Hl|exact Ha|exact Ht|exact Hb| |exact Hc|exact Hs|exact Hsz].
  intros sv' reader _ HA. by apply Hdr.
Qed.

(** ** Decisions *)

(** The wire drops the statistics of a decision. *)
Definition reported_response (p : PromoteResponse) : PromoteResponse :=
  mkPromoteResponse (reported (ps_decision p)) (ps_grant p) (ps_attempt p).

Lemma encode_reported p : encode_promote_response p = encode_promote_response (reported_response p).
Proof.
  destruct p as [d g a]. unfold encode_promote_response, reported_response. cbn [ps_decision ps_grant ps_attempt].
  assert (Hp : put_decision (reported d) = put_decision d) by (unfold put_decision, reported; destruct d; reflexivity).
  by rewrite Hp.
Qed.

Lemma enc_promote_ne p : enc_promote_response p <> [].
Proof. discriminate. Qed.

Lemma promote_answer {A} p detail (type : MsgType) (decode : list byte -> Result A) x f :
  document_wf (ps_decision p) -> Id_wf (ps_grant p) -> Id_wf (ps_attempt p) -> type <> MsgType_error_rsp ->
  (forall bytes, decode_promote_response bytes = Ok (reported_response p) -> decode bytes = Ok x) ->
  document_answer type decode (answer_frame (answer type (encode_promote_response p) detail) f) = Ok x /\
  plain (answer type (encode_promote_response p) detail).
Proof.
  intros H1 H2 H3 Ht Hk.
  exact (answer_document encode_promote_response decode_promote_response enc_promote_response
    promote_response_wf type detail p (reported_response p) decode x f (conj H1 (conj H2 H3))
    (encode_reported p) (enc_promote_ne _) Ht Hk).
Qed.

Lemma decision_answer p detail f :
  document_wf (ps_decision p) -> Id_wf (ps_grant p) -> Id_wf (ps_attempt p) ->
  document_answer MsgType_evaluate_rsp decode_decision_response
    (answer_frame (answer MsgType_evaluate_rsp (encode_promote_response p) detail) f) =
    Ok (reported (ps_decision p)) /\
  plain (answer MsgType_evaluate_rsp (encode_promote_response p) detail).
Proof.
  intros H1 H2 H3. refine (promote_answer p detail MsgType_evaluate_rsp decode_decision_response _ f H1 H2 H3 _ _);
    [discriminate|]. intros bytes Hd. unfold decode_decision_response. rewrite Hd. reflexivity.
Qed.

Lemma document_attempt d : document_wf d -> Id_wf (dec_attempt d).
Proof. unfold document_wf, decision_wf, reported. cbn. tauto. Qed.

Lemma enc_request_ne v : enc_request v <> [].
Proof. discriminate. Qed.
Lemma enc_rollback_ne (v : AttemptId * PathEvidence) : enc_pair enc_id enc_evidence v <> [].
Proof. discriminate. Qed.

(** The service reads the body of the request in full. *)
Lemma inquiry_body {B} encode (get : Read (Result B)) enc wf `{!Body encode get enc wf} (v : B) :
  wf v -> encode v = enc v /\ size_of (enc v) <= max_record_payload - 32 /\
  (forall reader invalid (k : B -> Handler), At reader (enc v) -> with_body get reader invalid k = k v).
Proof.
  intros Hv. split; [by apply (body_encodes (decode := get))|].
  split; [by apply (body_size (encode := encode) (decode := get))|].
  intros reader invalid k HA. pose proof (body_decodes (encode := encode) (decode := get)).
  by apply (with_body_read get enc wf).
Qed.

Section decisions.
Context (h : nat) (s : Session) (sv : Server) (cl : Client) (env : Env)
  (Hl : linked h s sv cl) (Ha : affordable sv cl) (HT : Typed (sv_fabric sv)).

Lemma remote_evaluate q : request_wf q ->
  exchanges (Client_evaluate q) h sv cl env
    (seen reported (Fabric_evaluate (req_incumbent q) (req_condition q) (req_set q) (sv_fabric sv)).1)
    (Fabric_evaluate (req_incumbent q) (req_condition q) (req_set q) (sv_fabric sv)).2.
Proof.
  intros Hq. destruct (inquiry_body encode_request_body decode_request_body enc_request request_wf q Hq) as (He & Hs & Hr).
  unfold Client_evaluate. rewrite He.
  refine (exchange_document MsgType_evaluate_req _ _ _ _
    (fun d => answer MsgType_evaluate_rsp
       (encode_promote_response (mkPromoteResponse d Id_absent Id_absent)) "cannot encode decision")
    reported _ h s sv cl env Hl Ha eq_refl (enc_request_ne q) Hs _ (honest_evaluate _ _ _) _).
  - intros sv' reader HA. cbn [dispatch_request]. rewrite (Hr reader _ _ HA). reflexivity.
  - intros d frame Hd.
    destruct (ty_evaluate (req_incumbent q) (req_condition q) (req_set q) _ HT) as [_ Hdoc];
      [apply Hq|apply Hq|]. specialize (Hdoc d Hd).
    exact (decision_answer (mkPromoteResponse d Id_absent Id_absent) _ frame Hdoc absent_wf absent_wf).
Qed.

Lemma remote_promote q : request_wf q ->
  exchanges (Client_promote q) h sv cl env
    (seen (fun a => reported_response (promote_response a))
       (begin_promotion env (req_incumbent q) (req_condition q) (req_set q) (sv_fabric sv)).1)
    (begin_promotion env (req_incumbent q) (req_condition q) (req_set q) (sv_fabric sv)).2.
Proof.
  intros Hq. destruct (inquiry_body encode_request_body decode_request_body enc_request request_wf q Hq) as (He & Hs & Hr).
  unfold Client_promote. rewrite He.
  refine (exchange_document MsgType_promote_req _ _ _ _
    (fun a => answer MsgType_promote_rsp (encode_promote_response (promote_response a)) "cannot encode grant")
    (fun a => reported_response (promote_response a)) _ h s sv cl env Hl Ha eq_refl (enc_request_ne q) Hs _
    (honest_begin_promotion env _ _ _) _).
  - intros sv' reader HA. cbn [dispatch_request]. rewrite (Hr reader _ _ HA). reflexivity.
  - intros a frame Hd.
    destruct (ty_begin_promotion env (req_incumbent q) (req_condition q) (req_set q) _ HT) as [_ Hdoc];
      [apply Hq|apply Hq|]. destruct (Hdoc a Hd) as [H1 (H2 & H3 & _)]. pose proof (document_attempt _ H1) as H4.
    assert (Hp : document_wf (ps_decision (promote_response a)) /\ Id_wf (ps_grant (promote_response a)) /\
      Id_wf (ps_attempt (promote_response a))).
    { unfold promote_response. destruct (negb _); cbn [ps_decision ps_grant ps_attempt];
        (split; [exact H1|]); (split; [|assumption]); [apply absent_wf|exact H2]. }
    destruct Hp as (P1 & P2 & P3).
    refine (promote_answer (promote_response a) _ MsgType_promote_rsp decode_promote_response _ frame P1 P2 P3 _ _);
      [discriminate|done].
Qed.

Lemma remote_revert id e : Id_wf id -> evidence_wf e ->
  exchanges (Client_revert id e) h sv cl env
    (seen reported (revert env id e (sv_fabric sv)).1) (revert env id e (sv_fabric sv)).2.
Proof.
  intros Hid Hev.
  destruct (inquiry_body (fun b => encode_rollback_body b.1 b.2) decode_rollback_body
    (enc_pair enc_id enc_evidence) (pair_wf Id_wf evidence_wf) (id, e) (conj Hid Hev)) as (He & Hs & Hr).
  unfold Client_revert. cbn [fst snd] in He. rewrite He.
  refine (exchange_document MsgType_revert_req _ _ _ _
    (fun d => answer MsgType_evaluate_rsp
       (encode_promote_response (mkPromoteResponse d Id_absent (dec_attempt d))) "cannot encode reversion")
    reported _ h s sv cl env Hl Ha eq_refl (enc_rollback_ne _) Hs _ (honest_revert env id e) _).
  - intros sv' reader HA. cbn [dispatch_request]. rewrite (Hr reader _ _ HA). reflexivity.
  - intros d frame Hd. destruct (ty_revert env id e _ HT Hev) as [_ Hdoc]. specialize (Hdoc d Hd).
    exact (decision_answer (mkPromoteResponse d Id_absent (dec_attempt d)) _ frame Hdoc absent_wf
      (document_attempt d Hdoc)).
Qed.
End decisions.

(** ** Queries *)

Definition queries {A} (g : Fabric -> A) : Op A := op_read (fun f => op_return (g f)).

Lemma honest_queries {A} (g : Fabric -> A) : honest (queries g).
Proof. unfold queries. auto with honest. Qed.

Lemma enc_id_ne {T} (i : Id T) : enc_id i <> [].
Proof. discriminate. Qed.
Lemma enc_attempt_response_ne v : enc_attempt_response v <> [].
Proof. discriminate. Qed.
Lemma enc_lineage_response_ne v : enc_lineage_response v <> [].
Proof. discriminate. Qed.
Lemma enc_limit_ne n : le_bytes 4 n <> [].
Proof. discriminate. Qed.

Lemma attempt_response_typed id f : Typed f -> Id_wf id -> attempt_response_wf (attempt_response id f).
Proof.
  intros HT Hid. split; [done|]. unfold attempt_response, Fabric_attempt.
  destruct (fb_attempts f !! id) as [r|] eqn:Hr; [by apply (attempts_known f id r)|].
  unfold attempt_wf. cbn. split; [exact Hid|]. vm_compute. repeat split; congruence.
Qed.

Lemma lineage_response_typed n f : Typed f -> lineage_response_wf (lineage_response n f).
Proof.
  intros HT. destruct (ty_state _ HT) as [_ _ _ _ [H1 H2] _ _ _].
  unfold lineage_response_wf, lineage_response, Fabric_lineage. cbv zeta. cbn [lr_entries].
  split; [|by apply Forall_drop]. unfold size_of in *. rewrite length_drop. lia.
Qed.

Definition lineage_bound (limit : Z) : Z :=
  wrap_u32 (if limit =? 0 then max_lineage else if max_lineage <? limit then max_lineage else limit).

Lemma lineage_bound_wf limit : is_u64 limit -> limit_wf (lineage_bound limit).
Proof.
  intros [H0 _]. unfold limit_wf, lineage_bound.
  assert (Hb : 0 < (if limit =? 0 then max_lineage else if max_lineage <? limit then max_lineage else limit) <= max_lineage).
  { destruct (Z.eqb_spec limit 0); [unfold_limits; lia|]. destruct (Z.ltb_spec max_lineage limit); [unfold_limits; lia|lia]. }
  set (n := if limit =? 0 then _ else _) in *. clearbody n.
  assert (Hn : wrap_u32 n = n) by (unfold_ints; unfold_limits; apply Z.mod_small; lia). by rewrite Hn.
Qed.

Section queries.
Context (h : nat) (s : Session) (sv : Server) (cl : Client) (env : Env)
  (Hl : linked h s sv cl) (Ha : affordable sv cl) (HT : Typed (sv_fabric sv)).

(** An exchange that looks something up and answers with it. *)
Lemma exchange_query {A} type body detail expected encode (decode : list byte -> Result A) enc wf
    `{!Message encode decode enc wf} unencodable (g : Fabric -> A) :
  is_request_type type = true -> body <> [] -> size_of body <= max_record_payload - 32 ->
  (forall sv' reader, At reader body -> dispatch_request env sv' type reader (sv_fabric sv) =
     (answer expected (encode (g (sv_fabric sv))) unencodable, sv_fabric sv)) ->
  wf (g (sv_fabric sv)) -> (forall v, enc v <> []) -> expected <> MsgType_error_rsp ->
  exchanges (inquire type body detail expected decode) h sv cl env (Ok (g (sv_fabric sv))) (sv_fabric sv).
Proof.
  intros Ht Hne Hb Hd Hwf Henc Hexp.
  refine (exchange_document type body detail expected decode (fun v => answer expected (encode v) unencodable)
    (fun v => v) (queries g) h s sv cl env Hl Ha Ht Hne Hb _ (honest_queries g) _).
  - intros sv' reader HA. rewrite (Hd sv' reader HA). reflexivity.
  - intros v frame [= <-].
    exact (answer_document encode decode enc wf expected unencodable _ _ decode _ frame Hwf eq_refl (Henc _) Hexp
      (fun _ H => H)).
Qed.

Lemma remote_attempt id : Id_wf id ->
  exchanges (Client_attempt id) h sv cl env (Ok (attempt_response id (sv_fabric sv))) (sv_fabric sv).
Proof.
  intros Hid. destruct (inquiry_body encode_attempt_body decode_attempt_body enc_id Id_wf id Hid) as (He & Hs & Hr).
  unfold Client_attempt. rewrite He.
  apply (exchange_query MsgType_attempt_req _ _ _ encode_attempt_response decode_attempt_response
    enc_attempt_response attempt_response_wf "cannot encode attempt" (attempt_response id));
    [reflexivity|apply enc_id_ne|exact Hs| |by apply attempt_response_typed|apply enc_attempt_response_ne|discriminate].
  intros sv' reader HA. cbn [dispatch_request]. rewrite (Hr reader _ _ HA). reflexivity.
Qed.

Lemma remote_lineage limit : is_u64 limit ->
  exchanges (Client_lineage limit) h sv cl env
    (Ok (lineage_response (lineage_bound limit) (sv_fabric sv))) (sv_fabric sv).
Proof.
  intros Hn. pose proof (lineage_bound_wf limit Hn) as Hb.
  destruct (inquiry_body encode_lineage_body decode_lineage_body (le_bytes 4) limit_wf _ Hb) as (He & Hs & Hr).
  unfold Client_lineage. fold (lineage_bound limit). cbv zeta. rewrite He.
  apply (exchange_query MsgType_lineage_req _ _ _ encode_lineage_response decode_lineage_response
    enc_lineage_response lineage_response_wf "cannot encode lineage" (lineage_response (lineage_bound limit)));
    [reflexivity|apply enc_limit_ne|exact Hs| |by apply lineage_response_typed|apply enc_lineage_response_ne|discriminate].
  intros sv' reader HA. cbn [dispatch_request]. rewrite (Hr reader _ _ HA). reflexivity.
Qed.
End queries.

(** C13: A remote decision is the coordinator's.  Between a client and the
    session that serves it, when the coordinator is within its types: evaluating,
    promoting or reverting remotely runs exactly that operation once, however the
    bytes are cut, and the caller obtains the document the operation returned,
    less the work statistics the wire does not carry, or its failure, with its
    detail cut to the bound of the wire; and asking
    for an attempt or for the lineage changes nothing and returns what the
    coordinator holds. *)
Theorem remote_decisions_transparent h s sv cl env :
  linked h s sv cl -> affordable sv cl -> Typed (sv_fabric sv) ->
  (forall q, request_wf q ->
     let r := Fabric_evaluate (req_incumbent q) (req_condition q) (req_set q) (sv_fabric sv) in
     exchanges (Client_evaluate q) h sv cl env (seen reported r.1) r.2) /\
  (forall q, request_wf q ->
     let r := begin_promotion env (req_incumbent q) (req_condition q) (req_set q) (sv_fabric sv) in
     exchanges (Client_promote q) h sv cl env
       (seen (fun a => reported_response (promote_response a)) r.1) r.2) /\
  (forall id target, Id_wf id -> evidence_wf target ->
     let r := revert env id target (sv_fabric sv) in
     exchanges (Client_revert id target) h sv cl env (seen reported r.1) r.2) /\
  (forall id, Id_wf id ->
     exchanges (Client_attempt id) h sv cl env (Ok (attempt_response id (sv_fabric sv))) (sv_fabric sv)) /\
  (forall limit, is_u64 limit ->
     exchanges (Client_lineage limit) h sv cl env
       (Ok (lineage_response (lineage_bound limit) (sv_fabric sv))) (sv_fabric sv)).
Proof.
  intros Hl Ha HT. split; [|split; [|split; [|split]]].
  - intros q. by apply (remote_evaluate h s).
  - intros q. by apply (remote_promote h s).
  - intros id e. by apply (remote_revert h s).
  - intros id. by apply (remote_attempt h s).
  - intros n. by apply (remote_lineage h s).
Qed.

Definition sample_query : PromotionRequest :=
  mkPromotionRequest (Id_from_value 10) IncumbentCondition_failed (Id_from_value 1) Id_absent Id_absent Id_absent
    Id_absent Id_absent Id_absent Id_absent Id_absent.

Lemma remote_decisions_transparent_witness :
  request_wf sample_query /\
  exchanges (Client_promote sample_query) 0 linked_server linked_client healthy_env
    (seen (fun a => reported_response (promote_response a))
       (begin_promotion healthy_env (req_incumbent sample_query) (req_condition sample_query)
          (req_set sample_query) (sv_fabric linked_server)).1)
    (begin_promotion healthy_env (req_incumbent sample_query) (req_condition sample_query)
       (req_set sample_query) (sv_fabric linked_server)).2.
Proof.
  assert (Hq : request_wf sample_query) by (vm_compute; repeat split; congruence).
  split; [exact Hq|].
  refine (proj1 (proj2 (remote_decisions_transparent 0 sample_session linked_server linked_client healthy_env
    sample_linked _ _)) sample_query Hq).
  - split; [vm_compute; split; congruence|vm_compute; reflexivity].
  - exact ready_fabric_typed.
Defined.
