(* ===== verification/Ctl.v ===== *)
(** * The command-line client ([apps/pffctl.cpp])

    [pffctl] as a function of its arguments, of the files of the directory it
    inspects and of what the network does: its exit status, the lines it prints,
    and the bytes it sends.  A call that is still waiting has no exit. *)

From S2P Require Import Prelude.
From S2P Require Import Ids.
From S2P Require Import Limits.
From S2P Require Import Status.
From S2P Require Import Authority.
From S2P Require Import Model.
From S2P Require Import Decision.
From S2P Require Import Records.
From S2P Require Import Bytes.
From S2P Require Import Wire.
From S2P Require Import Store.
From S2P Require Import Platform.
From S2P Require Import Net.
From S2P Require Import Protocol.
From S2P Require Import Client.
From S2P Require Import Args.
From S2P Require Import Tools.

Local Open Scope string_scope.

(** ** Printing *)

Definition print_assessment (a : CandidateAssessment) : string :=
  line ["candidate path="; show_id (as_path a); " rank="; decimal (as_upstream_rank a);
        " score="; decimal (st_total (as_terms a)); " verdict="; CandidateVerdict_to_string (as_verdict a);
        " reason="; Reason_to_string (as_reason a); " authority="; AuthorityClass_to_string (as_authority a)].

Definition print_decision (d : PromotionDecision) : list string :=
  [line ["outcome="; PromotionOutcome_to_string (dec_outcome d)];
   line ["authority_kind="; AuthorityKind_to_string (dec_authority_kind d)];
   line ["reason="; Reason_to_string (dec_reason d)];
   line ["incumbent="; show_id (dec_incumbent d)];
   line ["selected="; if Id_valid (dec_selected d) then show_id (dec_selected d) else "none"];
   line ["examined="; decimal (dec_examined d); "/"; decimal (dec_supplied d);
         " search_limited="; flag (dec_search_limited d); " set_complete="; flag (dec_set_complete d)];
   line ["digest="; id_hex (decision_digest d)]] ++ (print_assessment <$> dec_ranked d).

Definition print_promotion (r : PromoteResponse) : list string :=
  print_decision (ps_decision r) ++
  [line ["grant="; show_id (ps_grant r); " attempt="; show_number (ps_attempt r)]].

Definition print_status (r : StatusResponse) : list string :=
  [line ["policy_installed="; flag (sr_policy_installed r);
         " obligations_installed="; flag (sr_obligations_installed r);
         " sets="; decimal (sr_alternate_sets r); " active_attempts="; decimal (sr_active_attempts r)];
   line ["authorized="; decimal (fs_promotions_authorized (sr_stats r));
         " committed="; decimal (fs_promotions_committed (sr_stats r));
         " refused="; decimal (fs_promotions_refused (sr_stats r));
         " indeterminate="; decimal (fs_promotions_indeterminate (sr_stats r));
         " fences="; decimal (fs_fences_recorded (sr_stats r))]].

Definition print_entry (e : LineageEntry) : string :=
  line ["seq="; decimal (le_sequence e); " outcome="; PromotionOutcome_to_string (le_outcome e);
        " attempt="; show_number (le_attempt e); " incumbent="; show_id (le_incumbent e);
        " selected="; show_id (le_selected e); " reason="; Reason_to_string (le_reason e)].

Definition print_lineage (r : LineageResponse) : list string :=
  (print_entry <$> lr_entries r) ++
  [line ["entries="; decimal (size_of (lr_entries r)); " truncated="; flag (lr_truncated r)]].

Definition print_session (hello : HelloResponse) : string :=
  line ["session="; show_id (ha_session hello); " epoch="; show_number (ha_epoch hello);
        " boot="; show_id (ha_boot hello); " incarnation="; show_id (ha_incarnation hello)].

(** ** Offline inspection *)

Definition inspect_attempt (a : AttemptRecord) : string :=
  line ["attempt id="; show_number (at_id a); " state="; AttemptState_to_string (at_state a);
        " reason="; Reason_to_string (at_terminal_reason a); " selected="; show_id (at_selected a);
        " epoch="; show_number (at_epoch a)].

Definition inspect_entry (e : LineageEntry) : string :=
  line ["lineage seq="; decimal (le_sequence e); " outcome="; PromotionOutcome_to_string (le_outcome e);
        " attempt="; show_number (le_attempt e); " selected="; show_id (le_selected e);
        " reason="; Reason_to_string (le_reason e)].

Definition inspection (loaded : DurableState) (recovery : RecoveryReport) : list string :=
  [line ["epoch="; show_number (av_epoch (ds_authority loaded));
         " boot="; show_id (av_boot (ds_authority loaded));
         " topology="; show_number (av_topology (ds_authority loaded));
         " path_authority="; show_number (av_path_authority (ds_authority loaded));
         " policy="; show_number (av_policy (ds_authority loaded));
         " obligations="; show_number (av_obligations (ds_authority loaded))];
   line ["restarts="; decimal (ds_restart_count loaded);
         " last_sequence="; decimal (ds_last_sequence loaded); " policy="; flag (ds_has_policy loaded);
         " obligations="; flag (ds_has_obligations loaded); " sets="; decimal (size_of (ds_sets loaded));
         " fences="; decimal (size_of (ds_fences loaded))];
   line ["snapshot_loaded="; flag (rr_snapshot_loaded recovery);
         " snapshot_sequence="; decimal (rr_snapshot_sequence recovery);
         " replayed="; decimal (rr_records_replayed recovery);
         " skipped="; decimal (rr_records_skipped recovery);
         " torn="; flag (rr_torn_tail_present recovery)]]
  ++ (inspect_attempt <$> ds_attempts loaded) ++ (inspect_entry <$> ds_lineage loaded).

(** The exit, and the store it leaves when one was opened. *)
Definition inspect_offline (open_io : OpenIo) (load_io : LoadIo) (journal snapshot : option (list byte))
    : Exit * option Store :=
  match Store_open open_io true false journal snapshot with
  | Err status => (failed 3 [] "inspect" status, None)
  | Ok store =>
      match Store_load load_io store with
      | (Err status, store) => (failed 4 [] "inspect" status, Some store)
      | (Ok loaded, store) => (mkExit 0 (inspection loaded (s_recovery store)) [], Some store)
      end
  end.

(** ** Remote commands *)

(** [Client::connect]: the connection, then the handshake over it. *)
Definition Client_dial (options : ClientOptions) (connection : ConnectIo) (net : Net)
    : option (Result Client) * list (list byte) :=
  match (connect_loopback (co_port options) connection).1 with
  | Err status => (Some (Err status), [])
  | Ok _ => Client_connect options net
  end.

Definition client_options (argv : list string) : ClientOptions :=
  mkClientOptions (String.list_byte_of_string (arg_or argv "--host" "127.0.0.1"))
    (wrap_u16 (arg_u64 argv "--port" 0)) (String.list_byte_of_string "pffctl") (arg_u64 argv "--nonce" 0).

Definition promotion_request (argv : list string) (authority : AuthorityVector) : PromotionRequest :=
  mkPromotionRequest (Id_from_value (arg_u64 argv "--incumbent" 0)) IncumbentCondition_failed
    (Id_from_value (arg_u64 argv "--set" 0)) Id_absent (av_policy authority) (av_obligations authority)
    (av_topology authority) (av_path_authority authority) (av_epoch authority) (av_boot authority) Id_absent.

(** A command: one call, reported when it is answered.  [banner] has been printed
    before it. *)
Definition report {A} (name : string) (call : Call A) (print : A -> list string) (banner : string)
    (net : Net) (cl : Client) : option Exit * list (list byte) :=
  match call net cl with
  | (None, _, sent) => (None, sent)
  | (Some (Err status), _, sent) => (Some (failed 4 [banner] name status), sent)
  | (Some (Ok x), _, sent) => (Some (mkExit 0 (banner :: print x) []), sent)
  end.

(** The commands in the order they are compared. *)
Definition remote_command (argv : list string) (cmd banner : string) (net : Net) (cl : Client)
    : option Exit * list (list byte) :=
  let request := promotion_request argv (ha_authority (cl_hello cl)) in
  if String.eqb cmd "status" then report "status" Client_status print_status banner net cl
  else if String.eqb cmd "lineage" then
    report "lineage" (Client_lineage (arg_u64 argv "--limit" 32)) print_lineage banner net cl
  else if String.eqb cmd "shutdown" then
    report "shutdown" Client_shutdown (fun _ => ["stopping"]) banner net cl
  else if String.eqb cmd "evaluate" then
    report "evaluate" (Client_evaluate request) print_decision banner net cl
  else if String.eqb cmd "promote" then
    report "promote" (Client_promote request) print_promotion banner net cl
  else if String.eqb cmd "fence" then
    let path := Id_from_value (arg_u64 argv "--path" 0) in
    report "fence" (Client_fence_path path Reason_path_fenced)
      (fun _ => [line ["fenced="; show_id path]]) banner net cl
  else (Some (mkExit 2 [banner] [line ["pffctl: unknown command "; cmd]]), []).

(** ** The program *)

Definition ctl_usage : list string :=
  ["usage: pffctl [--host H] [--port N] <command> [args]"; "  status"; "  lineage [--limit N]";
   "  evaluate --incumbent I --set S"; "  promote  --incumbent I --set S"; "  fence    --path P";
   "  shutdown"; "  inspect  --dir D   (offline, read-only)"].

(** What the platform does: to the files of the directory named, and to the
    connection, its handshake and the one call made over it. *)
Record CtlIo := mkCtlIo {
  ct_open : OpenIo;
  ct_load : LoadIo;
  ct_files : string -> option (list byte) * option (list byte);
  ct_connection : ConnectIo;
  ct_hello : Net;
  ct_call : Net }.

Definition ctl_main (argv : list string) (io : CtlIo) : option Exit * list (list byte) :=
  match command argv with
  | None => (Some (mkExit 2 [] ctl_usage), [])
  | Some cmd =>
      if String.eqb cmd "inspect" then
        match arg_value argv "--dir" with
        | None => (Some (mkExit 2 [] ["inspect requires --dir"]), [])
        | Some directory =>
            let (journal, snapshot) := ct_files io directory in
            (Some (inspect_offline (ct_open io) (ct_load io) journal snapshot).1, [])
        end
      else
        match Client_dial (client_options argv) (ct_connection io) (ct_hello io) with
        | (None, sent) => (None, sent)
        | (Some (Err status), sent) => (Some (failed 3 [] "pffctl" status), sent)
        | (Some (Ok client), sent) =>
            let (exit, sent') := remote_command argv cmd (print_session (cl_hello client)) (ct_call io) client in
            (exit, (sent ++ sent')%list)
        end
  end.
