(* ===== verification/CtlTheorems.v ===== *)
(** * What the command-line client reports

    Inspection is read-only and prints what the owner of the directory would
    load; a remote command prints what the coordinator did. *)

From S2P Require Import Prelude.
From S2P Require Import Ids.
From S2P Require Import Limits.
From S2P Require Import Status.
From S2P Require Import Authority.
From S2P Require Import Model.
From S2P Require Import Decision.
From S2P Require Import Records.
From S2P Require Import Bytes.
From S2P Require Import Canonical.
From S2P Require Import Wire.
From S2P Require Import WireProps.
From S2P Require Import DocumentProps.
From S2P Require Import Store.
From S2P Require Import StoreProps.
From S2P Require Import Fabric.
From S2P Require Import FabricProps.
From S2P Require Import FabricTheorems.
From S2P Require Import TypedProps.
From S2P Require Import Platform.
From S2P Require Import Net.
From S2P Require Import Protocol.
From S2P Require Import ProtocolProps.
From S2P Require Import Server.
From S2P Require Import ServerProps.
From S2P Require Import ServerTheorems.
From S2P Require Import Client.
From S2P Require Import ClientProps.
From S2P Require Import ClientTheorems.
From S2P Require Import Handshake.
From S2P Require Import Remote.
From S2P Require Import Args.
From S2P Require Import Tools.
From S2P Require Import Ctl.

(** ** Inspection *)

(** What an inspector keeps of the store it opens, whatever happens. *)
Record untouched_files (journal snapshot : option (list byte)) (s : Store) : Prop := {
  uf_journal : s_journal_file s = journal;
  uf_snapshot : s_snapshot_file s = snapshot;
  uf_lock : s_lock_held s = false;
  uf_inspection : s_inspection_only s = true }.

Lemma inspection_opens io journal snapshot :
  exists s, Store_open io true false journal snapshot = Ok s /\ untouched_files journal snapshot s.
Proof.
  unfold Store_open, Store_open_files. cbn [andb negb s_inspection_only Store_fresh].
  destruct (_ && _); eexists; (split; [reflexivity|by constructor]).
Qed.

Lemma inspection_loads io journal snapshot s :
  untouched_files journal snapshot s -> untouched_files journal snapshot (Store_load io s).2.
Proof.
  intros Hs. unfold Store_load. destruct (s_closed s); [exact Hs|].
  assert (H1 : untouched_files journal snapshot (load_snapshot io DurableState_default s).2).
  { clear -Hs. destruct Hs as [E1 E2 E3 E4]. destruct s as [j sn op lk insp cl ls jb rec]. cbn in E1, E2, E3, E4.
    subst. unfold load_snapshot. cbn [s_snapshot_file].
    destruct (if li_exists_snapshot io then _ else _) as [bytes|]; [|by constructor].
    do 4 (destruct (_ : bool); [by constructor|]). destruct (decode_snapshot bytes); by constructor. }
  destruct (load_snapshot _ _ _) as [[st state] s1]. destruct (negb (Status_ok st)); [exact H1|].
  assert (H2 : untouched_files journal snapshot (replay_journal io state s1).2).
  { clear -H1. destruct H1 as [E1 E2 E3 E4]. cbn [snd] in *. unfold replay_journal.
    destruct s1 as [j sn op lk insp cl ls jb rec]. cbn in E1, E2, E3, E4 |- *. subst.
    destruct journal as [bytes|]; [|by constructor].
    destruct (_ || _); [by constructor|]. destruct (bool_decide _); [by constructor|].
    destruct (negb _); [by constructor|]. set (rp := replay_records _ _ _ _). clearbody rp.
    destruct (negb (Status_ok _)); [by constructor|].
    destruct (rp_torn rp), (li_seek_end io); by constructor. }
  destruct (replay_journal _ _ _) as [[st2 state2] s2]. destruct (negb (Status_ok st2)); exact H2.
Qed.

(** An owner's store and an inspector's over the same files. *)
Record same_report (r r' : RecoveryReport) : Prop := {
  sr_loaded : rr_snapshot_loaded r' = rr_snapshot_loaded r;
  sr_sequence : rr_snapshot_sequence r' = rr_snapshot_sequence r;
  sr_replayed : rr_records_replayed r' = rr_records_replayed r;
  sr_skipped : rr_records_skipped r' = rr_records_skipped r;
  sr_torn : rr_torn_tail_present r' = rr_torn_tail_present r }.

Record alike (s s' : Store) : Prop := {
  al_snapshot : s_snapshot_file s' = s_snapshot_file s;
  al_closed : s_closed s = false /\ s_closed s' = false;
  al_modes : s_inspection_only s = false /\ s_inspection_only s' = true;
  al_journal : exists bytes, s_journal_file s = Some bytes /\ s_journal_open s = true /\
    (s_journal_file s' = Some bytes /\ s_journal_open s' = true \/ s_journal_file s' = None /\ bytes = []);
  al_report : same_report (s_recovery s) (s_recovery s') }.

Lemma alike_opened create journal snapshot s s' :
  Store_open healthy_open false create journal snapshot = Ok s ->
  Store_open healthy_open true false journal snapshot = Ok s' -> alike s s'.
Proof.
  unfold Store_open. cbn [oi_directory healthy_open negb andb]. rewrite andb_false_r.
  destruct journal as [bytes|]; intros [= <-] [= <-]; constructor; try by split.
  - exists bytes. split; [done|]. split; [done|by left].
  - exists []. split; [done|]. split; [done|by right].
Qed.

Lemma inspection_same_report state r r' : same_report r r' -> inspection state r' = inspection state r.
Proof. intros [E1 E2 E3 E4 E5]. unfold inspection. by rewrite E1, E2, E3, E4, E5. Qed.

Lemma load_snapshot_alike s s' state :
  alike s s' ->
  (load_snapshot healthy_load state s').1 = (load_snapshot healthy_load state s).1 /\
  alike (load_snapshot healthy_load state s).2 (load_snapshot healthy_load state s').2.
Proof.
  intros Ha. unfold load_snapshot. cbn [li_exists_snapshot healthy_load]. rewrite (al_snapshot _ _ Ha). destruct (s_snapshot_file s) as [bytes|].
  - cbn [negb li_stat_snapshot li_open_snapshot li_read_snapshot healthy_load].
    destruct (_ <? _); [by split|]. destruct (decode_snapshot bytes); [|by split].
    split; [done|]. destruct Ha as [? ? ? ? []]. constructor; [done..|by constructor].
  - split; [done|]. destruct Ha as [? ? ? ? []]. constructor; [done..|by constructor].
Qed.

Lemma replay_alike s s' state :
  alike s s' ->
  (replay_journal healthy_load state s').1 = (replay_journal healthy_load state s).1 /\
  same_report (s_recovery (replay_journal healthy_load state s).2)
    (s_recovery (replay_journal healthy_load state s').2).
Proof.
  intros [_ _ [M1 M2] (bytes & J1 & O1 & J2) [E1 E2 E3 E4 E5]].
  destruct s as [j sn op lk insp cl ls jb rec], s' as [j' sn' op' lk' insp' cl' ls' jb' rec'].
  cbn in M1, M2, J1, O1, J2, E1, E2, E3, E4, E5. subst. unfold replay_journal.
  destruct J2 as [[-> ->]|[-> ->]]; [|by split; [|constructor]].
  cbn -[replay_records size_of length bool_decide Z.of_nat Z.add negb Status_ok].
  change (negb true) with false. change (negb false) with true. cbn [orb].
  destruct (bool_decide (bytes = [])); [split; [done|constructor; cbn; congruence]|].
  set (rp := replay_records _ _ _ _). clearbody rp.
  destruct (negb (Status_ok _)); [split; [done|constructor; cbn; congruence]|].
  destruct (rp_torn rp); (split; [done|constructor; cbn; congruence]).
Qed.

Lemma load_alike s s' :
  alike s s' ->
  match Store_load healthy_load s with
  | (Ok state, t) => exists t', Store_load healthy_load s' = (Ok state, t') /\
      same_report (s_recovery t) (s_recovery t')
  | (Err status, _) => exists t', Store_load healthy_load s' = (Err status, t')
  end.
Proof.
  intros Ha. pose proof (al_closed _ _ Ha) as [C1 C2]. unfold Store_load. rewrite C1, C2.
  destruct (load_snapshot_alike s s' DurableState_default Ha) as [E1 H1].
  destruct (load_snapshot healthy_load _ s) as [[st state] s1], (load_snapshot healthy_load _ s') as [[st' state'] s1'].
  cbn [fst snd] in *. apply (inj2 pair) in E1 as [-> ->].
  destruct (negb (Status_ok st)); [by eexists|].
  destruct (replay_alike s1 s1' state H1) as [E2 H2].
  destruct (replay_journal healthy_load _ s1) as [[st2 state2] s2], (replay_journal healthy_load _ s1') as [[st2' state2'] s2'].
  cbn [fst snd] in *. apply (inj2 pair) in E2 as [-> ->].
  destruct (negb (Status_ok st2)); by eexists.
Qed.

(** C32: Inspection looks and touches nothing.  Whatever the directory holds and
    whatever the platform does, [pffctl inspect] leaves both files as they were
    and takes no lock, and exits with success or with the code of an unreadable
    store.  On a working platform it tells what the owner of the directory would
    find there: when the owner would load a state it prints that state with the
    owner's account of the recovery, torn tails included, and otherwise it
    reports the failure the owner would have. *)
Theorem inspection_exact open_io load_io journal snapshot :
  (exists exit s, inspect_offline open_io load_io journal snapshot = (exit, Some s) /\
     s_journal_file s = journal /\ s_snapshot_file s = snapshot /\ s_lock_held s = false /\
     (ex_code exit = 0 \/ ex_code exit = 4)) /\
  (forall create owner, Store_open healthy_open false create journal snapshot = Ok owner ->
     (inspect_offline healthy_open healthy_load journal snapshot).1 =
       match Store_load healthy_load owner with
       | (Ok state, owner) => mkExit 0 (inspection state (s_recovery owner)) []
       | (Err status, _) => failed 4 [] "inspect" status
       end).
Proof.
  split.
  - destruct (inspection_opens open_io journal snapshot) as (s & Ho & Hu).
    apply (inspection_loads load_io) in Hu as [U1 U2 U3 _]. unfold inspect_offline. rewrite Ho.
    destruct (Store_load load_io s) as [[state|status] s1]; cbn [snd] in *; eexists _, s1;
      (split; [reflexivity|]); repeat (split; [done|]); [by left|by right].
  - intros create s Hs. destruct (inspection_opens healthy_open journal snapshot) as (s' & Ho & _).
    pose proof (load_alike _ _ (alike_opened _ _ _ _ _ Hs Ho)) as Hl. unfold inspect_offline. rewrite Ho.
    destruct (Store_load healthy_load s) as [[state|status] t].
    + destruct Hl as (t' & -> & Hr). cbn [fst]. by rewrite (inspection_same_report _ _ _ Hr).
    + by destruct Hl as (t' & ->).
Qed.

(** ** Remote commands *)

Lemma canonical_reported d : decision_digest (reported d) = decision_digest d.
Proof.
  unfold decision_digest, canonical_bytes.
  assert (Hp : put_decision (reported d) = put_decision d) by (unfold put_decision, reported; destruct d; reflexivity).
  by rewrite Hp.
Qed.
Lemma print_decision_reported d : print_decision (reported d) = print_decision d.
Proof. unfold print_decision. rewrite canonical_reported. by destruct d. Qed.
Lemma print_promotion_reported p : print_promotion (reported_response p) = print_promotion p.
Proof.
  unfold print_promotion, reported_response. cbn [ps_decision ps_grant ps_attempt]. by rewrite print_decision_reported.
Qed.

(** How a program that reports a result ends. *)
Definition concluded {A} (name : string) (print : A -> list string) (banner : string) (r : Result A) : Exit :=
  match r with
  | Ok x => mkExit 0 (banner :: print x) []
  | Err status => failed 4 [banner] name status
  end.

(** What the network does for the program: the connection is made, both messages
    are sent, and the answers arrive in these chunks. *)
Record connected (argv : list string) (io : CtlIo) (hello answer : list (list byte)) : Prop := {
  cd_made : Result_ok (connect_loopback (co_port (client_options argv)) (ct_connection io)).1 = true;
  cd_greeted : Sending_ok (net_sent (ct_hello io)) = true;
  cd_sent : Sending_ok (net_sent (ct_call io)) = true;
  cd_hello : net_received (ct_hello io) = Ok <$> hello;
  cd_answer : net_received (ct_call io) = Ok <$> answer }.

(** A run of the program against a fresh session of a service, in the order of
    its messages, each cut in any way: it greets, is answered, sends one request,
    is answered, and exits as told; the service ends with the coordinator
    [fabric], having disturbed no other session. *)
Definition runs (argv : list string) (h : nat) (sv : Server) (env : Env) (exit : Exit) (fabric : Fabric) : Prop :=
  exists greeting, forall ok chunks, Sending_ok ok = true -> cuts chunks greeting ->
  exists sv1 hello, serve_session env ok h (Ok <$> chunks) sv = (sv1, [hello]) /\
  forall chunks1, cuts chunks1 hello ->
  exists request, forall ok' chunks', Sending_ok ok' = true -> cuts chunks' request ->
  exists sv2 answer, serve_session env ok' h (Ok <$> chunks') sv1 = (sv2, [answer]) /\
    sv_fabric sv2 = fabric /\ beside h sv sv2 /\
  forall chunks2, cuts chunks2 answer ->
  forall io, connected argv io chunks1 chunks2 -> ctl_main argv io = (Some exit, [greeting; request]).

Lemma nonce_wf argv : is_u64 (co_nonce (client_options argv)).
Proof. apply arg_u64_range. by vm_compute. Qed.

(** Whether the greeting was sent is all that matters of how. *)
Lemma connect_same options net net' :
  Sending_ok (net_sent net) = true -> Sending_ok (net_sent net') = true -> net_received net' = net_received net ->
  Client_connect options net' = Client_connect options net.
Proof.
  intros (st & H1 & E1)%sending_ok_inv (st' & H2 & E2)%sending_ok_inv Hr.
  unfold Client_connect, call_map, round_trip. by rewrite H1, H2, E1, E2, Hr.
Qed.

(** The commands, selected by their names. *)
Lemma command_evaluate argv b net cl :
  remote_command argv "evaluate" b net cl =
  report "evaluate" (Client_evaluate (promotion_request argv (ha_authority (cl_hello cl)))) print_decision b net cl.
Proof. reflexivity. Qed.
Lemma command_promote argv b net cl :
  remote_command argv "promote" b net cl =
  report "promote" (Client_promote (promotion_request argv (ha_authority (cl_hello cl)))) print_promotion b net cl.
Proof. reflexivity. Qed.
Lemma command_lineage argv b net cl :
  remote_command argv "lineage" b net cl =
  report "lineage" (Client_lineage (arg_u64 argv "--limit" 32)) print_lineage b net cl.
Proof. reflexivity. Qed.
Lemma command_fence argv b net cl :
  let path := Id_from_value (arg_u64 argv "--path" 0) in
  remote_command argv "fence" b net cl =
  report "fence" (Client_fence_path path Reason_path_fenced) (fun _ => [line ["fenced="; show_id path]]) b net cl.
Proof. reflexivity. Qed.

Section remote.
Context (argv : list string) (h : nat) (sv : Server) (env : Env).
Context (Hg : greets sv) (Hr : ready Ph_hello_recv h (Session_new max_frame_payload) sv)
  (Hb : 0 < so_max_requests_per_session (sv_options sv)).

(** The banner names the session and the coordinator. *)
Definition banner : string := print_session (welcome sv).

Lemma runs_call {A} cmd name (call : Call A) print result fabric :
  command argv = Some cmd -> String.eqb cmd "inspect" = false ->
  (forall net d, remote_command argv cmd banner net (welcomed sv d) = report name call print banner net (welcomed sv d)) ->
  (forall s sv' cl, linked h s sv' cl -> affordable sv' cl -> sv_fabric sv' = sv_fabric sv ->
     exchanges call h sv' cl env result fabric) ->
  runs argv h sv env (concluded name print banner result) fabric.
Proof.
  intros Hcmd Hni Hrep Hcall. pose proof (nonce_wf argv) as Hn.
  exists (frame_bytes (greeting (client_options argv))). intros ok chunks Hok Hc.
  destruct (serve_greeting env ok h sv (client_options argv) chunks Hn Hg Hr Hc Hok)
    as (sv1 & d & Hs & Hw & Hd & Hb1 & Hf & _).
  exists sv1, (frame_bytes (welcome_frame sv)). split; [exact Hs|]. intros chunks1 Hc1.
  destruct (connect_welcomed (client_options argv) (mkNet (Sending_returned ok_status) (Ok <$> chunks1) ok_status) sv chunks1
    Hn Hg eq_refl eq_refl Hc1) as (d' & Hcon & Hd').
  pose proof (welcomed_linked h sv sv1 d d' Hg Hw Hd Hd') as Hl.
  assert (Ha : affordable sv1 (welcomed sv d')).
  { destruct Hb1 as (Ho & _). unfold affordable. rewrite Ho. cbn. destruct Hg as [_ _ [_ Hmax]].
    split; [lia|by vm_compute]. }
  destruct (Hcall _ _ _ Hl Ha Hf) as (request & _ & Hserve). exists request. intros ok' chunks' Hok' Hc'.
  destruct (Hserve ok' chunks' Hok' Hc') as (sv2 & s2 & answer & Hs2 & Hf2 & Hb2 & Hans).
  exists sv2, answer. split; [exact Hs2|]. split; [exact Hf2|]. split; [by eapply beside_trans|].
  intros chunks2 Hc2 io [I1 I2 I3 I4 I5]. destruct (Hans (ct_call io) chunks2 I3 I5 Hc2) as (cl' & Hcl & _).
  unfold ctl_main, Client_dial. rewrite Hcmd, Hni. destruct (connect_loopback _ _).1 as [fd|]; [|done].
  rewrite (connect_same _ (mkNet (Sending_returned ok_status) (Ok <$> chunks1) ok_status) (ct_hello io)), Hcon by done.
  change (cl_hello (welcomed sv d')) with (welcome sv). fold banner. rewrite Hrep. unfold report. rewrite Hcl.
  by destruct result.
Qed.
End remote.

(** The work statistics the wire does not carry are not printed. *)
Lemma concluded_decision name b r :
  concluded name print_decision b (seen reported r) = concluded name print_decision b (seen (fun d => d) r).
Proof. destruct r; [|done]. unfold concluded, seen. by rewrite print_decision_reported. Qed.
Lemma concluded_promotion name b r :
  concluded name print_promotion b (seen (fun a => reported_response (promote_response a)) r) =
  concluded name print_promotion b (seen promote_response r).
Proof. destruct r; [|done]. unfold concluded, seen. by rewrite print_promotion_reported. Qed.

Lemma promotion_request_wf argv sv :
  greets sv -> request_wf (promotion_request argv (ha_authority (welcome sv))).
Proof.
  intros Hg. destruct (welcome_wf sv Hg) as (_ & _ & _ & _ & _ & (A1 & A2 & A3 & A4 & A5 & A6) & _).
  assert (Hz : is_u64 0) by (unfold_ints; lia).
  assert (H0 : forall T, Id_wf (@Id_absent T)) by (intros T; exact Hz).
  assert (Hi : forall T key, @Id_wf T (Id_from_value (arg_u64 argv key 0))) by (intros; by apply arg_u64_range).
  unfold request_wf. cbn. repeat (split; [first [done|apply Hi|apply H0|assumption]|]). apply H0.
Qed.

(** C14: The tool tells what the coordinator did.  When [pffctl] is run with a
    command against a service that has just accepted its connection, it writes a
    greeting and one request and exits, however the messages are cut on their
    way; the coordinator behind the service has then executed exactly the
    operation asked for, with the identities read from the arguments, under
    its own authority; and what the tool prints is the session it was given
    followed by the coordinator's decision, lineage or acknowledgement, or, with
    a failing exit, the coordinator's refusal. *)
Theorem tool_transparent argv h sv env :
  greets sv -> ready Ph_hello_recv h (Session_new max_frame_payload) sv ->
  0 < so_max_requests_per_session (sv_options sv) ->
  let incumbent := Id_from_value (arg_u64 argv "--incumbent" 0) in
  let set := Id_from_value (arg_u64 argv "--set" 0) in
  let path := Id_from_value (arg_u64 argv "--path" 0) in
  (command argv = Some "evaluate"%string ->
     let r := Fabric_evaluate incumbent IncumbentCondition_failed set (sv_fabric sv) in
     runs argv h sv env (concluded "evaluate" print_decision (banner sv) (seen (fun d => d) r.1)) r.2) /\
  (command argv = Some "promote"%string ->
     let r := begin_promotion env incumbent IncumbentCondition_failed set (sv_fabric sv) in
     runs argv h sv env (concluded "promote" print_promotion (banner sv) (seen promote_response r.1)) r.2) /\
  (command argv = Some "fence"%string ->
     let r := fence_path env path Reason_path_fenced (sv_fabric sv) in
     runs argv h sv env
       (concluded "fence" (fun _ => [line ["fenced="; show_id path]]) (banner sv) (carried_result r.1)) r.2) /\
  (command argv = Some "lineage"%string ->
     runs argv h sv env
       (concluded "lineage" print_lineage (banner sv)
          (Ok (lineage_response (lineage_bound (arg_u64 argv "--limit" 32)) (sv_fabric sv)))) (sv_fabric sv)).
Proof.
  intros Hg Hr Hb incumbent set path. pose proof (promotion_request_wf argv sv Hg) as Hq.
  assert (HT : forall sv', sv_fabric sv' = sv_fabric sv -> Typed (sv_fabric sv')).
  { intros sv' ->. apply Hg. }
  split; [|split; [|split]]; intros Hc; [intros r..|].
  - rewrite <- concluded_decision. refine (runs_call argv h sv env Hg Hr Hb "evaluate" "evaluate"
      (Client_evaluate (promotion_request argv (ha_authority (welcome sv)))) print_decision _ _ Hc eq_refl
      (fun net d => command_evaluate argv (banner sv) net (welcomed sv d)) _).
    intros s sv' cl Hl Ha Hf. unfold r. rewrite <- Hf.
    exact (remote_evaluate h s sv' cl env Hl Ha (HT sv' Hf) _ Hq).
  - rewrite <- concluded_promotion. refine (runs_call argv h sv env Hg Hr Hb "promote" "promote"
      (Client_promote (promotion_request argv (ha_authority (welcome sv)))) print_promotion _ _ Hc eq_refl
      (fun net d => command_promote argv (banner sv) net (welcomed sv d)) _).
    intros s sv' cl Hl Ha Hf. unfold r. rewrite <- Hf.
    exact (remote_promote h s sv' cl env Hl Ha (HT sv' Hf) _ Hq).
  - refine (runs_call argv h sv env Hg Hr Hb "fence" "fence" (Client_fence_path path Reason_path_fenced)
      _ _ _ Hc eq_refl (fun net d => command_fence argv (banner sv) net (welcomed sv d)) _).
    intros s sv' cl Hl Ha Hf. unfold r. rewrite <- Hf. refine (remote_fence path Reason_path_fenced h s sv' cl env Hl Ha _).
    apply arg_u64_range. by vm_compute.
  - refine (runs_call argv h sv env Hg Hr Hb "lineage" "lineage" (Client_lineage (arg_u64 argv "--limit" 32))
      print_lineage _ _ Hc eq_refl (fun net d => command_lineage argv (banner sv) net (welcomed sv d)) _).
    intros s sv' cl Hl Ha Hf. rewrite <- Hf.
    refine (remote_lineage h s sv' cl env Hl Ha (HT sv' Hf) _ _). apply arg_u64_range. by vm_compute.
Qed.

(** [pffctl promote] against a service with a policy, obligations and a set. *)
Definition promote_argv : list string := ["pffctl"; "--port"; "7421"; "promote"; "--incumbent"; "10"; "--set"; "1"]%string.

Lemma tool_transparent_witness :
  command promote_argv = Some "promote"%string /\
  let r := begin_promotion healthy_env (Id_from_value 10) IncumbentCondition_failed (Id_from_value 1)
             (sv_fabric accepted_server) in
  runs promote_argv 0 accepted_server healthy_env
    (concluded "promote" print_promotion (banner accepted_server) (seen promote_response r.1)) r.2.
Proof.
  split; [reflexivity|].
  refine (proj1 (proj2 (tool_transparent promote_argv 0 accepted_server healthy_env accepted_greets _ _)) eq_refl).
  - by split.
  - by vm_compute.
Defined.

(** Its exit there: the grant. *)
Example promote_prints :
  let r := begin_promotion healthy_env (Id_from_value 10) IncumbentCondition_failed (Id_from_value 1)
             (sv_fabric accepted_server) in
  ex_code (concluded "promote" print_promotion (banner accepted_server) (seen promote_response r.1)) = 0 /\
  last (ex_out (concluded "promote" print_promotion (banner accepted_server) (seen promote_response r.1))) =
    Some "grant=0000000000000001 attempt=1"%string.
Proof. vm_compute. by split. Qed.
