(* ===== verification/Daemon.v ===== *)
(** * The coordinator daemon ([apps/pffd.cpp])

    [pffd] up to the point where it serves, as a function of its arguments, of
    the directory it owns and of what the platform does; and its exit once the
    accept loop has returned.  Between the two the service runs ([Server]). *)

From S2P Require Import Prelude.
From S2P Require Import Ids.
From S2P Require Import Limits.
From S2P Require Import Status.
From S2P Require Import Model.
From S2P Require Import Records.
From S2P Require Import Bytes.
From S2P Require Import Store.
From S2P Require Import Fabric.
From S2P Require Import Platform.
From S2P Require Import Net.
From S2P Require Import Server.
From S2P Require Import Args.
From S2P Require Import Tools.

Local Open Scope string_scope.

Definition daemon_usage : list string :=
  ["usage: pffd --dir <state-dir> [--port N] [--bind 127.0.0.1] [--no-shutdown] [--provenance real|synthetic]"].

(** [--provenance], as both programs that open a coordinator read it. *)
Definition fabric_options (argv : list string) (directory : string) : FabricOptions :=
  let defaults := FabricOptions_default directory in
  mkFabricOptions directory
    (if String.eqb (arg_or argv "--provenance" "synthetic") "real" then Provenance_real
     else Provenance_synthetic)
    (fo_max_retained_attempts defaults) (fo_enable_compaction defaults) (fo_compaction_journal_bytes defaults).

Definition server_options (argv : list string) : ServerOptions :=
  mkServerOptions (String.list_byte_of_string (arg_or argv "--bind" "127.0.0.1"))
    (wrap_u16 (arg_u64 argv "--port" 0)) (so_max_sessions ServerOptions_default)
    (so_max_requests_per_session ServerOptions_default) (negb (flag_present argv "--no-shutdown")).

(** What the platform does while the daemon starts. *)
Record DaemonIo := mkDaemonIo {
  da_env : Env;
  da_open : OpenIo;
  da_load : LoadIo;
  da_draws : Draws;
  da_files : string -> option (list byte) * option (list byte);
  da_listen : ListenIo }.

Definition print_identity (i : FabricIdentity) : string :=
  line ["IDENTITY epoch="; show_number (fi_epoch i); " boot="; show_id (fi_boot i);
        " incarnation="; show_id (fi_incarnation i); " restart="; decimal (fi_restart_count i)].

(** The daemon has exited, or serves; the lines it has printed by then. *)
Inductive Daemon :=
  | Dm_exited (exit : Exit)
  | Dm_serving (out : list string) (server : Server).

Definition daemon_start (argv : list string) (io : DaemonIo) : Daemon :=
  match arg_value argv "--dir" with
  | None => Dm_exited (mkExit 2 [] daemon_usage)
  | Some directory =>
      let (journal, snapshot) := da_files io directory in
      match Fabric_open (da_env io) (fabric_options argv directory) (da_open io) (da_load io)
              (platform_entropy (da_draws io)) journal snapshot with
      | Err status => Dm_exited (failed 3 [] "pffd: cannot open state directory" status)
      | Ok fabric =>
          let options := server_options argv in
          let '(listener, port, _) := listen_loopback (so_port options) (da_listen io) in
          match Server_start options fabric (Result_status listener) with
          | Err status => Dm_exited (failed 4 [] "pffd: cannot start service" status)
          | Ok server =>
              Dm_serving [line ["LISTENING "; decimal (default 0 port)]; print_identity (fb_identity fabric)] server
          end
      end
  end.

(** [run] has returned. *)
Definition daemon_returned (out : list string) (status : Status) : Exit :=
  if negb (Status_ok status) then failed 5 out "pffd: service stopped with error" status
  else mkExit 0 ((out ++ ["STOPPED"])%list) [].
