(* ===== verification/DaemonTheorems.v ===== *)
(** * The daemon, from its start to its exit *)

From S2P Require Import Prelude.
From S2P Require Import Ids.
From S2P Require Import Limits.
From S2P Require Import Status.
From S2P Require Import Records.
From S2P Require Import Bytes.
From S2P Require Import Store.
From S2P Require Import Fabric.
From S2P Require Import FabricProps.
From S2P Require Import FabricTheorems.
From S2P Require Import TypedProps.
From S2P Require Import TypedTheorems.
From S2P Require Import Platform.
From S2P Require Import PlatformTheorems.
From S2P Require Import Net.
From S2P Require Import Protocol.
From S2P Require Import ProtocolProps.
From S2P Require Import Server.
From S2P Require Import ServerProps.
From S2P Require Import ServerTheorems.
From S2P Require Import Stopping.
From S2P Require Import ClientProps.
From S2P Require Import Handshake.
From S2P Require Import Args.
From S2P Require Import Tools.
From S2P Require Import Daemon.

(** A daemon that serves has opened the directory and is listening. *)
Lemma daemon_start_inv argv io directory out sv :
  arg_value argv "--dir" = Some directory -> daemon_start argv io = Dm_serving out sv ->
  exists fabric listener port calls,
    Fabric_open (da_env io) (fabric_options argv directory) (da_open io) (da_load io)
      (platform_entropy (da_draws io)) (da_files io directory).1 (da_files io directory).2 = Ok fabric /\
    listen_loopback (so_port (server_options argv)) (da_listen io) = (Ok listener, Some port, calls) /\
    Server_start (server_options argv) fabric ok_status = Ok sv /\
    out = [line ["LISTENING "; decimal port]; print_identity (fb_identity fabric)]%string.
Proof.
  intros Hd H. unfold daemon_start in H. rewrite Hd in H.
  destruct (da_files io directory) as [journal snapshot]. cbn [fst snd].
  destruct (Fabric_open _ _ _ _ _ _ _) as [fabric|]; [|done].
  pose proof (listen_result (so_port (server_options argv)) (da_listen io)) as Hlisten.
  destruct (listen_loopback _ _) as [[[listener|st] port] calls]; cbn [Result_status] in H.
  - destruct (Server_start _ fabric _) as [sv'|] eqn:Hs; [|done]. injection H as <- <-.
    destruct Hlisten as [-> _]. by exists fabric, listener, (ln_port (da_listen io)), calls.
  - unfold Server_start in H. destruct (_ || _); [done|]. destruct Hlisten as [_ Hst]. by rewrite Hst in H.
Qed.

Lemma server_options_bounds argv :
  so_max_sessions (server_options argv) = max_sessions /\
  so_max_requests_per_session (server_options argv) = default_max_requests_per_session.
Proof. done. Qed.

(** The commands of accepted requests keep the coordinator within its types. *)
Lemma obeys_commanded log f : commands_wf log -> commanded f (obeys log f).
Proof.
  revert f. induction log as [|a log IH]; intros f Hc; [apply rtc_refl|].
  assert (Hrest : forall g, commanded g (obeys log g)).
  { intros g. apply IH. intros x c Hx. apply (Hc x c). by right. }
  cbn [obeys foldl]. destruct (ac_command a) as [c|] eqn:Hcmd; cbn [obey]; [|apply Hrest].
  eapply rtc_l; [|apply Hrest]. exists (ac_env a), c. split; [|done]. apply (Hc a c); [by left|done].
Qed.

(** Accepting a connection gives a session that awaits a greeting. *)
Lemma accepts_ready h sv :
  sv_running sv = Ru_loop -> sv_listening sv = true -> sv_stop sv = false ->
  size_of (sv_sessions sv) < so_max_sessions (sv_options sv) -> greets sv ->
  sv_running (accept_connection h sv) = Ru_loop /\
  ready Ph_hello_recv h (Session_new max_frame_payload) (accept_connection h sv) /\
  greets (accept_connection h sv).
Proof.
  intros Hr Hl Hst Hroom [H1 H2 H3]. unfold accept_connection. cbn [Nat.iter nat_rect].
  assert (E1 : run_step (Ok h) true sv = sv <| sv_running := Ru_accepted h |>)
    by (unfold run_step; by rewrite Hr, Hst, Hl).
  assert (E2 : forall sv1, sv_running sv1 = Ru_accepted h ->
    size_of (sv_sessions sv1) < so_max_sessions (sv_options sv1) ->
    run_step (Ok h) true sv1 = (sv_stat (fun s => s <| ss_connections_accepted ::= bump |>)
      (sv1 <| sv_sessions ::= fun l => l ++ [h] |>)) <| sv_running := Ru_pushed h |>).
  { intros sv1 Hr1 Hroom1. unfold run_step. rewrite Hr1.
    destruct (Z.leb_spec (so_max_sessions (sv_options sv1)) (size_of (sv_sessions sv1))); [lia|done]. }
  rewrite E1. pose (sv1 := sv <| sv_running := Ru_accepted h |>). fold sv1.
  rewrite (E2 sv1 eq_refl Hroom).
  split; [done|]. split; [|by constructor]. split; [apply lookup_insert_eq|exact Hst].
Qed.


(** A daemon started over an empty directory and told to stop before anyone
    connects. *)
Definition daemon_argv : list string := ["pffd"; "--dir"; "state"; "--port"; "7421"]%string.
Definition daemon_io : DaemonIo :=
  mkDaemonIo healthy_env healthy_open healthy_load (mkDraws 1 2 3 4 5 6 7 8) (fun _ => (None, None))
    (mkListenIo 5 0 0 0 7421 0 0).
Definition daemon_out : list string := match daemon_start daemon_argv daemon_io with Dm_serving out _ => out | _ => [] end.
Definition daemon_server : Server :=
  match daemon_start daemon_argv daemon_io with Dm_serving _ sv => sv | _ => sample_server end.

Lemma serving_pair d :
  match d with Dm_serving _ _ => true | _ => false end = true ->
  d = Dm_serving (match d with Dm_serving out _ => out | _ => [] end)
        (match d with Dm_serving _ sv => sv | _ => sample_server end).
Proof. by destruct d. Qed.

Definition daemon_stopping : Server := request_stop daemon_server.
Definition daemon_past : Server := run_step (Err ok_status) true daemon_stopping.
Definition daemon_waiting : Server := run_step (Err ok_status) true daemon_past.
Definition daemon_over : Server := run_step (Err ok_status) true daemon_waiting.

Lemma daemon_winds : nsteps (winds Sigpipe_default) 3 (∅, daemon_stopping) (∅, daemon_over).
Proof.
  refine (nsteps_l _ _ _ (∅, daemon_past) _ (w_run_on _ _ daemon_stopping _ _ _) _); [by vm_compute..|].
  refine (nsteps_l _ _ _ (∅, daemon_waiting) _ (w_run_on _ _ daemon_past _ _ _) _); [by vm_compute..|].
  refine (nsteps_l _ _ _ (∅, daemon_over) _ (w_run_on _ _ daemon_waiting _ _ _) _); [by vm_compute..|].
  apply nsteps_O.
Qed.

