(* ===== verification/Host.v ===== *)
(** * The scenario worker ([apps/pff_host.cpp])

    [pff_host] opens a state directory, runs one bounded scenario against the
    coordinator in process and exits, or kills itself at a requested point.  It is
    a function of its arguments, of the directory and of what the platform does;
    besides its exit it yields the coordinator as it was at the end, whose files
    are what the next process finds. *)

From S2P Require Import Prelude.
From S2P Require Import Ids.
From S2P Require Import Limits.
From S2P Require Import Status.
From S2P Require Import Authority.
From S2P Require Import Model.
From S2P Require Import Decision.
From S2P Require Import Records.
From S2P Require Import Bytes.
From S2P Require Import Wire.
From S2P Require Import Store.
From S2P Require Import Fabric.
From S2P Require Import Platform.
From S2P Require Import Args.
From S2P Require Import Tools.
From S2P Require Import Daemon.

Local Open Scope string_scope.

(** ** Preparing *)

Record Prepared := mkPrepared {
  pr_set : AlternateSetId;
  pr_set_generation : Generation;
  pr_authority : AuthorityVector;
  pr_paths : list PathId;
  pr_incumbent : PathId }.

Definition next_generation (g : Generation) : Generation := Id_from_value (wrap_u64 (Id_value g + 1)).

Definition host_policy (generation : Generation) : FailoverPolicy :=
  mkFailoverPolicy generation 4 1 1 1 0 default_search_limit 256 4 false true.

Definition host_obligations (generation : Generation) : ServiceObligations :=
  mkServiceObligations generation 3 500000 5000000 true true true.

(** The path of an index, and the candidate made for it. *)
Definition host_path (index : Z) : PathId := Id_from_value (wrap_u64 (1000 + index)).

Definition host_candidate (authority : AuthorityVector) (index : Z) : AlternateCandidate :=
  let path := host_path index in
  mkAlternateCandidate path (wrap_u32 index) false
    (mkPathEvidence (Id_from_value (Id_value path)) path Freshness_fresh Eligibility_eligible
       Reachability_reachable CapacityClass_sufficient 3 (i64_of_u64 (wrap_u64 (900000 - index)))
       (i64_of_u64 (wrap_u64 (100 + index))) 1 authority Provenance_synthetic)
    authority.

(** The loop over the indices, which leaves the incumbent out. *)
Definition host_candidates (authority : AuthorityVector) (incumbent : PathId) (count : Z)
    : list AlternateCandidate :=
  List.filter (fun c => negb (Id_eqb (cand_path c) incumbent))
    ((fun i => host_candidate authority (Z.of_nat i)) <$> seq 0 (Z.to_nat count)).

Section scenario.
Context (env : Env).

Definition prepare (set : AlternateSetId) (count : Z) (incumbent : PathId) : Op Prepared :=
  with! f in
  let before := Fabric_authority f in
  let! _ := set_authority env (AuthorityVector_default
              <| av_topology := next_generation (av_topology before) |>
              <| av_path_authority := next_generation (av_path_authority before) |>) in
  let! _ := apply_policy env (host_policy (next_generation (av_policy before))) in
  let! _ := apply_obligations env (host_obligations (next_generation (av_obligations before))) in
  with! f in
  let authority := Fabric_authority f in
  let generation := match Fabric_alternate_set set f with
                    | Ok existing => next_generation (set_generation existing)
                    | Err _ => Id_from_value 1
                    end in
  let candidates := host_candidates authority incumbent count in
  let! _ := apply_alternate_set env (mkAlternateSet set generation SetCompleteness_complete candidates) in
  let! _ := for_each candidates (fun c => apply_evidence (cand_evidence c)) in
  op_return (mkPrepared set generation authority (cand_path <$> candidates) incumbent).

(** ** Promoting *)

Definition host_effect (authority : AuthorityVector) (path : PathId) (offset sequence : Z) : EffectEvidence :=
  mkEffectEvidence (Id_from_value (wrap_u64 (Id_value path + offset))) path sequence true authority
    Provenance_synthetic.

(** Where the scenario was when it ended. *)
Inductive Stage :=
  | St_unprepared (s : Status)
  | St_failed (s : Status)
  | St_refused (d : PromotionDecision)
  | St_granted (attempt : AttemptId) (path : PathId)          (* killed after the grant *)
  | St_effect_failed (attempt : AttemptId) (path : PathId) (s : Status)
  | St_effected (attempt : AttemptId) (path : PathId)         (* killed after the effect *)
  | St_promoted (attempt : AttemptId) (path : PathId).

Definition promote (crash_stage : string) (set : AlternateSetId) (count : Z) (incumbent : PathId) (f : Fabric)
    : Stage * Fabric :=
  match prepare set count incumbent f with
  | (Err status, f) => (St_unprepared status, f)
  | (Ok _, f) =>
      match begin_promotion env incumbent IncumbentCondition_failed set f with
      | (Err status, f) => (St_failed status, f)
      | (Ok authorization, f) =>
          if negb (pa_authorized authorization) then (St_refused (pa_decision authorization), f)
          else
            let attempt := gr_attempt (pa_grant authorization) in
            let selected := gr_path (pa_grant authorization) in
            if String.eqb crash_stage "after-grant" then (St_granted attempt selected, f)
            else
              match record_effect env attempt (host_effect (Fabric_authority f) selected 900000 2) f with
              | (Err status, f) => (St_effect_failed attempt selected status, f)
              | (Ok _, f) =>
                  if String.eqb crash_stage "after-effect" || String.eqb crash_stage "before-ack"
                  then (St_effected attempt selected, f)
                  else (St_promoted attempt selected, f)
              end
      end
  end.

Definition print_failure (prefix : string) (s : Status) : string :=
  line [prefix; " "; Code_to_string (status_code s); " "; Reason_to_string (status_reason s)].

(** What is printed, and the exit, at the end of each stage; 9 is the exit of the
    process that killed itself. *)
Definition promote_exit (stage : Stage) : Exit :=
  let granted attempt path := line ["GRANTED attempt="; show_number attempt; " selected="; show_id path] in
  match stage with
  | St_unprepared status => failed 4 [] "prepare" status
  | St_failed status => mkExit 6 [print_failure "PROMOTE error" status] []
  | St_refused d =>
      mkExit 0 [line ["PROMOTE refused "; PromotionOutcome_to_string (dec_outcome d); " ";
                      Reason_to_string (dec_reason d)]] []
  | St_granted attempt path => mkExit 9 [granted attempt path] []
  | St_effect_failed attempt path status =>
      mkExit 5 [granted attempt path; print_failure "EFFECT failed" status] []
  | St_effected attempt path => mkExit 9 [granted attempt path] []
  | St_promoted attempt path =>
      mkExit 0 [granted attempt path;
                line ["PROMOTED attempt="; show_number attempt; " selected="; show_id path]] []
  end.

(** ** Verifying *)

Definition print_summary (f : Fabric) : list string :=
  let identity := fb_identity f in
  let stats := fb_stats f in
  let recovery := Fabric_recovery f in
  ([line ["EPOCH "; show_number (fi_epoch identity)];
    line ["BOOT "; show_id (fi_boot identity)];
    line ["INCARNATION "; show_id (fi_incarnation identity)];
    line ["RESTARTS "; decimal (fi_restart_count identity)];
    line ["POLICY_INSTALLED "; flag (Fabric_policy_installed f)];
    line ["OBLIGATIONS_INSTALLED "; flag (Fabric_obligations_installed f)];
    line ["ACTIVE_ATTEMPTS "; decimal (Fabric_active_attempt_count f)];
    line ["AUTHORIZED "; decimal (fs_promotions_authorized stats)];
    line ["COMMITTED "; decimal (fs_promotions_committed stats)];
    line ["STALE_COMPLETIONS_REJECTED "; decimal (fs_stale_completions_rejected stats)];
    line ["RECOVERY snapshot="; flag (rr_snapshot_loaded recovery);
          " torn="; flag (rr_torn_tail_present recovery);
          " replayed="; decimal (rr_records_replayed recovery);
          " truncated_bytes="; decimal (rr_truncated_bytes recovery)]]
   ++ ((fun a => line ["ATTEMPT "; show_number (at_id a); " "; AttemptState_to_string (at_state a); " ";
                       Reason_to_string (at_terminal_reason a); " selected="; show_id (at_selected a);
                       " epoch="; show_number (at_epoch a)]) <$> Fabric_attempts f)
   ++ ((fun e => line ["LINEAGE "; PromotionOutcome_to_string (le_outcome e);
                       " attempt="; show_number (le_attempt e); " selected="; show_id (le_selected e);
                       " reason="; Reason_to_string (le_reason e)])
       <$> Fabric_lineage (Z.to_nat max_lineage) f)
   ++ ((fun x => line ["FENCE attempt="; show_number (fr_attempt x); " path="; show_id (fr_path x);
                       " reason="; Reason_to_string (fr_reason x)]) <$> Fabric_fences f))%list.

Definition print_probe (r : Result PromotionAuthorization) : string :=
  match r with
  | Err status => print_failure "PROBE error" status
  | Ok a =>
      if pa_authorized a then
        line ["PROBE AUTHORIZED selected="; show_id (gr_path (pa_grant a));
              " attempt="; show_number (gr_attempt (pa_grant a))]
      else line ["PROBE refused "; PromotionOutcome_to_string (dec_outcome (pa_decision a)); " ";
                 Reason_to_string (dec_reason (pa_decision a))]
  end.

Definition verify (probe_set : Z) (probe_incumbent : PathId) (f : Fabric) : Exit * Fabric :=
  let summary := print_summary f in
  if negb (Z.eqb probe_set 0) then
    let (probe, f) := begin_promotion env probe_incumbent IncumbentCondition_failed (Id_from_value probe_set) f in
    (mkExit 0 ((summary ++ [print_probe probe])%list) [], f)
  else (mkExit 0 summary [], f).

Definition late_effect (attempt : AttemptId) (path : PathId) (f : Fabric) : Exit * Fabric :=
  let (r, f) := record_effect env attempt (host_effect (Fabric_authority f) path 500000 77) f in
  (mkExit 0 [print_failure "LATE-EFFECT" (Result_status r)] [], f).
End scenario.

(** ** The program *)

Definition host_usage : list string :=
  ["usage: pff_host --dir D <command> [args]"; "  prepare --set S [--paths N] [--incumbent I]";
   "  promote --set S [--paths N] [--incumbent I] [--crash stage]";
   "  verify [--probe-set S] [--probe-incumbent I]"; "  late-effect --attempt A --path P"; "  hold";
   "  try-open"].

Record HostIo := mkHostIo {
  ho_env : Env;
  ho_open : OpenIo;
  ho_load : LoadIo;
  ho_draws : Draws;
  ho_files : string -> option (list byte) * option (list byte) }.

(** A command run against the open coordinator. *)
Definition host_command (argv : list string) (cmd : string) (env : Env) (f : Fabric) : Exit * Fabric :=
  let set := Id_from_value (arg_u64 argv "--set" 1) in
  let count := arg_u64 argv "--paths" 4 in
  let incumbent := Id_from_value (arg_u64 argv "--incumbent" 1) in
  if String.eqb cmd "hold" then
    (mkExit 0 [line ["HELD epoch="; show_number (fi_epoch (fb_identity f));
                     " boot="; show_id (fi_boot (fb_identity f))]] [], f)
  else if String.eqb cmd "prepare" then
    match prepare env set count incumbent f with
    | (Err status, f) => (failed 4 [] "prepare" status, f)
    | (Ok p, f) =>
        (mkExit 0 [line ["PREPARED set="; show_number (pr_set p);
                         " generation="; show_number (pr_set_generation p);
                         " paths="; decimal (size_of (pr_paths p))]] [], f)
    end
  else if String.eqb cmd "verify" then
    verify env (arg_u64 argv "--probe-set" 0) (Id_from_value (arg_u64 argv "--probe-incumbent" 1)) f
  else if String.eqb cmd "late-effect" then
    late_effect env (Id_from_value (arg_u64 argv "--attempt" 1)) (Id_from_value (arg_u64 argv "--path" 1000)) f
  else if String.eqb cmd "promote" then
    let (stage, f) := promote env (arg_or argv "--crash" "none") set count incumbent f in
    (promote_exit stage, f)
  else (mkExit 2 [] [line ["pff_host: unknown command "; cmd]], f).

Definition host_main (argv : list string) (io : HostIo) : Exit * option Fabric :=
  match command argv, arg_value argv "--dir" with
  | Some cmd, Some directory =>
      let (journal, snapshot) := ho_files io directory in
      match Fabric_open (ho_env io) (fabric_options argv directory) (ho_open io) (ho_load io)
              (platform_entropy (ho_draws io)) journal snapshot with
      | Err status =>
          (if String.eqb cmd "try-open" then mkExit 0 [print_failure "OPEN denied" status] []
           else failed 3 [] "pff_host: cannot open" status, None)
      | Ok f =>
          if String.eqb cmd "try-open" then (mkExit 0 ["OPEN ok"] [], Some f)
          else let (exit, f) := host_command argv cmd (ho_env io) f in (exit, Some f)
      end
  | _, _ => (mkExit 2 [] host_usage, None)
  end.
