(* ===== verification/HostTheorems.v ===== *)
(** * What the scenario worker leaves behind

    A promotion carried out by [pff_host] and killed at any of its points is
    found by the next process as far as it got: interrupted after its grant,
    committed after its effect. *)

From S2P Require Import Prelude.
From S2P Require Import Ids.
From S2P Require Import Limits.
From S2P Require Import Status.
From S2P Require Import Authority.
From S2P Require Import Model.
From S2P Require Import Decision.
From S2P Require Import Records.
From S2P Require Import Selector.
From S2P Require Import Bytes.
From S2P Require Import Canonical.
From S2P Require Import Wire.
From S2P Require Import WireProps.
From S2P Require Import Store.
From S2P Require Import StoreProps.
From S2P Require Import StateProps.
From S2P Require Import SnapshotProps.
From S2P Require Import LoadProps.
From S2P Require Import TableProps.
From S2P Require Import StoreTheorems.
From S2P Require Import Fabric.
From S2P Require Import Coordinator.
From S2P Require Import FabricProps.
From S2P Require Import DurableProps.
From S2P Require Import FabricTheorems.
From S2P Require Import DurableTheorems.
From S2P Require Import Platform.
From S2P Require Import TypedTheorems.
From S2P Require Import PlatformTheorems.
From S2P Require Import Args.
From S2P Require Import Tools.
From S2P Require Import Daemon.
From S2P Require Import Host.

(** ** Operations without an attempt in flight *)

(** While no attempt is in flight, an operation that fences has nothing to fence:
    it alters neither the attempts nor their counter. *)
Definition calm (f g : Fabric) : Prop :=
  fb_attempts g = fb_attempts f /\ ds_attempt_sequence (fb_state g) = ds_attempt_sequence (fb_state f).

Definition stays {A} (m : Op A) (f : Fabric) : Prop := active_ids f = [] -> calm f (m f).2.

Lemma calm_active f g : calm f g -> active_ids g = active_ids f.
Proof. intros [Ha _]. unfold active_ids, attempt_entries. by rewrite Ha. Qed.

Lemma calm_trans f g h : calm f g -> calm g h -> calm f h.
Proof. intros [A1 S1] [A2 S2]. split; congruence. Qed.

Lemma stays_refl {A} (m : Op A) f : (m f).2 = f -> stays m f.
Proof. intros E _. rewrite E. by split. Qed.
Lemma stays_fail {A} c r d f : stays (@fail_with A c r d) f.
Proof. by apply stays_refl. Qed.
Lemma stays_modify h f : calm f (h f) -> stays (op_modify h) f.
Proof. by intros Hh _. Qed.
Lemma stays_bind {A B} (m : Op A) (k : A -> Op B) f :
  stays m f -> (forall x f1, stays (k x) f1) -> stays (op_bind m k) f.
Proof.
  intros Hm Hk Ha. unfold op_bind. specialize (Hm Ha). destruct (m f) as [[x|s] f1]; cbn [snd] in Hm; [|exact Hm].
  eapply calm_trans; [exact Hm|]. apply Hk. by rewrite (calm_active _ _ Hm).
Qed.
Lemma stays_read {A} (k : Fabric -> Op A) f : stays (k f) f -> stays (op_read k) f.
Proof. done. Qed.
Lemma stays_if {A} (b : bool) (m1 m2 : Op A) f : stays m1 f -> stays m2 f -> stays (if b then m1 else m2) f.
Proof. by destruct b. Qed.
Lemma stays_for_each {A} (l : list A) body f : (forall x f1, stays (body x) f1) -> stays (for_each l body) f.
Proof.
  intros Hb. revert f. induction l as [|x l IH]; intros f; [by apply stays_refl|]. cbn [for_each].
  by apply stays_bind.
Qed.

Create HintDb stays.
#[export] Hint Resolve stays_fail stays_bind stays_read stays_if stays_for_each : stays.
#[export] Hint Extern 1 (stays (op_return _) _) => (apply stays_refl; reflexivity) : stays.
#[export] Hint Extern 1 (stays (op_fail _) _) => (apply stays_refl; reflexivity) : stays.
#[export] Hint Extern 1 (stays (op_modify _) _) => (apply stays_modify; split; reflexivity) : stays.

Section calm.
Context (env : Env).

Lemma stays_append t p f : stays (append_locked env t p) f.
Proof. intros _. unfold append_locked. destruct (Store_append _ _ _ _) as [st s]. by destruct (negb _). Qed.
Lemma stays_compact f : stays (compact_if_needed env) f.
Proof.
  intros _. unfold compact_if_needed. repeat (case_match; [done|]). by destruct (Store_write_snapshot _ _ _).
Qed.
Lemma stays_fence r s f : stays (fence_attempts env r s) f.
Proof. intros Ha. unfold fence_attempts, op_read. rewrite Ha. by split. Qed.
Hint Resolve stays_append stays_compact stays_fence : stays.

Lemma stays_policy p f : stays (apply_policy env p) f.
Proof. unfold apply_policy. auto 14 with stays. Qed.
Lemma stays_obligations o f : stays (apply_obligations env o) f.
Proof. unfold apply_obligations. auto 14 with stays. Qed.
Lemma stays_set s f : stays (apply_alternate_set env s) f.
Proof.
  unfold apply_alternate_set. cbv zeta. apply stays_if; [by apply stays_refl|]. apply stays_read.
  destruct (fb_sets f !! set_id s); auto 14 with stays.
Qed.
Lemma stays_evidence e f : stays (apply_evidence e) f.
Proof.
  unfold apply_evidence. cbv zeta. apply stays_if; [auto with stays|]. apply stays_read.
  destruct (fb_evidence f !! ev_path e); auto 14 with stays.
Qed.
Lemma stays_authority a f : stays (set_authority env a) f.
Proof. unfold set_authority. apply stays_read. cbv zeta. auto 20 with stays. Qed.
Hint Resolve stays_policy stays_obligations stays_set stays_evidence stays_authority : stays.

Lemma stays_prepare s n i f : stays (prepare env s n i) f.
Proof. unfold prepare. cbv zeta. auto 20 with stays. Qed.
End calm.

(** ** The arguments are within their types *)

Lemma next_generation_wf g : Id_wf (next_generation g).
Proof. unfold Id_wf. cbn. apply wrap_u64_range. Qed.

Lemma host_policy_fits g : Id_wf g -> policy_fits (host_policy g).
Proof. intros Hg. unfold policy_fits. cbn. split; [exact Hg|]. unfold default_search_limit. unfold_ints. lia. Qed.
Lemma host_obligations_fit g : Id_wf g -> obligations_fit (host_obligations g).
Proof. intros Hg. unfold obligations_fit. cbn. split; [exact Hg|]. unfold_ints. lia. Qed.

Lemma i64_of_wrapped z : is_i64 (i64_of_u64 (wrap_u64 z)).
Proof. apply i64_of_u64_range, wrap_u64_range. Qed.

Lemma host_candidate_fits a i : authority_wf a -> candidate_fits (host_candidate a i).
Proof.
  intros Ha. pose proof (wrap_u64_range (1000 + i)). pose proof (wrap_u32_range i).
  assert (He : evidence_wf (cand_evidence (host_candidate a i))).
  { unfold evidence_wf. cbn. repeat (split; [first [done|apply i64_of_wrapped|exact Ha|unfold_ints; lia]|]). done. }
  split; [done|]. split; [done|]. by split.
Qed.

Lemma host_candidates_fit a incumbent n : authority_wf a -> Forall candidate_fits (host_candidates a incumbent n).
Proof.
  intros Ha. apply List.Forall_forall. intros c Hc. unfold host_candidates in Hc. apply List.filter_In in Hc as [Hc _].
  apply list_elem_of_In, list_elem_of_fmap in Hc as (i & -> & _). by apply host_candidate_fits.
Qed.

Lemma host_effect_wf a p offset n :
  authority_wf a -> Id_wf p -> is_u64 n -> effect_wf (host_effect a p offset n).
Proof.
  intros Ha Hp Hn. unfold effect_wf, host_effect. cbn. pose proof (wrap_u64_range (Id_value p + offset)). by split.
Qed.

Lemma Tracked_authority f : Tracked f -> authority_wf (Fabric_authority f).
Proof. intros [d HT]. by eapply Tracks_authority. Qed.

Lemma trun_prepare env s n i f : Tracked f -> Id_wf s -> trun (prepare env s n i) f.
Proof.
  intros HT Hs. unfold prepare. apply trun_read. cbv zeta.
  assert (H0 : forall T, Id_wf (@Id_absent T)) by (intros; apply Id_wf_absent).
  apply trun_bind.
  { apply trun_set_authority; [exact HT|]. unfold authority_wf. cbn. auto 10 using next_generation_wf. }
  intros _ f1 HT1. apply trun_bind; [apply trun_apply_policy; [exact HT1|apply host_policy_fits, next_generation_wf]|].
  intros _ f2 HT2. apply trun_bind; [apply trun_apply_obligations; [exact HT2|apply host_obligations_fit, next_generation_wf]|].
  intros _ f3 HT3. apply trun_read. apply trun_bind.
  { apply trun_apply_alternate_set; [exact HT3|]. split; [exact Hs|]. split.
    - cbn. destruct (Fabric_alternate_set s f3); [apply next_generation_wf|]. unfold Id_wf. cbn. unfold_ints. lia.
    - apply host_candidates_fit. by apply Tracked_authority. }
  intros _ f4 HT4. apply trun_bind; [|intros _ f5 HT5; by apply trun_return].
  apply trun_for_each; [exact HT4|]. intros c f5. apply trun_apply_evidence.
Qed.

(** ** A completion *)

Lemma record_effect_commits env id e f f' :
  Tracked f -> record_effect env id e f = (Ok tt, f') ->
  exists r r', fb_attempts f !! id = Some r /\ fb_attempts f' !! id = Some r' /\
    at_state r' = AttemptState_committed /\ at_selected r' = at_selected r.
Proof.
  intros HT H. unfold record_effect, op_read in H. cbv beta in H. unfold find_attempt in H.
  destruct (fb_attempts f !! id) as [r|] eqn:Hr; [|done]. exists r. cbv zeta in H.
  repeat match type of H with (if ?b then _ else _) _ = _ => destruct b; [discriminate H|] end.
  destruct (Tracked_known f id r HT Hr) as (Hwf & Hid & _). pose proof HT as [d HTd].
  unfold commit_effect, op_read in H. cbv beta zeta in H. set (r' := ended _ _ _ r) in H.
  apply set_Ok, bind_Ok in H as ([] & f1 & H1 & H). cbv beta in H.
  apply (refile_tracks env id r r' false f f1 d HTd Hr Hid) in H1 as (d1 & HT1 & Hr1 & _);
    [|apply ended_wf; [exact Hwf|apply (Tracks_last f d HTd)]].
  apply bind_Ok in H as ([] & f2 & H2 & H). cbv beta in H. apply set_Ok in H.
  set (x := lineage_of _ _ _ _ _ _ _ f1) in H2.
  assert (Hv : view f2 = view f1) by (pose proof (lineage_keep env x f1) as Hk; by rewrite H2 in Hk).
  exists r'. split; [done|]. split; [|by split].
  match type of H with compact_if_needed env ?y = _ => pose proof (compact_keep env y) as Hc; rewrite H in Hc end.
  cbn [snd] in Hc. change (v_attempts (view f') !! id = Some r'). rewrite Hc.
  change (v_attempts (view f2) !! id = Some r'). by rewrite Hv.
Qed.

(** ** The next process *)

(** Whatever the process that opens the files next is like, and wherever in its
    next append the one before was killed, it finds this. *)
Definition after_death (f : Fabric) (found : Fabric -> Prop) : Prop :=
  exists d, forall tail env options draws g, tail = [] \/ torn_write d tail ->
    Fabric_open env options healthy_open healthy_load (platform_entropy draws)
      (Some (journal_of_store (fb_store f) ++ tail)) (s_snapshot_file (fb_store f)) = Ok g -> found g.

(** An attempt that had not ended is interrupted, one that had is unchanged, and
    nobody owns the transition. *)
Lemma found_after_death f :
  Tracked f -> after_death f (fun g => fb_active_attempt g = Id_absent /\
    forall id r, fb_attempts f !! id = Some r ->
      exists r', fb_attempts g !! id = Some r' /\
        if is_terminal_state (at_state r) then r' = r
        else same_scope r r' /\ at_state r' = AttemptState_interrupted).
Proof.
  intros [d HT]. exists d. intros tail env options draws g Htail Ho.
  destruct (rep_disk _ _ (ig_files _ _ _ _ _ _ _ _ HT)) as (base & first & old & new & HH).
  destruct (load_disk true (journal_of_store (fb_store f)) tail
    (Some (journal_of_store (fb_store f) ++ tail)) (s_snapshot_file (fb_store f)) d)
    as (s0 & s & Hopen & Hload & _); [done| |exact Htail|].
  { exists base, first, old, new. destruct HH. by constructor. }
  apply Fabric_open_inv in Ho as (s0' & s' & state & Hopen' & Hload' & Hs).
  rewrite Hopen in Hopen'. injection Hopen' as <-. rewrite Hload in Hload'. injection Hload' as <- <-.
  destruct (start_run env (platform_entropy draws) _ (loaded_keyed options s d)) as [Hrun Hdone].
  unfold vrun in Hrun. rewrite Hs in Hrun, Hdone. cbn [fst snd Result_ok] in Hrun, Hdone.
  destruct (Hdone eq_refl) as (Hend & Hact & _ & _). apply restart_attempts in Hrun as [_ Hi].
  split; [exact Hact|]. intros id r Hr.
  pose proof (lookup_weaken _ _ _ _ Hr (rc_attempts _ _ (Tracks_recovers f d options s HT))) as Hl.
  change (v_attempts (view (Fabric_loaded options s d)) !! id = Some r) in Hl.
  destruct (Hi id) as [He|(r0 & r' & Hr0 & Hnt & Hr' & Hsc & Hst)].
  - exists r. rewrite Hl in He. split; [exact He|]. by rewrite (Hend id r He).
  - rewrite Hl in Hr0. injection Hr0 as <-. exists r'. split; [exact Hr'|]. by rewrite Hnt.
Qed.

(** ** The directory *)

(** The files hold a state, possibly behind a torn record, whose attempt counter
    covers its attempts and has identities left.  An empty directory is one. *)
Definition sound (journal snapshot : option (list byte)) : Prop :=
  exists d m intact tail, default [] journal = intact ++ tail /\ (tail = [] \/ torn_write d tail) /\
    DiskHolds (Some intact) snapshot d /\ tables_wf d /\ basis_consistent d /\
    filed m /\ ds_attempts d = values m /\
    (forall id, is_Some (m !! id) -> Id_value id <= ds_attempt_sequence d) /\
    ds_attempt_sequence d < UINT64_MAX - 1.

Lemma empty_sound journal : default [] journal = [] -> sound journal None.
Proof.
  intros Hj. exists DurableState_default, ∅, [], []. split; [exact Hj|]. split; [by left|].
  split; [exact empty_disk|]. split; [exact tables_wf_default|]. split; [by split|].
  split; [intros ? ? H; by apply lookup_empty_Some in H|]. split; [done|].
  split; [intros id [r H]; by apply lookup_empty_Some in H|]. by vm_compute.
Qed.

(** A restart hands out no identity. *)
Lemma restart_last v v' : fresh v -> steps allowed_restart v v' -> v_last_attempt v' = v_last_attempt v.
Proof.
  intros Hf Hs. induction Hs as [|v v1 v' (l & Hl & Ht) _ IH]; [done|].
  destruct (trans_settled _ _ _ Ht Hf) as [Hf1 _]. rewrite (IH Hf1).
  destruct Ht; try done. cbn. specialize (Hf id H). lia.
Qed.

(** Opening a sound directory gives a coordinator that tracks its files, with no
    attempt in flight and identities left. *)
Lemma open_sound env options entropy journal snapshot f :
  sound journal snapshot -> is_u64 (en_boot entropy) -> is_u64 (fo_max_retained_attempts options) ->
  Fabric_open env options healthy_open healthy_load entropy journal snapshot = Ok f ->
  Tracked f /\ active_ids f = [] /\ ds_attempt_sequence (fb_state f) < UINT64_MAX - 1.
Proof.
  intros (d & m & intact & tail & Hj & Ht & HH & Hwf & Hb & Hm & Hdm & Hseq & Hleft) Hboot Hopt Ho.
  assert (Hlim : 0 < fo_max_retained_attempts options <= max_attempts).
  { unfold Fabric_open in Ho. destruct (_ || _) eqn:Hr in Ho; [done|].
    apply orb_false_elim in Hr as [Hr1%Z.eqb_neq Hr2%Z.ltb_ge]. unfold is_u64 in Hopt. lia. }
  destruct (load_disk true intact tail journal snapshot d Hj HH Ht) as (s0 & s & Hop & Hl & Hrep & _).
  apply Fabric_open_inv in Ho as (s0' & s' & state & Hop' & Hl' & Hs).
  rewrite Hop in Hop'. injection Hop' as <-. rewrite Hl in Hl'. injection Hl' as <- <-.
  set (f0 := Fabric_loaded options s d) in *.
  assert (Hloaded : fb_attempts f0 = m).
  { unfold f0, Fabric_loaded. cbn [fb_attempts]. rewrite Hdm. by apply loaded_attempts. }
  assert (HT0 : Tracked f0).
  { exists d. constructor; [exact Hrep|exact Hwf|exact Hb|by constructor|apply Hwf|reflexivity|reflexivity| |exact Hlim|].
    - exists m. split; [exact Hdm|]. rewrite Hloaded. split; [by apply covers_refl|exact Hseq].
    - split; apply Id_wf_absent. }
  split; [by eapply trun_start|].
  destruct (start_run env entropy f0 (loaded_keyed options s d)) as [Hrun Hdone].
  unfold vrun in Hrun. rewrite Hs in Hrun, Hdone. cbn [fst snd Result_ok] in Hrun, Hdone.
  destruct (Hdone eq_refl) as (Hend & _). split.
  - unfold active_ids. rewrite List_filter_none; [done|].
    intros [id r] Hin. apply attempt_entries_lookup, Hend in Hin. cbn. by destruct (at_state r).
  - change (v_last_attempt (view f) < UINT64_MAX - 1). rewrite (restart_last (view f0) (view f)); [exact Hleft| |exact Hrun].
    intros id. change (is_Some (fb_attempts f0 !! id) -> Id_value id <= ds_attempt_sequence d). rewrite Hloaded. apply Hseq.
Qed.

(** ** The scenario *)

Definition attempt_is (state : AttemptState) (id : AttemptId) (path : PathId) (g : Fabric) : Prop :=
  exists r, fb_attempts g !! id = Some r /\ at_state r = state /\ at_selected r = path.

(** What the next process finds of a scenario that ended at a stage. *)
Definition leaves (crash : string) (stage : Stage) (f : Fabric) : Prop :=
  match stage with
  | St_granted id path =>
      crash = "after-grant"%string /\
      after_death f (fun g => attempt_is AttemptState_interrupted id path g /\ fb_active_attempt g = Id_absent)
  | St_effected id path =>
      (crash = "after-effect"%string \/ crash = "before-ack"%string) /\
      after_death f (attempt_is AttemptState_committed id path)
  | St_promoted id path => after_death f (attempt_is AttemptState_committed id path)
  | St_unprepared _ | St_failed _ | St_refused _ | St_effect_failed _ _ _ => True
  end.

Lemma found_attempt f id r :
  Tracked f -> fb_attempts f !! id = Some r ->
  after_death f (fun g => fb_active_attempt g = Id_absent /\
    attempt_is (if is_terminal_state (at_state r) then at_state r else AttemptState_interrupted)
      id (at_selected r) g).
Proof.
  intros HT Hr. destruct (found_after_death f HT) as [d Hd]. exists d. intros tail env options draws g Ht Ho.
  destruct (Hd tail env options draws g Ht Ho) as [Ha Hg]. split; [exact Ha|].
  destruct (Hg id r Hr) as (r' & Hr' & Hc). exists r'. split; [exact Hr'|].
  destruct (is_terminal_state (at_state r)); [by rewrite Hc|]. by destruct Hc as [(_ & _ & -> & _) ->].
Qed.

Lemma after_death_weaken f (P Q : Fabric -> Prop) : (forall g, P g -> Q g) -> after_death f P -> after_death f Q.
Proof. intros HPQ [d Hd]. exists d. eauto. Qed.

Lemma committed_found f id r :
  Tracked f -> fb_attempts f !! id = Some r -> at_state r = AttemptState_committed ->
  after_death f (attempt_is AttemptState_committed id (at_selected r)).
Proof.
  intros HT Hr Hst. eapply after_death_weaken; [|exact (found_attempt f id r HT Hr)].
  intros g [_ Hg]. by rewrite Hst in Hg.
Qed.

Lemma promote_leaves env crash s n i f stage f' :
  Tracked f -> active_ids f = [] -> ds_attempt_sequence (fb_state f) < UINT64_MAX - 1 -> Id_wf s -> Id_wf i ->
  promote env crash s n i f = (stage, f') -> leaves crash stage f'.
Proof.
  intros HT Ha Hq Hs Hi H. unfold promote in H.
  pose proof (trun_prepare env s n i f HT Hs) as Hprep. pose proof (stays_prepare env s n i f Ha) as [_ Hcalm].
  unfold trun in Hprep. destruct (prepare env s n i f) as [[pr|st] f1]; [|by injection H as <- _].
  specialize (Hprep pr f1 eq_refl). cbn [snd] in Hcalm. rewrite <- Hcalm in Hq.
  assert (Hleft : ids_left f1).
  { destruct Hprep as [d HTd]. destruct (Tracks_counters f1 d HTd) as ([Hlo _] & _). by split. }
  pose proof (trun_begin_promotion env i IncumbentCondition_failed s f1 Hprep Hleft Hi Hs) as Hbegin.
  unfold trun in Hbegin. destruct (begin_promotion env i IncumbentCondition_failed s f1) as [[a|st] f2] eqn:Hb;
    [|by injection H as <- _].
  specialize (Hbegin a f2 eq_refl). destruct (pa_authorized a) eqn:Hau; cbn [negb] in H; [|by injection H as <- _].
  destruct (begin_promotion_result env i IncumbentCondition_failed s f1 a f2 Hb Hau Hleft)
    as (_ & _ & _ & _ & _ & _ & r & Hr & Hst & Hsel & _).
  destruct (String.eqb_spec crash "after-grant") as [->|_].
  { injection H as <- <-. split; [done|]. eapply after_death_weaken; [|exact (found_attempt f2 _ r Hbegin Hr)].
    intros g [Hact Hg]. rewrite Hst, Hsel in Hg. by split. }
  set (e := host_effect _ _ _ _) in H.
  pose proof (trun_record_effect env (gr_attempt (pa_grant a)) e f2 Hbegin) as Heff. unfold trun in Heff.
  destruct (record_effect env _ e f2) as [[[]|st] f3] eqn:He; [|by injection H as <- _].
  specialize (Heff tt f3 eq_refl).
  destruct (record_effect_commits env _ e f2 f3 Hbegin He) as (r0 & r3 & Hr0 & Hr3 & Hst3 & Hsel3).
  rewrite Hr in Hr0. injection Hr0 as <-.
  pose proof (committed_found f3 _ r3 Heff Hr3 Hst3) as Hf. rewrite Hsel3, Hsel in Hf.
  destruct (String.eqb_spec crash "after-effect") as [->|_]; cbn [orb] in H.
  { injection H as <- <-. split; [by left|exact Hf]. }
  destruct (String.eqb_spec crash "before-ack") as [->|_]; injection H as <- <-; [|exact Hf].
  split; [by right|exact Hf].
Qed.

(** C18: A promotion killed half way is found as far as it got.  Run [pff_host
    promote] over a sound directory, one whose attempt counter covers its attempts,
    such as an empty one (a promotion carried through does not leave one behind:
    [second_promotion_reuses_identity]), with any crash stage and any number of paths, on any storage behaviour:
    it exits as one of its stages prescribes.  If it was killed after its grant,
    the next process to open the directory, wherever the last append was cut,
    finds the attempt it announced interrupted and the transition free; if it was
    killed after the effect, before anything was acknowledged, or announced the
    promotion, the next process finds the attempt committed on the path it
    announced. *)
Theorem scenario_recovers argv io directory exit f :
  command argv = Some "promote"%string -> arg_value argv "--dir" = Some directory ->
  sound (ho_files io directory).1 (ho_files io directory).2 ->
  ho_open io = healthy_open -> ho_load io = healthy_load -> draws_wf (ho_draws io) ->
  host_main argv io = (exit, Some f) ->
  exists stage, exit = promote_exit stage /\ leaves (arg_or argv "--crash" "none") stage f.
Proof.
  intros Hcmd Hdir Hsound Ho Hl (B1 & B2 & _) H. unfold host_main in H. rewrite Hcmd, Hdir, Ho, Hl in H.
  destruct (ho_files io directory) as [journal snapshot]. cbn [fst snd] in *.
  destruct (Fabric_open _ _ _ _ _ _ _) as [f0|st] eqn:Hop; [|done].
  pose proof (random_u64_range (dw_boot1 (ho_draws io)) (dw_boot2 (ho_draws io)) (dw_boot_micros (ho_draws io))
    (dw_process_id (ho_draws io)) B1 B2) as Hboot.
  assert (Hb : is_u64 (en_boot (platform_entropy (ho_draws io)))) by (unfold is_u64; cbn; lia).
  assert (Hr : is_u64 (fo_max_retained_attempts (fabric_options argv directory))) by (vm_compute; split; congruence).
  destruct (open_sound _ _ _ _ _ _ Hsound Hb Hr Hop) as (HT & Ha & Hq).
  change (String.eqb "promote" "try-open") with false in H. cbv iota in H.
  destruct (host_command argv "promote" (ho_env io) f0) as [exit1 f1] eqn:Hc. injection H as <- <-.
  change (host_command argv "promote" (ho_env io) f0) with
    (let (stage, g) := promote (ho_env io) (arg_or argv "--crash" "none") (Id_from_value (arg_u64 argv "--set" 1))
       (arg_u64 argv "--paths" 4) (Id_from_value (arg_u64 argv "--incumbent" 1)) f0 in (promote_exit stage, g)) in Hc.
  destruct (promote _ _ _ _ _ f0) as [stage g] eqn:Hp. injection Hc as <- <-. exists stage. split; [done|].
  refine (promote_leaves _ _ _ _ _ _ _ _ HT Ha Hq _ _ Hp); apply arg_u64_range; by vm_compute.
Qed.

(** A worker on a healthy machine, killed between the effect and its announcement. *)
Definition worker_io (journal snapshot : option (list Byte.byte)) : HostIo :=
  mkHostIo healthy_env healthy_open healthy_load (mkDraws 1 2 3 4 5 6 7 8) (fun _ => (journal, snapshot)).
Definition killed_argv : list string :=
  ["pff_host"; "--dir"; "state"; "promote"; "--set"; "5"; "--crash"; "after-effect"]%string.
Definition killed_run : Exit * option Fabric := host_main killed_argv (worker_io None None).
Definition killed_fabric : Fabric := match killed_run.2 with Some f => f | None => ready_fabric end.

Lemma ended_pair (r : Exit * option Fabric) :
  match r.2 with Some _ => true | None => false end = true ->
  r = (r.1, Some (match r.2 with Some f => f | None => ready_fabric end)).
Proof. by destruct r as [e [x|]]. Qed.

Lemma scenario_recovers_witness :
  killed_run.1 = mkExit 9 ["GRANTED attempt=1 selected=00000000000003e8"%string] [] /\
  exists stage, killed_run.1 = promote_exit stage /\ leaves "after-effect" stage killed_fabric.
Proof.
  split; [by vm_compute|].
  refine (scenario_recovers killed_argv (worker_io None None) "state" killed_run.1 killed_fabric
    eq_refl eq_refl (empty_sound None eq_refl) eq_refl eq_refl _ _).
  - vm_compute. repeat split; congruence.
  - unfold killed_fabric, killed_run. apply ended_pair. by vm_compute.
Defined.

(** After a promotion has been carried through, the directory is not sound: a
    second worker is granted the same attempt identity and overwrites the record
    of the first. *)
Example second_promotion_reuses_identity :
  let first := host_main ["pff_host"; "--dir"; "state"; "promote"]%string (worker_io None None) in
  let files := match first.2 with
               | Some f => (s_journal_file (fb_store f), s_snapshot_file (fb_store f)) | None => (None, None) end in
  let second := host_main ["pff_host"; "--dir"; "state"; "promote"; "--incumbent"; "1000"]%string
                  (worker_io files.1 files.2) in
  last (ex_out first.1) = Some "PROMOTED attempt=1 selected=00000000000003e8"%string /\
  last (ex_out second.1) = Some "PROMOTED attempt=1 selected=00000000000003e9"%string /\
  (length (Fabric_attempts (default ready_fabric second.2)) = 1)%nat.
Proof. vm_compute. by repeat split. Qed.
