(* ===== verification/Quickstart.v ===== *)
(** * The quickstart example ([examples/quickstart.cpp])

    The example that ships with the library, as a function of what the platform
    does to the fresh directory it works in; evaluating it checks the model of
    the public operations against the behaviour the example is there to show. *)

From S2P Require Import Prelude.
From S2P Require Import Ids.
From S2P Require Import Limits.
From S2P Require Import Status.
From S2P Require Import Authority.
From S2P Require Import Model.
From S2P Require Import Decision.
From S2P Require Import Records.
From S2P Require Import Bytes.
From S2P Require Import Store.
From S2P Require Import Fabric.
From S2P Require Import Platform.
From S2P Require Import Args.
From S2P Require Import Tools.

Local Open Scope string_scope.

Definition example_assessment (a : CandidateAssessment) : string :=
  line ["    path "; show_id (as_path a); " rank="; decimal (as_upstream_rank a);
        " score="; decimal (st_total (as_terms a)); " -> "; CandidateVerdict_to_string (as_verdict a);
        " ("; Reason_to_string (as_reason a); ", authority "; AuthorityClass_to_string (as_authority a); ")"].

Definition example_decision (d : PromotionDecision) : list string :=
  ([line ["  outcome       : "; PromotionOutcome_to_string (dec_outcome d)];
    line ["  authority kind: "; AuthorityKind_to_string (dec_authority_kind d)];
    line ["  reason        : "; Reason_to_string (dec_reason d)];
    line ["  selected      : "; if Id_valid (dec_selected d) then show_id (dec_selected d) else "(none)"];
    line ["  examined      : "; decimal (dec_examined d); " of "; decimal (dec_supplied d); " supplied"];
    line ["  evidence      : "; Provenance_to_string (dec_provenance d)]]
   ++ (example_assessment <$> dec_ranked d))%list.

Definition make_candidate (path : PathId) (rank : Z) (authority : AuthorityVector) (health : Z)
    (eligibility : Eligibility) : AlternateCandidate :=
  mkAlternateCandidate path rank false
    (mkPathEvidence (Id_from_value (Id_value path)) path Freshness_fresh eligibility
       Reachability_reachable CapacityClass_sufficient 3 health 100 1 authority Provenance_synthetic)
    authority.

(** A value obtained, or the end of the program with a failing exit. *)
Definition obtain {A} (r : Result A * Fabric) (out : list string) (k : A -> Fabric -> Exit * Fabric)
    : Exit * Fabric :=
  match r with (Ok x, f) => k x f | (Err _, f) => (mkExit 1 out [], f) end.

(** The decision of an evaluation, printed when there is one. *)
Definition shown (r : Result PromotionDecision) : list string :=
  match r with Ok d => example_decision d | Err _ => [] end.

Section example.
Context (env : Env).

(** [for (...) static_cast<void>(fabric.apply_evidence(...))]. *)
Definition observe (candidates : list AlternateCandidate) (f : Fabric) : Fabric :=
  foldl (fun f c => (apply_evidence (cand_evidence c) f).2) f candidates.

Definition example_policy : FailoverPolicy :=
  FailoverPolicy_default <| pol_generation := Id_from_value 1 |> <| pol_w_health := 4 |>
    <| pol_w_cost := 1 |> <| pol_w_rank := 1 |>.
Definition example_obligations : ServiceObligations :=
  ServiceObligations_default <| ob_generation := Id_from_value 1 |>
    <| ob_required_capabilities := 3 |> <| ob_min_health_ppm := 500000 |>
    <| ob_max_cost_units := 5000000 |>.

Definition example_incumbent : PathId := Id_from_value 1.
Definition example_set : AlternateSetId := Id_from_value 7.
Definition unknown_set : AlternateSetId := Id_from_value 8.

Definition example_candidates (authority : AuthorityVector) : list AlternateCandidate :=
  [make_candidate (Id_from_value 400) 3 authority 990000 Eligibility_eligible;
   make_candidate (Id_from_value 200) 0 authority 800000 Eligibility_eligible;
   make_candidate (Id_from_value 300) 1 authority 990000 Eligibility_eligible].

Definition unknown_candidates (authority : AuthorityVector) : list AlternateCandidate :=
  [make_candidate (Id_from_value 500) 0 authority 999000 Eligibility_unknown;
   make_candidate (Id_from_value 600) 1 authority 900000 Eligibility_eligible].

(** Sections 1 to 4: an authorized promotion, completed by its effect. *)
Definition promote_example (out : list string) (k : list string -> Fabric -> Exit * Fabric) (f : Fabric)
    : Exit * Fabric :=
  obtain (set_authority env (AuthorityVector_default <| av_topology := Id_from_value 1 |>
            <| av_path_authority := Id_from_value 1 |>) f) out (fun _ f =>
  obtain (apply_policy env example_policy f) out (fun _ f =>
  obtain (apply_obligations env example_obligations f) out (fun _ f =>
  let candidates := example_candidates (Fabric_authority f) in
  obtain (apply_alternate_set env
            (mkAlternateSet example_set (Id_from_value 1) SetCompleteness_complete candidates) f) out (fun _ f =>
  let f := observe candidates f in
  let out := (out ++ [""; "1. recommendation only (authorises nothing):"])%list in
  obtain (Fabric_evaluate example_incumbent IncumbentCondition_failed example_set f) out (fun d f =>
  let out := (out ++ example_decision d ++ [""; "2. positive authority for exactly one transition:"])%list in
  match begin_promotion env example_incumbent IncumbentCondition_failed example_set f with
  | (Err status, f) => (mkExit 1 ((out ++ [line ["  error: "; describe status]])%list) [], f)
  | (Ok a, f) =>
      if negb (pa_authorized a) then
        (mkExit 1 ((out ++ [line ["  no positive authority: ";
                                 PromotionOutcome_to_string (dec_outcome (pa_decision a))]])%list) [], f)
      else
        let grant := pa_grant a in
        let effect := EffectEvidence_default <| eff_id := Id_from_value 9001 |>
          <| eff_path := gr_path grant |> <| eff_observation_seq := 2 |> <| eff_effect_verified := true |>
          <| eff_observed_under := Fabric_authority f |> in
        let (committed, f) := record_effect env (gr_attempt grant) effect f in
        k ((out ++ [line ["  grant "; show_id (gr_id grant); " -> path "; show_id (gr_path grant);
                         " (attempt "; show_number (gr_attempt grant); ")"];
                   ""; "3. only a verified effect completes the transition:";
                   line ["  record_effect: "; describe (Result_status committed)];
                   ""; "4. durable lineage:"]
                ++ ((fun e => line ["  seq="; decimal (le_sequence e);
                                    " outcome="; PromotionOutcome_to_string (le_outcome e);
                                    " attempt="; show_number (le_attempt e);
                                    " selected="; show_id (le_selected e)])
                    <$> Fabric_lineage 8 f))%list) f
  end))))).

(** Sections 5 to 7: a member whose eligibility is not established, the policy
    that skips it, and the fence of the member that remains. *)
Definition unknown_example (out : list string) (f : Fabric) : Exit * Fabric :=
  let evaluate := Fabric_evaluate example_incumbent IncumbentCondition_failed unknown_set in
  let set generation candidates :=
    mkAlternateSet unknown_set (Id_from_value generation) SetCompleteness_complete candidates in
  let f := (apply_alternate_set env (set 1 (unknown_candidates (Fabric_authority f))) f).2 in
  let (unknown, f) := evaluate f in
  let f := (apply_policy env (example_policy <| pol_generation := Id_from_value 2 |>
              <| pol_allow_unknown_skip := true |>) f).2 in
  let resupplied := unknown_candidates (Fabric_authority f) in
  let f := (apply_alternate_set env (set 2 resupplied) f).2 in
  let f := observe resupplied f in
  let (skipped, f) := evaluate f in
  let f := (fence_path env (Id_from_value 600) Reason_path_fenced f).2 in
  let (fenced, f) := evaluate f in
  (mkExit 0
     ((out ++ [""; "5. an alternate whose eligibility cannot be established:"] ++ shown unknown
       ++ [""; "6. the same set with an explicitly configured skip policy:"] ++ shown skipped
       ++ [""; "7. after fencing the remaining eligible member:"] ++ shown fenced)%list) [], f).
End example.

(** The program, over the empty directory it starts from. *)
Definition quickstart_main (env : Env) (open_io : OpenIo) (load_io : LoadIo) (draws : Draws)
    : Exit * option Fabric :=
  match Fabric_open env (FabricOptions_default "pff-quickstart-state") open_io load_io
          (platform_entropy draws) None None with
  | Err status => (mkExit 1 [line ["cannot open runtime: "; describe status]] [], None)
  | Ok f =>
      let out := [line ["runtime epoch="; show_number (fi_epoch (fb_identity f));
                        " boot="; show_id (fi_boot (fb_identity f))]] in
      let (exit, f) := promote_example env out (unknown_example env) f in (exit, Some f)
  end.

(** ** What it prints *)

Definition quickstart_run : Exit * option Fabric :=
  quickstart_main healthy_env healthy_open healthy_load (mkDraws 1 2 3 4 5 6 7 8).

(** On a healthy platform it ends well: the first set is promoted to path 300,
    the ordering and the refusals are those its comments announce. *)
Example quickstart_prints :
  ex_code quickstart_run.1 = 0 /\
  filter (fun s => String.prefix "  outcome" s) (ex_out quickstart_run.1) =
    ["  outcome       : AUTHORIZED"; "  outcome       : INDETERMINATE_UNKNOWN_MEMBER";
     "  outcome       : AUTHORIZED"; "  outcome       : INDETERMINATE_UNKNOWN_MEMBER"].
Proof. vm_compute. split; reflexivity. Qed.
