(* ===== verification/ServerFindings.v ===== *)
(** * Where the service departs from its documentation

    Two behaviours of the service that its documents do not describe. *)

From S2P Require Import Prelude.
From S2P Require Import Ids.
From S2P Require Import Limits.
From S2P Require Import Status.
From S2P Require Import Authority.
From S2P Require Import Model.
From S2P Require Import Decision.
From S2P Require Import Records.
From S2P Require Import Bytes.
From S2P Require Import Canonical.
From S2P Require Import Wire.
From S2P Require Import WireProps.
From S2P Require Import Store.
From S2P Require Import StateProps.
From S2P Require Import SnapshotProps.
From S2P Require Import Fabric.
From S2P Require Import FabricProps.
From S2P Require Import FabricTheorems.
From S2P Require Import Net.
From S2P Require Import Protocol.
From S2P Require Import ProtocolProps.
From S2P Require Import Server.
From S2P Require Import ServerProps.
From S2P Require Import ServerTheorems.
From S2P Require Import Client.
From S2P Require Import ClientProps.

(** ** A session that cannot recover is kept *)

Lemma poisoned_pop env ok h sv s fuel :
  sv_threads sv !! h = Some (mkThread Ph_request_pop s) -> ~ healthy (se_decoder s) ->
  exists sv', pop_frames (S fuel) env ok h sv = (sv', []) /\ beside h sv sv' /\
    sv_fabric sv' = sv_fabric sv /\ sv_sessions sv' = sv_sessions sv /\
    sv_threads sv' !! h = Some (mkThread Ph_request_recv s).
Proof.
  intros Ht Hh. cbn [pop_frames]. rewrite Ht. cbn [is_popping th_phase].
  assert (Hf : FrameDecoder_failed (se_decoder s) = true).
  { unfold FrameDecoder_failed. unfold healthy in Hh. by destruct (Status_ok _). }
  assert (Hs : serve_step env h (mkInput (Ok []) ok) sv = (put_thread h Ph_request_recv s sv, [])).
  { unfold serve_step. rewrite Ht. unfold thread_step. cbn [th_phase th_session in_sent].
    unfold pop_step. rewrite Hf. unfold pop_end. by rewrite bool_decide_eq_false_2. }
  destruct (put_counted h Ph_request_recv s sv sv) as (Hb & Hfab & Hl); [by split|].
  rewrite Hs, (pop_frames_recv fuel env ok h _ _ Hl eq_refl). by eexists.
Qed.

Lemma poisoned_received env ok h sv s data :
  sv_threads sv !! h = Some (mkThread Ph_request_recv s) -> ~ healthy (se_decoder s) -> data <> [] ->
  exists sv', serve_received env ok h (Ok data) sv = (sv', []) /\ beside h sv sv' /\
    sv_fabric sv' = sv_fabric sv /\ sv_sessions sv' = sv_sessions sv /\
    sv_threads sv' !! h = Some (mkThread Ph_request_recv s).
Proof.
  intros Ht Hh Hne. unfold serve_received, serve_step. rewrite Ht. unfold thread_step.
  cbn [th_phase th_session in_received]. unfold recv_step. rewrite bool_decide_eq_false_2 by done.
  rewrite (feed_failed _ _ Hh). rewrite bool_decide_eq_false_2 by done.
  assert (Hsame : s <| se_decoder := se_decoder s |> = s) by (by destruct s). rewrite Hsame.
  set (sv1 := if Status_ok _ then _ else _).
  assert (Hc : counted sv sv1).
  { unfold sv1. destruct (Status_ok _); (split; [|reflexivity]); [apply quiet_stat|].
    eapply quiet_trans; apply quiet_stat. }
  destruct (put_counted h Ph_request_pop s _ _ Hc) as (Hb & Hf & Hl).
  destruct (poisoned_pop env ok h _ s (buffered h (put_thread h Ph_request_pop s sv1)) Hl Hh)
    as (sv2 & -> & Hb2 & Hf2 & Hs2 & Hl2).
  exists sv2. split; [done|]. split; [by eapply beside_trans|].
  split; [by rewrite Hf2|]. split; [|exact Hl2]. rewrite Hs2.
  destruct Hc as [(_ & _ & Hs & _) _]. exact Hs.
Qed.

(** A malformed frame does not end an established session.  Once the decoder
    of a session past its handshake has failed, nothing the client sends is ever
    answered or acted on, yet the session is not closed either: however much
    arrives, its thread goes back to receiving and its place in the bounded
    session table stays taken, until the client closes the connection. *)
Theorem poisoned_session_lingers env ok h s sv chunks :
  waiting h s sv -> FrameDecoder_failed (se_decoder s) = true -> [] ∉ chunks ->
  exists sv', serve_session env ok h (Ok <$> chunks) sv = (sv', []) /\
    sv_fabric sv' = sv_fabric sv /\ sv_sessions sv' = sv_sessions sv /\ waiting h s sv'.
Proof.
  intros Hw Hf. assert (Hh : ~ healthy (se_decoder s)).
  { unfold FrameDecoder_failed in Hf. unfold healthy. by destruct (Status_ok _). }
  revert sv Hw. induction chunks as [|data chunks IH]; intros sv Hw Hne.
  { exists sv. by rewrite (serve_session_blocked _ _ _ _ _ Hw). }
  apply not_elem_of_cons in Hne as [Hd Hne]. cbn [fmap list_fmap].
  rewrite (serve_session_recv _ _ _ _ _ _ _ _ _ loop_request Hw). destruct Hw as [Ht Hst].
  destruct (poisoned_received env ok h sv s data Ht Hh) as (sv1 & -> & Hb & Hf1 & Hs1 & Hl1);
    [by intros ->|].
  destruct (IH sv1) as (sv2 & -> & Hf2 & Hs2 & Hw2).
  - split; [exact Hl1|]. destruct Hb as (_ & Hb & _). congruence.
  - exact Hne.
  - exists sv2. split; [done|]. split; [congruence|]. split; [congruence|exact Hw2].
Qed.

(** A session whose client sent a frame with the wrong magic. *)
Definition poisoned_session : Session :=
  sample_session <| se_decoder := (FrameDecoder_pop (FrameDecoder_feed (replicate 28 x00)
    (FrameDecoder_new max_frame_payload)).2).2 |>.
Definition poisoned_server : Server :=
  put_thread 0 Ph_request_recv poisoned_session (sample_server <| sv_sessions := [0%nat] |>).

Lemma poisoned_session_lingers_witness :
  exists sv', serve_session healthy_env (Sending_returned ok_status) 0 (Ok <$> [sample_request; sample_request])
      poisoned_server = (sv', []) /\
    sv_fabric sv' = sv_fabric poisoned_server /\ sv_sessions sv' = sv_sessions poisoned_server /\
    waiting 0 poisoned_session sv'.
Proof.
  apply (poisoned_session_lingers healthy_env (Sending_returned ok_status) 0 poisoned_session poisoned_server).
  - split; reflexivity.
  - vm_compute. reflexivity.
  - intros H. apply elem_of_cons in H as [H|H]; [vm_compute in H; discriminate H|].
    apply list_elem_of_singleton in H. vm_compute in H. discriminate H.
Defined.

(** ** A client that goes away ends the service *)

(** The client greets and closes its end before the answer is sent.  The send
    raises [SIGPIPE], for which the program neither sets [MSG_NOSIGNAL] nor changes
    the disposition: the coordinator process is gone, although nobody told it to
    stop. *)
Definition vanishing_client : list Move :=
  accepting 0 ++ [MvServe 0 (receives sample_hello); MvServe 0 (mkInput (Ok []) Sending_killed)].

Example vanished_client_kills_service :
  match run_moves vanishing_client sample_server with
  | Some (_, sv) => sv_killed sv && negb (sv_stop sv)
  | None => false
  end = true.
Proof. vm_compute. reflexivity. Qed.

(** ** The bound is on the table, not on the threads *)

(** A session leaves the table before its thread is no longer counted, so with
    room for one session there can be two session threads. *)
Definition cramped_server : Server :=
  sample_server <| sv_options := mkServerOptions [] 0 1 default_max_requests_per_session true |>.

Example threads_exceed_sessions :
  match run_moves (accepting 0 ++ [MvServe 0 (receives []); MvLeave 0] ++ accepting 1) cramped_server with
  | Some (_, sv) => bool_decide (sv_sessions sv = [1%nat] /\ size (sv_threads sv) = 2%nat /\ sv_active_threads sv = 2)
  | None => false
  end = true.
Proof. vm_compute. reflexivity. Qed.

(** ** The basis of a promotion request is not consulted *)

(** The request with another claimed basis. *)
Definition rebased (b : AuthorityVector) (set_generation : Generation) (q : PromotionRequest)
    : PromotionRequest :=
  mkPromotionRequest (req_incumbent q) (req_condition q) (req_set q) set_generation
    (av_policy b) (av_obligations b) (av_topology b) (av_path_authority b) (av_epoch b) (av_boot b)
    (req_attempt q).

Lemma rebased_basis b g q : PromotionRequest_basis (rebased b g q) = b.
Proof. by destruct b. Qed.

Lemma body_get q reader :
  request_wf q -> At reader (encode_request_body q) ->
  exists r, decode_request_body reader = (Ok q, r) /\ r_at_end r = true.
Proof.
  intros Hq HA. rewrite (body_encodes (decode := decode_request_body) q Hq) in HA.
  rewrite <- (app_nil_r (enc_request q)) in HA.
  pose proof (body_decodes (encode := encode_request_body) (decode := decode_request_body)) as [Hr _].
  destruct (Hr reader q [] HA Hq) as (r & -> & HA1). exists r. split; [done|].
  by apply (At_at_end _ _ HA1).
Qed.

(** The service ignores the basis a promotion request claims.  A request names
    the generations, epoch and boot it was made under, but the service answers and
    acts on it exactly as on the same request under any other basis: a request
    made under authority that is long stale is evaluated and granted under the
    authority now in force. *)
Theorem promotion_basis_ignored env sv type q b g reader reader' f :
  type = MsgType_promote_req \/ type = MsgType_evaluate_req ->
  request_wf q -> authority_wf b -> Id_wf g ->
  At reader (encode_request_body q) -> At reader' (encode_request_body (rebased b g q)) ->
  dispatch_request env sv type reader' f = dispatch_request env sv type reader f.
Proof.
  intros Ht Hq Hb Hg HA HA'.
  assert (Hq' : request_wf (rebased b g q)).
  { unfold request_wf, authority_wf in *. destruct_and!. by repeat (split; [done|]). }
  destruct (body_get q reader Hq HA) as (r & Hd & He).
  destruct (body_get _ reader' Hq' HA') as (r' & Hd' & He').
  destruct Ht as [-> | ->]; cbn [dispatch_request]; unfold with_body; by rewrite Hd, Hd', He, He'.
Qed.

Definition sample_promotion : PromotionRequest :=
  rebased live_vector (Id_from_value 1)
    (mkPromotionRequest (Id_from_value 100) IncumbentCondition_failed (Id_from_value 1) Id_absent
       Id_absent Id_absent Id_absent Id_absent Id_absent Id_absent Id_absent).

(** A promotion requested under no authority at all is granted. *)
Lemma promotion_basis_ignored_witness :
  let stale := rebased AuthorityVector_default Id_absent sample_promotion in
  dispatch_request healthy_env sample_server MsgType_promote_req
    (ByteReader_new (encode_request_body stale)) ready_fabric =
  dispatch_request healthy_env sample_server MsgType_promote_req
    (ByteReader_new (encode_request_body sample_promotion)) ready_fabric.
Proof.
  apply (promotion_basis_ignored healthy_env sample_server MsgType_promote_req sample_promotion
    AuthorityVector_default Id_absent).
  - left. reflexivity.
  - repeat split; vm_compute; congruence.
  - repeat split; vm_compute; congruence.
  - vm_compute. split; congruence.
  - apply At_new.
  - apply At_new.
Defined.
